(* ===== verification/_CoqProject ===== *)
-Q . S2P
Prelude.v
Buffer.v
Os.v
SocketsIO.v
State.v
Users.v
Tokens.v
Pop3Sniffer.v
Selector.v
SelectorSpec.v
Stm.v
MgmtProtocol.v
LexerCode.v
LexerPass.v
LexerTrns.v
Lexer.v
Regex.v
LexerRules.v
LexerCheck.v
LexerSpec.v
MgmtInput.v
World.v
Util.v
TcpServer.v
WorldLogic.v
Mgmt.v
CloseClient.v
Handshake.v
HandshakeSpec.v
RequestSpec.v
Clients.v
RelaySpec.v
Lifecycle.v
MgmtSpec.v
MgmtAccept.v
CLib.v
Args.v
ArgsSpec.v
Logger.v
Netutils.v
Proxy.v
ProxySpec.v
Admin.v
AdminSpec.v
AdminReplies.v
EndToEnd.v
