(* ===== verification/Prelude.v ===== *)
(** * socks5d: a verification library

    socks5d is a SOCKS5 proxy with a management port, written in C around one
    [select] loop. This library models the server in Rocq and proves what its
    parts promise. Definitions keep the names of the source; paths below are
    relative to the repository.

    ** The program

    - The selector (src/selector.c) keeps a table of registered descriptors,
      their interests and callbacks, and dispatches readiness events to them.
    - The state-machine engine (src/stm.c) turns the events of a SOCKS
      connection into transitions of a table of states (src/clients.c):
      method selection, authentication, request, name resolution (in a
      thread), connecting, relaying, draining and release.
    - The handlers of the negotiation are in src/handshake.c, those of the other
      states, the closing of connections and the acceptance of new ones in
      src/clients.c. They read and write through two buffers per connection
      (src/buffer.c, src/socketsIO.c). A sniffer (src/pop3_sniffer.c) looks for
      POP3 credentials in the relayed bytes.
    - Management connections (src/mgmt.c) read into an input buffer
      (src/mgmt_protocol.c) that a scanner generated by re2c from
      lexer/mgmt_protocol.re (src/mgmt_protocol.re.c) cuts into requests; they
      change the users (src/users.c), the settings and counters (src/state.c)
      and check tokens (src/tokens.c).
    - main (src/proxy.c) reads the command line (src/args.c), opens the passive
      sockets (src/tcpServerUtil.c), registers them and runs the selector.
    - A separate program (client/src) sends one management request per option
      of its command line and prints the answers.

    ** How it is modelled

    A C routine is a computation that returns, or faults: [outcome] and the
    state monad [M] are below, with [wp], the statement that a computation
    returns and leaves a given postcondition, and its rules. A fault is
    [Abort] (a failed [assert] or [abort]), [Undefined] (an access outside an
    object, to a freed one or through a null pointer) or [Diverge] (fuel
    exhausted), so a theorem that a routine is [Done] is also a theorem of
    memory safety and of termination. Memory areas are lists of bytes with
    checked accesses; machine integers are [Z] with their wrap-around.

    - Prelude: this file.
    - Buffer: struct buffer and its routines; the abstract queue it refines.
    - Os: the system calls, which are not code of the repository: a class [OS]
      over an arbitrary kernel state, [OSLaws] with the documented behaviour the
      theorems rely on, the trace of calls in which streams are stated, and a
      scripted kernel that satisfies the laws, for the witnesses.
    - SocketsIO, State, Users, Tokens, Pop3Sniffer: the files of the same name.
    - Selector: src/selector.c; SelectorSpec: the map from descriptors to
      registrations that the table and the two descriptor sets implement.
    - Stm: src/stm.c; the machine is reached through the state of the program,
      since a callback may free it.
    - MgmtProtocol: the Input struct, initState and fillBuffer.
    - LexerCode: the instructions the blocks of the generated scanner are made
      of; LexerPass and LexerTrns: those blocks, one definition per label;
      Lexer: parseMgmtRequest. Regex: regular expressions and derivatives;
      LexerRules: the rules of the grammar; LexerCheck: a computed check that
      the blocks and the derivatives of the rules agree byte by byte;
      LexerSpec: what that check means. MgmtInput: the buffer between calls of
      the scanner.
    - World: the structs of connections and the state of the whole process,
      with a heap of connection structs in which a freed one is absent.
      WorldLogic: the rules of [wp] for it, and [progress], the frame of the
      theorems on handlers: which connection changed, which descriptors were
      unregistered, which events happened; [runs] states the operations on the
      registrations, in order, where they matter.
    - Util: src/util.c, with the two access log lines. TcpServer:
      src/tcpServerUtil.c, over the further calls of the class [NetOS].
    - CloseClient: closeClient and enable_write of src/clients.c, and the
      sequence of steps ([act]) that they are shown to perform.
    - Handshake: src/handshake.c; HandshakeSpec and RequestSpec: its theorems.
    - Clients: the rest of src/clients.c; RelaySpec: the relay; Lifecycle: new
      connections and the negotiation through the state machine.
    - Mgmt: src/mgmt.c; MgmtSpec: the management protocol; MgmtAccept: the
      acceptance of management connections.
    - CLib: what the program uses of the C library's conversions (strtol,
      strtoull), searches (strstr, strtok) and of getopt and getopt_long.
    - Args: src/args.c, in [Prog], the computations that may call exit;
      ArgsSpec: what a command line means. Logger: src/logger.c. Netutils:
      src/netutils.c.
    - Proxy: src/proxy.c, from the start of main to the loop, and the signal
      set-up of the selector, over the class [ProcOS]; ProxySpec: the start-up.
    - Admin: the client (client/src/conf.c, mgmt_client.c, mgmt_client_util.c);
      its state [console] has the static response_buf and the standard output.
      AdminSpec: the requests it writes; AdminReplies: the answers it reads;
      EndToEnd: both programs together.

    ** What the theorems show

    - Scanner: the generated code implements its grammar, however the input is
      cut (LexerSpec); filling its buffer keeps the scan, except when a request
      is cut inside its argument (MgmtInput).
    - Relay: along every interleaving of reads and writes both streams are
      carried unchanged; each handler returns on every outcome of its system
      call, with its effect on buffers, ends and counters (RelaySpec).
    - Management: the loop terminates and performs requests in order as the
      specification [perform] says; before a token is presented nothing can be
      changed (MgmtSpec); a new connection is counted, greeted and registered on
      every answer of the kernel, or dropped and counted out (MgmtAccept).
    - Negotiation: each handler waits for its message, consumes exactly it, and
      follows the server's policy, on every input and with any result of its
      allocations (HandshakeSpec, RequestSpec, which states exactly when the
      request faults); through the machine, a connection starts consistent, stays
      so, performs the arrival of each state it enters, and, when there are users,
      reaches the request only by an event that accepted the name and password
      of one of them (Lifecycle).
    - Closing: the requested and the useless ends are closed by exactly the
      shutdowns, interest changes, unregistrations and closes they call for, in
      order, and the recursion ends (CloseClient).
    - Client and server: each request the client writes, with an argument the
      grammar has a rule for, is read by the server as that command and argument,
      the query of the dissector apart (AdminSpec); a token of visible characters
      is accepted, the statistics and the users (whose names are not empty and do
      not start with a dot) printed, exactly as the server has them, through the
      code of both programs and however the network cuts the answer (EndToEnd).
    - Start-up: every command line gives the settings of its options or the exit
      of its first error (ArgsSpec); passive sockets are opened without leaks
      (TcpServer); and the process ends with the status of what stopped it or
      reaches the loop with every socket that was set up registered, those of the
      management exactly when there is a token (ProxySpec).
    - Blocking transfers end; what they send is a prefix of what they were given,
      all of it when the kernel takes some bytes of each offer (Netutils).
    - Data structures: the buffer refines a bounded queue, the selector a map,
      users and tokens accept exactly what was added, the counters are the
      clients admitted less those removed and keep the descriptor budget while no
      client is removed twice, the sniffer stays inside its arrays and finds
      credentials (Buffer, SelectorSpec, Users, Tokens, State, Pop3Sniffer).
    - Defects, each for every input of its kind: requests that make the server
      read through a null pointer (RequestSpec), connections that lock every
      client out (MgmtAccept), credentials the sniffer misses (Pop3Sniffer), a
      registration that leaves the selector's table (SelectorSpec), a request of
      the client that the server always rejects and tokens that can never be
      presented (EndToEnd). Examples show an argument that is misplaced
      (MgmtInput), a failed read hidden by the copy (Netutils) and answers the
      client loses (AdminReplies).

    ** Fuel

    - closeClient: three levels, which CloseClient proves enough for every
      combination of ends.
    - The scanner: three jumps per byte of input and three more; LexerSpec
      proves that a run within it ends in a result.
    - processMgmtClient: one iteration per byte of unread input and one more;
      a request consumes a byte at least (MgmtSpec).
    - The sniffer: one step per byte of the buffer. Decimal printing: twenty
      digits, enough for 64 bits.
    - Blocking writes: one round per byte and one more. The blocking copy takes
      its fuel as an argument, and Netutils proves that one more than the chunks
      the source still has is enough.
    - The client: a round of reading moves the pointer into the array of 512
      bytes, and a line of an answer is at least a byte of it; AdminReplies
      proves that every answer in the theorems is read and printed within that.
    - main: the iterations of the loop are an argument.

    ** What is not modelled

    The texts for the standard error (the report of bad descriptors apart), the
    debug messages of the handlers
    (access lines are events of the trace), the single calls of free for the
    areas a connection owns, which its struct contains here,
    src/tcpClientUtil.c, which nothing calls, and
    client/include/response_parsing.h, which declares functions that do not
    exist. The resolver thread is a step of its own that may happen at
    any time after it was started.

    ** Plan

    Next: the states after the request (resolving, connecting, draining) through
    the machine, and an invariant of the event loop over all connections, with
    the resolver thread; the handlers of management connections around
    processMgmtClient; the client's remaining commands end to end. *)

From Stdlib Require Export ZArith Lia.
From Stdlib Require Strings.Byte.
From stdpp Require Export base numbers list gmap.

From Stdlib Require Strings.String.
Export Strings.String.StringSyntax.

Set Default Proof Using "Type".

(** ** Faults and outcomes

    A C routine either returns, or stops the process through [abort] or a
    failed [assert] ([Abort]), or leaves the defined behaviour of the language:
    an access outside an object, to a freed object or through a null pointer
    ([Undefined]). [Diverge] marks a loop whose fuel ran out: no theorem admits
    it as a result. *)

Inductive fault := Abort | Undefined | Diverge.

Inductive outcome (A : Type) :=
| Done (a : A)
| Fault (f : fault).
Arguments Done {A} _.
Arguments Fault {A} _.

#[global] Instance outcome_ret : MRet outcome := fun A a => Done a.
#[global] Instance outcome_bind : MBind outcome := fun A B k o =>
  match o with Done a => k a | Fault f => Fault f end.

Definition of_option {A} (f : fault) (o : option A) : outcome A :=
  match o with Some a => Done a | None => Fault f end.

(** [assert(b)] of the C library, with assertions enabled as the Makefile
    builds the program. *)
Definition c_assert (b : bool) : outcome unit :=
  if b then Done tt else Fault Abort.

(** ** Stateful computations *)

Definition M (S A : Type) : Type := S -> outcome (A * S).

#[global] Instance M_ret S : MRet (M S) := fun A a s => Done (a, s).
#[global] Instance M_bind S : MBind (M S) := fun A B k m s =>
  match m s with Done (a, s') => k a s' | Fault f => Fault f end.

Definition gets {S A} (f : S -> A) : M S A := fun s => Done (f s, s).
Definition modify {S} (f : S -> S) : M S unit := fun s => Done (tt, f s).
Definition mfault {S A} (f : fault) : M S A := fun _ => Fault f.
Definition lift {S A} (o : outcome A) : M S A := fun s =>
  match o with Done a => Done (a, s) | Fault f => Fault f end.
Definition massert {S} (b : bool) : M S unit := lift (c_assert b).
Definition when {S} (b : bool) (m : M S unit) : M S unit :=
  if b then m else mret tt.

(** [wp m Q s]: from [s] the computation [m] returns (it neither aborts, leaves
    the defined behaviour nor runs out of fuel), and [Q] holds of its result and
    of the state it leaves. *)
Definition wp {S A} (m : M S A) (Q : A -> S -> Prop) (s : S) : Prop :=
  match m s with Done (a, s') => Q a s' | Fault _ => False end.

(** The same, where the computation may also fault, with a fault in [F]. *)
Definition wpf {S A} (m : M S A) (Q : A -> S -> Prop) (F : fault -> Prop) (s : S) : Prop :=
  match m s with Done (a, s') => Q a s' | Fault f => F f end.

(** ** Bytes, machine integers and C strings *)

Abbreviation byte := Byte.byte.

#[global] Instance byte_eq_dec : EqDecision byte := Byte.byte_eq_dec.

(** The value of an [unsigned char], and the conversion of an integer to it. *)
Definition Zb (b : byte) : Z := Z.of_N (Byte.to_N b).
Definition byte_of (z : Z) : byte :=
  default Byte.x00 (Byte.of_N (Z.to_N (z mod 256))).

(** Conversion to an unsigned integer of [w] bits, and to a signed one. *)
Definition wrap (w z : Z) : Z := z mod 2 ^ w.
Definition swrap (w z : Z) : Z := (z + 2 ^ (w - 1)) mod 2 ^ w - 2 ^ (w - 1).
Abbreviation u16 := (wrap 16).
Abbreviation u32 := (wrap 32).
Abbreviation u64 := (wrap 64).
Abbreviation i32 := (swrap 32).

(** Complement of a 32-bit unsigned integer. *)
Definition not32 (z : Z) : Z := Z.land (Z.lnot z) (Z.ones 32).

(** [hasFlag(x, f)] of clients.c. *)
Definition flag (x f : Z) : bool := negb (Z.land x f =? 0)%Z.

(** String literals as bytes. *)
Definition lit (s : String.string) : list byte := String.list_byte_of_string s.
Arguments lit s%_string_scope : simpl never.

Definition CR : byte := Byte.x0d.
Definition LF : byte := Byte.x0a.
Definition NUL : byte := Byte.x00.
Definition CRLF : list byte := [CR; LF].

(** The C string stored at the head of a memory area: the bytes before the
    first NUL. *)
Fixpoint cstr (l : list byte) : list byte :=
  match l with
  | [] => []
  | c :: l' => if decide (c = NUL) then [] else c :: cstr l'
  end.

(** [strcmp(a, b) == 0]. *)
Definition streq (a b : list byte) : bool := bool_decide (cstr a = cstr b).

(** [strcpy] of a string into an array of [n] chars: the terminator must fit. *)
Definition strcpy (n : nat) (s : list byte) : outcome (list byte) :=
  if decide (length (cstr s) < n) then Done (cstr s) else Fault Undefined.

(** [isprint] and [tolower] in the C locale. *)
Definition isprint (c : byte) : bool := ((32 <=? Zb c) && (Zb c <=? 126))%Z.
Definition tolower (c : byte) : byte :=
  if ((65 <=? Zb c) && (Zb c <=? 90))%Z then byte_of (Zb c + 32) else c.

(** Decimal rendering, as [%d] and [%lu] print a non-negative number. The fuel
    bounds the number of digits. *)
Fixpoint digits_aux (fuel : nat) (n : Z) (acc : list byte) : list byte :=
  match fuel with
  | O => acc
  | S fuel' =>
      let acc' := byte_of (48 + n mod 10) :: acc in
      if (n <? 10)%Z then acc' else digits_aux fuel' (n / 10) acc'
  end.
Definition dec (n : Z) : list byte := digits_aux 20 n [].

(** ** Memory areas: [memcpy] into and out of an area

    Both are undefined when the range leaves the area. *)

Definition mem_read (m : list byte) (off len : nat) : outcome (list byte) :=
  if decide (off + len <= length m) then Done (take len (drop off m))
  else Fault Undefined.

Definition mem_get (m : list byte) (off : nat) : outcome byte :=
  of_option Undefined (m !! off).

Definition mem_write (m : list byte) (off : nat) (src : list byte) : outcome (list byte) :=
  if decide (off + length src <= length m)
  then Done (take off m ++ src ++ drop (off + length src) m)
  else Fault Undefined.

(** ** Automation *)

Create HintDb socks.

(** Case analysis on the guards of a definition, with the boolean tests turned
    into the propositions they decide. *)
Ltac tests :=
  repeat match goal with
  | H : negb _ = true |- _ => apply negb_true_iff in H
  | H : negb _ = false |- _ => apply negb_false_iff in H
  | H : (_ && _) = true |- _ => apply andb_true_iff in H as [? ?]
  | H : (_ || _) = false |- _ => apply orb_false_iff in H as [? ?]
  | H : (_ <? _)%nat = true |- _ => apply Nat.ltb_lt in H
  | H : (_ <? _)%nat = false |- _ => apply Nat.ltb_ge in H
  | H : (_ <=? _)%nat = true |- _ => apply Nat.leb_le in H
  | H : (_ <=? _)%nat = false |- _ => apply Nat.leb_gt in H
  | H : (_ =? _)%nat = true |- _ => apply Nat.eqb_eq in H
  | H : (_ =? _)%nat = false |- _ => apply Nat.eqb_neq in H
  | H : (_ <? _)%Z = true |- _ => apply Z.ltb_lt in H
  | H : (_ <? _)%Z = false |- _ => apply Z.ltb_ge in H
  | H : (_ <=? _)%Z = true |- _ => apply Z.leb_le in H
  | H : (_ <=? _)%Z = false |- _ => apply Z.leb_gt in H
  | H : (_ =? _)%Z = true |- _ => apply Z.eqb_eq in H
  | H : (_ =? _)%Z = false |- _ => apply Z.eqb_neq in H
  | H : bool_decide _ = true |- _ => apply bool_decide_eq_true in H
  | H : bool_decide _ = false |- _ => apply bool_decide_eq_false in H
  end.

(** Split on every guard of the goal. *)
Ltac guards :=
  repeat (case_match; tests; simplify_eq/=).

(** ** Rules for [wp] *)

Section Wp.
Context {S : Type}.
Implicit Types (s : S).

Lemma wp_ret {A} (a : A) (Q : A -> S -> Prop) s : Q a s -> wp (mret a) Q s.
Proof. done. Qed.

Lemma wp_bind {A B} (m : M S A) (k : A -> M S B) Q s :
  wp m (fun a s' => wp (k a) Q s') s -> wp (m ≫= k) Q s.
Proof. unfold wp, mbind, M_bind. by destruct (m s) as [[a s']|]. Qed.

Lemma wp_mono {A} (m : M S A) (P Q : A -> S -> Prop) s :
  wp m P s -> (forall a s', P a s' -> Q a s') -> wp m Q s.
Proof. unfold wp. destruct (m s) as [[a s']|]; auto. Qed.

Lemma wp_lift {A} (o : outcome A) a (Q : A -> S -> Prop) s : o = Done a -> Q a s -> wp (lift o) Q s.
Proof. by intros ->. Qed.

Lemma wp_gets {A} (f : S -> A) (Q : A -> S -> Prop) s : Q (f s) s -> wp (gets f) Q s.
Proof. done. Qed.

Lemma wp_modify (f : S -> S) (Q : unit -> S -> Prop) s : Q tt (f s) -> wp (modify f) Q s.
Proof. done. Qed.

Lemma wp_massert (b : bool) (Q : unit -> S -> Prop) s : b = true -> Q tt s -> wp (massert b) Q s.
Proof. by intros ->. Qed.

Lemma wp_when (b : bool) (m : M S unit) (Q : unit -> S -> Prop) s :
  (b = true -> wp m Q s) -> (b = false -> Q tt s) -> wp (when b m) Q s.
Proof. destruct b; intros Ht Hf; [by apply Ht | by apply Hf]. Qed.

Lemma wpf_bind {A B} (m : M S A) (k : A -> M S B) Q F s :
  wp m (fun a s' => wpf (k a) Q F s') s -> wpf (m ≫= k) Q F s.
Proof. unfold wp, wpf, mbind, M_bind. by destruct (m s) as [[a s']|]. Qed.

Lemma wpf_bind_f {A B} (m : M S A) (k : A -> M S B) Q F s :
  wpf m (fun a s' => wpf (k a) Q F s') F s -> wpf (m ≫= k) Q F s.
Proof. unfold wpf, mbind, M_bind. by destruct (m s) as [[a s']|]. Qed.

Lemma wpf_wp {A} (m : M S A) (Q : A -> S -> Prop) F s : wp m Q s -> wpf m Q F s.
Proof. unfold wp, wpf. by destruct (m s) as [[a s']|]. Qed.

Lemma wp_wpf {A} (m : M S A) (Q : A -> S -> Prop) s : wpf m Q (fun _ => False) s -> wp m Q s.
Proof. done. Qed.

Lemma wpf_fault {A} (f : fault) (Q : A -> S -> Prop) (F : fault -> Prop) s :
  F f -> wpf (mfault f) Q F s.
Proof. done. Qed.

Lemma wpf_lift_fault {A B} (o : outcome A) (k : A -> M S B) f Q (F : fault -> Prop) s :
  o = Fault f -> F f -> wpf (lift o ≫= k) Q F s.
Proof. by intros ->. Qed.

(** From a known result, and to one. *)
Lemma wp_Done {A} (m : M S A) a s s' (Q : A -> S -> Prop) : m s = Done (a, s') -> Q a s' -> wp m Q s.
Proof. unfold wp. by intros ->. Qed.

Lemma wp_inv {A} (m : M S A) (Q : A -> S -> Prop) s :
  wp m Q s -> exists a s', m s = Done (a, s') /\ Q a s'.
Proof. unfold wp. destruct (m s) as [[a s']|]; eauto; done. Qed.
End Wp.

(** Unfolding of a bind whose first computation is known. *)
Lemma bind_Done {S A B} (m : M S A) (k : A -> M S B) s a s' :
  m s = Done (a, s') -> (m ≫= k) s = k a s'.
Proof. intros E. unfold mbind, M_bind. by rewrite E. Qed.

Lemma bind_lift {S A B} (o : outcome A) (k : A -> M S B) s a :
  o = Done a -> (lift o ≫= k) s = k a s.
Proof. intros ->. reflexivity. Qed.

Lemma outcome_bind_Done {A B} (o : outcome A) (k : A -> outcome B) b :
  o ≫= k = Done b -> exists a, o = Done a /\ k a = Done b.
Proof. destruct o; simpl; naive_solver. Qed.

(** ** Bytes *)

Lemma Zb_range b : (0 <= Zb b < 256)%Z.
Proof. unfold Zb. pose proof (Byte.to_N_bounded b). lia. Qed.
#[export] Hint Resolve Zb_range : socks.

Lemma byte_of_Zb b : byte_of (Zb b) = b.
Proof.
  unfold byte_of. rewrite Z.mod_small by apply Zb_range.
  unfold Zb. rewrite N2Z.id, Byte.of_to_N. reflexivity.
Qed.

Lemma Zb_byte_of z : (0 <= z < 256)%Z -> Zb (byte_of z) = z.
Proof.
  intros Hz. unfold byte_of, Zb. rewrite Z.mod_small by lia.
  destruct (Byte.of_N (Z.to_N z)) as [b|] eqn:E; simpl.
  - apply Byte.to_of_N in E. lia.
  - apply Byte.of_N_None_iff in E. lia.
Qed.

Lemma Zb_inj a b : Zb a = Zb b -> a = b.
Proof. intros H. by rewrite <- (byte_of_Zb a), H, byte_of_Zb. Qed.

(** Every byte, for checks by enumeration. *)
Definition all_bytes : list byte := map (fun n => byte_of (Z.of_nat n)) (seq 0 256).

Lemma all_bytes_spec b : In b all_bytes.
Proof.
  unfold all_bytes. apply in_map_iff. exists (Z.to_nat (Zb b)).
  pose proof (Zb_range b). rewrite Z2Nat.id by lia.
  split; [apply byte_of_Zb | apply in_seq; lia].
Qed.

(** A boolean property of bytes holds of all of them when it holds of the 256. *)
Lemma forall_bytes (P : byte -> bool) : forallb P all_bytes = true -> forall b, P b = true.
Proof. intros H b. rewrite forallb_forall in H. apply H, all_bytes_spec. Qed.

(** ** C strings *)

Lemma cstr_app_NUL s t : Forall (fun c => c <> NUL) s -> cstr (s ++ NUL :: t) = s.
Proof.
  induction 1 as [|c s Hc _ IH]; simpl; [done|].
  by rewrite decide_False, IH by done.
Qed.

Lemma cstr_id s : Forall (fun c => c <> NUL) s -> cstr s = s.
Proof. induction 1 as [|c s Hc _ IH]; simpl; [done|]. by rewrite decide_False, IH. Qed.

Lemma cstr_no_NUL s : Forall (fun c => c <> NUL) (cstr s).
Proof. induction s as [|c s IH]; simpl; [constructor|]. case_decide; by constructor. Qed.

Lemma cstr_idem s : cstr (cstr s) = cstr s.
Proof. apply cstr_id, cstr_no_NUL. Qed.

Lemma cstr_length s : length (cstr s) <= length s.
Proof. induction s as [|c s IH]; simpl; [done|]. case_decide; simpl; lia. Qed.

(** ** Memory areas *)

Lemma mem_read_Done m off len :
  off + len <= length m -> mem_read m off len = Done (take len (drop off m)).
Proof. intros H. unfold mem_read. by rewrite decide_True. Qed.

Lemma mem_write_Done m off src :
  off + length src <= length m ->
  mem_write m off src = Done (take off m ++ src ++ drop (off + length src) m).
Proof. intros H. unfold mem_write. by rewrite decide_True. Qed.

Lemma mem_write_length m off src m' :
  mem_write m off src = Done m' -> length m' = length m.
Proof.
  unfold mem_write. case_decide; intros; simplify_eq.
  rewrite !length_app, length_take, length_drop. lia.
Qed.

Lemma mem_write_inv m off src m' :
  mem_write m off src = Done m' ->
  off + length src <= length m /\ m' = take off m ++ src ++ drop (off + length src) m.
Proof. unfold mem_write. case_decide; [by intros [= <-] | done]. Qed.

Lemma mem_write_fits m off src :
  off + length src <= length m ->
  exists m', mem_write m off src = Done m' /\ length m' = length m.
Proof.
  intros H. eexists. split; [by apply mem_write_Done|].
  eapply mem_write_length. by apply mem_write_Done.
Qed.

(** Reading back a window that ends where the written bytes end. *)
Lemma take_drop_splice {A} (m src : list A) r w :
  r <= w -> w + length src <= length m ->
  take (w + length src - r) (drop r (take w m ++ src ++ drop (w + length src) m))
  = take (w - r) (drop r m) ++ src.
Proof.
  intros Hr Hw.
  rewrite drop_app_le by (rewrite length_take; lia).
  rewrite app_assoc, take_app_le by (rewrite length_app, length_drop, length_take; lia).
  rewrite take_ge by (rewrite length_app, length_drop, length_take; lia).
  rewrite take_drop_commute. by replace (r + (w - r)) with w by lia.
Qed.

(** ** Components of a larger state *)

Record lens (S T : Type) := Lens { lget : S -> T; lput : T -> S -> S }.
Arguments Lens {S T} _ _.
Arguments lget {S T} _ _.
Arguments lput {S T} _ _ _.

Class LensLaws {S T} (l : lens S T) : Prop := {
  lget_lput s t : lget l (lput l t s) = t;
  lput_lget s : lput l (lget l s) s = s;
  lput_lput s t t' : lput l t (lput l t' s) = lput l t s
}.

(** A computation on a component, run in the whole state. *)
Definition zoom {S T A} (l : lens S T) (m : M T A) : M S A := fun s =>
  match m (lget l s) with
  | Done (a, t) => Done (a, lput l t s)
  | Fault f => Fault f
  end.

Lemma zoom_Done {S T A} (l : lens S T) (m : M T A) s a t :
  m (lget l s) = Done (a, t) -> zoom l m s = Done (a, lput l t s).
Proof. intros E. unfold zoom. by rewrite E. Qed.

Lemma wp_zoom {S T A} (l : lens S T) (m : M T A) (Q : A -> S -> Prop) s :
  wp m (fun a t => Q a (lput l t s)) (lget l s) -> wp (zoom l m) Q s.
Proof. unfold wp, zoom. by destruct (m (lget l s)) as [[a t]|]. Qed.

(** Normalise the equations of the two monads. *)
Ltac monads :=
  repeat match goal with
  | H : mret _ = Done _ |- _ => injection H as H; try subst
  | H : mret _ _ = Done _ |- _ => injection H as H; try subst
  | H : Done _ = Done _ |- _ => injection H as H; try subst
  | H : Fault _ = Done _ |- _ => discriminate H
  | H : (_ ≫= _) = Done _ |- _ => apply outcome_bind_Done in H as (? & ? & H)
  end; simplify_eq/=.

(** Advance a goal through a computation whose first step is known by [H]. *)
Tactic Notation "mstep" constr(H) :=
  first [rewrite (bind_Done _ _ _ _ _ H) | rewrite (bind_lift _ _ _ _ H)]; cbn beta iota.

(** [strchr]: the offset of the first [c] before the terminator. *)
Fixpoint strchr (s : list byte) (c : byte) : outcome (option nat) :=
  match s with
  | [] => Fault Undefined
  | d :: s' =>
      if decide (d = c) then Done (Some 0)
      else if decide (d = NUL) then Done None
      else r ← strchr s' c; Done (option_map S r)
  end.

(** A memory area that holds the C string [s], whatever follows it. *)
Definition holds_str (m s : list byte) : Prop :=
  exists t, m = s ++ NUL :: t /\ Forall (fun c => c <> NUL) s.

Lemma holds_str_cstr m s : holds_str m s -> cstr m = s.
Proof. intros (t & -> & ?). by apply cstr_app_NUL. Qed.

Lemma strchr_absent m s c : holds_str m s -> c <> NUL -> c ∉ s -> strchr m c = Done None.
Proof.
  intros (t & -> & Hs) Hc Hin. induction Hs as [|d s Hd _ IH]; simpl.
  - by rewrite decide_False by congruence.
  - rewrite decide_False, decide_False by set_solver.
    by rewrite IH by set_solver.
Qed.

Lemma strchr_found s t c :
  Forall (fun d => d <> NUL) s -> c ∉ s -> strchr (s ++ c :: t) c = Done (Some (length s)).
Proof.
  induction 1 as [|d s Hd _ IH]; intros Hin; simpl; [by rewrite decide_True|].
  rewrite decide_False, decide_False by set_solver. by rewrite IH by set_solver.
Qed.
