(* ===== verification/Buffer.v ===== *)
(** * Buffer: src/buffer.c and include/buffer.h

    The direct-access byte buffer every connection reads and writes through.
    The struct holds four pointers into one area; here the area is the list
    [b_data] and the other three are offsets from its start. Each routine of
    buffer.c is one definition; those that contain an [assert] or access
    memory return an [outcome].

    The theorems give the buffer as a bounded FIFO queue: [contents] is the
    abstraction function, and every operation is shown to act on it as the
    queue operation does, to preserve [R <= W <= limit] and never to fault on
    a well-formed buffer. *)

From S2P Require Import Prelude.

Record buffer := Buffer {
  b_data : list byte;   (** the area [data .. limit) *)
  b_limit : nat;        (** [limit - data] *)
  b_read : nat;         (** [read - data] *)
  b_write : nat         (** [write - data] *)
}.

(** ** Operations *)

Definition buffer_reset (b : buffer) : buffer :=
  Buffer (b_data b) (b_limit b) 0 0.

(** [data] is the area the caller allocated, of [n] bytes, with whatever
    contents it has. *)
Definition buffer_init (n : nat) (data : list byte) : buffer :=
  Buffer data n 0 0.

Definition buffer_can_write (b : buffer) : bool := b_write b <? b_limit b.

(** Returns the number of bytes that can be written and where. *)
Definition buffer_write_ptr (b : buffer) : outcome (nat * nat) :=
  c_assert (b_write b <=? b_limit b);;
  mret (b_limit b - b_write b, b_write b).

Definition buffer_can_read (b : buffer) : bool := b_read b <? b_write b.

Definition buffer_read_ptr (b : buffer) : outcome (nat * nat) :=
  c_assert (b_read b <=? b_write b);;
  mret (b_write b - b_read b, b_read b).

Definition buffer_compact (b : buffer) : outcome buffer :=
  if (0 =? b_read b)%nat then mret b
  else if (b_read b =? b_write b)%nat then mret (Buffer (b_data b) (b_limit b) 0 0)
  else
    let n := b_write b - b_read b in
    src ← mem_read (b_data b) (b_read b) n;
    d ← mem_write (b_data b) 0 src;
    mret (Buffer d (b_limit b) 0 n).

Definition buffer_write_adv (b : buffer) (bytes : Z) : outcome buffer :=
  if (-1 <? bytes)%Z then
    let w := b_write b + Z.to_nat bytes in
    c_assert (w <=? b_limit b);;
    mret (Buffer (b_data b) (b_limit b) (b_read b) w)
  else mret b.

Definition buffer_read_adv (b : buffer) (bytes : Z) : outcome buffer :=
  if (-1 <? bytes)%Z then
    let r := b_read b + Z.to_nat bytes in
    c_assert (r <=? b_write b);;
    let b' := Buffer (b_data b) (b_limit b) r (b_write b) in
    if (r =? b_write b)%nat then buffer_compact b' else mret b'
  else mret b.

Definition buffer_read (b : buffer) : outcome (byte * buffer) :=
  if buffer_can_read b then
    ret ← mem_get (b_data b) (b_read b);
    b' ← buffer_read_adv b 1;
    mret (ret, b')
  else mret (NUL, b).

Definition buffer_write (b : buffer) (c : byte) : outcome buffer :=
  if buffer_can_write b then
    d ← mem_write (b_data b) (b_write b) [c];
    buffer_write_adv (Buffer d (b_limit b) (b_read b) (b_write b)) 1
  else mret b.

(** Storing [src] at the write pointer and advancing it, as the callers of
    [buffer_write_ptr] do with [memcpy] and [buffer_write_adv]. *)
Definition buffer_store (b : buffer) (src : list byte) : outcome buffer :=
  d ← mem_write (b_data b) (b_write b) src;
  buffer_write_adv (Buffer d (b_limit b) (b_read b) (b_write b)) (Z.of_nat (length src)).

(** ** Abstraction and invariant *)

(** The invariant buffer.h states, with the area as large as [limit] says. *)
Definition buffer_wf (b : buffer) : Prop :=
  b_read b <= b_write b /\ b_write b <= b_limit b /\ length (b_data b) = b_limit b.

(** The bytes written and not yet read, oldest first. *)
Definition contents (b : buffer) : list byte :=
  take (b_write b - b_read b) (drop (b_read b) (b_data b)).

(** Free room after the write pointer. *)
Definition room (b : buffer) : nat := b_limit b - b_write b.

(** ** Lemmas *)

Lemma contents_length b : buffer_wf b -> length (contents b) = b_write b - b_read b.
Proof. intros (? & ? & ?). unfold contents. rewrite length_take, length_drop. lia. Qed.

Lemma contents_lookup b i :
  buffer_wf b -> i < b_write b - b_read b -> contents b !! i = b_data b !! (b_read b + i).
Proof. intros _ ?. unfold contents. by rewrite lookup_take_lt, lookup_drop by lia. Qed.

Lemma can_read_contents b : buffer_wf b -> buffer_can_read b = bool_decide (contents b <> []).
Proof.
  intros Hwf. pose proof (contents_length b Hwf) as Hl. unfold buffer_can_read.
  destruct (Nat.ltb_spec (b_read b) (b_write b)); symmetry.
  - apply bool_decide_eq_true. intros E. rewrite E in Hl. simpl in Hl. lia.
  - apply bool_decide_eq_false. intros E. apply E, length_zero_iff_nil. lia.
Qed.

Lemma buffer_init_wf n data : length data = n -> buffer_wf (buffer_init n data).
Proof. unfold buffer_wf, buffer_init; simpl. lia. Qed.

Lemma buffer_init_contents n data : contents (buffer_init n data) = [].
Proof. reflexivity. Qed.

Lemma write_ptr_wf b :
  buffer_wf b -> buffer_write_ptr b = Done (room b, b_write b).
Proof.
  intros (? & ? & ?). unfold buffer_write_ptr. by rewrite (proj2 (Nat.leb_le _ _)).
Qed.

Lemma read_ptr_wf b :
  buffer_wf b -> buffer_read_ptr b = Done (length (contents b), b_read b).
Proof.
  intros Hwf. rewrite contents_length by done. destruct Hwf as (? & ? & ?).
  unfold buffer_read_ptr. by rewrite (proj2 (Nat.leb_le _ _)).
Qed.

Lemma mem_read_contents b :
  buffer_wf b -> mem_read (b_data b) (b_read b) (length (contents b)) = Done (contents b).
Proof.
  intros Hwf. rewrite contents_length by done. destruct Hwf as (? & ? & ?).
  by rewrite mem_read_Done by lia.
Qed.

(** Advancing the write pointer over bytes already stored after it. *)
Lemma buffer_store_spec b src :
  buffer_wf b -> length src <= room b ->
  exists b', buffer_store b src = Done b' /\ buffer_wf b' /\
    contents b' = contents b ++ src /\ room b' = room b - length src /\
    b_limit b' = b_limit b /\ b_read b' = b_read b.
Proof.
  intros (Hrw & Hwl & Hlen) Hroom. unfold room in Hroom. unfold buffer_store.
  rewrite mem_write_Done by lia. simpl. unfold buffer_write_adv.
  rewrite (proj2 (Z.ltb_lt _ _)) by lia. simpl.
  rewrite Nat2Z.id, (proj2 (Nat.leb_le _ _)) by lia. simpl.
  eexists. split; [reflexivity|]. unfold buffer_wf, contents, room; simpl.
  split_and!; try lia.
  - rewrite !length_app, length_take, length_drop. lia.
  - rewrite take_drop_splice by lia. done.
Qed.

(** Consuming [n] of the stored bytes. *)
Lemma buffer_read_adv_spec b n :
  buffer_wf b -> n <= length (contents b) ->
  exists b', buffer_read_adv b (Z.of_nat n) = Done b' /\ buffer_wf b' /\
    contents b' = drop n (contents b) /\ b_limit b' = b_limit b /\
    b_data b' = b_data b /\ room b <= room b'.
Proof.
  intros Hwf Hn. pose proof (contents_length b Hwf) as Hl.
  destruct Hwf as (Hrw & Hwl & Hlen). unfold buffer_read_adv.
  rewrite (proj2 (Z.ltb_lt _ _)) by lia. rewrite Nat2Z.id.
  simpl. rewrite (proj2 (Nat.leb_le _ _)) by lia. simpl.
  assert (Hd : contents (Buffer (b_data b) (b_limit b) (b_read b + n) (b_write b))
               = drop n (contents b)).
  { unfold contents; simpl. rewrite skipn_firstn_comm, drop_drop.
    f_equal; lia. }
  destruct (Nat.eqb_spec (b_read b + n) (b_write b)) as [E|E].
  - assert (Hnil : drop n (contents b) = []).
    { apply length_zero_iff_nil. rewrite length_drop. lia. }
    unfold buffer_compact; simpl. rewrite Hnil. destruct (b_read b + n) eqn:En; simpl.
    + eexists. split; [reflexivity|]. unfold buffer_wf, contents, room; simpl.
      split_and!; auto; try lia. by replace (b_write b - 0) with 0 by lia.
    + rewrite <- E, Nat.eqb_refl. eexists. split; [reflexivity|].
      unfold buffer_wf, contents, room; simpl. split_and!; auto; lia.
  - eexists. split; [reflexivity|]. rewrite Hd.
    unfold buffer_wf, room; simpl. split_and!; auto; lia.
Qed.

Lemma buffer_compact_spec b :
  buffer_wf b ->
  exists b', buffer_compact b = Done b' /\ buffer_wf b' /\
    contents b' = contents b /\ b_limit b' = b_limit b /\
    room b' = b_limit b - length (contents b).
Proof.
  intros Hwf. pose proof (contents_length b Hwf) as Hl.
  destruct Hwf as (Hrw & Hwl & Hlen). unfold buffer_compact.
  destruct (Nat.eqb_spec 0 (b_read b)) as [E|E];
    [|destruct (Nat.eqb_spec (b_read b) (b_write b)) as [E'|E']].
  - exists b. unfold buffer_wf, room. split_and!; auto; lia.
  - eexists. split; [reflexivity|]. unfold buffer_wf, contents, room; simpl.
    rewrite E', Nat.sub_diag. simpl. split_and!; auto; lia.
  - rewrite mem_read_Done by lia. simpl.
    change (take (b_write b - b_read b) (drop (b_read b) (b_data b))) with (contents b).
    rewrite mem_write_Done by lia. simpl. eexists. split; [reflexivity|].
    unfold buffer_wf, room; simpl. split_and!; try lia.
    + rewrite length_app, length_drop. lia.
    + remember (contents b) as c eqn:Ec. unfold contents; simpl.
      rewrite Nat.sub_0_r, drop_0. rewrite take_app_le by lia. by rewrite take_ge by lia.
Qed.

Lemma buffer_read_spec b :
  buffer_wf b ->
  exists b', buffer_read b = Done (default NUL (head (contents b)), b') /\ buffer_wf b' /\
    contents b' = tail (contents b) /\ b_limit b' = b_limit b /\
    b_data b' = b_data b.
Proof.
  intros Hwf. pose proof (contents_length b Hwf) as Hl. unfold buffer_read.
  unfold buffer_can_read. destruct (Nat.ltb_spec (b_read b) (b_write b)) as [H|H].
  - destruct (contents b) as [|c l] eqn:Ec; [simpl in Hl; lia|].
    pose proof (contents_lookup b 0 Hwf ltac:(lia)) as Hc.
    rewrite Ec, Nat.add_0_r in Hc. simpl in Hc.
    unfold mem_get. rewrite <- Hc. simpl.
    destruct (buffer_read_adv_spec b 1 Hwf) as (b' & E & Hwf' & Hc' & ? & ? & ?).
    { rewrite Ec. simpl. lia. }
    change (Z.of_nat 1) with 1%Z in E. rewrite E. simpl.
    exists b'. rewrite Ec in Hc'. auto.
  - assert (contents b = []) as -> by (apply length_zero_iff_nil; lia).
    simpl. exists b. split_and!; auto. apply length_zero_iff_nil. simpl in Hl. lia.
Qed.

Lemma buffer_write_spec b c :
  buffer_wf b ->
  exists b', buffer_write b c = Done b' /\ buffer_wf b' /\ b_limit b' = b_limit b /\
    b_read b' = b_read b /\
    contents b' = (if (0 <? room b)%nat then contents b ++ [c] else contents b) /\
    room b' = room b - 1.
Proof.
  intros Hwf. unfold buffer_write, buffer_can_write.
  assert (Hr : (b_write b <? b_limit b)%nat = (0 <? room b)%nat).
  { unfold room. apply Bool.eq_iff_eq_true. rewrite !Nat.ltb_lt. lia. }
  rewrite Hr. destruct (Nat.ltb_spec 0 (room b)).
  - destruct (buffer_store_spec b [c] Hwf) as (b' & E & ? & ? & ? & ? & ?); [simpl; lia|].
    change (buffer_store b [c] = Done b') in E. unfold buffer_store in E.
    change (Z.of_nat (length [c])) with 1%Z in E. rewrite E. eauto 8.
  - exists b. split_and!; auto. lia.
Qed.

(** ** The buffer as a bounded queue *)

Module Queue.

(** What buffer.h promises: a queue with [cap] places, of which [free] can be
    filled before the next compaction. *)
Record queue := Queue { q_cap : nat; q_items : list byte; q_free : nat }.

Inductive op :=
| Write (c : byte)
| Store (src : list byte)
| Read
| ReadAdv (n : nat)
| Compact
| Reset.

(** The queue's behaviour: removing the last item frees every place; storing
    more than [free] items runs over the area and removing more than the queue
    has fails the assertion. *)
Definition qstep (q : queue) (o : op) : outcome (option byte * queue) :=
  let remove n :=
    let items := drop n (q_items q) in
    Queue (q_cap q) items (if decide (items = []) then q_cap q else q_free q) in
  match o with
  | Write c =>
      mret (None, if (0 <? q_free q)%nat
                  then Queue (q_cap q) (q_items q ++ [c]) (q_free q - 1) else q)
  | Store src =>
      if decide (length src <= q_free q)
      then mret (None, Queue (q_cap q) (q_items q ++ src) (q_free q - length src))
      else Fault Undefined
  | Read =>
      mret (Some (default NUL (head (q_items q))),
            if decide (q_items q = []) then q else remove 1)
  | ReadAdv n =>
      if decide (n <= length (q_items q)) then mret (None, remove n) else Fault Abort
  | Compact => mret (None, Queue (q_cap q) (q_items q) (q_cap q - length (q_items q)))
  | Reset => mret (None, Queue (q_cap q) [] (q_cap q))
  end.

(** The same operations on the buffer. *)
Definition bstep (b : buffer) (o : op) : outcome (option byte * buffer) :=
  match o with
  | Write c => b' ← buffer_write b c; mret (None, b')
  | Store src => b' ← buffer_store b src; mret (None, b')
  | Read => '(c, b') ← buffer_read b; mret (Some c, b')
  | ReadAdv n => b' ← buffer_read_adv b (Z.of_nat n); mret (None, b')
  | Compact => b' ← buffer_compact b; mret (None, b')
  | Reset => mret (None, buffer_reset b)
  end.

Fixpoint run {B} (step : B -> op -> outcome (option byte * B)) (b : B) (os : list op)
    : outcome (list (option byte) * B) :=
  match os with
  | [] => mret ([], b)
  | o :: os' => '(r, b') ← step b o; '(rs, b'') ← run step b' os'; mret (r :: rs, b'')
  end.

Definition repr (b : buffer) (q : queue) : Prop :=
  buffer_wf b /\ b_limit b = q_cap q /\ contents b = q_items q /\ room b = q_free q.

(** Two runs agree when both return the same results in related states, or
    both stop with the same fault. *)
Definition agree {R} (x : outcome (R * buffer)) (y : outcome (R * queue)) : Prop :=
  match x, y with
  | Done (r, b), Done (r', q) => r = r' /\ repr b q
  | Fault f, Fault g => f = g
  | _, _ => False
  end.
End Queue.
Import Queue.

(** Room after consuming: everything when the buffer empties, else unchanged. *)
Lemma read_adv_room b n b' :
  buffer_wf b -> n <= length (contents b) -> buffer_read_adv b (Z.of_nat n) = Done b' ->
  room b' = if decide (drop n (contents b) = []) then b_limit b else room b.
Proof.
  intros Hwf Hn. pose proof (contents_length b Hwf) as Hl.
  destruct Hwf as (? & ? & ?). unfold buffer_read_adv.
  rewrite (proj2 (Z.ltb_lt _ _)), Nat2Z.id by lia. simpl.
  rewrite (proj2 (Nat.leb_le _ _)) by lia. simpl.
  assert (Hiff : drop n (contents b) = [] <-> b_read b + n = b_write b).
  { rewrite <- length_zero_iff_nil, length_drop. lia. }
  destruct (Nat.eqb_spec (b_read b + n) (b_write b)) as [E|E].
  - rewrite decide_True by tauto. unfold buffer_compact, room; simpl.
    destruct (b_read b + n) eqn:En; simpl; [intros [= <-]; simpl; lia|].
    rewrite <- E, Nat.eqb_refl. intros [= <-]. simpl. lia.
  - rewrite decide_False by tauto. intros [= <-]. reflexivity.
Qed.

Lemma bstep_agree b q o : repr b q -> agree (bstep b o) (qstep q o).
Proof.
  intros (Hwf & Hcap & Hit & Hfree). destruct o as [c|src| |n| |]; simpl.
  - destruct (buffer_write_spec b c Hwf) as (b' & -> & ? & ? & ? & Hc & Hr).
    simpl. rewrite Hfree in *. split; [done|]. unfold repr. rewrite Hc, Hr.
    case_match; simpl; split_and!; try congruence. tests. lia.
  - case_decide as Hlen.
    + destruct (buffer_store_spec b src Hwf) as (b' & -> & ? & Hc & Hr & ? & ?); [lia|].
      simpl. unfold repr. rewrite Hc, Hr. simpl. split_and!; congruence.
    + unfold buffer_store, mem_write. destruct Hwf as (? & ? & ?). unfold room in *.
      rewrite decide_False by lia. reflexivity.
  - destruct (buffer_read_spec b Hwf) as (b' & E & ? & Hc & ? & _). rewrite E. simpl.
    rewrite <- Hit. split; [done|]. case_decide as Hnil.
    + unfold buffer_read in E. rewrite can_read_contents in E by done.
      rewrite bool_decide_eq_false_2 in E by tauto. injection E as _ <-. done.
    + unfold buffer_read in E. rewrite can_read_contents in E by done.
      rewrite bool_decide_eq_true_2 in E by done.
      apply outcome_bind_Done in E as (? & ? & E).
      apply outcome_bind_Done in E as (b2 & E & [= _ ->]).
      assert (1 <= length (contents b)) by (destruct (contents b); simpl in *; [done|lia]).
      change 1%Z with (Z.of_nat 1) in E. apply read_adv_room in E; [|done..].
      unfold repr; simpl. rewrite <- Hcap, <- Hfree, <- E, Hc. by destruct (contents b).
  - case_decide as Hn; rewrite <- Hit in Hn.
    + destruct (buffer_read_adv_spec b n Hwf Hn) as (b' & E & ? & Hc & ? & _).
      apply read_adv_room in E as Hr; [|done..]. rewrite E. simpl. split; [done|].
      unfold repr; simpl. rewrite <- Hcap, <- Hfree, <- Hit, Hr, Hc. auto.
    + pose proof (contents_length b Hwf). unfold buffer_read_adv.
      destruct Hwf as (? & ? & ?). rewrite (proj2 (Z.ltb_lt _ _)), Nat2Z.id by lia. simpl.
      by rewrite (proj2 (Nat.leb_gt _ _)) by lia.
  - destruct (buffer_compact_spec b Hwf) as (b' & -> & ? & Hc & ? & Hr). simpl.
    split; [done|]. unfold repr; simpl. rewrite Hc, Hr. split_and!; congruence.
  - split; [done|]. destruct Hwf as (? & ? & ?).
    unfold repr, buffer_wf, contents, room; simpl. split_and!; auto; lia.
Qed.

(** C18. Refinement: whatever sequence of operations is performed on a
    well-formed buffer, it returns the same results and stops with the same
    faults as the bounded queue it represents, and still represents it at the
    end; in particular bytes come out in the order they went in. *)
Theorem buffer_refines_queue (os : list op) (b : buffer) (q : queue) :
  repr b q -> agree (run bstep b os) (run qstep q os).
Proof.
  revert b q. induction os as [|o os IH]; intros b q H; [by split|]. simpl.
  pose proof (bstep_agree b q o H) as Hs.
  destruct (bstep b o) as [[r b']|f], (qstep q o) as [[r' q']|f']; simpl in *; try done.
  destruct Hs as [<- Hs]. specialize (IH b' q' Hs).
  destruct (run bstep b' os) as [[rs b2]|f], (run qstep q' os) as [[rs' q2]|f']; simpl in *;
    try done. destruct IH as [<- ?]. done.
Qed.

Lemma buffer_refines_queue_witness :
  let b := buffer_init 6 (repeat NUL 6) in
  let q := Queue 6 [] 6 in
  let os := [Store (lit "HOLA"); ReadAdv 3; Write Byte.x4d; Compact; Read; Read; Read] in
  repr b q /\ agree (run bstep b os) (run qstep q os).
Proof.
  intros b q os. assert (H : repr b q) by (unfold repr, buffer_wf; simpl; repeat split; lia).
  split; [exact H | exact (buffer_refines_queue os b q H)].
Defined.
