(* ===== verification/Os.v ===== *)
(** * Os: the operating system, as the program uses it

    The system calls are not code of the repository: they are the operations
    of the class [OS] over an arbitrary type [E] of kernel states, and every
    definition that performs I/O takes an instance of it. [OSLaws] states the
    documented behaviour the theorems rely on. [io] adds [errno] and a trace
    of the calls performed, oldest last, in which the theorems on streams are
    stated. *)

From S2P Require Import Prelude.

(** The [errno] values the program distinguishes (Linux, x86-64). *)
Definition EINTR : Z := 4.
Definition EBADF : Z := 9.
Definition EAGAIN : Z := 11.
Definition EADDRNOTAVAIL : Z := 99.
Definition ENETUNREACH : Z := 101.
Definition ECONNRESET : Z := 104.
Definition ETIMEDOUT : Z := 110.
Definition ECONNREFUSED : Z := 111.
Definition EHOSTUNREACH : Z := 113.
Definition EINPROGRESS : Z := 115.

Inductive family := AF_INET | AF_INET6 | AF_OTHER.

#[global] Instance family_eq_dec : EqDecision family.
Proof. solve_decision. Defined.

(** A socket address; [sa_port] is the 16-bit field as loaded, that is in
    network byte order. *)
Record sockaddr := Sockaddr { sa_family : family; sa_ip : list byte; sa_port : Z }.

(** The result of a call that can fail with an [errno]. *)
Inductive sysres (A : Type) := Ok (a : A) | Err (e : Z).
Arguments Ok {A} _.
Arguments Err {A} _.

Inductive shut := SHUT_RD | SHUT_WR.

(** The commands given to [fcntl]: read the descriptor flags, write the file
    status flags. *)
Inductive fcntl_cmd := F_GETFD | F_SETFL (flags : Z).

Definition O_NONBLOCK : Z := 2048.

Class OS (E : Type) := {
  os_read : Z -> nat -> E -> sysres (list byte) * E;
  os_send : Z -> list byte -> E -> sysres nat * E;
  os_accept : Z -> E -> sysres (Z * sockaddr) * E;
  os_socket : family -> E -> sysres Z * E;
  os_connect : Z -> sockaddr -> E -> sysres unit * E;
  os_so_error : Z -> E -> Z * E;
  os_getsockname : Z -> E -> sockaddr * E;
  os_close : Z -> E -> E;
  os_shutdown : Z -> shut -> E -> E;
  os_fcntl : Z -> fcntl_cmd -> E -> sysres Z * E;
  os_malloc : nat -> E -> option (list byte) * E;
  (** the name resolver: the addresses found, none on error *)
  os_getaddrinfo : list byte -> Z -> E -> list sockaddr * E;
  (** the library's textual form of an address *)
  os_inet_ntop : family -> list byte -> option (list byte);
  (** descriptors the process has open *)
  os_open : E -> Z -> Prop
}.

Class OSLaws (E : Type) `{OS E} : Prop := {
  (** [read] and [send] transfer at most what is asked for *)
  os_read_le fd n e l e' : os_read fd n e = (Ok l, e') -> length l <= n;
  os_send_le fd l e n e' : os_send fd l e = (Ok n, e') -> n <= length l;
  (** [malloc] returns an area of the size asked for *)
  os_malloc_length n e l e' : os_malloc n e = (Some l, e') -> length l = n;
  (** a new descriptor is non-negative and was not open *)
  os_accept_fresh fd e nfd a e' :
    os_accept fd e = (Ok (nfd, a), e') -> (0 <= nfd)%Z /\ ~ os_open e nfd;
  (** the storage [getsockname] fills holds an address of either family *)
  os_getsockname_ip fd e : 16 <= length (sa_ip (os_getsockname fd e).1);
  os_socket_fresh f e nfd e' :
    os_socket f e = (Ok nfd, e') -> (0 <= nfd)%Z /\ ~ os_open e nfd
}.

(** ** Calls with [errno] and the trace *)

Inductive event :=
| EvRecv (fd : Z) (l : list byte)
| EvSend (fd : Z) (l : list byte)
| EvAccept (lfd fd : Z)
| EvSocket (fd : Z)
| EvClose (fd : Z)
| EvShutdown (fd : Z) (h : shut)
| EvResolve (host : list byte) (port : Z)
| EvBind (fd : Z) (a : sockaddr)
| EvListen (fd : Z)
| EvLog (l : list byte).

Record io (E : Type) := Io { io_os : E; io_errno : Z; io_trace : list event }.
Arguments Io {E} _ _ _.
Arguments io_os {E} _.
Arguments io_errno {E} _.
Arguments io_trace {E} _.

Section Calls.
Context {E : Type} `{OS E}.

Definition emit (ev : event) : M (io E) unit := fun s =>
  Done (tt, Io (io_os s) (io_errno s) (ev :: io_trace s)).

(** Run a call; on failure store its [errno]. *)
Definition call {A} (f : E -> sysres A * E) : M (io E) (option A) := fun s =>
  match f (io_os s) with
  | (Ok a, e) => Done (Some a, Io e (io_errno s) (io_trace s))
  | (Err n, e) => Done (None, Io e n (io_trace s))
  end.

Definition sys_read (fd : Z) (n : nat) : M (io E) (option (list byte)) :=
  r ← call (os_read fd n);
  match r with Some l => emit (EvRecv fd l);; mret (Some l) | None => mret None end.

Definition sys_send (fd : Z) (l : list byte) : M (io E) (option nat) :=
  r ← call (os_send fd l);
  match r with Some n => emit (EvSend fd (take n l));; mret (Some n) | None => mret None end.

Definition sys_close (fd : Z) : M (io E) unit := fun s =>
  Done (tt, Io (os_close fd (io_os s)) (io_errno s) (EvClose fd :: io_trace s)).

Definition sys_shutdown (fd : Z) (h : shut) : M (io E) unit := fun s =>
  Done (tt, Io (os_shutdown fd h (io_os s)) (io_errno s) (EvShutdown fd h :: io_trace s)).

Definition sys_malloc (n : nat) : M (io E) (option (list byte)) := fun s =>
  let '(r, e) := os_malloc n (io_os s) in Done (r, Io e (io_errno s) (io_trace s)).

Definition sys_accept (fd : Z) : M (io E) (option (Z * sockaddr)) :=
  r ← call (os_accept fd);
  match r with
  | Some (n, a) => emit (EvAccept fd n);; mret (Some (n, a))
  | None => mret None
  end.

Definition sys_socket (f : family) : M (io E) (option Z) :=
  r ← call (os_socket f);
  match r with Some n => emit (EvSocket n);; mret (Some n) | None => mret None end.

Definition sys_connect (fd : Z) (a : sockaddr) : M (io E) (option unit) :=
  call (os_connect fd a).

Definition sys_so_error (fd : Z) : M (io E) Z := fun s =>
  let '(r, e) := os_so_error fd (io_os s) in Done (r, Io e (io_errno s) (io_trace s)).

Definition sys_getsockname (fd : Z) : M (io E) sockaddr := fun s =>
  let '(r, e) := os_getsockname fd (io_os s) in Done (r, Io e (io_errno s) (io_trace s)).

(** [selector_fd_set_nio] of selector.c, which its callers treat as one more
    system call. The flags it completes are those of the descriptor
    ([F_GETFD]), and it stores them as the status flags of the file. *)
Definition selector_fd_set_nio (fd : Z) : M (io E) Z :=
  flags ← call (os_fcntl fd F_GETFD);
  match flags with
  | None => mret (-1)%Z
  | Some flags =>
      r ← call (os_fcntl fd (F_SETFL (Z.lor flags O_NONBLOCK)));
      mret (match r with None => -1 | Some _ => 0 end)%Z
  end.

Definition sys_getaddrinfo (host : list byte) (port : Z) : M (io E) (list sockaddr) := fun s =>
  let '(r, e) := os_getaddrinfo host port (io_os s) in
  Done (r, Io e (io_errno s) (EvResolve host port :: io_trace s)).

(** [checkEOF(count)] of clients.h and mgmt.c: a zero count, or a failure
    other than [EAGAIN]. *)
Definition checkEOF (count : Z) : M (io E) bool :=
  e ← gets io_errno;
  mret ((count =? 0) || ((count <? 0) && negb (e =? EAGAIN)))%Z.
End Calls.

(** Making a descriptor non-blocking always returns, 0 exactly when both calls
    succeed, and transfers nothing. *)
Lemma selector_fd_set_nio_spec {E} `{OS E} fd (s : io E) :
  exists r s', selector_fd_set_nio fd s = Done (r, s') /\ io_trace s' = io_trace s /\
    (r = 0%Z <-> exists flags e r2 e2, os_fcntl fd F_GETFD (io_os s) = (Ok flags, e) /\
                   os_fcntl fd (F_SETFL (Z.lor flags O_NONBLOCK)) e = (Ok r2, e2)).
Proof.
  unfold selector_fd_set_nio, call, mbind, M_bind; cbn -[Z.lor].
  destruct (os_fcntl fd F_GETFD (io_os s)) as [[flags|n] e] eqn:E1; cbn -[Z.lor].
  - destruct (os_fcntl fd (F_SETFL (Z.lor flags O_NONBLOCK)) e) as [[r2|n] e2] eqn:E2; cbn;
      do 2 eexists; (split_and!; [reflexivity|reflexivity|]).
    + split; [intros _; by do 4 eexists|done].
    + split; [done|]. intros (flags' & e' & r' & e2' & [= <- <-] & E2'). congruence.
  - do 2 eexists. split_and!; [reflexivity|reflexivity|].
    split; [done|]. by intros (flags & e' & r' & e2' & [=] & _).
Qed.

(** ** The bytes a trace shows on a descriptor, in order *)

Fixpoint received (fd : Z) (t : list event) : list byte :=
  match t with
  | [] => []
  | EvRecv fd' l :: t' => received fd t' ++ (if decide (fd = fd') then l else [])
  | _ :: t' => received fd t'
  end.

Fixpoint sent (fd : Z) (t : list event) : list byte :=
  match t with
  | [] => []
  | EvSend fd' l :: t' => sent fd t' ++ (if decide (fd = fd') then l else [])
  | _ :: t' => sent fd t'
  end.

Lemma received_app fd t1 t2 : received fd (t1 ++ t2) = received fd t2 ++ received fd t1.
Proof.
  induction t1 as [|[] t1 IH]; simpl; rewrite ?app_nil_r; try done. by rewrite IH, app_assoc.
Qed.

Lemma sent_app fd t1 t2 : sent fd (t1 ++ t2) = sent fd t2 ++ sent fd t1.
Proof.
  induction t1 as [|[] t1 IH]; simpl; rewrite ?app_nil_r; try done. by rewrite IH, app_assoc.
Qed.

(** ** A scripted kernel

    An instance that satisfies the laws, used by the witnesses: reads are
    answered from a list of chunks (the empty list of chunks is [EAGAIN]),
    sends accept a given number of bytes (none is [EAGAIN]), descriptors are handed out in
    order. *)
Record script := Script {
  sc_reads : list (list byte);
  sc_accepts : nat;
  sc_next : Z
}.

#[global] Instance script_os : OS script := {|
  os_read fd n e :=
    match sc_reads e with
    | [] => (Err EAGAIN, e)
    | c :: cs => (Ok (take n c), Script cs (sc_accepts e) (sc_next e))
    end;
  os_send fd l e :=
    match sc_accepts e with
    | O => (Err EAGAIN, e)
    | S _ => (Ok (Nat.min (sc_accepts e) (length l)), e)
    end;
  os_accept fd e :=
    (Ok (Z.max 0 (sc_next e), Sockaddr AF_INET (repeat NUL 4) 0),
     Script (sc_reads e) (sc_accepts e) (Z.max 0 (sc_next e) + 1));
  os_socket f e :=
    (Ok (Z.max 0 (sc_next e)), Script (sc_reads e) (sc_accepts e) (Z.max 0 (sc_next e) + 1));
  os_connect fd a e := (Err EINPROGRESS, e);
  os_so_error fd e := (0%Z, e);
  os_getsockname fd e := (Sockaddr AF_INET (repeat NUL 16) 0, e);
  os_close fd e := e;
  os_shutdown fd h e := e;
  os_fcntl fd c e := (Ok 0%Z, e);
  os_malloc n e := (Some (repeat NUL n), e);
  os_getaddrinfo h p e := ([], e);
  os_inet_ntop f ip := Some (lit "addr");
  os_open e fd := (fd < Z.max 0 (sc_next e))%Z
|}.

#[global] Instance script_laws : OSLaws script.
Proof.
  split; simpl.
  - intros fd n [[|c cs] k m] l e'; simpl; intros; simplify_eq. rewrite length_take. lia.
  - intros fd l [r [|k] m] n e' Hs; [discriminate|]. injection Hs as <- <-.
    apply (Nat.le_min_r (S k)).
  - intros; simplify_eq. apply repeat_length.
  - intros; simplify_eq. lia.
  - intros; lia.
  - intros; simplify_eq. lia.
Qed.

