(* ===== verification/SocketsIO.v ===== *)
(** * SocketsIO: src/socketsIO.c

    Transfers between a socket and a buffer. [read_from_sock] goes through the
    2048-byte static area of the source, so one call reads at most that much;
    [write_to_sock] offers the whole contents to [send] and consumes what was
    accepted. *)

From S2P Require Import Prelude Buffer Os.

Section SocketsIO.
Context {E : Type} `{OS E}.

Definition BUFFSIZE : nat := 2048.

Definition read_from_sock (sd : Z) (b : buffer) : M (io E) (Z * buffer) :=
  '(size, _) ← lift (buffer_write_ptr b);
  let size := if BUFFSIZE <? size then BUFFSIZE else size in
  bytes_rcv ← sys_read sd size;
  match bytes_rcv with
  | None => mret (-1, b)%Z
  | Some l =>
      if 0 <? length l
      then b' ← lift (buffer_store b l); mret (Z.of_nat (length l), b')
      else mret (0, b)%Z
  end.

Definition write_to_sock (sd : Z) (b : buffer) : M (io E) (Z * buffer) :=
  '(size, read_ptr) ← lift (buffer_read_ptr b);
  l ← lift (mem_read (b_data b) read_ptr size);
  bytes_sent ← sys_send sd l;
  match bytes_sent with
  | None => mret (-1, b)%Z
  | Some n =>
      b' ← lift (buffer_read_adv b (Z.of_nat n));
      mret (Z.of_nat size - Z.of_nat n, b')%Z
  end.
End SocketsIO.

Section Specs.
Context {E : Type} `{OSLaws E}.

Lemma sys_read_spec fd n (s : io E) :
  exists r s', sys_read fd n s = Done (r, s') /\
    match r with
    | Some l => length l <= n /\ io_trace s' = EvRecv fd l :: io_trace s
    | None => io_trace s' = io_trace s
    end.
Proof.
  unfold sys_read, call, mbind, M_bind.
  destruct (os_read fd n (io_os s)) as [[l|e] os'] eqn:Er; simpl;
    eexists _, _; (split; [reflexivity|]); simpl; eauto using os_read_le.
Qed.

Lemma sys_send_spec fd l (s : io E) :
  exists r s', sys_send fd l s = Done (r, s') /\
    match r with
    | Some n => n <= length l /\ io_trace s' = EvSend fd (take n l) :: io_trace s
    | None => io_trace s' = io_trace s
    end.
Proof.
  unfold sys_send, call, mbind, M_bind.
  destruct (os_send fd l (io_os s)) as [[n|e] os'] eqn:Er; simpl;
    eexists _, _; (split; [reflexivity|]); simpl; eauto using os_send_le.
Qed.

(** What a read into [b] leaves: the value returned, the buffer, the trace. *)
Definition recv_post (sd : Z) (b : buffer) (t : list event) (n : Z) (b' : buffer)
    (t' : list event) : Prop :=
  buffer_wf b' /\ b_limit b' = b_limit b /\
  ((n = -1)%Z /\ b' = b /\ t' = t \/
   exists l, n = Z.of_nat (length l) /\ length l <= Nat.min BUFFSIZE (room b) /\
     contents b' = contents b ++ l /\ room b' = room b - length l /\
     b_read b' = b_read b /\ t' = EvRecv sd l :: t).

(** What a write from [b] leaves. *)
Definition send_post (sd : Z) (b : buffer) (t : list event) (n : Z) (b' : buffer)
    (t' : list event) : Prop :=
  buffer_wf b' /\ b_limit b' = b_limit b /\
  ((n = -1)%Z /\ b' = b /\ t' = t \/
   exists l, contents b = l ++ contents b' /\ n = Z.of_nat (length (contents b')) /\
     room b <= room b' /\ t' = EvSend sd l :: t).


Lemma read_from_sock_spec (sd : Z) (b : buffer) (s : io E) :
  buffer_wf b ->
  exists n b' s', read_from_sock sd b s = Done ((n, b'), s') /\
    recv_post sd b (io_trace s) n b' (io_trace s').
Proof.
  intros Hwf. unfold recv_post, read_from_sock. mstep (write_ptr_wf b Hwf).
  set (size := if BUFFSIZE <? b_limit b - b_write b then BUFFSIZE else b_limit b - b_write b).
  assert (Hsize : size <= Nat.min BUFFSIZE (room b)).
  { unfold size, room, BUFFSIZE. case_match; tests; lia. }
  destruct (sys_read_spec sd size s) as (r & s' & Er & Hr). mstep Er.
  destruct r as [l|]; [|exists (-1)%Z, b, s'; eauto 8].
  destruct Hr as [Hlen Htr]. destruct (Nat.ltb_spec 0 (length l)) as [Hl|Hl].
  - destruct (buffer_store_spec b l Hwf) as (b' & Es & ? & ? & ? & ? & ?); [lia|].
    mstep Es. exists (Z.of_nat (length l)), b', s'.
    split_and!; auto. right. exists l. split_and!; auto. lia.
  - assert (l = []) as -> by (apply length_zero_iff_nil; lia).
    exists 0%Z, b, s'. split_and!; auto. right. exists []. simpl.
    rewrite app_nil_r. split_and!; auto; lia.
Qed.

Lemma write_to_sock_spec (sd : Z) (b : buffer) (s : io E) :
  buffer_wf b ->
  exists n b' s', write_to_sock sd b s = Done ((n, b'), s') /\
    send_post sd b (io_trace s) n b' (io_trace s').
Proof.
  intros Hwf. pose proof (contents_length b Hwf) as Hcl.
  unfold send_post, write_to_sock. mstep (read_ptr_wf b Hwf). mstep (mem_read_contents b Hwf).
  destruct (sys_send_spec sd (contents b) s) as (r & s' & Es & Hr).
  mstep Es.
  destruct r as [n|]; [|exists (-1)%Z, b, s'; eauto 8].
  destruct Hr as [Hlen Htr].
  destruct (buffer_read_adv_spec b n Hwf Hlen) as (b' & Eb & ? & Hc & ? & ? & ?).
  mstep Eb. eexists _, b', s'. split; [reflexivity|].
  split_and!; auto. right. exists (take n (contents b)).
  rewrite Hc, take_drop. split_and!; auto. rewrite length_drop. lia.
Qed.

(** C24. Reading a socket into a well-formed buffer never faults: it appends
    exactly the bytes the kernel delivered, at most 2048 and at most the room,
    keeps the buffer well formed, and returns their number, or -1 with nothing
    changed when the call failed. *)
Theorem read_from_sock_appends (sd : Z) (b : buffer) (s : io E) :
  buffer_wf b ->
  exists n b' s', read_from_sock sd b s = Done ((n, b'), s') /\
    recv_post sd b (io_trace s) n b' (io_trace s').
Proof. apply read_from_sock_spec. Qed.

(** C25. Writing the buffer to a socket never faults: the bytes handed to the
    kernel followed by the bytes left in the buffer are the bytes that were in
    it, and the result is the number of bytes left, or -1 with nothing changed
    when the call failed. *)
Theorem write_to_sock_consumes (sd : Z) (b : buffer) (s : io E) :
  buffer_wf b ->
  exists n b' s', write_to_sock sd b s = Done ((n, b'), s') /\
    send_post sd b (io_trace s) n b' (io_trace s').
Proof. apply write_to_sock_spec. Qed.
End Specs.

Lemma read_from_sock_appends_witness :
  let b := buffer_init 6 (repeat NUL 6) in
  let s := Io (Script [lit "HOLA"; lit "MUNDO"] 0 3) 0 [] in
  buffer_wf b /\ read_from_sock 7 b s <> Fault Undefined.
Proof.
  intros b s. assert (Hb : buffer_wf b) by (unfold buffer_wf; simpl; lia).
  split; [exact Hb|]. destruct (@read_from_sock_appends script script_os script_laws 7 b s Hb)
    as (n & b' & s' & E & _). rewrite E. discriminate.
Defined.

Lemma write_to_sock_consumes_witness :
  let b := Buffer (lit "HOLAxx") 6 1 4 in
  let s := Io (Script [] 2 3) 0 [] in
  buffer_wf b /\ write_to_sock 7 b s <> Fault Undefined.
Proof.
  intros b s. assert (Hb : buffer_wf b) by (unfold buffer_wf; simpl; lia).
  split; [exact Hb|]. destruct (@write_to_sock_consumes script script_os script_laws 7 b s Hb)
    as (n & b' & s' & E & _). rewrite E. discriminate.
Defined.
