(* ===== verification/State.v ===== *)
(** * State: src/state.c

    The counters and settings shared by the whole server. [size_t] counters
    wrap at 64 bits and [unsigned] ones at 32, as the C types do. *)

From S2P Require Import Prelude.

Local Open Scope Z_scope.

Record server_state := ServerState {
  all_connections : Z;      (** size_t *)
  transferred_bytes : Z;    (** size_t *)
  buffsize : Z;             (** size_t *)
  dissector_state : bool;
  proxy_client_count : Z;   (** unsigned *)
  mgmt_client_count : Z     (** unsigned *)
}.

(** The static initialisers. *)
Definition state_init : server_state := ServerState 0 0 2048 true 0 0.

Definition get_transferred_bytes (s : server_state) : Z := transferred_bytes s.
Definition get_all_connections (s : server_state) : Z := all_connections s.
Definition get_current_clients (s : server_state) : Z :=
  u32 (proxy_client_count s + mgmt_client_count s).
Definition get_buffsize (s : server_state) : Z := buffsize s.
Definition get_dissector_state (s : server_state) : bool := dissector_state s.

Definition add_bytes (bytes : Z) (s : server_state) : server_state :=
  ServerState (all_connections s) (u64 (transferred_bytes s + bytes)) (buffsize s)
    (dissector_state s) (proxy_client_count s) (mgmt_client_count s).

(** [mgmt_client_count + proxy_client_count * 2], in [unsigned] arithmetic. *)
Definition fd_load (s : server_state) : Z :=
  u32 (mgmt_client_count s + u32 (proxy_client_count s * 2)).

Definition add_proxy_client (s : server_state) : bool * server_state :=
  if fd_load s <=? 1020 - 2 then
    (true, ServerState (u64 (all_connections s + 1)) (transferred_bytes s) (buffsize s)
             (dissector_state s) (u32 (proxy_client_count s + 1)) (mgmt_client_count s))
  else (false, s).

Definition add_mgmt_client (s : server_state) : bool * server_state :=
  if fd_load s <=? 1020 - 1 then
    (true, ServerState (u64 (all_connections s + 1)) (transferred_bytes s) (buffsize s)
             (dissector_state s) (proxy_client_count s) (u32 (mgmt_client_count s + 1)))
  else (false, s).

Definition rm_proxy_client (s : server_state) : server_state :=
  ServerState (all_connections s) (transferred_bytes s) (buffsize s)
    (dissector_state s) (u32 (proxy_client_count s - 1)) (mgmt_client_count s).

Definition rm_mgmt_client (s : server_state) : server_state :=
  ServerState (all_connections s) (transferred_bytes s) (buffsize s)
    (dissector_state s) (proxy_client_count s) (u32 (mgmt_client_count s - 1)).

Definition set_buffsize (size : Z) (s : server_state) : server_state :=
  if size =? 0 then s
  else ServerState (all_connections s) (transferred_bytes s) size
         (dissector_state s) (proxy_client_count s) (mgmt_client_count s).

Definition set_dissector_state (b : bool) (s : server_state) : server_state :=
  ServerState (all_connections s) (transferred_bytes s) (buffsize s)
    b (proxy_client_count s) (mgmt_client_count s).

(** ** The descriptor budget *)

(** [p] proxy and [m] management clients are connected and counted, within the
    1020 descriptors the limits of state.c leave for clients. *)
Definition counts (p m : Z) (s : server_state) : Prop :=
  proxy_client_count s = p /\ mgmt_client_count s = m /\ 0 <= p /\ 0 <= m /\ m + 2 * p <= 1020.

Lemma counts_load p m s : counts p m s -> fd_load s = m + 2 * p.
Proof.
  intros (Hp & Hm & ? & ? & ?). unfold fd_load, wrap. rewrite Hp, Hm.
  rewrite (Z.mod_small (p * 2)) by lia. rewrite Z.mod_small by lia. lia.
Qed.

(** A call of one of the four routines. *)
Inductive counter_op := AddProxy | AddMgmt | RmProxy | RmMgmt.

(** The clients of each kind admitted and not removed, and the state; a removal
    is not checked, so that the numbers may become negative. *)
Definition counter_step (x : Z * Z * server_state) (o : counter_op) : Z * Z * server_state :=
  let '(p, m, s) := x in
  match o with
  | AddProxy => let '(ok, s') := add_proxy_client s in (if ok then p + 1 else p, m, s')
  | AddMgmt => let '(ok, s') := add_mgmt_client s in (p, if ok then m + 1 else m, s')
  | RmProxy => (p - 1, m, rm_proxy_client s)
  | RmMgmt => (p, m - 1, rm_mgmt_client s)
  end.

Definition counter_run (os : list counter_op) : Z * Z * server_state :=
  foldl counter_step (0, 0, state_init) os.

(** No call removes a client that is not there. *)
Definition balanced (os : list counter_op) : Prop :=
  forall os', os' `prefix_of` os -> let '(p, m, _) := counter_run os' in 0 <= p /\ 0 <= m.

Lemma counter_step_mod p m s o :
  proxy_client_count s = p mod 2 ^ 32 -> mgmt_client_count s = m mod 2 ^ 32 ->
  let '(p', m', s') := counter_step (p, m, s) o in
  proxy_client_count s' = p' mod 2 ^ 32 /\ mgmt_client_count s' = m' mod 2 ^ 32.
Proof.
  intros Hp Hm.
  destruct o; cbn [counter_step]; unfold add_proxy_client, add_mgmt_client, rm_proxy_client, rm_mgmt_client, wrap;
    try destruct (fd_load s <=? _); simpl; rewrite Hp, Hm;
    rewrite ?Zplus_mod_idemp_l, ?Zminus_mod_idemp_l; done.
Qed.

Lemma counter_step_counts p m s o :
  counts p m s ->
  let '(p', m', s') := counter_step (p, m, s) o in 0 <= p' -> 0 <= m' -> counts p' m' s'.
Proof.
  intros Hc. pose proof (counts_load p m s Hc) as Hl. destruct Hc as (Hp & Hm & ? & ? & ?).
  destruct o; cbn [counter_step]; unfold add_proxy_client, add_mgmt_client; rewrite ?Hl;
    try (destruct (Z.leb_spec (m + 2 * p) (1020 - 2))); try (destruct (Z.leb_spec (m + 2 * p) (1020 - 1)));
    unfold counts, rm_proxy_client, rm_mgmt_client, wrap; simpl; intros ? ?;
    rewrite ?Z.mod_small by lia; split_and!; lia.
Qed.

(** C31. The admission test of state.c, after every sequence of calls: the two
    counters are the clients of their kind admitted less those removed, modulo
    the width of an [unsigned]; and while no call removes a client that is not
    there they are exactly those numbers, do not wrap, and account for at most
    1020 descriptors, so that a client is refused only when its descriptors
    would exceed them. *)
Theorem client_counters_exact (os : list counter_op) :
  let '(p, m, s) := counter_run os in
  proxy_client_count s = p mod 2 ^ 32 /\ mgmt_client_count s = m mod 2 ^ 32 /\
  (balanced os ->
   counts p m s /\ ((add_proxy_client s).1 = true <-> m + 2 * p + 2 <= 1020) /\
   ((add_mgmt_client s).1 = true <-> m + 2 * p + 1 <= 1020)).
Proof.
  assert (Hall : let '(p, m, s) := counter_run os in
    proxy_client_count s = p mod 2 ^ 32 /\ mgmt_client_count s = m mod 2 ^ 32 /\ (balanced os -> counts p m s)).
  { induction os as [|o os IH] using rev_ind.
    { split; [reflexivity|]. split; [reflexivity|]. intros _. unfold counts. simpl. lia. }
    unfold counter_run in *. rewrite foldl_snoc.
    destruct (foldl counter_step (0, 0, state_init) os) as [[p m] s] eqn:Er. destruct IH as (Hp & Hm & Hb).
    pose proof (counter_step_mod p m s o Hp Hm) as H1. pose proof (counter_step_counts p m s o) as H2.
    destruct (counter_step (p, m, s) o) as [[p' m'] s'] eqn:Es. destruct H1 as [H1 H1'].
    split_and!; [done|done|]. intros Hbal.
    assert (Hpre : balanced os) by (intros os' Hos'; apply Hbal; by apply prefix_app_r).
    specialize (Hbal (os ++ [o]) ltac:(reflexivity)). unfold counter_run in Hbal.
    rewrite foldl_snoc, Er, Es in Hbal. destruct Hbal. by apply H2; [apply Hb|..]. }
  destruct (counter_run os) as [[p m] s]. destruct Hall as (Hp & Hm & Hb). split_and!; [done|done|].
  intros Hbal. specialize (Hb Hbal). split; [done|].
  unfold add_proxy_client, add_mgmt_client. rewrite (counts_load p m s Hb).
  split; (match goal with |- context [?x <=? ?y] => destruct (Z.leb_spec x y) end); simpl; split; (done || lia).
Qed.

Lemma client_counters_exact_witness :
  let os := [AddProxy; AddMgmt; RmProxy] in
  balanced os /\ let '(p, m, s) := counter_run os in p = 0 /\ m = 1 /\ counts p m s.
Proof.
  intros os.
  assert (H : balanced os).
  { intros os' [k Hk]. destruct os' as [|o1 [|o2 [|o3 [|o4 os']]]]; simplify_eq/=; vm_compute; split; discriminate. }
  split; [exact H|]. pose proof (client_counters_exact os) as Hc.
  destruct (counter_run os) as [[p m] s] eqn:Er. vm_compute in Er. injection Er as <- <- <-.
  destruct Hc as (_ & _ & Hc). destruct (Hc H) as (Hc' & _). split; [reflexivity|]. split; [reflexivity|exact Hc'].
Defined.
