(* ===== verification/Users.v ===== *)
(** * Users: src/users.c

    The table of proxy users. A record of the array [users] is a [user]; the
    array is the list of its first [user_count] entries. A string argument is
    the memory area that holds it: [add_user] overwrites the colon of its
    argument, and the area after the call is part of its result. *)

From S2P Require Import Prelude.

Definition MAX_USER_LEN : nat := 10.
Definition MAX_PASS_LEN : nat := 20.
Definition MAX_USERS : nat := 20.

Record user := User { username : list byte; password : list byte }.

#[global] Instance user_eq_dec : EqDecision user.
Proof. solve_decision. Defined.

Definition COLON : byte := Byte.x3a.

(** The loop of [check_valid] from index [i]; [s[i]] is read before [i] is
    compared with [len]. *)
Fixpoint check_valid_from (s : list byte) (len i : nat) : outcome bool :=
  match s with
  | [] => Fault Undefined
  | c :: s' =>
      if bool_decide (c = NUL) || (len <=? i)%nat then mret (i <? len)
      else if bool_decide (c = COLON) || negb (isprint c) then mret false
      else check_valid_from s' len (S i)
  end.

Definition check_valid (s : list byte) (len : nat) : outcome bool :=
  check_valid_from s len 0.

Fixpoint check_new_user (name : list byte) (users : list user) : bool :=
  match users with
  | [] => true
  | u :: us => if streq name (username u) then false else check_new_user name us
  end.

(** Result: the returned value, the table and the argument's area. *)
Definition add_user (userpass : list byte) (users : list user)
    : outcome (bool * list user * list byte) :=
  colon ← strchr userpass COLON;
  match colon with
  | None => mret (false, users, userpass)
  | Some k =>
      m ← mem_write userpass k [NUL];
      let name := m in
      let pass := drop (S k) m in
      if (length users =? MAX_USERS)%nat then mret (false, users, m)
      else
        ok1 ← check_valid name MAX_USER_LEN;
        if negb ok1 then mret (false, users, m)
        else
          ok2 ← check_valid pass MAX_PASS_LEN;
          if negb ok2 then mret (false, users, m)
          else if negb (check_new_user name users) then mret (false, users, m)
          else
            n ← strcpy (MAX_USER_LEN + 1) name;
            p ← strcpy (MAX_PASS_LEN + 1) pass;
            mret (true, users ++ [User n p], m)
  end.

Fixpoint try_credentials (name pass : list byte) (users : list user) : bool :=
  match users with
  | [] => false
  | u :: us =>
      if streq (username u) name && streq (password u) pass then true
      else try_credentials name pass us
  end.

(** [get_users]: the count and the array. *)
Definition get_users (users : list user) : nat * list user := (length users, users).

(** ** Well-formed tables *)

(** What [check_valid] accepts: a string shorter than the limit, of printable
    characters other than the colon. *)
Definition field_ok (s : list byte) (len : nat) : bool :=
  (length s <? len) && forallb (fun c => isprint c && bool_decide (c <> COLON)) s.

Definition users_wf (users : list user) : Prop :=
  length users <= MAX_USERS /\ NoDup (username <$> users) /\
  Forall (fun u => field_ok (username u) MAX_USER_LEN = true /\
                   field_ok (password u) MAX_PASS_LEN = true) users.

Lemma isprint_not_NUL c : isprint c = true -> c <> NUL.
Proof. intros H ->. discriminate H. Qed.

Lemma field_ok_no_NUL s len : field_ok s len = true -> Forall (fun c => c <> NUL) s.
Proof.
  unfold field_ok. rewrite andb_true_iff, forallb_forall. intros [_ H].
  apply Forall_forall. intros c Hc. apply list_elem_of_In in Hc. specialize (H c Hc).
  apply andb_true_iff in H as [H _]. by apply isprint_not_NUL.
Qed.

Lemma check_valid_from_spec s t len i :
  Forall (fun c => c <> NUL) s -> i <= len ->
  check_valid_from (s ++ NUL :: t) len i =
    Done ((length s + i <? len)%nat &&
          forallb (fun c => isprint c && bool_decide (c <> COLON)) s) \/
  len <= length s + i /\ check_valid_from (s ++ NUL :: t) len i = Done false.
Proof.
  intros Hs. revert i. induction Hs as [|c s Hc _ IH]; intros i Hi; simpl.
  - left. by rewrite andb_true_r.
  - rewrite bool_decide_eq_false_2 by done. simpl.
    destruct (Nat.leb_spec len i).
    + right. split; [lia|]. by rewrite (proj2 (Nat.ltb_ge i len)) by lia.
    + destruct (decide (c = COLON)) as [->|Hne].
      { left. by rewrite andb_false_r. }
      rewrite bool_decide_eq_false_2 by done. rewrite (bool_decide_eq_true_2 (c <> COLON)) by done.
      simpl. destruct (isprint c); simpl; [|left; by rewrite andb_false_r].
      destruct (IH (S i) ltac:(lia)) as [E|[? E]].
      * left. rewrite E. do 2 f_equal. f_equal. lia.
      * right. split; [lia|]. done.
Qed.

Lemma check_valid_spec m s len : holds_str m s -> check_valid m len = Done (field_ok s len).
Proof.
  intros (t & -> & Hs). unfold check_valid, field_ok.
  destruct (check_valid_from_spec s t len 0 Hs ltac:(lia)) as [->|[? ->]].
  - by rewrite Nat.add_0_r.
  - by rewrite (proj2 (Nat.ltb_ge _ _)) by lia.
Qed.

Lemma check_new_user_spec m s users :
  users_wf users -> cstr m = s ->
  check_new_user m users = bool_decide (s ∉ (username <$> users)).
Proof.
  intros (_ & _ & Hall) Hs. induction Hall as [|u us [Hu _] _ IH]; simpl; [done|].
  unfold streq. rewrite Hs, (cstr_id (username u)) by (by eapply field_ok_no_NUL).
  destruct (decide (s = username u)) as [->|Hne].
  - rewrite bool_decide_eq_true_2 by done. symmetry.
    apply bool_decide_eq_false_2. rewrite not_elem_of_cons. tauto.
  - rewrite bool_decide_eq_false_2 by done. rewrite IH.
    apply bool_decide_ext. rewrite not_elem_of_cons. tauto.
Qed.


Lemma users_wf_field users u :
  users_wf users -> u ∈ users ->
  field_ok (username u) MAX_USER_LEN = true /\ field_ok (password u) MAX_PASS_LEN = true.
Proof. intros (_ & _ & H) Hu. rewrite Forall_forall in H. auto. Qed.

Lemma try_credentials_spec m1 m2 users :
  users_wf users ->
  try_credentials m1 m2 users = bool_decide (User (cstr m1) (cstr m2) ∈ users).
Proof.
  intros (_ & _ & Hall). induction Hall as [|u us [Hu Hp] _ IH]; simpl; [done|].
  unfold streq. rewrite !(cstr_id (username u)), !(cstr_id (password u)) by (by eapply field_ok_no_NUL).
  rewrite IH.
  destruct (bool_decide (username u = cstr m1) && bool_decide (password u = cstr m2)) eqn:E.
  - tests. symmetry. apply bool_decide_eq_true_2, elem_of_cons. left.
    destruct u; simpl in *; congruence.
  - apply bool_decide_ext. rewrite elem_of_cons. split; [auto|]. intros [<-|?]; [|done].
    simpl in E. rewrite !bool_decide_eq_true_2 in E by done. done.
Qed.

(** What [add_user] decides on the name and password it is given. *)
Definition acceptable (name pass : list byte) (users : list user) : bool :=
  (length users <? MAX_USERS) && field_ok name MAX_USER_LEN && field_ok pass MAX_PASS_LEN &&
  bool_decide (name ∉ (username <$> users)).

Lemma strcpy_fits n m s : holds_str m s -> length s < n -> strcpy n m = Done s.
Proof.
  intros Hm Hn. unfold strcpy. rewrite (holds_str_cstr m s Hm). by rewrite decide_True.
Qed.

Lemma add_user_split name pass t users :
  users_wf users -> Forall (fun c => c <> NUL) name -> Forall (fun c => c <> NUL) pass ->
  COLON ∉ name ->
  add_user (name ++ COLON :: pass ++ NUL :: t) users =
    Done (acceptable name pass users,
          if acceptable name pass users then users ++ [User name pass] else users,
          name ++ NUL :: pass ++ NUL :: t).
Proof.
  intros Hwf Hn Hp Hc. unfold add_user. rewrite strchr_found by done. simpl.
  assert (mem_write (name ++ COLON :: pass ++ NUL :: t) (length name) [NUL]
          = Done (name ++ NUL :: pass ++ NUL :: t)) as ->.
  { rewrite mem_write_Done by (rewrite length_app; simpl; lia).
    rewrite take_app_length, drop_app_ge by (simpl; lia).
    by replace (length name + length [NUL] - length name) with 1 by (simpl; lia). }
  simpl.
  assert (Hdrop : drop (S (length name)) (name ++ NUL :: pass ++ NUL :: t) = pass ++ NUL :: t).
  { rewrite drop_app_ge by lia. by replace (S (length name) - length name) with 1 by lia. }
  rewrite Hdrop.
  assert (Hm1 : holds_str (name ++ NUL :: pass ++ NUL :: t) name) by (eexists; eauto).
  assert (Hm2 : holds_str (pass ++ NUL :: t) pass) by (eexists; eauto).
  unfold acceptable. destruct Hwf as (Hlen & Hwf'). pose proof (conj Hlen Hwf') as Hwf.
  destruct (Nat.eqb_spec (length users) MAX_USERS) as [E|E].
  { by rewrite (proj2 (Nat.ltb_ge _ _)) by lia. }
  rewrite (proj2 (Nat.ltb_lt _ _)) by lia. simpl.
  rewrite (check_valid_spec _ _ _ Hm1). simpl.
  destruct (field_ok name MAX_USER_LEN) eqn:F1; simpl; [|done].
  rewrite (check_valid_spec _ _ _ Hm2). simpl.
  destruct (field_ok pass MAX_PASS_LEN) eqn:F2; simpl; [|done].
  rewrite (check_new_user_spec _ name users Hwf) by (by apply holds_str_cstr).
  case_bool_decide; simpl; [|done].
  unfold field_ok in F1, F2. apply andb_true_iff in F1 as [F1 _], F2 as [F2 _]. tests.
  unfold MAX_USER_LEN, MAX_PASS_LEN in *.
  rewrite (strcpy_fits _ _ name Hm1) by lia. simpl.
  by rewrite (strcpy_fits _ _ pass Hm2) by lia.
Qed.

Lemma acceptable_wf name pass users :
  users_wf users -> acceptable name pass users = true -> users_wf (users ++ [User name pass]).
Proof.
  intros (Hlen & Hnd & Hall) Ha. unfold acceptable in Ha.
  apply andb_true_iff in Ha as [Ha Hnew]. apply andb_true_iff in Ha as [Ha Hf2].
  apply andb_true_iff in Ha as [Hl Hf1]. tests. split_and!.
  - rewrite length_app; simpl. lia.
  - rewrite fmap_app. apply NoDup_app. split_and!; [done| |apply NoDup_singleton].
    intros x Hx Hy. apply list_elem_of_singleton in Hy as ->. done.
  - apply Forall_app. split; [done|]. by constructor.
Qed.

(** C29. [add_user] on every argument string: without a colon it refuses; with
    one it splits at the first, accepts exactly the acceptable pairs (room in
    the table, both fields printable, without colons and within their sizes,
    name not taken), never overruns the record's arrays, and leaves a
    well-formed table in which exactly the new pair has been added to the
    credentials that are accepted. *)
Theorem add_user_correct (m s : list byte) (users : list user) :
  users_wf users -> holds_str m s ->
  exists ok users' m', add_user m users = Done (ok, users', m') /\ users_wf users' /\
    ((COLON ∉ s) /\ ok = false /\ users' = users \/
     exists name pass, s = name ++ COLON :: pass /\ (COLON ∉ name) /\
       ok = acceptable name pass users /\
       forall n p, try_credentials n p users' =
         try_credentials n p users ||
         (ok && bool_decide (cstr n = name) && bool_decide (cstr p = pass))).
Proof.
  intros Hwf Hm. destruct (decide (COLON ∈ s)) as [Hin|Hnin].
  - destruct (list_elem_of_split_l s COLON Hin) as (name & pass & -> & Hname).
    destruct Hm as (t & -> & Hs). apply Forall_app in Hs as [Hn Hs].
    apply Forall_cons in Hs as [_ Hp].
    rewrite <- app_assoc. simpl. rewrite (add_user_split name pass t users) by done.
    eexists _, _, _. split; [reflexivity|].
    assert (Hwf' : users_wf (if acceptable name pass users
                             then users ++ [User name pass] else users))
      by (destruct (acceptable name pass users) eqn:Ea; auto using acceptable_wf).
    split; [done|]. right. exists name, pass. split_and!; try done.
    intros n p. rewrite !try_credentials_spec by done.
    destruct (acceptable name pass users); simpl; [|by rewrite orb_false_r].
    apply Bool.eq_iff_eq_true. rewrite orb_true_iff, andb_true_iff, !bool_decide_eq_true.
    rewrite elem_of_app, list_elem_of_singleton. split.
    + intros [?|[= -> ->]]; tauto.
    + intros [?|[-> ->]]; tauto.
  - unfold add_user. rewrite (strchr_absent m s COLON Hm) by done.
    eexists _, _, _. split; [reflexivity|]. split; [done|]. left. done.
Qed.

Lemma add_user_correct_witness :
  let m := lit "ana:1234" ++ [NUL] in
  users_wf [User (lit "bob") (lit "x")] /\ holds_str m (lit "ana:1234") /\
  exists users', add_user m [User (lit "bob") (lit "x")] = Done (true, users', lit "ana" ++ NUL :: lit "1234" ++ [NUL]).
Proof.
  intros m.
  assert (H1 : users_wf [User (lit "bob") (lit "x")]).
  { split_and!; [simpl; unfold MAX_USERS; lia|apply NoDup_singleton|].
    constructor; [split; reflexivity|constructor]. }
  assert (H2 : holds_str m (lit "ana:1234")).
  { exists []. split; [reflexivity|]. repeat constructor; discriminate. }
  split; [exact H1|]. split; [exact H2|].
  destruct (add_user_correct m (lit "ana:1234") _ H1 H2) as (ok & us & m' & E & _).
  exists us. rewrite E. vm_compute in E. injection E as <- <- <-. reflexivity.
Defined.
