(* ===== verification/Tokens.v ===== *)
(** * Tokens: src/tokens.c

    The table of management tokens, the list of the first [token_count]
    entries of the array [tokens]. *)

From S2P Require Import Prelude.

Definition MAX_TOKEN_LENGTH : nat := 32.
Definition MAX_TOKENS : nat := 10.

(** The loop of [check_valid] from index [i]. *)
Fixpoint check_token_from (s : list byte) (i : nat) : outcome bool :=
  match s with
  | [] => Fault Undefined
  | c :: s' =>
      if bool_decide (c = NUL) || (MAX_TOKEN_LENGTH <=? i)%nat then mret (i <? MAX_TOKEN_LENGTH)
      else if negb (isprint c) then mret false
      else check_token_from s' (S i)
  end.

Definition check_valid (token : list byte) : outcome bool := check_token_from token 0.

(** [strncpy] of a string into an array of [n] chars, as the string the array
    then holds: without a terminator when the string is too long. *)
Definition strncpy (n : nat) (s : list byte) : list byte := take n (cstr s).

Definition add_token (token : list byte) (tokens : list (list byte))
    : outcome (bool * list (list byte)) :=
  if (MAX_TOKENS <=? length tokens)%nat then mret (false, tokens)
  else
    ok ← check_valid token;
    if negb ok then mret (false, tokens)
    else mret (true, tokens ++ [strncpy MAX_TOKEN_LENGTH token]).

Fixpoint check_token (token : list byte) (tokens : list (list byte)) : bool :=
  match tokens with
  | [] => false
  | t :: ts => if streq t token then true else check_token token ts
  end.

Definition get_token_count (tokens : list (list byte)) : nat := length tokens.

(** ** Lemmas *)

Definition token_ok (s : list byte) : bool :=
  (length s <? MAX_TOKEN_LENGTH) && forallb isprint s.

(** Every entry is a valid token, shorter than its array. *)
Definition tokens_wf (tokens : list (list byte)) : Prop :=
  length tokens <= MAX_TOKENS /\ Forall (fun t => token_ok t = true) tokens.

Lemma token_ok_no_NUL s : token_ok s = true -> Forall (fun c => c <> NUL) s.
Proof.
  unfold token_ok. rewrite andb_true_iff, forallb_forall. intros [_ H].
  apply Forall_forall. intros c Hc%list_elem_of_In ->. by specialize (H NUL Hc).
Qed.

Lemma check_token_from_spec s t i :
  Forall (fun c => c <> NUL) s -> i <= MAX_TOKEN_LENGTH ->
  check_token_from (s ++ NUL :: t) i = Done ((length s + i <? MAX_TOKEN_LENGTH) && forallb isprint s).
Proof.
  intros Hs. revert i. induction Hs as [|c s Hc _ IH]; intros i Hi;
    cbn [app check_token_from length forallb Nat.add].
  - by rewrite andb_true_r.
  - rewrite bool_decide_eq_false_2 by done. cbn [orb].
    destruct (Nat.leb_spec MAX_TOKEN_LENGTH i).
    + rewrite (proj2 (Nat.ltb_ge i _)) by lia. f_equal. symmetry.
      apply andb_false_iff. left. apply Nat.ltb_ge. lia.
    + destruct (isprint c); cbn [negb andb]; [|by rewrite andb_false_r].
      rewrite IH by lia. by replace (length s + S i) with (S (length s + i)) by lia.
Qed.

Lemma check_token_spec m tokens :
  tokens_wf tokens -> check_token m tokens = bool_decide (cstr m ∈ tokens).
Proof.
  intros [_ Hall]. induction Hall as [|t ts Ht _ IH]; simpl; [done|].
  unfold streq. rewrite (cstr_id t) by (by apply token_ok_no_NUL). rewrite IH.
  destruct (decide (t = cstr m)) as [->|Hne].
  - rewrite bool_decide_eq_true_2 by done. symmetry. apply bool_decide_eq_true_2. by left.
  - rewrite bool_decide_eq_false_2 by done. apply bool_decide_ext. rewrite elem_of_cons. naive_solver.
Qed.

Lemma add_token_done m s tokens :
  holds_str m s ->
  let ok := (length tokens <? MAX_TOKENS) && token_ok s in
  add_token m tokens = Done (ok, if ok then tokens ++ [s] else tokens).
Proof.
  intros Hm ok. unfold ok, add_token. rewrite Nat.ltb_antisym.
  destruct (Nat.leb_spec MAX_TOKENS (length tokens)); simpl; [done|].
  assert (check_valid m = Done (token_ok s)) as ->.
  { destruct Hm as (t & -> & Hs). unfold check_valid, token_ok.
    rewrite check_token_from_spec by (done || lia). by rewrite Nat.add_0_r. }
  simpl. destruct (token_ok s) eqn:Hok; simpl; [|done].
  unfold strncpy. rewrite (holds_str_cstr m s Hm), take_ge; [done|].
  unfold token_ok in Hok. apply andb_true_iff in Hok as [Hok _]. tests. lia.
Qed.

Lemma tokens_wf_snoc s tokens :
  tokens_wf tokens ->
  tokens_wf (if (length tokens <? MAX_TOKENS) && token_ok s then tokens ++ [s] else tokens).
Proof.
  intros [Hlen Hall]. case_match eqn:Hok; [|by split]. tests.
  split; [rewrite length_app; simpl; lia|]. apply Forall_app; auto.
Qed.

(** C30. A token can be used exactly when it was added: [add_token] accepts the
    printable strings of fewer than 32 characters while there are fewer than
    ten tokens, never truncates one it accepts, keeps the table well formed,
    and afterwards [check_token] accepts the earlier tokens and the new one
    and nothing else. *)
Theorem add_token_correct (m s : list byte) (tokens : list (list byte)) :
  tokens_wf tokens -> holds_str m s ->
  let ok := (length tokens <? MAX_TOKENS) && token_ok s in
  exists tokens', add_token m tokens = Done (ok, tokens') /\ tokens_wf tokens' /\
    forall t, check_token t tokens' = check_token t tokens || (ok && bool_decide (cstr t = s)).
Proof.
  intros Hwf Hm ok. eexists. split; [by apply add_token_done|].
  pose proof (tokens_wf_snoc s tokens Hwf) as Hwf'. split; [done|].
  fold ok in Hwf' |- *. destruct ok; intros t; simpl; [|by rewrite orb_false_r].
  rewrite !check_token_spec by done. apply Bool.eq_iff_eq_true.
  by rewrite orb_true_iff, !bool_decide_eq_true, elem_of_app, list_elem_of_singleton.
Qed.

Lemma add_token_correct_witness :
  tokens_wf [lit "old"] /\ holds_str (lit "secret" ++ [NUL]) (lit "secret") /\
  exists ts, add_token (lit "secret" ++ [NUL]) [lit "old"] = Done (true, ts).
Proof.
  assert (H1 : tokens_wf [lit "old"])
    by (split; [unfold MAX_TOKENS; simpl; lia | repeat constructor]).
  assert (H2 : holds_str (lit "secret" ++ [NUL]) (lit "secret"))
    by (exists []; split; [reflexivity | repeat constructor; discriminate]).
  split; [exact H1|]. split; [exact H2|].
  destruct (add_token_correct _ _ _ H1 H2) as (ts & E & _). exists ts. exact E.
Defined.
