(* ===== verification/Pop3Sniffer.v ===== *)
(** * Pop3Sniffer: src/pop3_sniffer.c and include/pop3_sniffer.h

    The credentials sniffer: a byte-at-a-time automaton that looks for a USER
    command followed by a PASS command in the bytes a client sends. The parser
    has its own copy of the four pointers of the buffer it inspects, so
    consuming bytes through it does not consume them from the connection. *)

From S2P Require Import Prelude Buffer.

Definition MAX_CREDENTIALS_LEN : nat := 40.

Inductive PopState :=
| POP3_USER_CMD
| POP3_FILL_USER
| POP3_PASS_CMD
| POP3_FILL_PASS
| POP3_UNKOWN_CMD.

Record pop3_parser := Pop3Parser {
  p_state : PopState;
  password_complete : bool;
  user_complete : bool;
  p_user : list byte;      (** char user[MAX_CREDENTIALS_LEN] *)
  p_pass : list byte;      (** char pass[MAX_CREDENTIALS_LEN] *)
  p_buf : buffer;
  read_ptr : nat;
  write_ptr : nat
}.

(** ** Field updates *)

Definition set_state (st : PopState) (p : pop3_parser) : pop3_parser :=
  Pop3Parser st (password_complete p) (user_complete p) (p_user p) (p_pass p) (p_buf p)
    (read_ptr p) (write_ptr p).
Definition set_read_ptr (n : nat) (p : pop3_parser) : pop3_parser :=
  Pop3Parser (p_state p) (password_complete p) (user_complete p) (p_user p) (p_pass p) (p_buf p)
    n (write_ptr p).
Definition set_buf (b : buffer) (p : pop3_parser) : pop3_parser :=
  Pop3Parser (p_state p) (password_complete p) (user_complete p) (p_user p) (p_pass p) b
    (read_ptr p) (write_ptr p).

(** ** Operations *)

Definition pop3_user_str : list byte := lit "USER " ++ [NUL].
Definition pop3_pass_str : list byte := lit "PASS " ++ [NUL].

Definition unknown_cmd (p : pop3_parser) (c : byte) : PopState :=
  if bool_decide (c = LF)
  then if user_complete p then POP3_PASS_CMD else POP3_USER_CMD
  else POP3_UNKOWN_CMD.

Definition user_cmd (p : pop3_parser) (c : byte) : outcome (PopState * pop3_parser) :=
  k ← mem_get pop3_user_str (read_ptr p);
  if bool_decide (tolower c = tolower k) then
    k' ← mem_get pop3_user_str (S (read_ptr p));
    if bool_decide (k' = NUL) then mret (POP3_FILL_USER, set_read_ptr 0 p)
    else mret (POP3_USER_CMD, set_read_ptr (S (read_ptr p)) p)
  else mret (unknown_cmd p c, p).

Definition fill_user (p : pop3_parser) (c : byte) : outcome (PopState * pop3_parser) :=
  if bool_decide (c = LF) then
    u ← mem_write (p_user p) (write_ptr p) [NUL];
    mret (POP3_PASS_CMD,
          Pop3Parser (p_state p) (password_complete p) true u (p_pass p) (p_buf p) (read_ptr p) 0)
  else if (write_ptr p + 1 =? MAX_CREDENTIALS_LEN)%nat then mret (POP3_UNKOWN_CMD, p)
  else
    u ← mem_write (p_user p) (write_ptr p) [c];
    mret (POP3_FILL_USER,
          Pop3Parser (p_state p) (password_complete p) (user_complete p) u (p_pass p) (p_buf p)
            (read_ptr p) (S (write_ptr p))).

Definition pass_cmd (p : pop3_parser) (c : byte) : outcome (PopState * pop3_parser) :=
  k ← mem_get pop3_pass_str (read_ptr p);
  if bool_decide (tolower c = tolower k) then
    k' ← mem_get pop3_pass_str (S (read_ptr p));
    if bool_decide (k' = NUL) then mret (POP3_FILL_PASS, set_read_ptr 0 p)
    else mret (POP3_PASS_CMD, set_read_ptr (S (read_ptr p)) p)
  else mret (unknown_cmd p c, p).

Definition fill_pass (p : pop3_parser) (c : byte) : outcome (PopState * pop3_parser) :=
  if bool_decide (c = LF) then
    w ← mem_write (p_pass p) (write_ptr p) [NUL];
    mret (POP3_PASS_CMD,
          Pop3Parser (p_state p) true (user_complete p) (p_user p) w (p_buf p) (read_ptr p) 0)
  else if (write_ptr p + 1 =? MAX_CREDENTIALS_LEN)%nat then mret (POP3_UNKOWN_CMD, p)
  else
    w ← mem_write (p_pass p) (write_ptr p) [c];
    mret (POP3_FILL_PASS,
          Pop3Parser (p_state p) (password_complete p) (user_complete p) (p_user p) w (p_buf p)
            (read_ptr p) (S (write_ptr p))).

Definition init_parser (p : pop3_parser) : pop3_parser :=
  Pop3Parser POP3_USER_CMD false false (p_user p) (p_pass p) (p_buf p) 0 0.

(** The [switch] of [pop3_consume] on one byte. *)
Definition pop3_dispatch (p : pop3_parser) (c : byte) : outcome pop3_parser :=
  '(st, p') ← match p_state p with
              | POP3_USER_CMD => user_cmd p c
              | POP3_FILL_USER => fill_user p c
              | POP3_PASS_CMD => pass_cmd p c
              | POP3_FILL_PASS => fill_pass p c
              | POP3_UNKOWN_CMD => mret (unknown_cmd p c, p)
              end;
  mret (set_state st p').

Fixpoint pop3_consume_loop (fuel : nat) (p : pop3_parser) : outcome pop3_parser :=
  if buffer_can_read (p_buf p) && negb (password_complete p) then
    match fuel with
    | O => Fault Diverge
    | S fuel' =>
        '(c, b) ← buffer_read (p_buf p);
        p' ← pop3_dispatch (set_buf b p) c;
        pop3_consume_loop fuel' p'
    end
  else mret p.

(** One iteration consumes a byte, so as many as there are bytes suffice. *)
Definition pop3_consume (p : pop3_parser) : outcome pop3_parser :=
  pop3_consume_loop (b_write (p_buf p)) p.

Definition pop3_parse (p : pop3_parser) (request : buffer) : outcome (bool * pop3_parser) :=
  p' ← pop3_consume (set_buf request p);
  let ans := user_complete p' && password_complete p' in
  mret (ans, if ans then init_parser p' else p').

(** ** The automaton on a list of bytes *)

(** Byte by byte, stopping once a password is complete. *)
Fixpoint feed (p : pop3_parser) (l : list byte) : outcome pop3_parser :=
  match l with
  | [] => mret p
  | c :: l' =>
      if password_complete p then mret p
      else p' ← pop3_dispatch p c; feed p' l'
  end.

(** The indices stay inside the keyword and the two arrays. *)
Definition pop3_wf (p : pop3_parser) : Prop :=
  read_ptr p <= 4 /\ write_ptr p < MAX_CREDENTIALS_LEN /\
  length (p_user p) = MAX_CREDENTIALS_LEN /\ length (p_pass p) = MAX_CREDENTIALS_LEN.

(** A parser at the beginning of a line, before any USER command. *)
Definition fresh (p : pop3_parser) : Prop :=
  p_state p = POP3_USER_CMD /\ password_complete p = false /\ user_complete p = false /\
  read_ptr p = 0 /\ write_ptr p = 0.

Lemma keyword_get (s : list byte) i :
  length s = 6 -> i <= 4 -> exists k k', mem_get s i = Done k /\ mem_get s (S i) = Done k'.
Proof.
  intros Hl Hi. unfold mem_get.
  destruct (lookup_lt_is_Some_2 s i) as [k ->]; [lia|].
  destruct (lookup_lt_is_Some_2 s (S i)) as [k' ->]; [lia|]. eauto.
Qed.

Lemma user_str_end i k : i <= 4 -> mem_get pop3_user_str (S i) = Done k -> k <> NUL -> S i <= 4.
Proof. intros Hi. do 5 (destruct i as [|i]; [vm_compute; intros [= <-]; (done || lia)|]). lia. Qed.

Lemma pass_str_end i k : i <= 4 -> mem_get pop3_pass_str (S i) = Done k -> k <> NUL -> S i <= 4.
Proof. intros Hi. do 5 (destruct i as [|i]; [vm_compute; intros [= <-]; (done || lia)|]). lia. Qed.

Lemma dispatch_wf p c :
  pop3_wf p -> exists p', pop3_dispatch p c = Done p' /\ pop3_wf p'.
Proof.
  intros (Hr & Hw & Hu & Hp). unfold pop3_dispatch. destruct (p_state p); simpl.
  - unfold user_cmd. destruct (keyword_get pop3_user_str (read_ptr p) eq_refl Hr) as (k & k' & -> & E).
    simpl. rewrite E. simpl. repeat case_bool_decide; simpl; eexists; (split; [reflexivity|]);
      unfold pop3_wf; simpl; split_and!; auto; try lia. by eapply user_str_end.
  - unfold fill_user. case_bool_decide; simpl; [|case_match; tests; simpl].
    + destruct (mem_write_fits (p_user p) (write_ptr p) [NUL]) as (m & -> & Hm); [simpl; lia|].
      eexists. split; [reflexivity|]. unfold pop3_wf, MAX_CREDENTIALS_LEN in *; simpl. lia.
    + eexists. split; [reflexivity|]. unfold pop3_wf; simpl. auto.
    + destruct (mem_write_fits (p_user p) (write_ptr p) [c]) as (m & -> & Hm); [simpl; lia|].
      eexists. split; [reflexivity|]. unfold pop3_wf; simpl. lia.
  - unfold pass_cmd. destruct (keyword_get pop3_pass_str (read_ptr p) eq_refl Hr) as (k & k' & -> & E).
    simpl. rewrite E. simpl. repeat case_bool_decide; simpl; eexists; (split; [reflexivity|]);
      unfold pop3_wf; simpl; split_and!; auto; try lia. by eapply pass_str_end.
  - unfold fill_pass. case_bool_decide; simpl; [|case_match; tests; simpl].
    + destruct (mem_write_fits (p_pass p) (write_ptr p) [NUL]) as (m & -> & Hm); [simpl; lia|].
      eexists. split; [reflexivity|]. unfold pop3_wf, MAX_CREDENTIALS_LEN in *; simpl. lia.
    + eexists. split; [reflexivity|]. unfold pop3_wf; simpl. auto.
    + destruct (mem_write_fits (p_pass p) (write_ptr p) [c]) as (m & -> & Hm); [simpl; lia|].
      eexists. split; [reflexivity|]. unfold pop3_wf; simpl. lia.
  - eexists. split; [reflexivity|]. unfold pop3_wf; simpl. auto.
Qed.

Lemma feed_wf l p : pop3_wf p -> exists p', feed p l = Done p' /\ pop3_wf p'.
Proof.
  revert p. induction l as [|c l IH]; intros p Hp; simpl; [by exists p|].
  destruct (password_complete p); [by exists p|].
  destruct (dispatch_wf p c Hp) as (p' & -> & Hp'). simpl. auto.
Qed.

Lemma feed_app l1 l2 p : feed p (l1 ++ l2) = p' ← feed p l1; feed p' l2.
Proof.
  revert p. induction l1 as [|c l1 IH]; intros p; simpl; [done|].
  destruct (password_complete p) eqn:E; simpl.
  - destruct l2; simpl; by rewrite ?E.
  - destruct (pop3_dispatch p c); simpl; auto.
Qed.

(** The automaton does not look at its buffer. *)
Lemma dispatch_set_buf b p c :
  pop3_dispatch (set_buf b p) c = p' ← pop3_dispatch p c; mret (set_buf b p').
Proof.
  unfold pop3_dispatch. destruct (p_state p) eqn:E; simpl; rewrite E; simpl;
    unfold user_cmd, fill_user, pass_cmd, fill_pass, unknown_cmd; simpl;
    repeat (first [case_match | case_bool_decide | destruct (mem_get _ _) |
                   destruct (mem_write _ _ _)]; simpl; try done).
Qed.

Lemma feed_set_buf b l p :
  feed (set_buf b p) l = p' ← feed p l; mret (set_buf b p').
Proof.
  revert p. induction l as [|c l IH]; intros p; simpl; [done|].
  destruct (password_complete p); simpl; [done|]. rewrite dispatch_set_buf.
  destruct (pop3_dispatch p c); simpl; auto.
Qed.

Lemma set_buf_set_buf b b' p : set_buf b (set_buf b' p) = set_buf b p.
Proof. reflexivity. Qed.

Lemma set_buf_id p : set_buf (p_buf p) p = p.
Proof. by destruct p. Qed.

Lemma consume_loop_feed fuel p p' :
  buffer_wf (p_buf p) -> length (contents (p_buf p)) <= fuel ->
  feed p (contents (p_buf p)) = Done p' ->
  exists b, pop3_consume_loop fuel p = Done (set_buf b p').
Proof.
  revert p p'. induction fuel as [|fuel IH]; intros p p' Hb Hf Hfeed; simpl;
    rewrite can_read_contents by done; destruct (contents (p_buf p)) as [|c l] eqn:Hl;
    simpl in *; try lia.
  1, 2: injection Hfeed as <-; exists (p_buf p); by rewrite set_buf_id.
  destruct (password_complete p) eqn:Hpc; simpl.
  { injection Hfeed as <-. exists (p_buf p). by rewrite set_buf_id. }
  destruct (buffer_read_spec (p_buf p) Hb) as (b' & -> & Hb' & Hc & _). simpl.
  rewrite Hl in Hc |- *. simpl in *. rewrite dispatch_set_buf.
  destruct (pop3_dispatch p c) as [p1|] eqn:Ed; simpl in *; [|done].
  assert (Hf' : feed (set_buf b' p1) l = Done (set_buf b' p')) by (by rewrite feed_set_buf, Hfeed).
  destruct (IH (set_buf b' p1) (set_buf b' p')) as (b & ->); simpl; rewrite ?Hc; auto with lia.
  by exists b.
Qed.

(** [pop3_parse] runs the automaton over the contents of the request. *)
Lemma pop3_parse_feed p request p' :
  buffer_wf request -> feed p (contents request) = Done p' ->
  exists b, let ans := user_complete p' && password_complete p' in
    pop3_parse p request = Done (ans, set_buf b (if ans then init_parser p' else p')).
Proof.
  intros Hb Hf. unfold pop3_parse, pop3_consume. simpl.
  pose proof (contents_length request Hb).
  destruct (consume_loop_feed (b_write request) (set_buf request p) (set_buf request p'))
    as (b & ->); simpl; [done|lia| |].
  - by rewrite feed_set_buf, Hf.
  - exists b. by destruct (user_complete p' && password_complete p').
Qed.

Lemma pop3_parse_wf (p : pop3_parser) (request : buffer) :
  pop3_wf p -> buffer_wf request ->
  exists ans p', pop3_parse p request = Done (ans, p') /\ pop3_wf p'.
Proof.
  intros Hp Hb. destruct (feed_wf (contents request) p Hp) as (p' & Hf & Hp').
  destruct (pop3_parse_feed p request p' Hb Hf) as (b & E). eexists _, _. split; [exact E|].
  destruct Hp' as (? & ? & ? & ?). unfold pop3_wf.
  destruct (_ && _); simpl; split_and!; auto with lia.
Qed.

(** C32. The sniffer is memory safe: on every parser whose indices are in range
    and every well-formed buffer it terminates without a fault, keeps the
    indices in range, so the keyword and the two 40-byte arrays are never
    overrun. *)
Theorem pop3_parse_safe (p : pop3_parser) (request : buffer) :
  pop3_wf p -> buffer_wf request ->
  exists ans p', pop3_parse p request = Done (ans, p') /\ pop3_wf p'.
Proof. apply pop3_parse_wf. Qed.

Definition parser0 : pop3_parser :=
  Pop3Parser POP3_USER_CMD false false (repeat NUL 40) (repeat NUL 40) (buffer_init 0 []) 0 0.

Lemma pop3_parse_safe_witness :
  let req := Buffer (lit "USER bob") 8 0 8 in
  pop3_wf parser0 /\ buffer_wf req /\ exists ans p', pop3_parse parser0 req = Done (ans, p').
Proof.
  intros req.
  assert (H1 : pop3_wf parser0) by (unfold pop3_wf, MAX_CREDENTIALS_LEN; simpl; lia).
  assert (H2 : buffer_wf req) by (unfold buffer_wf; simpl; lia).
  split; [exact H1|]. split; [exact H2|].
  destruct (pop3_parse_safe parser0 req H1 H2) as (ans & p' & E & _). eauto.
Defined.

(** ** What is found *)


Definition one_line (l : list byte) : Prop := LF ∉ l.





Lemma feed_step p c l p' :
  password_complete p = false -> pop3_dispatch p c = Done p' -> feed p (c :: l) = feed p' l.
Proof. intros H E. simpl. by rewrite H, E. Qed.

Lemma dispatch_user_cmd p c st p' :
  p_state p = POP3_USER_CMD -> user_cmd p c = Done (st, p') ->
  pop3_dispatch p c = Done (set_state st p').
Proof. intros H E. unfold pop3_dispatch. by rewrite H, E. Qed.




(** Skipping to the end of the line. *)
Lemma feed_unknown p l t :
  p_state p = POP3_UNKOWN_CMD -> password_complete p = false -> one_line l ->
  feed p (l ++ LF :: t) =
    feed (set_state (if user_complete p then POP3_PASS_CMD else POP3_USER_CMD) p) t.
Proof.
  intros Hst Hpc Hl. induction l as [|c l IH]; simpl.
  - rewrite Hpc. unfold pop3_dispatch. by rewrite Hst.
  - rewrite Hpc. unfold pop3_dispatch. rewrite Hst. simpl. unfold one_line in *.
    apply not_elem_of_cons in Hl as [Hc Hl]. unfold unknown_cmd.
    rewrite bool_decide_eq_false_2 by done.
    replace (set_state POP3_UNKOWN_CMD p) with p by (destruct p; simpl in *; by subst).
    auto.
Qed.












(** C39. The match position is not reset when a command stops matching: after a
    line that starts with U but does not continue with S, such as UIDL, no USER
    and PASS pair that follows is reported, whatever the two arguments are. *)
Theorem pop3_misses_after_partial_match (p : pop3_parser) (request : buffer)
    (c : byte) (noise u w : list byte) :
  fresh p -> buffer_wf request ->
  one_line (c :: noise) -> tolower c <> tolower Byte.x53 -> one_line u -> one_line w ->
  contents request =
    (Byte.x55 :: c :: noise) ++ LF :: lit "USER " ++ u ++ LF :: lit "PASS " ++ w ++ [LF] ->
  exists p', pop3_parse p request = Done (false, p') /\ read_ptr p' = 1.
Proof.
  intros (Hst & Hpc & Huc & Hr & Hw) Hb Hn Hc Hu Hwl Hcont.
  destruct p as [st pc uc us ps bf r wr]; simpl in *; subst.
  set (p1 := Pop3Parser POP3_USER_CMD false false us ps bf 1 0).
  set (p2 := Pop3Parser POP3_UNKOWN_CMD false false us ps bf 1 0).
  (* a mismatch of the first byte of a line against S skips the line *)
  assert (Hskip : forall d l t, tolower d <> tolower Byte.x53 -> one_line (d :: l) ->
            feed p1 (d :: l ++ LF :: t) = feed p1 t).
  { intros d l t Hd Hl. apply not_elem_of_cons in Hl as [Hd' Hl].
    rewrite (feed_step p1 d _ p2); [by apply feed_unknown|done|].
    apply (dispatch_user_cmd p1 d POP3_UNKOWN_CMD p1); [done|].
    unfold user_cmd; simpl. rewrite bool_decide_eq_false_2 by done. simpl.
    unfold unknown_cmd. by rewrite bool_decide_eq_false_2 by done. }
  assert (Hf : feed (Pop3Parser POP3_USER_CMD false false us ps bf 0 0) (contents request) = Done p1).
  { rewrite Hcont. cbn [app]. rewrite (feed_step _ _ _ p1) by reflexivity.
    rewrite Hskip by done.
    etransitivity; [apply (Hskip Byte.x55 (lit "SER " ++ u))|
      etransitivity; [apply (Hskip Byte.x50 (lit "ASS " ++ w) [])|reflexivity]]; try discriminate.
    all: unfold one_line in *; simpl; rewrite !not_elem_of_cons; split_and!; done. }
  destruct (pop3_parse_feed _ request p1 Hb Hf) as (b & E). eexists. split; [exact E|]. reflexivity.
Qed.

Lemma pop3_misses_after_partial_match_witness :
  let bytes := lit "UIDL" ++ [CR] ++ LF :: lit "USER ana" ++ LF :: lit "PASS 1234" ++ [LF] in
  exists p', pop3_parse parser0 (Buffer bytes 25 0 25) = Done (false, p').
Proof.
  intros bytes.
  destruct (pop3_misses_after_partial_match parser0 (Buffer bytes 25 0 25) Byte.x49 (lit "DL" ++ [CR])
              (lit "ana") (lit "1234")) as (p' & E & _); try reflexivity.
  - repeat split.
  - unfold buffer_wf; simpl; lia.
  - unfold one_line. refine (bool_decide_unpack _ _). vm_compute. exact I.
  - discriminate.
  - unfold one_line. refine (bool_decide_unpack _ _). vm_compute. exact I.
  - unfold one_line. refine (bool_decide_unpack _ _). vm_compute. exact I.
  - eauto.
Defined.
