(* ===== verification/Selector.v ===== *)
(** * Selector: src/selector.c and include/selector.h

    The I/O multiplexer. [fdselector] is the struct: the table of items indexed
    by descriptor, the two prototype descriptor sets, the two the kernel
    updates, and the list of finished blocking jobs. The routines that only
    touch the struct are functions on it; those that run callbacks are
    computations over the state [W] of the whole program, of which the selector
    is the component [sel].

    An item points to one of the program's static [fd_handler] structs; [H] is
    the type of those addresses and [handlers] gives the struct at each. *)

From S2P Require Import Prelude Os.

Local Open Scope Z_scope.

Inductive selector_status :=
| SELECTOR_SUCCESS
| SELECTOR_ENOMEM
| SELECTOR_MAXFD
| SELECTOR_IARGS
| SELECTOR_FDINUSE
| SELECTOR_IO.

#[global] Instance selector_status_eq_dec : EqDecision selector_status.
Proof. solve_decision. Defined.

Definition selector_error (status : selector_status) : list byte :=
  match status with
  | SELECTOR_SUCCESS => lit "Success"
  | SELECTOR_ENOMEM => lit "Not enough memory"
  | SELECTOR_MAXFD => lit "Can't handle any more file descriptors"
  | SELECTOR_IARGS => lit "Illegal argument"
  | SELECTOR_IO => lit "I/O error"
  | SELECTOR_FDINUSE => lit "something failed"
  end.

(** Interests: an [unsigned] enumeration of bit flags. *)
Definition OP_NOOP : Z := 0.
Definition OP_READ : Z := 1.
Definition OP_WRITE : Z := 4.
Definition INTEREST_OFF (FLAG MASK : Z) : Z := Z.land FLAG (not32 MASK).

(** The argument of the callbacks; the selector itself is in the state. *)
Record selector_key := SelectorKey { key_fd : Z; key_data : Z }.

Definition FD_UNUSED : Z := -1.
Definition FD_SETSIZE : Z := 1024.
Definition ITEMS_MAX_SIZE : Z := FD_SETSIZE.
Definition INVALID_FD (fd : Z) : bool := (fd <? 0) || (ITEMS_MAX_SIZE <=? fd).

Section Struct.
Context {H : Type}.

Record item := Item {
  i_fd : Z;
  i_interest : Z;
  i_mask : Z;              (** interestMask *)
  i_handler : option H;    (** None is the null pointer *)
  i_data : Z
}.

Definition ITEM_USED (i : item) : bool := negb (FD_UNUSED =? i_fd i).

(** A block of zeroes, as [calloc] and [memset] leave it. *)
Definition item_zero : item := Item 0 0 0 None 0.

Record fdselector := FdSelector {
  fds : option (list item);        (** None before the first allocation *)
  fd_size : Z;
  max_fd : Z;
  master_r : gset Z; master_w : gset Z;
  slave_r : gset Z; slave_w : gset Z;
  resolution_jobs : list Z         (** the [fd] of each job, head first *)
}.

Definition FD_SET (fd : Z) (s : gset Z) : gset Z := {[fd]} ∪ s.
Definition FD_CLR (fd : Z) (s : gset Z) : gset Z := s ∖ {[fd]}.
Definition FD_ISSET (fd : Z) (s : gset Z) : bool := bool_decide (fd ∈ s).

(** ** Access to the table *)

Definition item_at (s : fdselector) (i : Z) : outcome item :=
  match fds s with
  | Some l => if i <? 0 then Fault Undefined else of_option Undefined (l !! Z.to_nat i)
  | None => Fault Undefined
  end.

Definition put_item (s : fdselector) (i : Z) (it : item) : outcome fdselector :=
  match fds s with
  | Some l =>
      if (i <? 0) || (Z.of_nat (length l) <=? i) then Fault Undefined
      else mret (FdSelector (Some (<[Z.to_nat i := it]> l)) (fd_size s) (max_fd s)
                   (master_r s) (master_w s) (slave_r s) (slave_w s) (resolution_jobs s))
  | None => Fault Undefined
  end.

Definition set_masters (r w : gset Z) (s : fdselector) : fdselector :=
  FdSelector (fds s) (fd_size s) (max_fd s) r w (slave_r s) (slave_w s) (resolution_jobs s).
Definition set_slaves (r w : gset Z) (s : fdselector) : fdselector :=
  FdSelector (fds s) (fd_size s) (max_fd s) (master_r s) (master_w s) r w (resolution_jobs s).
Definition set_max_fd (n : Z) (s : fdselector) : fdselector :=
  FdSelector (fds s) (fd_size s) n (master_r s) (master_w s) (slave_r s) (slave_w s)
    (resolution_jobs s).
Definition set_jobs (j : list Z) (s : fdselector) : fdselector :=
  FdSelector (fds s) (fd_size s) (max_fd s) (master_r s) (master_w s) (slave_r s) (slave_w s) j.

(** ** Capacity *)

(** The loop of [next_capacity]: the number of bits of [tmp]. A [size_t] has
    64 bits, which is the fuel. *)
Fixpoint bit_count (fuel : nat) (tmp bits : Z) : Z :=
  match fuel with
  | O => bits
  | S fuel' => if tmp =? 0 then bits else bit_count fuel' (Z.shiftr tmp 1) (bits + 1)
  end.

Definition next_capacity (n : Z) : outcome Z :=
  let bits := bit_count 64 n 0 in
  if 64 <=? bits then Fault Undefined
  else
    let tmp := Z.shiftl 1 bits in
    c_assert (n <=? tmp);;
    let tmp := if ITEMS_MAX_SIZE <? tmp then ITEMS_MAX_SIZE else tmp in
    mret (tmp + 1).

Definition item_init (i : item) : item :=
  Item FD_UNUSED (i_interest i) (i_mask i) (i_handler i) (i_data i).

(** [assert(last <= s->fd_size)], then every item from index [last] on. *)
Definition items_init (last : nat) (l : list item) : outcome (list item) :=
  if (last <=? length l)%nat then mret (take last l ++ (item_init <$> drop last l)) else Fault Abort.

(** [grown] is what [realloc] leaves in the new part of the table. [alloc] says
    whether the allocation succeeds. *)
Definition ensure_capacity (alloc : bool) (grown : item) (s : fdselector) (n : Z)
    : outcome (selector_status * fdselector) :=
  if n <? fd_size s then mret (SELECTOR_SUCCESS, s)
  else if ITEMS_MAX_SIZE <? n then mret (SELECTOR_MAXFD, s)
  else
    match fds s with
    | None =>
        new_size ← next_capacity n;
        if alloc then
          l ← items_init 0 (repeat item_zero (Z.to_nat new_size));
          mret (SELECTOR_SUCCESS,
                FdSelector (Some l)
                  new_size (max_fd s) (master_r s) (master_w s) (slave_r s) (slave_w s)
                  (resolution_jobs s))
        else mret (SELECTOR_ENOMEM, s)
    | Some l =>
        new_size ← next_capacity n;
        if alloc then
          let l' := take (Z.to_nat new_size)
                      (l ++ repeat grown (Z.to_nat new_size - length l)) in
          l' ← items_init (Z.to_nat (fd_size s)) l';
          mret (SELECTOR_SUCCESS,
                FdSelector (Some l')
                  new_size (max_fd s) (master_r s) (master_w s) (slave_r s) (slave_w s)
                  (resolution_jobs s))
        else mret (SELECTOR_ENOMEM, s)
    end.

(** [None] when the struct or the table cannot be allocated: the partial
    selector has nothing registered and is released. *)
Definition selector_new (alloc_struct alloc : bool) (initial_elements : Z)
    : outcome (option fdselector) :=
  if alloc_struct then
    let ret := FdSelector None 0 0 ∅ ∅ ∅ ∅ [] in
    '(st, ret) ← ensure_capacity alloc item_zero ret initial_elements;
    mret (if bool_decide (st = SELECTOR_SUCCESS) then Some ret else None)
  else mret None.

(** ** Descriptor sets *)

Fixpoint items_max_from (l : list item) (n : nat) (mx : Z) {struct n} : outcome Z :=
  match n with
  | O => mret mx
  | S n' =>
      match l with
      | [] => Fault Undefined
      | it :: l' =>
          items_max_from l' n' (if ITEM_USED it && (mx <? i_fd it) then i_fd it else mx)
      end
  end.

(** Over the indices [0 .. max_fd]. *)
Definition items_max_fd (s : fdselector) : outcome Z :=
  match fds s with
  | Some l => items_max_from l (Z.to_nat (max_fd s + 1)) 0
  | None => Fault Undefined
  end.

Definition items_update_fdset_for_fd (s : fdselector) (it : item) : fdselector :=
  let r := FD_CLR (i_fd it) (master_r s) in
  let w := FD_CLR (i_fd it) (master_w s) in
  if ITEM_USED it then
    let on f := flag (Z.land (i_interest it) (i_mask it)) f in
    set_masters (if on OP_READ then FD_SET (i_fd it) r else r)
                (if on OP_WRITE then FD_SET (i_fd it) w else w) s
  else set_masters r w s.

(** ** Registration and interests *)

Definition selector_register (alloc : bool) (grown : item) (fd : Z) (handler : option H)
    (interest data : Z) (s : fdselector) : outcome (selector_status * fdselector) :=
  if INVALID_FD fd || bool_decide (handler = None) then mret (SELECTOR_IARGS, s)
  else
    '(st, s) ← (if fd_size s <? fd then ensure_capacity alloc grown s fd
                else mret (SELECTOR_SUCCESS, s));
    if bool_decide (st <> SELECTOR_SUCCESS) then mret (st, s)
    else
      it ← item_at s fd;
      if ITEM_USED it then mret (SELECTOR_FDINUSE, s)
      else
        let it := Item fd interest (u32 (-1)) handler data in
        s ← put_item s fd it;
        let s := if max_fd s <? fd then set_max_fd fd s else s in
        mret (SELECTOR_SUCCESS, items_update_fdset_for_fd s it).

(** The body the five interest operations share: [f] is the assignment each
    makes to the item. *)
Definition update_item (f : item -> item) (fd : Z) (s : fdselector)
    : outcome (selector_status * fdselector) :=
  if INVALID_FD fd then mret (SELECTOR_IARGS, s)
  else
    it ← item_at s fd;
    if negb (ITEM_USED it) then mret (SELECTOR_IARGS, s)
    else
      s ← put_item s fd (f it);
      mret (SELECTOR_SUCCESS, items_update_fdset_for_fd s (f it)).

Definition selector_set_interest (fd i : Z) : fdselector -> outcome (selector_status * fdselector) :=
  update_item (fun it => Item (i_fd it) i (i_mask it) (i_handler it) (i_data it)) fd.

Definition selector_add_interest (fd i : Z) : fdselector -> outcome (selector_status * fdselector) :=
  update_item (fun it => Item (i_fd it) (Z.lor (i_interest it) i) (Z.lor (i_mask it) i)
                           (i_handler it) (i_data it)) fd.

Definition selector_unmask_interest (fd i : Z) : fdselector -> outcome (selector_status * fdselector) :=
  update_item (fun it => Item (i_fd it) (i_interest it) (Z.lor (i_mask it) i)
                           (i_handler it) (i_data it)) fd.

Definition selector_remove_interest (fd i : Z) : fdselector -> outcome (selector_status * fdselector) :=
  update_item (fun it => Item (i_fd it) (Z.land (i_interest it) (not32 i)) (i_mask it)
                           (i_handler it) (i_data it)) fd.

Definition selector_mask_interest (fd i : Z) : fdselector -> outcome (selector_status * fdselector) :=
  update_item (fun it => Item (i_fd it) (i_interest it) (Z.land (i_mask it) (not32 i))
                           (i_handler it) (i_data it)) fd.

Definition selector_set_interest_key (key : selector_key) (i : Z) (s : fdselector)
    : outcome (selector_status * fdselector) :=
  if INVALID_FD (key_fd key) then mret (SELECTOR_IARGS, s)
  else selector_set_interest (key_fd key) i s.

(** The part of [selector_unregister_fd] after the close callback. *)
Definition release_item (fd : Z) (s : fdselector) : outcome fdselector :=
  it ← item_at s fd;
  let it := Item (i_fd it) OP_NOOP (i_mask it) (i_handler it) (i_data it) in
  let s := items_update_fdset_for_fd s it in
  s ← put_item s fd (item_init item_zero);
  m ← items_max_fd s;
  mret (set_max_fd m s).

(** [selector_notify_block], run by the thread that did the blocking work. *)
Definition selector_notify_block (alloc : bool) (fd : Z) (s : fdselector)
    : selector_status * fdselector :=
  if alloc then (SELECTOR_SUCCESS, set_jobs (fd :: resolution_jobs s) s)
  else (SELECTOR_ENOMEM, s).
End Struct.
Arguments item : clear implicits.
Arguments fdselector : clear implicits.

(** ** Callbacks *)

Record fd_handler (W : Type) := FdHandler {
  handle_read : option (selector_key -> M W unit);
  handle_write : option (selector_key -> M W unit);
  handle_block : option (selector_key -> M W unit);
  handle_close : option (selector_key -> M W unit)
}.
Arguments FdHandler {W} _ _ _ _.
Arguments handle_read {W} _.
Arguments handle_write {W} _.
Arguments handle_block {W} _.
Arguments handle_close {W} _.

(** What the program around the selector provides: the selector's place in the
    state, whether the next allocation succeeds, and the handler structs. *)
Class SelectorEnv (H W : Type) := {
  sel : lens W (fdselector H);
  sel_alloc : M W bool
}.

Section Dispatch.
Context {H W : Type} `{SelectorEnv H W}.

(** An operation of the struct, run in the program. *)
Definition on_selector {A} (f : fdselector H -> outcome (A * fdselector H)) : M W A :=
  zoom sel f.

Definition do_register (fd : Z) (h : option H) (interest data : Z) : M W selector_status :=
  ok ← sel_alloc;
  on_selector (selector_register ok item_zero fd h interest data).

(** [hclose h] is the [handle_close] member of the struct at [h]. *)
Definition selector_unregister_fd (hclose : H -> option (selector_key -> M W unit)) (fd : Z)
    : M W selector_status :=
  if INVALID_FD fd then mret SELECTOR_IARGS
  else
    it ← on_selector (fun s => it ← item_at s fd; mret (it, s));
    if negb (ITEM_USED it) then mret SELECTOR_IARGS
    else
      match i_handler it with
      | None => mfault Undefined
      | Some h =>
          match hclose h with
          | Some f => f (SelectorKey (i_fd it) (i_data it))
          | None => mret tt
          end;;
          on_selector (fun s => s ← release_item fd s; mret (tt, s));;
          mret SELECTOR_SUCCESS
      end.

Context (handlers : H -> fd_handler W).

(** A callback through the item's handler. A missing read or write handler
    fails the assertion of [handle_iteration]. *)
Definition callback (member : fd_handler W -> option (selector_key -> M W unit))
    (missing : fault) (it : item H) (key : selector_key) : M W unit :=
  match i_handler it with
  | None => mfault Undefined
  | Some h => match member (handlers h) with Some f => f key | None => mfault missing end
  end.

Definition get_item (i : Z) : M W (item H) :=
  on_selector (fun s => it ← item_at s i; mret (it, s)).

(** The body of the loop of [handle_iteration] for index [i]: the item is read
    again for the write event, after the read handler has run. *)
Definition iteration_body (i : Z) : M W unit :=
  it ← get_item i;
  if ITEM_USED it then
    let key := SelectorKey (i_fd it) (i_data it) in
    s ← gets (lget sel);
    when (FD_ISSET (i_fd it) (slave_r s) && flag OP_READ (i_interest it))
      (callback handle_read Abort it key);;
    it ← get_item i;
    s ← gets (lget sel);
    when (FD_ISSET i (slave_w s) && flag OP_WRITE (i_interest it))
      (callback handle_write Abort it key)
  else mret tt.

Fixpoint iterate_from (i : Z) (n : nat) : M W unit :=
  match n with
  | O => mret tt
  | S n' => iteration_body i;; iterate_from (i + 1) n'
  end.

(** [for (i = 0; i <= n; i++)] with [n] the [max_fd] at the start. *)
Definition handle_iteration : M W unit :=
  s ← gets (lget sel);
  iterate_from 0 (Z.to_nat (max_fd s + 1)).

Fixpoint notify_jobs (jobs : list Z) : M W unit :=
  match jobs with
  | [] => mret tt
  | fd :: jobs' =>
      it ← get_item fd;
      when (ITEM_USED it)
        (callback handle_block Undefined it (SelectorKey (i_fd it) (i_data it)));;
      notify_jobs jobs'
  end.

(** The jobs are queued under the mutex the loop holds, so the list it walks is
    the one it finds. *)
Definition handle_block_notifications : M W unit :=
  s ← gets (lget sel);
  notify_jobs (resolution_jobs s);;
  on_selector (fun s => mret (tt, set_jobs [] s)).

(** The search for descriptors that were closed without being unregistered;
    [check_fd] asks the kernel about one, and reports it. *)
Fixpoint find_bad_fds (check_fd : Z -> M W unit) (i : Z) (n : nat) : M W unit :=
  match n with
  | O => mret tt
  | S n' =>
      s ← gets (lget sel);
      when (FD_ISSET i (master_r s) || FD_ISSET i (master_w s)) (check_fd i);;
      find_bad_fds check_fd (i + 1) n'
  end.

(** [pselect] is the kernel's answer: the descriptors that are ready among
    those asked for, or an [errno]. *)
Definition selector_select (pselect : Z -> gset Z -> gset Z -> M W (sysres (gset Z * gset Z)))
    (check_fd : Z -> M W unit) : M W selector_status :=
  on_selector (fun s => mret (tt, set_slaves (master_r s) (master_w s) s));;
  s ← gets (lget sel);
  r ← pselect (max_fd s + 1) (slave_r s) (slave_w s);
  match r with
  | Err e =>
      if (e =? EAGAIN) || (e =? EINTR)
      then handle_block_notifications;; mret SELECTOR_SUCCESS
      else
        when (e =? EBADF) (find_bad_fds check_fd 0 (Z.to_nat (max_fd s + 1)));;
        mret SELECTOR_IO
  | Ok (r, w) =>
      on_selector (fun s => mret (tt, set_slaves r w s));;
      handle_iteration;;
      handle_block_notifications;;
      mret SELECTOR_SUCCESS
  end.

(** [selector_destroy]: every used item is unregistered, in order. *)
Fixpoint destroy_from (hclose : H -> option (selector_key -> M W unit)) (i : Z) (n : nat)
    : M W unit :=
  match n with
  | O => mret tt
  | S n' =>
      it ← get_item i;
      when (ITEM_USED it) (selector_unregister_fd hclose i;; mret tt);;
      destroy_from hclose (i + 1) n'
  end.

Definition selector_destroy (hclose : H -> option (selector_key -> M W unit)) : M W unit :=
  s ← gets (lget sel);
  match fds s with
  | None => mret tt
  | Some _ =>
      destroy_from hclose 0 (Z.to_nat (fd_size s));;
      on_selector (fun s => mret (tt, FdSelector None 0 (max_fd s) (master_r s) (master_w s)
                                        (slave_r s) (slave_w s) []))
  end.
End Dispatch.
