(* ===== verification/SelectorSpec.v ===== *)
(** * SelectorSpec: what the selector promises

    The registry of a selector is the finite map from registered descriptors to
    their interests, mask, handler and data. The theorems show that the table,
    the two descriptor sets and [max_fd] always describe one registry, and that
    every operation of selector.c acts on it as documented in selector.h. *)

From S2P Require Import Prelude Os Selector.

Local Open Scope Z_scope.

Section Spec.
Context {H : Type}.

Abbreviation selector := (fdselector H).
Abbreviation sitem := (item H).

(** The item registered for [fd], if any. *)
Definition look (s : selector) (fd : Z) : option sitem :=
  match fds s with
  | Some l =>
      if fd <? 0 then None
      else it ← l !! Z.to_nat fd; if ITEM_USED it then Some it else None
  | None => None
  end.

(** Whether an item asks for the event [f]. *)
Definition wants (it : sitem) (f : Z) : bool := flag (Z.land (i_interest it) (i_mask it)) f.

Record sel_wf (s : selector) : Prop := {
  wf_table : exists l, fds s = Some l /\ Z.of_nat (length l) = fd_size s /\ FD_SETSIZE <= fd_size s;
  wf_item fd it : look s fd = Some it -> i_fd it = fd /\ fd < FD_SETSIZE /\ i_handler it <> None;
  wf_max fd it : look s fd = Some it -> fd <= max_fd s;
  wf_max_tight : max_fd s = 0 \/ exists it, look s (max_fd s) = Some it;
  wf_r fd : fd ∈ master_r s <-> exists it, look s fd = Some it /\ wants it OP_READ = true;
  wf_w fd : fd ∈ master_w s <-> exists it, look s fd = Some it /\ wants it OP_WRITE = true
}.

Lemma look_range s fd it : sel_wf s -> look s fd = Some it -> 0 <= fd < FD_SETSIZE.
Proof.
  intros Hwf Hl. pose proof (wf_item s Hwf fd it Hl) as (_ & ? & _).
  unfold look in Hl. destruct (fds s); [|done]. destruct (Z.ltb_spec fd 0); [done|]. lia.
Qed.

Lemma max_fd_range s : sel_wf s -> 0 <= max_fd s < FD_SETSIZE.
Proof.
  intros Hwf. destruct (wf_max_tight s Hwf) as [->|[it Hl]]; [unfold FD_SETSIZE; lia|].
  eauto using look_range.
Qed.

Lemma INVALID_FD_spec fd : INVALID_FD fd = false <-> 0 <= fd < FD_SETSIZE.
Proof. unfold INVALID_FD, ITEMS_MAX_SIZE. rewrite orb_false_iff, Z.ltb_ge, Z.leb_gt. lia. Qed.

(** A valid descriptor always indexes an item of the table. *)
Lemma item_at_look s fd :
  sel_wf s -> 0 <= fd < FD_SETSIZE ->
  exists it, item_at s fd = Done it /\ look s fd = if ITEM_USED it then Some it else None.
Proof.
  intros Hwf Hfd. destruct (wf_table s Hwf) as (l & El & Hlen & Hsz).
  unfold item_at, look. rewrite El, (proj2 (Z.ltb_ge _ _)) by lia.
  destruct (lookup_lt_is_Some_2 l (Z.to_nat fd)) as [it E]; [lia|].
  rewrite E. exists it. auto.
Qed.

(** Storing an item changes the registry at its index only. *)
Lemma put_item_spec s fd it :
  sel_wf s -> 0 <= fd < FD_SETSIZE ->
  exists s', put_item s fd it = Done s' /\
    max_fd s' = max_fd s /\ master_r s' = master_r s /\ master_w s' = master_w s /\
    fd_size s' = fd_size s /\
    (exists l', fds s' = Some l' /\ Z.of_nat (length l') = fd_size s) /\
    forall fd', look s' fd' = if decide (fd' = fd) then (if ITEM_USED it then Some it else None)
                              else look s fd'.
Proof.
  intros Hwf Hfd. destruct (wf_table s Hwf) as (l & El & Hlen & Hsz).
  unfold put_item. rewrite El, (proj2 (Z.ltb_ge _ _)), (proj2 (Z.leb_gt _ _)) by lia.
  eexists. split; [reflexivity|]. simpl. split_and!; auto.
  - eexists. split; [reflexivity|]. by rewrite length_insert.
  - intros fd'. unfold look. simpl. rewrite El. case_decide as Hd.
    + subst. rewrite (proj2 (Z.ltb_ge _ _)) by lia.
      by rewrite list_lookup_insert_eq by lia.
    + destruct (Z.ltb_spec fd' 0); [done|]. by rewrite list_lookup_insert_ne by lia.
Qed.

Lemma FD_update fd fd' (b : bool) (x : gset Z) :
  fd' ∈ (if b then FD_SET fd (FD_CLR fd x) else FD_CLR fd x) <->
  if decide (fd' = fd) then b = true else fd' ∈ x.
Proof. unfold FD_SET, FD_CLR. case_decide; destruct b; set_solver. Qed.

(** Refreshing the two sets for one item. *)
Lemma update_fdset_spec (s : selector) (it : sitem) fd' :
  let s' := items_update_fdset_for_fd s it in
  fds s' = fds s /\ fd_size s' = fd_size s /\ max_fd s' = max_fd s /\
  (fd' ∈ master_r s' <-> if decide (fd' = i_fd it) then ITEM_USED it && wants it OP_READ = true
                         else fd' ∈ master_r s) /\
  (fd' ∈ master_w s' <-> if decide (fd' = i_fd it) then ITEM_USED it && wants it OP_WRITE = true
                         else fd' ∈ master_w s).
Proof.
  unfold items_update_fdset_for_fd, wants. destruct (ITEM_USED it) eqn:E; simpl.
  - split_and!; auto; by rewrite FD_update.
  - split_and!; auto; by rewrite (FD_update _ _ false).
Qed.

(** One item written and its bits refreshed: the common end of the
    registration and of the interest operations. *)
Lemma store_item_wf s fd it s1 m :
  sel_wf s -> 0 <= fd < FD_SETSIZE -> i_fd it = fd -> i_handler it <> None ->
  put_item s fd it = Done s1 ->
  m = Z.max (max_fd s) fd ->
  let s' := items_update_fdset_for_fd (set_max_fd m s1) it in
  sel_wf s' /\ forall fd', look s' fd' = if decide (fd' = fd) then Some it else look s fd'.
Proof.
  intros Hwf Hfd Hit Hh Hput -> s'.
  destruct (put_item_spec s fd it Hwf Hfd) as (s2 & E2 & Hm & Hr & Hw & Hsz & (l' & El' & Hl') & Hlook).
  rewrite Hput in E2. injection E2 as <-.
  assert (Hused : ITEM_USED it = true).
  { unfold ITEM_USED, FD_UNUSED. apply negb_true_iff, Z.eqb_neq. lia. }
  assert (Hlk : forall fd', look s' fd' = if decide (fd' = fd) then Some it else look s fd').
  { intros fd'. specialize (Hlook fd'). rewrite Hused in Hlook. rewrite <- Hlook.
    unfold look, s'. destruct (update_fdset_spec (set_max_fd (Z.max (max_fd s) fd) s1) it 0) as (-> & _).
    reflexivity. }
  split; [|exact Hlk].
  assert (Hmx : max_fd s' = Z.max (max_fd s) fd).
  { unfold s'. by destruct (update_fdset_spec (set_max_fd (Z.max (max_fd s) fd) s1) it 0) as (_ & _ & -> & _). }
  pose proof (max_fd_range s Hwf) as Hmr.
  split.
  - destruct (wf_table s Hwf) as (l & _ & _ & ?). exists l'. unfold s'.
    destruct (update_fdset_spec (set_max_fd (Z.max (max_fd s) fd) s1) it 0) as (-> & -> & _).
    simpl. rewrite Hsz. auto.
  - intros fd' it'. rewrite Hlk. case_decide; [intros [= <-]; subst; split_and!; auto; lia|].
    apply (wf_item s Hwf).
  - intros fd' it'. rewrite Hlk, Hmx. case_decide; [lia|]. intros E%(wf_max s Hwf). lia.
  - rewrite Hmx. destruct (Z.max_spec (max_fd s) fd) as [[? ->]|[? ->]].
    + right. exists it. by rewrite Hlk, decide_True.
    + destruct (wf_max_tight s Hwf) as [->|[it' Hl]]; [by left|]. right. rewrite Hlk.
      case_decide; eauto.
  - intros fd'. unfold s'.
    destruct (update_fdset_spec (set_max_fd (Z.max (max_fd s) fd) s1) it fd') as (_ & _ & _ & -> & _).
    simpl. rewrite Hr, Hit, Hused. simpl. fold s'. setoid_rewrite Hlk.
    case_decide; [naive_solver|]. apply (wf_r s Hwf).
  - intros fd'. unfold s'.
    destruct (update_fdset_spec (set_max_fd (Z.max (max_fd s) fd) s1) it fd') as (_ & _ & _ & _ & ->).
    simpl. rewrite Hw, Hit, Hused. simpl. fold s'. setoid_rewrite Hlk.
    case_decide; [naive_solver|]. apply (wf_w s Hwf).
Qed.

(** The scan of [items_max_fd]: an upper bound of the used items scanned, and
    one of them unless it is the initial value. *)
Lemma items_max_from_spec (l : list sitem) n mx :
  (n <= length l)%nat ->
  exists m, items_max_from l n mx = Done m /\ mx <= m /\
    (forall i it, (i < n)%nat -> l !! i = Some it -> ITEM_USED it = true -> i_fd it <= m) /\
    (m = mx \/ exists i it, (i < n)%nat /\ l !! i = Some it /\ ITEM_USED it = true /\ i_fd it = m).
Proof.
  revert l mx. induction n as [|n IH]; intros l mx Hn; simpl.
  { exists mx. split_and!; [done|lia|intros; lia|by left]. }
  destruct l as [|it l]; [simpl in Hn; lia|].
  set (mx' := if ITEM_USED it && (mx <? i_fd it) then i_fd it else mx).
  destruct (IH l mx') as (m & E & Hle & Hub & Hex); [simpl in Hn; lia|].
  assert (mx <= mx') by (unfold mx'; case_match; tests; lia).
  exists m. split_and!; [exact E|lia| |].
  - intros [|i] it' Hi Hl Hu; simpl in Hl; [|eapply (Hub i); eauto; lia].
    injection Hl as <-. unfold mx' in *. rewrite Hu in *. simpl in *.
    destruct (Z.ltb_spec mx (i_fd it)); lia.
  - destruct Hex as [->|(i & it' & ? & ? & ? & ?)]; [|right; exists (S i), it'; split_and!; auto; lia].
    unfold mx'. destruct (ITEM_USED it && (mx <? i_fd it)) eqn:Eb; [|by left].
    right. exists 0%nat, it. apply andb_true_iff in Eb as [? _]. split_and!; auto; lia.
Qed.

Lemma item_init_unused (it : sitem) : ITEM_USED (item_init it) = false.
Proof. reflexivity. Qed.

(** Releasing a registered descriptor removes it from the registry. *)
Lemma release_item_spec s fd it :
  sel_wf s -> look s fd = Some it ->
  exists s', release_item fd s = Done s' /\ sel_wf s' /\
    (forall fd', look s' fd' = if decide (fd' = fd) then None else look s fd').
Proof.
  intros Hwf Hl. pose proof (look_range s fd it Hwf Hl) as Hfd.
  pose proof (max_fd_range s Hwf) as Hmr.
  destruct (item_at_look s fd Hwf Hfd) as (it0 & E0 & Hl0). rewrite Hl in Hl0.
  destruct (ITEM_USED it0) eqn:Hu0; [|done]. injection Hl0 as <-.
  destruct (wf_item s Hwf fd it Hl) as (Hifd & _ & _).
  unfold release_item. rewrite E0. simpl. rewrite Hifd.
  set (itn := Item fd OP_NOOP (i_mask it) (i_handler it) (i_data it)).
  set (s1 := items_update_fdset_for_fd s itn).
  assert (Hs1 : forall fd', fds s1 = fds s /\ fd_size s1 = fd_size s /\ max_fd s1 = max_fd s /\
    (fd' ∈ master_r s1 <-> fd' <> fd /\ fd' ∈ master_r s) /\
    (fd' ∈ master_w s1 <-> fd' <> fd /\ fd' ∈ master_w s)).
  { intros fd'. destruct (update_fdset_spec s itn fd') as (? & ? & ? & Hr & Hw).
    assert (Hw0 : forall f, wants itn f = false) by reflexivity.
    unfold s1. split_and!; auto.
    - rewrite Hr, Hw0, andb_false_r. change (i_fd itn) with fd.
      destruct (decide (fd' = fd)); [split; [discriminate|tauto]|tauto].
    - rewrite Hw, Hw0, andb_false_r. change (i_fd itn) with fd.
      destruct (decide (fd' = fd)); [split; [discriminate|tauto]|tauto]. }
  destruct (wf_table s Hwf) as (l & El & Hlen & Hsz).
  destruct (Hs1 0) as (Hf1 & Hsz1 & Hm1 & _).
  unfold put_item. rewrite Hf1, El, (proj2 (Z.ltb_ge _ _)), (proj2 (Z.leb_gt _ _)) by lia. simpl.
  unfold items_max_fd. simpl. rewrite Hm1.
  set (l' := <[Z.to_nat fd:=item_init item_zero]> l).
  destruct (items_max_from_spec l' (Z.to_nat (max_fd s + 1)) 0) as (m & Em & Hm0 & Hub & Hex).
  { unfold l'. rewrite length_insert. lia. }
  rewrite Em. simpl. eexists. split; [reflexivity|].
  match goal with |- sel_wf ?x /\ _ => set (s' := x) end.
  assert (Hlk : forall fd', look s' fd' = if decide (fd' = fd) then None else look s fd').
  { intros fd'. unfold look, s'. simpl. rewrite El. destruct (Z.ltb_spec fd' 0).
    - case_decide; done.
    - case_decide as Hd; unfold l'; [subst; by rewrite list_lookup_insert_eq by lia|].
      by rewrite list_lookup_insert_ne by lia. }
  assert (Hlook' : forall i it', (i < Z.to_nat (max_fd s + 1))%nat -> l' !! i = Some it' ->
            ITEM_USED it' = true -> look s' (Z.of_nat i) = Some it').
  { intros i it' Hi Hli Hu. unfold look, s'. simpl. rewrite (proj2 (Z.ltb_ge _ _)) by lia.
    rewrite Nat2Z.id, Hli. simpl. by rewrite Hu. }
  split; [|exact Hlk]. split.
  - exists l'. simpl. unfold l'. rewrite length_insert, Hsz1. auto.
  - intros fd' it'. rewrite Hlk. case_decide; [done|]. apply (wf_item s Hwf).
  - intros fd' it' Hl'. simpl.
    assert (Hrng : look s fd' = Some it') by (rewrite Hlk in Hl'; by case_decide).
    pose proof (look_range s fd' it' Hwf Hrng). pose proof (wf_max s Hwf fd' it' Hrng).
    destruct (wf_item s Hwf fd' it' Hrng) as (<- & _ & _).
    unfold look, s' in Hl'. simpl in Hl'. destruct (Z.ltb_spec (i_fd it') 0); [done|].
    destruct (l' !! Z.to_nat (i_fd it')) as [it2|] eqn:E2; [|done]. simpl in Hl'.
    destruct (ITEM_USED it2) eqn:Eu; [|done]. injection Hl' as <-.
    eapply (Hub (Z.to_nat (i_fd it2))); eauto. lia.
  - simpl. destruct Hex as [->|(i & it' & Hi & Hli & Hu & <-)]; [by left|]. right. exists it'.
    pose proof (Hlook' i it' Hi Hli Hu) as Hx. pose proof Hx as Hx2. rewrite Hlk in Hx2.
    case_decide; [done|]. destruct (wf_item s Hwf _ _ Hx2) as (-> & _ & _). done.
  - intros fd'. destruct (Hs1 fd') as (_ & _ & _ & Hr & _). simpl. rewrite Hr. setoid_rewrite Hlk.
    rewrite (wf_r s Hwf fd'). case_decide; [|tauto].
    split; [tauto|]. intros (? & ? & _). done.
  - intros fd'. destruct (Hs1 fd') as (_ & _ & _ & _ & Hw). simpl. rewrite Hw. setoid_rewrite Hlk.
    rewrite (wf_w s Hwf fd'). case_decide; [|tauto].
    split; [tauto|]. intros (? & ? & _). done.
Qed.
End Spec.

(** ** The selector as a registry *)

Module Registry.
Section Registry.
Context {H : Type}.

Record entry := Entry { e_interest : Z; e_mask : Z; e_handler : H; e_data : Z }.

Inductive op :=
| Register (fd : Z) (h : option H) (interest data : Z)
| Unregister (fd : Z)
| SetInterest (fd i : Z)
| AddInterest (fd i : Z)
| UnmaskInterest (fd i : Z)
| RemoveInterest (fd i : Z)
| MaskInterest (fd i : Z).

Definition adjust (g : gmap Z entry) (fd : Z) (f : entry -> entry)
    : selector_status * gmap Z entry :=
  match g !! fd with
  | Some e => (SELECTOR_SUCCESS, <[fd := f e]> g)
  | None => (SELECTOR_IARGS, g)
  end.

(** What selector.h says of each operation. *)
Definition rstep (g : gmap Z entry) (o : op) : selector_status * gmap Z entry :=
  match o with
  | Register fd h interest data =>
      match h with
      | Some h =>
          if INVALID_FD fd then (SELECTOR_IARGS, g)
          else match g !! fd with
               | Some _ => (SELECTOR_FDINUSE, g)
               | None => (SELECTOR_SUCCESS, <[fd := Entry interest (2 ^ 32 - 1) h data]> g)
               end
      | None => (SELECTOR_IARGS, g)
      end
  | Unregister fd =>
      match g !! fd with
      | Some _ => (SELECTOR_SUCCESS, delete fd g)
      | None => (SELECTOR_IARGS, g)
      end
  | SetInterest fd i => adjust g fd (fun e => Entry i (e_mask e) (e_handler e) (e_data e))
  | AddInterest fd i =>
      adjust g fd (fun e => Entry (Z.lor (e_interest e) i) (Z.lor (e_mask e) i)
                              (e_handler e) (e_data e))
  | UnmaskInterest fd i =>
      adjust g fd (fun e => Entry (e_interest e) (Z.lor (e_mask e) i) (e_handler e) (e_data e))
  | RemoveInterest fd i =>
      adjust g fd (fun e => Entry (INTEREST_OFF (e_interest e) i) (e_mask e)
                              (e_handler e) (e_data e))
  | MaskInterest fd i =>
      adjust g fd (fun e => Entry (e_interest e) (INTEREST_OFF (e_mask e) i)
                              (e_handler e) (e_data e))
  end.

(** The same operations on the struct; unregistering is its part after the
    close callback. *)
Definition sstep (s : fdselector H) (o : op) : outcome (selector_status * fdselector H) :=
  match o with
  | Register fd h interest data => selector_register true item_zero fd h interest data s
  | Unregister fd =>
      if INVALID_FD fd then mret (SELECTOR_IARGS, s)
      else
        it ← item_at s fd;
        if negb (ITEM_USED it) then mret (SELECTOR_IARGS, s)
        else s' ← release_item fd s; mret (SELECTOR_SUCCESS, s')
  | SetInterest fd i => selector_set_interest fd i s
  | AddInterest fd i => selector_add_interest fd i s
  | UnmaskInterest fd i => selector_unmask_interest fd i s
  | RemoveInterest fd i => selector_remove_interest fd i s
  | MaskInterest fd i => selector_mask_interest fd i s
  end.

Fixpoint srun (s : fdselector H) (os : list op) : outcome (list selector_status * fdselector H) :=
  match os with
  | [] => mret ([], s)
  | o :: os' => '(r, s') ← sstep s o; '(rs, s'') ← srun s' os'; mret (r :: rs, s'')
  end.

Fixpoint rrun (g : gmap Z entry) (os : list op) : list selector_status * gmap Z entry :=
  match os with
  | [] => ([], g)
  | o :: os' => let '(r, g') := rstep g o in let '(rs, g'') := rrun g' os' in (r :: rs, g'')
  end.

Definition to_item (fd : Z) (e : entry) : item H :=
  Item fd (e_interest e) (e_mask e) (Some (e_handler e)) (e_data e).

Definition repr (s : fdselector H) (g : gmap Z entry) : Prop :=
  sel_wf s /\ forall fd, look s fd = to_item fd <$> g !! fd.
End Registry.
Arguments entry : clear implicits.
Arguments op : clear implicits.
End Registry.
Import Registry.

Section Refinement.
Context {H : Type}.
Implicit Types (s : fdselector H) (g : gmap Z (entry H)) (o : op H).

Lemma repr_insert s g s' fd e :
  repr s g -> sel_wf s' ->
  (forall fd', look s' fd' = if decide (fd' = fd) then Some (to_item fd e) else look s fd') ->
  repr s' (<[fd := e]> g).
Proof.
  intros [_ Hg] Hwf Hl. split; [done|]. intros fd'. rewrite Hl, lookup_insert.
  destruct (decide (fd' = fd)) as [->|Hne].
  - by rewrite decide_True.
  - by rewrite decide_False, Hg by done.
Qed.

Lemma set_max_fd_id s : set_max_fd (max_fd s) s = s.
Proof. by destruct s. Qed.

Lemma update_item_spec s g fd (f : item H -> item H) (f' : entry H -> entry H) :
  repr s g -> (forall e, f (to_item fd e) = to_item fd (f' e)) ->
  exists s', update_item f fd s = Done ((adjust g fd f').1, s') /\ repr s' (adjust g fd f').2.
Proof.
  intros Hrepr Hff. pose proof Hrepr as [Hwf Hg]. unfold update_item, adjust.
  destruct (INVALID_FD fd) eqn:Einv.
  { destruct (g !! fd) as [e|] eqn:Eg; [|by exists s].
    assert (Hlk : look s fd = Some (to_item fd e)) by (by rewrite Hg, Eg).
    pose proof (look_range s fd _ Hwf Hlk) as Hr. apply INVALID_FD_spec in Hr. congruence. }
  apply INVALID_FD_spec in Einv. destruct (item_at_look s fd Hwf Einv) as (it & -> & Hl).
  simpl. rewrite Hg in Hl. destruct (g !! fd) as [e|] eqn:Eg; simpl in Hl.
  - destruct (ITEM_USED it) eqn:Eu; [|done]. injection Hl as <-. simpl. rewrite Hff.
    assert (Hlk : look s fd = Some (to_item fd e)) by (by rewrite Hg, Eg).
    pose proof (wf_max s Hwf fd _ Hlk) as Hmax.
    destruct (put_item_spec s fd (to_item fd (f' e)) Hwf Einv) as (s1 & E1 & Hm1 & _).
    rewrite E1. simpl.
    destruct (store_item_wf s fd (to_item fd (f' e)) s1 (max_fd s1) Hwf Einv) as [Hwf' Hlook'];
      try done; [lia|].
    rewrite set_max_fd_id in *. eexists. split; [reflexivity|]. by eapply repr_insert.
  - destruct (ITEM_USED it); [done|]. simpl. by exists s.
Qed.

Lemma register_spec s g fd h interest data :
  repr s g ->
  exists s', selector_register true item_zero fd h interest data s
             = Done ((rstep g (Register fd h interest data)).1, s') /\
             repr s' (rstep g (Register fd h interest data)).2.
Proof.
  intros Hrepr. pose proof Hrepr as [Hwf Hg]. unfold selector_register, rstep.
  destruct h as [h|]; [|rewrite bool_decide_eq_true_2, orb_true_r by done; by exists s].
  rewrite bool_decide_eq_false_2, orb_false_r by done.
  destruct (INVALID_FD fd) eqn:Einv; [by exists s|]. apply INVALID_FD_spec in Einv.
  destruct (wf_table s Hwf) as (l & El & Hlen & Hsz).
  rewrite (proj2 (Z.ltb_ge _ _)) by lia. simpl.
  destruct (item_at_look s fd Hwf Einv) as (it & -> & Hl). simpl.
  rewrite Hg in Hl. destruct (g !! fd) as [e|] eqn:Eg; simpl in Hl.
  - destruct (ITEM_USED it); [|done]. by exists s.
  - destruct (ITEM_USED it); [done|]. simpl.
    set (e := Entry interest (2 ^ 32 - 1) h data).
    change (Item fd interest (u32 (-1)) (Some h) data) with (to_item fd e).
    destruct (put_item_spec s fd (to_item fd e) Hwf Einv) as (s1 & E1 & Hm1 & _).
    rewrite E1. simpl.
    destruct (store_item_wf s fd (to_item fd e) s1 (Z.max (max_fd s1) fd) Hwf Einv)
      as [Hwf' Hlook']; try done; [by rewrite Hm1|].
    replace (if max_fd s1 <? fd then set_max_fd fd s1 else s1)
      with (set_max_fd (Z.max (max_fd s1) fd) s1).
    + eexists. split; [reflexivity|]. by eapply repr_insert.
    + destruct (Z.ltb_spec (max_fd s1) fd); [by rewrite Z.max_r by lia|].
      rewrite Z.max_l by lia. apply set_max_fd_id.
Qed.

Lemma unregister_spec s g fd :
  repr s g ->
  exists s', sstep s (Unregister fd) = Done ((rstep g (Unregister fd)).1, s') /\
             repr s' (rstep g (Unregister fd)).2.
Proof.
  intros Hrepr. pose proof Hrepr as [Hwf Hg]. simpl.
  destruct (INVALID_FD fd) eqn:Einv.
  { destruct (g !! fd) as [e|] eqn:Eg; [|by exists s].
    assert (Hlk : look s fd = Some (to_item fd e)) by (by rewrite Hg, Eg).
    pose proof (look_range s fd _ Hwf Hlk) as Hr. apply INVALID_FD_spec in Hr. congruence. }
  apply INVALID_FD_spec in Einv. destruct (item_at_look s fd Hwf Einv) as (it & -> & Hl).
  simpl. pose proof Hl as Hlk. rewrite Hg in Hl. destruct (g !! fd) as [e|] eqn:Eg; simpl in Hl.
  - destruct (ITEM_USED it); [|done]. simpl.
    destruct (release_item_spec s fd it Hwf Hlk) as (s' & -> & Hwf' & Hl'). simpl.
    exists s'. split; [done|]. split; [done|]. intros fd'. rewrite Hl', lookup_delete.
    destruct (decide (fd' = fd)) as [->|Hne]; [by rewrite decide_True|].
    by rewrite decide_False, Hg by done.
  - destruct (ITEM_USED it); [done|]. by exists s.
Qed.

Lemma sstep_spec s g o :
  repr s g -> exists s', sstep s o = Done ((rstep g o).1, s') /\ repr s' (rstep g o).2.
Proof.
  intros Hr. destruct o as [fd h i d|fd|fd i|fd i|fd i|fd i|fd i];
    [by apply register_spec | by apply unregister_spec |..]; simpl; by apply update_item_spec.
Qed.

(** C20. Refinement: on a well-formed selector every sequence of registrations,
    removals and changes of interest returns the statuses selector.h documents
    and never faults (no access outside the table), and leaves a selector that
    represents the resulting registry: the two sets handed to the kernel hold
    exactly the descriptors whose unmasked interests include the event, and
    [max_fd] bounds them. *)
Theorem selector_refines_registry (s : fdselector H) (g : gmap Z (entry H)) (os : list (op H)) :
  repr s g ->
  exists s', srun s os = Done ((rrun g os).1, s') /\ repr s' (rrun g os).2 /\
    forall fd, (fd ∈ master_r s' <->
                exists e, (rrun g os).2 !! fd = Some e /\
                          flag (Z.land (e_interest e) (e_mask e)) OP_READ = true) /\
               (fd ∈ master_w s' <->
                exists e, (rrun g os).2 !! fd = Some e /\
                          flag (Z.land (e_interest e) (e_mask e)) OP_WRITE = true) /\
               (forall e, (rrun g os).2 !! fd = Some e -> 0 <= fd <= max_fd s').
Proof.
  assert (Hfinal : forall s g, repr s g -> forall fd,
    (fd ∈ master_r s <-> exists e, g !! fd = Some e /\
                          flag (Z.land (e_interest e) (e_mask e)) OP_READ = true) /\
    (fd ∈ master_w s <-> exists e, g !! fd = Some e /\
                          flag (Z.land (e_interest e) (e_mask e)) OP_WRITE = true) /\
    (forall e, g !! fd = Some e -> 0 <= fd <= max_fd s)).
  { intros s0 g0 [Hwf Hg] fd. rewrite (wf_r s0 Hwf), (wf_w s0 Hwf). setoid_rewrite Hg.
    split_and!; [destruct (g0 !! fd); simpl; naive_solver..|].
    intros e Ee. assert (Hl : look s0 fd = Some (to_item fd e)) by (by rewrite Hg, Ee).
    split; [eapply look_range; eauto | eapply wf_max; eauto]. }
  revert s g. induction os as [|o os IH]; intros s g Hr; simpl; [eauto 6|].
  destruct (sstep_spec s g o Hr) as (s1 & -> & Hr1). simpl.
  destruct (rstep g o) as [r g1] eqn:Ers. simpl in *.
  destruct (IH s1 g1 Hr1) as (s2 & -> & Hr2 & Hf). simpl.
  destruct (rrun g1 os) as [rs g2] eqn:Err. simpl in *. eauto 6.
Qed.

(** The selector main creates, with room for every descriptor. *)
Definition selector0 : fdselector H :=
  FdSelector (Some (repeat (item_init item_zero) 1025)) 1025 0 ∅ ∅ ∅ ∅ [].

Lemma selector_new_1024 : selector_new (H:=H) true true 1024 = Done (Some selector0).
Proof. vm_compute. reflexivity. Qed.

Lemma look_selector0 fd : look selector0 fd = None.
Proof.
  unfold look, selector0. cbn [fds]. destruct (Z.ltb_spec fd 0); [done|].
  destruct ((repeat (item_init item_zero) 1025 : list (item H)) !! Z.to_nat fd) as [it|] eqn:E;
    [|done]. cbn [mbind option_bind].
  apply list_elem_of_lookup_2, list_elem_of_In, repeat_spec in E as ->. done.
Qed.

Lemma repr_selector0 : repr selector0 ∅.
Proof.
  split.
  - split.
    + eexists. split; [reflexivity|]. rewrite repeat_length. simpl. unfold FD_SETSIZE. lia.
    + intros fd it. by rewrite look_selector0.
    + intros fd it. by rewrite look_selector0.
    + by left.
    + intros fd. setoid_rewrite look_selector0. simpl. set_solver.
    + intros fd. setoid_rewrite look_selector0. simpl. set_solver.
  - intros fd. by rewrite look_selector0, lookup_empty.
Qed.
End Refinement.

Lemma selector_refines_registry_witness :
  let os := [Register 5 (Some tt) OP_READ 77; AddInterest 5 OP_WRITE; MaskInterest 5 OP_READ;
             Register 5 (Some tt) OP_READ 78; Unregister 9] in
  selector_new (H:=unit) true true 1024 = Done (Some selector0) /\
  repr (selector0 (H:=unit)) ∅ /\
  exists s', srun selector0 os =
    Done ([SELECTOR_SUCCESS; SELECTOR_SUCCESS; SELECTOR_SUCCESS; SELECTOR_FDINUSE; SELECTOR_IARGS], s').
Proof.
  intros os. split; [exact selector_new_1024|]. split; [exact repr_selector0|].
  destruct (selector_refines_registry selector0 ∅ os repr_selector0) as (s' & E & _).
  exists s'. exact E.
Defined.

(** The table [l] is full up to, and not including, the descriptor [fd]. *)
Definition at_capacity {H} (s : fdselector H) (l : list (item H)) (fd : Z) : Prop :=
  fds s = Some l /\ Z.of_nat (length l) = fd_size s /\ fd = fd_size s /\ fd < FD_SETSIZE.

(** C40. The growth test of [selector_register] is off by one: a descriptor
    equal to the size of the table is not below it, yet the table is not grown,
    and the item accessed lies just outside. The server is not exposed to it
    because main asks for 1024 elements, which the table never outgrows. *)
Theorem register_at_capacity_overruns {H} (s : fdselector H) (l : list (item H)) (fd : Z)
    (h : H) (interest data : Z) (alloc : bool) (grown : item H) :
  at_capacity s l fd ->
  selector_register alloc grown fd (Some h) interest data s = Fault Undefined.
Proof.
  intros (El & Hlen & -> & Hfd). unfold selector_register.
  rewrite (proj2 (INVALID_FD_spec _)) by lia. rewrite bool_decide_eq_false_2 by done. simpl.
  rewrite Z.ltb_irrefl. simpl. unfold item_at.
  rewrite El, (proj2 (Z.ltb_ge _ _)) by lia. by rewrite lookup_ge_None_2 by lia.
Qed.

Lemma register_at_capacity_overruns_witness :
  exists s, selector_new (H:=unit) true true 1 = Done (Some s) /\
    selector_register true item_zero 3 (Some tt) OP_READ 0 s = Fault Undefined.
Proof.
  eexists. split; [reflexivity|].
  eapply register_at_capacity_overruns. split_and!; reflexivity.
Defined.
