(* ===== verification/Stm.v ===== *)
(** * Stm: src/stm.c and include/stm.h

    The state-machine engine that turns selector events into the transitions of
    a connection. A [state_definition] holds the optional callbacks of a state;
    [state_machine] is the struct. The machine lives in the program state [W]
    and the callbacks may read it, so the engine accesses it through a [stm_ref]
    that loads and stores the struct (and faults when it has been freed). *)

From S2P Require Import Prelude Selector.

(** [current] is the index of the current definition, [None] the null pointer.
    The table [states] is static, so it is an argument of the operations. *)
Record state_machine := StateMachine {
  initial : nat;
  max_state : nat;
  current : option nat
}.

(** [ids] are the [state] members of the table, which is all that is read. *)
Definition stm_state (ids : list nat) (m : state_machine) : outcome nat :=
  match current m with
  | Some i => of_option Undefined (ids !! i)
  | None => mret (initial m)
  end.

Section Stm.
Context {W : Type}.

Record state_definition := StateDefinition {
  sd_state : nat;
  on_arrival : option (nat -> selector_key -> M W unit);
  on_departure : option (nat -> selector_key -> M W unit);
  on_read_ready : option (selector_key -> M W nat);
  on_write_ready : option (selector_key -> M W nat);
  on_block_ready : option (selector_key -> M W nat)
}.

Record stm_ref := StmRef {
  stm_load : M W state_machine;
  stm_store : state_machine -> M W unit
}.

Context (states : list state_definition).

Definition definition_at (i : nat) : outcome state_definition :=
  of_option Undefined (states !! i).

(** The loop of [stm_init] over [i .. max_state]. *)
Fixpoint check_states (i n : nat) : outcome unit :=
  match n with
  | O => mret tt
  | S n' =>
      d ← definition_at i;
      if negb (i =? sd_state d)%nat then Fault Abort else check_states (S i) n'
  end.

Definition stm_init (m : state_machine) : outcome state_machine :=
  check_states 0 (max_state m + 1);;
  if initial m <? max_state m
  then mret (StateMachine (initial m) (max_state m) None)
  else Fault Abort.

(** [stm->current = stm->states + i] *)
Definition goto_state (r : stm_ref) (i : nat) : M W unit :=
  m ← stm_load r;
  stm_store r (StateMachine (initial m) (max_state m) (Some i)).

(** [if(cb != NULL) cb(state, key)] for the definition at [i]. *)
Definition fire (cb : state_definition -> option (nat -> selector_key -> M W unit)) (i : nat)
    (key : selector_key) : M W unit :=
  d ← lift (definition_at i);
  match cb d with Some f => f (sd_state d) key | None => mret tt end.

Definition handle_first (r : stm_ref) (key : selector_key) : M W unit :=
  m ← stm_load r;
  match current m with
  | None => goto_state r (initial m);; fire on_arrival (initial m) key
  | Some _ => mret tt
  end.

Definition jump (r : stm_ref) (next : nat) (key : selector_key) : M W unit :=
  m ← stm_load r;
  if max_state m <? next then mfault Abort
  else if bool_decide (current m = Some next) then mret tt
  else
    match current m with Some i => fire on_departure i key | None => mret tt end;;
    goto_state r next;;
    fire on_arrival next key.

(** The body the three event handlers share; [ev] selects the callback. *)
Definition stm_handler (ev : state_definition -> option (selector_key -> M W nat))
    (r : stm_ref) (key : selector_key) : M W nat :=
  handle_first r key;;
  m ← stm_load r;
  match current m with
  | None => mfault Undefined
  | Some i =>
      d ← lift (definition_at i);
      match ev d with
      | None => mfault Abort
      | Some f => ret ← f key; jump r ret key;; mret ret
      end
  end.

Definition stm_handler_read : stm_ref -> selector_key -> M W nat := stm_handler on_read_ready.
Definition stm_handler_write : stm_ref -> selector_key -> M W nat := stm_handler on_write_ready.
Definition stm_handler_block : stm_ref -> selector_key -> M W nat := stm_handler on_block_ready.

Definition stm_handler_close (r : stm_ref) (key : selector_key) : M W unit :=
  m ← stm_load r;
  match current m with Some i => fire on_departure i key | None => mret tt end.

End Stm.
Arguments state_definition : clear implicits.
Arguments stm_ref : clear implicits.
