(* ===== verification/MgmtProtocol.v ===== *)
(** * MgmtProtocol: src/mgmt_protocol.c, include/mgmt_protocol.h and the Input
    struct of include/mgmt_protocol.re.h

    The input buffer of a management connection. The scanner's pointers are
    offsets from the start of the area. The area is the 2048-byte array
    [read_buf_raw] and the four bytes of padding that follow it in
    [struct mgmt_client]: both routines store a terminator at [lim], which is
    one past the array when the buffer is full. *)

From S2P Require Import Prelude Os.

Inductive MgmtCommand :=
| MGMT_INVALID_CMD
| MGMT_INCOMPLETE
| MGMT_TOKEN
| MGMT_STATS
| MGMT_CAPA
| MGMT_USERS
| MGMT_GET_BUFFSIZE
| MGMT_SET_BUFFSIZE
| MGMT_GET_DISSECTOR_STATUS
| MGMT_SET_DISSECTOR_STATUS
| MGMT_ADD_USER
| MGMT_QUIT
| MGMT_INVALID_ARGS.

#[global] Instance MgmtCommand_eq_dec : EqDecision MgmtCommand.
Proof. solve_decision. Defined.

(** [enum YYCONDTYPE] *)
Definition yycpass : Z := 0.
Definition yyctrns : Z := 1.

Record Input := MkInput {
  in_mem : list byte;
  in_bufSize : nat;
  in_lim : nat; in_cur : nat; in_mar : nat; in_tok : nat;
  in_state : Z; in_cond : Z;
  in_yyt1 : nat; in_yyt2 : nat
}.

(** Pads after [read_buf_raw] up to the next member, a struct of pointers. *)
Definition PADDING : nat := 4.

Definition initState (i : Input) : outcome Input :=
  m ← mem_write (in_mem i) (in_bufSize i) [NUL];
  let e := in_bufSize i in
  mret (MkInput m e e e e e (-1)%Z 0%Z (in_yyt1 i) (in_yyt2 i)).

Section Fill.
Context {E : Type} `{OS E}.

(** [memmove] of the unread bytes to the front, the pointers shifted with
    them, then one [read] into the free space. The tag pointers [yyt1] and
    [yyt2] are not shifted. *)
Definition fillBuffer (i : Input) (fd : Z) : M (io E) (Z * Input) :=
  let start := in_tok i in
  let shift := start in
  let free := in_bufSize i - (in_lim i - start) in
  l ← lift (mem_read (in_mem i) start (in_bufSize i - shift));
  m ← lift (mem_write (in_mem i) 0 l);
  let lim := in_lim i - shift in
  let cur := in_cur i - shift in
  let mar := in_mar i - shift in
  let tok := in_tok i - shift in
  r ← sys_read fd free;
  '(count, m, lim) ←
    lift match r with
         | Some d => m' ← mem_write m lim d;
                     mret (Z.of_nat (length d), m', lim + length d)
         | None => mret ((-1)%Z, m, lim)
         end;
  m ← lift (mem_write m lim [NUL]);
  mret (count, MkInput m (in_bufSize i) lim cur mar tok (in_state i) (in_cond i)
                 (in_yyt1 i) (in_yyt2 i)).
End Fill.
