(* ===== verification/LexerCode.v ===== *)
(** * LexerCode: the instructions of src/mgmt_protocol.re.c

    The scanner re2c generated is a graph of labelled blocks. A block advances
    the cursor, loads the byte under it and switches on it; each arm may save a
    tag and goes to another block. [code] has one constructor per statement
    the blocks are made of and [exec] gives their meaning on the scanner's
    variables. The blocks themselves are in LexerPass and LexerTrns, one
    definition per label. *)

From S2P Require Import Prelude MgmtProtocol.

Inductive ytag := yyt1 | yyt2.

#[global] Instance ytag_eq_dec : EqDecision ytag.
Proof. solve_decision. Defined.

(** A group of [case] labels and its statements: the test for the end of the
    input (which saves the state it is given), the tag it saves, the label it
    goes to. Labels are given as inclusive ranges of character codes; the
    ranges of [default] are not read. *)
Record arm := Arm {
  arm_chars : list (Z * Z);
  arm_fill : option Z;
  arm_tag : option ytag;
  arm_goto : positive
}.

(** The end of an argument: a tag, or two bytes before the cursor. *)
Inductive arge_expr := arge_yyt2 | arge_cur_2.

Inductive code :=
| Inc (k : code)                        (** ++in->cur *)
| IncMark (k : code)                    (** in->mar = ++in->cur *)
| Fill (n : Z) (k : code)               (** yyFillLabel<n>: yych = *in->cur *)
| Switch (arms : list arm) (dflt : arm) (** switch (yych) *)
| Restore (k : code)                    (** in->cur = in->mar *)
| Goto (l : positive)                     (** goto, or falling into the next label *)
| Args (e : arge_expr) (k : code)       (** args = yyt1; arge = e *)
| Result (c : MgmtCommand).             (** in->state = -1; result = c; break *)

(** The variables of the scanner: [yych], the offsets, and the ends of the
    argument ([None] for the null pointer). *)
Record lexer := Lexer {
  l_cur : nat; l_mar : nat;
  l_yyt1 : nat; l_yyt2 : nat;
  l_yych : byte;
  l_arg : option (nat * nat)
}.

Definition set_tag (t : option ytag) (s : lexer) : lexer :=
  match t with
  | None => s
  | Some yyt1 => Lexer (l_cur s) (l_mar s) (l_cur s) (l_yyt2 s) (l_yych s) (l_arg s)
  | Some yyt2 => Lexer (l_cur s) (l_mar s) (l_yyt1 s) (l_cur s) (l_yych s) (l_arg s)
  end.

(** What a run of statements ends with. *)
Inductive next :=
| Jump (l : positive) (s : lexer)
| Need (n : Z) (s : lexer)                  (** return MGMT_INCOMPLETE in state n *)
| Break (c : MgmtCommand) (s : lexer).

Definition in_ranges (z : Z) (r : list (Z * Z)) : bool :=
  existsb (fun '(lo, hi) => (lo <=? z) && (z <=? hi))%Z r.

Fixpoint select_arm (z : Z) (arms : list arm) (dflt : arm) : arm :=
  match arms with
  | [] => dflt
  | a :: arms' => if in_ranges z (arm_chars a) then a else select_arm z arms' dflt
  end.

Definition take_arm (lim : nat) (a : arm) (s : lexer) : next :=
  match arm_fill a with
  | Some n => if lim <=? l_cur s then Need n s else Jump (arm_goto a) (set_tag (arm_tag a) s)
  | None => Jump (arm_goto a) (set_tag (arm_tag a) s)
  end.

Fixpoint exec (mem : list byte) (lim : nat) (k : code) (s : lexer) : outcome next :=
  match k with
  | Inc k => exec mem lim k (Lexer (l_cur s + 1) (l_mar s) (l_yyt1 s) (l_yyt2 s) (l_yych s) (l_arg s))
  | IncMark k =>
      exec mem lim k
        (Lexer (l_cur s + 1) (l_cur s + 1) (l_yyt1 s) (l_yyt2 s) (l_yych s) (l_arg s))
  | Fill _ k =>
      c ← mem_get mem (l_cur s);
      exec mem lim k (Lexer (l_cur s) (l_mar s) (l_yyt1 s) (l_yyt2 s) c (l_arg s))
  | Switch arms dflt => mret (take_arm lim (select_arm (Zb (l_yych s)) arms dflt) s)
  | Restore k => exec mem lim k (Lexer (l_mar s) (l_mar s) (l_yyt1 s) (l_yyt2 s) (l_yych s) (l_arg s))
  | Goto l => mret (Jump l s)
  | Args e k =>
      let arge := match e with arge_yyt2 => l_yyt2 s | arge_cur_2 => l_cur s - 2 end in
      exec mem lim k
        (Lexer (l_cur s) (l_mar s) (l_yyt1 s) (l_yyt2 s) (l_yych s) (Some (l_yyt1 s, arge)))
  | Result c => mret (Break c s)
  end.

(** The [yyFillLabel] of a block stands before its load. *)
Definition fill_of (k : code) : option code :=
  match k with
  | Fill _ _ => Some k
  | Inc (Fill _ _ as k') | IncMark (Fill _ _ as k') => Some k'
  | _ => None
  end.
