(* ===== verification/LexerPass.v ===== *)
(** * LexerPass: the blocks of src/mgmt_protocol.re.c for the condition pass

    One definition per label, in the order of the file; [default] is the last
    arm of a switch. The labels of a switch are written as ranges of codes. *)

From S2P Require Import Prelude MgmtProtocol LexerCode.

Local Open Scope Z_scope.

Definition yyc_pass : code :=
  Fill 0 (Switch
    [Arm [(13, 13)] None None 4;
     Arm [(32, 65); (69, 75); (77, 79); (82, 82); (86, 97); (101, 107); (109, 111);
         (114, 114); (118, 127)] None None 5;
     Arm [(66, 66); (98, 98)] None None 6;
     Arm [(67, 67); (99, 99)] None None 7;
     Arm [(68, 68); (100, 100)] None None 8;
     Arm [(76, 76); (108, 108)] None None 9;
     Arm [(80, 80); (112, 112)] None None 10;
     Arm [(81, 81); (113, 113)] None None 11;
     Arm [(83, 83); (115, 115)] None None 12;
     Arm [(84, 84); (116, 116)] None None 13;
     Arm [(85, 85); (117, 117)] None None 14]
    (Arm [] (Some 0) None 2)).

Definition yy2 : code :=
  Inc (Goto 3).

Definition yy3 : code :=
  Result MGMT_INVALID_CMD.

Definition yy4 : code :=
  Inc (Fill 1 (Switch
    [Arm [(10, 10)] None None 15]
    (Arm [] (Some 1) None 3))).

Definition yy5 : code :=
  IncMark (Fill 2 (Switch
    [Arm [(13, 13)] None None 16;
     Arm [(32, 127)] None None 18]
    (Arm [] (Some 2) None 3))).

Definition yy6 : code :=
  IncMark (Fill 3 (Switch
    [Arm [(13, 13)] None None 16;
     Arm [(32, 84); (86, 116); (118, 127)] None None 18;
     Arm [(85, 85); (117, 117)] None None 20]
    (Arm [] (Some 3) None 3))).

Definition yy7 : code :=
  IncMark (Fill 4 (Switch
    [Arm [(13, 13)] None None 16;
     Arm [(32, 64); (66, 96); (98, 127)] None None 18;
     Arm [(65, 65); (97, 97)] None None 21]
    (Arm [] (Some 4) None 3))).

Definition yy8 : code :=
  IncMark (Fill 5 (Switch
    [Arm [(13, 13)] None None 16;
     Arm [(32, 72); (74, 104); (106, 127)] None None 18;
     Arm [(73, 73); (105, 105)] None None 22]
    (Arm [] (Some 5) None 3))).

Definition yy9 : code :=
  IncMark (Fill 6 (Switch
    [Arm [(13, 13)] None None 16;
     Arm [(32, 72); (74, 104); (106, 127)] None None 18;
     Arm [(73, 73); (105, 105)] None None 23]
    (Arm [] (Some 6) None 3))).

Definition yy10 : code :=
  IncMark (Fill 7 (Switch
    [Arm [(13, 13)] None None 16;
     Arm [(32, 64); (66, 96); (98, 127)] None None 18;
     Arm [(65, 65); (97, 97)] None None 24]
    (Arm [] (Some 7) None 3))).

Definition yy11 : code :=
  IncMark (Fill 8 (Switch
    [Arm [(13, 13)] None None 16;
     Arm [(32, 84); (86, 116); (118, 127)] None None 18;
     Arm [(85, 85); (117, 117)] None None 25]
    (Arm [] (Some 8) None 3))).

Definition yy12 : code :=
  IncMark (Fill 9 (Switch
    [Arm [(13, 13)] None None 16;
     Arm [(32, 68); (70, 100); (102, 127)] None None 18;
     Arm [(69, 69); (101, 101)] None None 26]
    (Arm [] (Some 9) None 3))).

Definition yy13 : code :=
  IncMark (Fill 10 (Switch
    [Arm [(13, 13)] None None 16;
     Arm [(32, 78); (80, 110); (112, 127)] None None 18;
     Arm [(79, 79); (111, 111)] None None 27]
    (Arm [] (Some 10) None 3))).

Definition yy14 : code :=
  IncMark (Fill 11 (Switch
    [Arm [(13, 13)] None None 16;
     Arm [(32, 82); (84, 114); (116, 127)] None None 18;
     Arm [(83, 83); (115, 115)] None None 28]
    (Arm [] (Some 11) None 3))).

Definition yy15 : code :=
  Inc (Result MGMT_INVALID_CMD).

Definition yy16 : code :=
  Inc (Fill 12 (Switch
    [Arm [(10, 10)] None None 29]
    (Arm [] (Some 12) None 17))).

Definition yy17 : code :=
  Restore (Goto 3).

Definition yy18 : code :=
  Inc (Fill 13 (Goto 19)).

Definition yy19 : code :=
  Switch
    [Arm [(13, 13)] None None 16;
     Arm [(32, 127)] None None 18]
    (Arm [] (Some 13) None 17).

Definition yy20 : code :=
  Inc (Fill 14 (Switch
    [Arm [(0, 0)] (Some 14) None 17;
     Arm [(70, 70); (102, 102)] None None 30]
    (Arm [] None None 19))).

Definition yy21 : code :=
  Inc (Fill 15 (Switch
    [Arm [(0, 0)] (Some 15) None 17;
     Arm [(80, 80); (112, 112)] None None 31]
    (Arm [] None None 19))).

Definition yy22 : code :=
  Inc (Fill 16 (Switch
    [Arm [(0, 0)] (Some 16) None 17;
     Arm [(83, 83); (115, 115)] None None 32]
    (Arm [] None None 19))).

Definition yy23 : code :=
  Inc (Fill 17 (Switch
    [Arm [(0, 0)] (Some 17) None 17;
     Arm [(83, 83); (115, 115)] None None 33]
    (Arm [] None None 19))).

Definition yy24 : code :=
  Inc (Fill 18 (Switch
    [Arm [(0, 0)] (Some 18) None 17;
     Arm [(83, 83); (115, 115)] None None 34]
    (Arm [] None None 19))).

Definition yy25 : code :=
  Inc (Fill 19 (Switch
    [Arm [(0, 0)] (Some 19) None 17;
     Arm [(73, 73); (105, 105)] None None 35]
    (Arm [] None None 19))).

Definition yy26 : code :=
  Inc (Fill 20 (Switch
    [Arm [(0, 0)] (Some 20) None 17;
     Arm [(84, 84); (116, 116)] None None 36]
    (Arm [] None None 19))).

Definition yy27 : code :=
  Inc (Fill 21 (Switch
    [Arm [(0, 0)] (Some 21) None 17;
     Arm [(75, 75); (107, 107)] None None 37]
    (Arm [] None None 19))).

Definition yy28 : code :=
  Inc (Fill 22 (Switch
    [Arm [(0, 0)] (Some 22) None 17;
     Arm [(69, 69); (101, 101)] None None 38]
    (Arm [] None None 19))).

Definition yy29 : code :=
  Inc (Result MGMT_INVALID_CMD).

Definition yy30 : code :=
  Inc (Fill 23 (Switch
    [Arm [(0, 0)] (Some 23) None 17;
     Arm [(70, 70); (102, 102)] None None 39]
    (Arm [] None None 19))).

Definition yy31 : code :=
  Inc (Fill 24 (Switch
    [Arm [(0, 0)] (Some 24) None 17;
     Arm [(65, 65); (97, 97)] None None 40]
    (Arm [] None None 19))).

Definition yy32 : code :=
  Inc (Fill 25 (Switch
    [Arm [(0, 0)] (Some 25) None 17;
     Arm [(83, 83); (115, 115)] None None 41]
    (Arm [] None None 19))).

Definition yy33 : code :=
  Inc (Fill 26 (Switch
    [Arm [(0, 0)] (Some 26) None 17;
     Arm [(84, 84); (116, 116)] None None 42]
    (Arm [] None None 19))).

Definition yy34 : code :=
  Inc (Fill 27 (Switch
    [Arm [(0, 0)] (Some 27) None 17;
     Arm [(83, 83); (115, 115)] None None 42]
    (Arm [] None None 19))).

Definition yy35 : code :=
  Inc (Fill 28 (Switch
    [Arm [(0, 0)] (Some 28) None 17;
     Arm [(84, 84); (116, 116)] None None 43]
    (Arm [] None None 19))).

Definition yy36 : code :=
  Inc (Fill 29 (Switch
    [Arm [(0, 0)] (Some 29) None 17;
     Arm [(45, 45)] None None 44]
    (Arm [] None None 19))).

Definition yy37 : code :=
  Inc (Fill 30 (Switch
    [Arm [(0, 0)] (Some 30) None 17;
     Arm [(69, 69); (101, 101)] None None 45]
    (Arm [] None None 19))).

Definition yy38 : code :=
  Inc (Fill 31 (Switch
    [Arm [(0, 0)] (Some 31) None 17;
     Arm [(82, 82); (114, 114)] None None 34]
    (Arm [] None None 19))).

Definition yy39 : code :=
  Inc (Fill 32 (Switch
    [Arm [(0, 0)] (Some 32) None 17;
     Arm [(83, 83); (115, 115)] None None 46]
    (Arm [] None None 19))).

Definition yy40 : code :=
  Inc (Fill 33 (Switch
    [Arm [(13, 13)] None None 47;
     Arm [(32, 32)] None None 40;
     Arm [(33, 127)] None None 18]
    (Arm [] (Some 33) None 17))).

Definition yy41 : code :=
  Inc (Fill 34 (Switch
    [Arm [(0, 0)] (Some 34) None 17;
     Arm [(69, 69); (101, 101)] None None 48]
    (Arm [] None None 19))).

Definition yy42 : code :=
  Inc (Fill 35 (Switch
    [Arm [(0, 0)] (Some 35) None 17;
     Arm [(32, 32)] None None 49]
    (Arm [] None None 19))).

Definition yy43 : code :=
  Inc (Fill 36 (Switch
    [Arm [(13, 13)] None None 50;
     Arm [(32, 32)] None None 43;
     Arm [(33, 127)] None None 18]
    (Arm [] (Some 36) None 17))).

Definition yy44 : code :=
  Inc (Fill 37 (Switch
    [Arm [(0, 0)] (Some 37) None 17;
     Arm [(66, 66); (98, 98)] None None 51;
     Arm [(68, 68); (100, 100)] None None 52]
    (Arm [] None None 19))).

Definition yy45 : code :=
  Inc (Fill 38 (Switch
    [Arm [(0, 0)] (Some 38) None 17;
     Arm [(78, 78); (110, 110)] None None 53]
    (Arm [] None None 19))).

Definition yy46 : code :=
  Inc (Fill 39 (Switch
    [Arm [(0, 0)] (Some 39) None 17;
     Arm [(73, 73); (105, 105)] None None 54]
    (Arm [] None None 19))).

Definition yy47 : code :=
  Inc (Fill 40 (Switch
    [Arm [(10, 10)] None None 55]
    (Arm [] (Some 40) None 17))).

Definition yy48 : code :=
  Inc (Fill 41 (Switch
    [Arm [(0, 0)] (Some 41) None 17;
     Arm [(67, 67); (99, 99)] None None 56]
    (Arm [] None None 19))).

Definition yy49 : code :=
  Inc (Fill 42 (Switch
    [Arm [(13, 13)] None None 57]
    (Arm [] (Some 42) None 49))).

Definition yy50 : code :=
  Inc (Fill 43 (Switch
    [Arm [(10, 10)] None None 58]
    (Arm [] (Some 43) None 17))).

Definition yy51 : code :=
  Inc (Fill 44 (Switch
    [Arm [(0, 0)] (Some 44) None 17;
     Arm [(85, 85); (117, 117)] None None 20]
    (Arm [] None None 19))).

Definition yy52 : code :=
  Inc (Fill 45 (Switch
    [Arm [(0, 0)] (Some 45) None 17;
     Arm [(73, 73); (105, 105)] None None 22]
    (Arm [] None None 19))).

Definition yy53 : code :=
  Inc (Fill 46 (Switch
    [Arm [(0, 0)] (Some 46) None 17;
     Arm [(33, 127)] None None 18]
    (Arm [] None None 60))).

Definition yy54 : code :=
  Inc (Fill 47 (Switch
    [Arm [(0, 0)] (Some 47) None 17;
     Arm [(90, 90); (122, 122)] None None 61]
    (Arm [] None None 19))).

Definition yy55 : code :=
  Inc (Result MGMT_CAPA).

Definition yy56 : code :=
  Inc (Fill 48 (Switch
    [Arm [(0, 0)] (Some 48) None 17;
     Arm [(84, 84); (116, 116)] None None 62]
    (Arm [] None None 19))).

Definition yy57 : code :=
  Inc (Fill 49 (Switch
    [Arm [(10, 10)] None None 63]
    (Arm [] (Some 49) None 17))).

Definition yy58 : code :=
  Inc (Result MGMT_QUIT).

Definition yy59 : code :=
  Inc (Fill 50 (Goto 60)).

Definition yy60 : code :=
  Switch
    [Arm [(13, 13)] None None 16;
     Arm [(32, 32)] None None 59;
     Arm [(33, 127)] None (Some yyt1) 64]
    (Arm [] (Some 50) None 17).

Definition yy61 : code :=
  Inc (Fill 51 (Switch
    [Arm [(0, 0)] (Some 51) None 17;
     Arm [(69, 69); (101, 101)] None None 42]
    (Arm [] None None 19))).

Definition yy62 : code :=
  Inc (Fill 52 (Switch
    [Arm [(0, 0)] (Some 52) None 17;
     Arm [(79, 79); (111, 111)] None None 65]
    (Arm [] None None 19))).

Definition yy63 : code :=
  Inc (Result MGMT_INVALID_ARGS).

Definition yy64 : code :=
  Inc (Fill 53 (Switch
    [Arm [(13, 13)] None (Some yyt2) 66;
     Arm [(32, 32)] None (Some yyt2) 67;
     Arm [(33, 127)] None None 64]
    (Arm [] (Some 53) None 17))).

Definition yy65 : code :=
  Inc (Fill 54 (Switch
    [Arm [(0, 0)] (Some 54) None 17;
     Arm [(82, 82); (114, 114)] None None 68]
    (Arm [] None None 19))).

Definition yy66 : code :=
  Inc (Fill 55 (Switch
    [Arm [(10, 10)] None None 69]
    (Arm [] (Some 55) None 17))).

Definition yy67 : code :=
  Inc (Fill 56 (Switch
    [Arm [(13, 13)] None None 66;
     Arm [(32, 32)] None None 67;
     Arm [(33, 127)] None None 18]
    (Arm [] (Some 56) None 17))).

Definition yy68 : code :=
  Inc (Fill 57 (Switch
    [Arm [(0, 0)] (Some 57) None 17;
     Arm [(45, 45)] None None 70]
    (Arm [] None None 19))).

Definition yy69 : code :=
  Inc (Args arge_yyt2 (Result MGMT_TOKEN)).

Definition yy70 : code :=
  Inc (Fill 58 (Switch
    [Arm [(0, 0)] (Some 58) None 17;
     Arm [(83, 83); (115, 115)] None None 71]
    (Arm [] None None 19))).

Definition yy71 : code :=
  Inc (Fill 59 (Switch
    [Arm [(0, 0)] (Some 59) None 17;
     Arm [(84, 84); (116, 116)] None None 72]
    (Arm [] None None 19))).

Definition yy72 : code :=
  Inc (Fill 60 (Switch
    [Arm [(0, 0)] (Some 60) None 17;
     Arm [(65, 65); (97, 97)] None None 73]
    (Arm [] None None 19))).

Definition yy73 : code :=
  Inc (Fill 61 (Switch
    [Arm [(0, 0)] (Some 61) None 17;
     Arm [(84, 84); (116, 116)] None None 74]
    (Arm [] None None 19))).

Definition yy74 : code :=
  Inc (Fill 62 (Switch
    [Arm [(0, 0)] (Some 62) None 17;
     Arm [(85, 85); (117, 117)] None None 34]
    (Arm [] None None 19))).

Definition yy75 : code :=
  Result MGMT_INCOMPLETE.

(** The code at [yy<l>]. *)
Definition pass_block (l : positive) : option code :=
  match l with
  | 2 => Some yy2 | 3 => Some yy3 | 4 => Some yy4 | 5 => Some yy5 | 6 => Some yy6
  | 7 => Some yy7 | 8 => Some yy8 | 9 => Some yy9 | 10 => Some yy10 | 11 => Some yy11
  | 12 => Some yy12 | 13 => Some yy13 | 14 => Some yy14 | 15 => Some yy15 | 16 => Some yy16
  | 17 => Some yy17 | 18 => Some yy18 | 19 => Some yy19 | 20 => Some yy20 | 21 => Some yy21
  | 22 => Some yy22 | 23 => Some yy23 | 24 => Some yy24 | 25 => Some yy25 | 26 => Some yy26
  | 27 => Some yy27 | 28 => Some yy28 | 29 => Some yy29 | 30 => Some yy30 | 31 => Some yy31
  | 32 => Some yy32 | 33 => Some yy33 | 34 => Some yy34 | 35 => Some yy35 | 36 => Some yy36
  | 37 => Some yy37 | 38 => Some yy38 | 39 => Some yy39 | 40 => Some yy40 | 41 => Some yy41
  | 42 => Some yy42 | 43 => Some yy43 | 44 => Some yy44 | 45 => Some yy45 | 46 => Some yy46
  | 47 => Some yy47 | 48 => Some yy48 | 49 => Some yy49 | 50 => Some yy50 | 51 => Some yy51
  | 52 => Some yy52 | 53 => Some yy53 | 54 => Some yy54 | 55 => Some yy55 | 56 => Some yy56
  | 57 => Some yy57 | 58 => Some yy58 | 59 => Some yy59 | 60 => Some yy60 | 61 => Some yy61
  | 62 => Some yy62 | 63 => Some yy63 | 64 => Some yy64 | 65 => Some yy65 | 66 => Some yy66
  | 67 => Some yy67 | 68 => Some yy68 | 69 => Some yy69 | 70 => Some yy70 | 71 => Some yy71
  | 72 => Some yy72 | 73 => Some yy73 | 74 => Some yy74 | 75 => Some yy75
  | _ => None
  end%positive.

(** The code at [yyFillLabel<n>]. *)
Definition pass_fill (n : Z) : option code :=
  match n with
  | 0 => fill_of yyc_pass | 1 => fill_of yy4 | 2 => fill_of yy5 | 3 => fill_of yy6
  | 4 => fill_of yy7 | 5 => fill_of yy8 | 6 => fill_of yy9 | 7 => fill_of yy10
  | 8 => fill_of yy11 | 9 => fill_of yy12 | 10 => fill_of yy13 | 11 => fill_of yy14
  | 12 => fill_of yy16 | 13 => fill_of yy18 | 14 => fill_of yy20 | 15 => fill_of yy21
  | 16 => fill_of yy22 | 17 => fill_of yy23 | 18 => fill_of yy24 | 19 => fill_of yy25
  | 20 => fill_of yy26 | 21 => fill_of yy27 | 22 => fill_of yy28 | 23 => fill_of yy30
  | 24 => fill_of yy31 | 25 => fill_of yy32 | 26 => fill_of yy33 | 27 => fill_of yy34
  | 28 => fill_of yy35 | 29 => fill_of yy36 | 30 => fill_of yy37 | 31 => fill_of yy38
  | 32 => fill_of yy39 | 33 => fill_of yy40 | 34 => fill_of yy41 | 35 => fill_of yy42
  | 36 => fill_of yy43 | 37 => fill_of yy44 | 38 => fill_of yy45 | 39 => fill_of yy46
  | 40 => fill_of yy47 | 41 => fill_of yy48 | 42 => fill_of yy49 | 43 => fill_of yy50
  | 44 => fill_of yy51 | 45 => fill_of yy52 | 46 => fill_of yy53 | 47 => fill_of yy54
  | 48 => fill_of yy56 | 49 => fill_of yy57 | 50 => fill_of yy59 | 51 => fill_of yy61
  | 52 => fill_of yy62 | 53 => fill_of yy64 | 54 => fill_of yy65 | 55 => fill_of yy66
  | 56 => fill_of yy67 | 57 => fill_of yy68 | 58 => fill_of yy70 | 59 => fill_of yy71
  | 60 => fill_of yy72 | 61 => fill_of yy73 | 62 => fill_of yy74
  | _ => None
  end.
