(* ===== verification/LexerTrns.v ===== *)
(** * LexerTrns: the blocks of src/mgmt_protocol.re.c for the condition trns

    As LexerPass, for the scanner of an authenticated connection. *)

From S2P Require Import Prelude MgmtProtocol LexerCode.

Local Open Scope Z_scope.

Definition yyc_trns : code :=
  Fill 63 (Switch
    [Arm [(13, 13)] None None 79;
     Arm [(32, 64); (69, 75); (77, 79); (82, 82); (84, 84); (86, 96); (101, 107);
         (109, 111); (114, 114); (116, 116); (118, 127)] None None 80;
     Arm [(65, 65); (97, 97)] None None 81;
     Arm [(66, 66); (98, 98)] None None 82;
     Arm [(67, 67); (99, 99)] None None 83;
     Arm [(68, 68); (100, 100)] None None 84;
     Arm [(76, 76); (108, 108)] None None 85;
     Arm [(80, 80); (112, 112)] None None 86;
     Arm [(81, 81); (113, 113)] None None 87;
     Arm [(83, 83); (115, 115)] None None 88;
     Arm [(85, 85); (117, 117)] None None 89]
    (Arm [] (Some 63) None 77)).

Definition yy77 : code :=
  Inc (Goto 78).

Definition yy78 : code :=
  Result MGMT_INVALID_CMD.

Definition yy79 : code :=
  Inc (Fill 64 (Switch
    [Arm [(10, 10)] None None 90]
    (Arm [] (Some 64) None 78))).

Definition yy80 : code :=
  IncMark (Fill 65 (Switch
    [Arm [(13, 13)] None None 91;
     Arm [(32, 127)] None None 93]
    (Arm [] (Some 65) None 78))).

Definition yy81 : code :=
  IncMark (Fill 66 (Switch
    [Arm [(13, 13)] None None 91;
     Arm [(32, 67); (69, 99); (101, 127)] None None 93;
     Arm [(68, 68); (100, 100)] None None 95]
    (Arm [] (Some 66) None 78))).

Definition yy82 : code :=
  IncMark (Fill 67 (Switch
    [Arm [(13, 13)] None None 91;
     Arm [(32, 84); (86, 116); (118, 127)] None None 93;
     Arm [(85, 85); (117, 117)] None None 96]
    (Arm [] (Some 67) None 78))).

Definition yy83 : code :=
  IncMark (Fill 68 (Switch
    [Arm [(13, 13)] None None 91;
     Arm [(32, 64); (66, 96); (98, 127)] None None 93;
     Arm [(65, 65); (97, 97)] None None 97]
    (Arm [] (Some 68) None 78))).

Definition yy84 : code :=
  IncMark (Fill 69 (Switch
    [Arm [(13, 13)] None None 91;
     Arm [(32, 72); (74, 104); (106, 127)] None None 93;
     Arm [(73, 73); (105, 105)] None None 98]
    (Arm [] (Some 69) None 78))).

Definition yy85 : code :=
  IncMark (Fill 70 (Switch
    [Arm [(13, 13)] None None 91;
     Arm [(32, 72); (74, 104); (106, 127)] None None 93;
     Arm [(73, 73); (105, 105)] None None 99]
    (Arm [] (Some 70) None 78))).

Definition yy86 : code :=
  IncMark (Fill 71 (Switch
    [Arm [(13, 13)] None None 91;
     Arm [(32, 64); (66, 96); (98, 127)] None None 93;
     Arm [(65, 65); (97, 97)] None None 100]
    (Arm [] (Some 71) None 78))).

Definition yy87 : code :=
  IncMark (Fill 72 (Switch
    [Arm [(13, 13)] None None 91;
     Arm [(32, 84); (86, 116); (118, 127)] None None 93;
     Arm [(85, 85); (117, 117)] None None 101]
    (Arm [] (Some 72) None 78))).

Definition yy88 : code :=
  IncMark (Fill 73 (Switch
    [Arm [(13, 13)] None None 91;
     Arm [(32, 68); (70, 83); (85, 100); (102, 115); (117, 127)] None None 93;
     Arm [(69, 69); (101, 101)] None None 102;
     Arm [(84, 84); (116, 116)] None None 103]
    (Arm [] (Some 73) None 78))).

Definition yy89 : code :=
  IncMark (Fill 74 (Switch
    [Arm [(13, 13)] None None 91;
     Arm [(32, 82); (84, 114); (116, 127)] None None 93;
     Arm [(83, 83); (115, 115)] None None 104]
    (Arm [] (Some 74) None 78))).

Definition yy90 : code :=
  Inc (Result MGMT_INVALID_CMD).

Definition yy91 : code :=
  Inc (Fill 75 (Switch
    [Arm [(10, 10)] None None 105]
    (Arm [] (Some 75) None 92))).

Definition yy92 : code :=
  Restore (Goto 78).

Definition yy93 : code :=
  Inc (Fill 76 (Goto 94)).

Definition yy94 : code :=
  Switch
    [Arm [(13, 13)] None None 91;
     Arm [(32, 127)] None None 93]
    (Arm [] (Some 76) None 92).

Definition yy95 : code :=
  Inc (Fill 77 (Switch
    [Arm [(0, 0)] (Some 77) None 92;
     Arm [(68, 68); (100, 100)] None None 106]
    (Arm [] None None 94))).

Definition yy96 : code :=
  Inc (Fill 78 (Switch
    [Arm [(0, 0)] (Some 78) None 92;
     Arm [(70, 70); (102, 102)] None None 107]
    (Arm [] None None 94))).

Definition yy97 : code :=
  Inc (Fill 79 (Switch
    [Arm [(0, 0)] (Some 79) None 92;
     Arm [(80, 80); (112, 112)] None None 108]
    (Arm [] None None 94))).

Definition yy98 : code :=
  Inc (Fill 80 (Switch
    [Arm [(0, 0)] (Some 80) None 92;
     Arm [(83, 83); (115, 115)] None None 109]
    (Arm [] None None 94))).

Definition yy99 : code :=
  Inc (Fill 81 (Switch
    [Arm [(0, 0)] (Some 81) None 92;
     Arm [(83, 83); (115, 115)] None None 110]
    (Arm [] None None 94))).

Definition yy100 : code :=
  Inc (Fill 82 (Switch
    [Arm [(0, 0)] (Some 82) None 92;
     Arm [(83, 83); (115, 115)] None None 111]
    (Arm [] None None 94))).

Definition yy101 : code :=
  Inc (Fill 83 (Switch
    [Arm [(0, 0)] (Some 83) None 92;
     Arm [(73, 73); (105, 105)] None None 112]
    (Arm [] None None 94))).

Definition yy102 : code :=
  Inc (Fill 84 (Switch
    [Arm [(0, 0)] (Some 84) None 92;
     Arm [(84, 84); (116, 116)] None None 113]
    (Arm [] None None 94))).

Definition yy103 : code :=
  Inc (Fill 85 (Switch
    [Arm [(0, 0)] (Some 85) None 92;
     Arm [(65, 65); (97, 97)] None None 114]
    (Arm [] None None 94))).

Definition yy104 : code :=
  Inc (Fill 86 (Switch
    [Arm [(0, 0)] (Some 86) None 92;
     Arm [(69, 69); (101, 101)] None None 115]
    (Arm [] None None 94))).

Definition yy105 : code :=
  Inc (Result MGMT_INVALID_CMD).

Definition yy106 : code :=
  Inc (Fill 87 (Switch
    [Arm [(0, 0)] (Some 87) None 92;
     Arm [(45, 45)] None None 116]
    (Arm [] None None 94))).

Definition yy107 : code :=
  Inc (Fill 88 (Switch
    [Arm [(0, 0)] (Some 88) None 92;
     Arm [(70, 70); (102, 102)] None None 117]
    (Arm [] None None 94))).

Definition yy108 : code :=
  Inc (Fill 89 (Switch
    [Arm [(0, 0)] (Some 89) None 92;
     Arm [(65, 65); (97, 97)] None None 118]
    (Arm [] None None 94))).

Definition yy109 : code :=
  Inc (Fill 90 (Switch
    [Arm [(0, 0)] (Some 90) None 92;
     Arm [(83, 83); (115, 115)] None None 119]
    (Arm [] None None 94))).

Definition yy110 : code :=
  Inc (Fill 91 (Switch
    [Arm [(0, 0)] (Some 91) None 92;
     Arm [(84, 84); (116, 116)] None None 120]
    (Arm [] None None 94))).

Definition yy111 : code :=
  Inc (Fill 92 (Switch
    [Arm [(0, 0)] (Some 92) None 92;
     Arm [(83, 83); (115, 115)] None None 120]
    (Arm [] None None 94))).

Definition yy112 : code :=
  Inc (Fill 93 (Switch
    [Arm [(0, 0)] (Some 93) None 92;
     Arm [(84, 84); (116, 116)] None None 121]
    (Arm [] None None 94))).

Definition yy113 : code :=
  Inc (Fill 94 (Switch
    [Arm [(0, 0)] (Some 94) None 92;
     Arm [(45, 45)] None None 122]
    (Arm [] None None 94))).

Definition yy114 : code :=
  Inc (Fill 95 (Switch
    [Arm [(0, 0)] (Some 95) None 92;
     Arm [(84, 84); (116, 116)] None None 123]
    (Arm [] None None 94))).

Definition yy115 : code :=
  Inc (Fill 96 (Switch
    [Arm [(0, 0)] (Some 96) None 92;
     Arm [(82, 82); (114, 114)] None None 124]
    (Arm [] None None 94))).

Definition yy116 : code :=
  Inc (Fill 97 (Switch
    [Arm [(0, 0)] (Some 97) None 92;
     Arm [(85, 85); (117, 117)] None None 125]
    (Arm [] None None 94))).

Definition yy117 : code :=
  Inc (Fill 98 (Switch
    [Arm [(0, 0)] (Some 98) None 92;
     Arm [(83, 83); (115, 115)] None None 126]
    (Arm [] None None 94))).

Definition yy118 : code :=
  Inc (Fill 99 (Switch
    [Arm [(13, 13)] None None 127;
     Arm [(32, 32)] None None 118;
     Arm [(33, 127)] None None 93]
    (Arm [] (Some 99) None 92))).

Definition yy119 : code :=
  Inc (Fill 100 (Switch
    [Arm [(0, 0)] (Some 100) None 92;
     Arm [(69, 69); (101, 101)] None None 128]
    (Arm [] None None 94))).

Definition yy120 : code :=
  Inc (Fill 101 (Switch
    [Arm [(0, 0)] (Some 101) None 92;
     Arm [(32, 32)] None None 129]
    (Arm [] None None 94))).

Definition yy121 : code :=
  Inc (Fill 102 (Switch
    [Arm [(13, 13)] None None 131;
     Arm [(32, 32)] None None 121;
     Arm [(33, 127)] None None 93]
    (Arm [] (Some 102) None 92))).

Definition yy122 : code :=
  Inc (Fill 103 (Switch
    [Arm [(0, 0)] (Some 103) None 92;
     Arm [(66, 66); (98, 98)] None None 132;
     Arm [(68, 68); (100, 100)] None None 133]
    (Arm [] None None 94))).

Definition yy123 : code :=
  Inc (Fill 104 (Switch
    [Arm [(0, 0)] (Some 104) None 92;
     Arm [(83, 83); (115, 115)] None None 134]
    (Arm [] None None 94))).

Definition yy124 : code :=
  Inc (Fill 105 (Switch
    [Arm [(0, 0)] (Some 105) None 92;
     Arm [(83, 83); (115, 115)] None None 135]
    (Arm [] None None 94))).

Definition yy125 : code :=
  Inc (Fill 106 (Switch
    [Arm [(0, 0)] (Some 106) None 92;
     Arm [(83, 83); (115, 115)] None None 136]
    (Arm [] None None 94))).

Definition yy126 : code :=
  Inc (Fill 107 (Switch
    [Arm [(0, 0)] (Some 107) None 92;
     Arm [(73, 73); (105, 105)] None None 137]
    (Arm [] None None 94))).

Definition yy127 : code :=
  Inc (Fill 108 (Switch
    [Arm [(10, 10)] None None 138]
    (Arm [] (Some 108) None 92))).

Definition yy128 : code :=
  Inc (Fill 109 (Switch
    [Arm [(0, 0)] (Some 109) None 92;
     Arm [(67, 67); (99, 99)] None None 139]
    (Arm [] None None 94))).

Definition yy129 : code :=
  Inc (Fill 110 (Goto 130)).

Definition yy130 : code :=
  Switch
    [Arm [(13, 13)] None None 140]
    (Arm [] (Some 110) None 129).

Definition yy131 : code :=
  Inc (Fill 111 (Switch
    [Arm [(10, 10)] None None 141]
    (Arm [] (Some 111) None 92))).

Definition yy132 : code :=
  Inc (Fill 112 (Switch
    [Arm [(0, 0)] (Some 112) None 92;
     Arm [(85, 85); (117, 117)] None None 142]
    (Arm [] None None 94))).

Definition yy133 : code :=
  Inc (Fill 113 (Switch
    [Arm [(0, 0)] (Some 113) None 92;
     Arm [(73, 73); (105, 105)] None None 143]
    (Arm [] None None 94))).

Definition yy134 : code :=
  Inc (Fill 114 (Switch
    [Arm [(13, 13)] None None 144;
     Arm [(32, 32)] None None 134;
     Arm [(33, 127)] None None 93]
    (Arm [] (Some 114) None 92))).

Definition yy135 : code :=
  Inc (Fill 115 (Switch
    [Arm [(0, 0)] (Some 115) None 92;
     Arm [(13, 13)] None None 145;
     Arm [(32, 32)] None None 146]
    (Arm [] None None 94))).

Definition yy136 : code :=
  Inc (Fill 116 (Switch
    [Arm [(0, 0)] (Some 116) None 92;
     Arm [(69, 69); (101, 101)] None None 147]
    (Arm [] None None 94))).

Definition yy137 : code :=
  Inc (Fill 117 (Switch
    [Arm [(0, 0)] (Some 117) None 92;
     Arm [(90, 90); (122, 122)] None None 148]
    (Arm [] None None 94))).

Definition yy138 : code :=
  Inc (Result MGMT_CAPA).

Definition yy139 : code :=
  Inc (Fill 118 (Switch
    [Arm [(0, 0)] (Some 118) None 92;
     Arm [(84, 84); (116, 116)] None None 149]
    (Arm [] None None 94))).

Definition yy140 : code :=
  Inc (Fill 119 (Switch
    [Arm [(10, 10)] None None 150]
    (Arm [] (Some 119) None 92))).

Definition yy141 : code :=
  Inc (Result MGMT_QUIT).

Definition yy142 : code :=
  Inc (Fill 120 (Switch
    [Arm [(0, 0)] (Some 120) None 92;
     Arm [(70, 70); (102, 102)] None None 151]
    (Arm [] None None 94))).

Definition yy143 : code :=
  Inc (Fill 121 (Switch
    [Arm [(0, 0)] (Some 121) None 92;
     Arm [(83, 83); (115, 115)] None None 152]
    (Arm [] None None 94))).

Definition yy144 : code :=
  Inc (Fill 122 (Switch
    [Arm [(10, 10)] None None 153]
    (Arm [] (Some 122) None 92))).

Definition yy145 : code :=
  Inc (Fill 123 (Switch
    [Arm [(10, 10)] None None 154]
    (Arm [] (Some 123) None 92))).

Definition yy146 : code :=
  Inc (Fill 124 (Switch
    [Arm [(13, 13)] None None 145;
     Arm [(32, 32)] None None 146]
    (Arm [] (Some 124) None 129))).

Definition yy147 : code :=
  Inc (Fill 125 (Switch
    [Arm [(0, 0)] (Some 125) None 92;
     Arm [(82, 82); (114, 114)] None None 155]
    (Arm [] None None 94))).

Definition yy148 : code :=
  Inc (Fill 126 (Switch
    [Arm [(0, 0)] (Some 126) None 92;
     Arm [(69, 69); (101, 101)] None None 156]
    (Arm [] None None 94))).

Definition yy149 : code :=
  Inc (Fill 127 (Switch
    [Arm [(0, 0)] (Some 127) None 92;
     Arm [(79, 79); (111, 111)] None None 157]
    (Arm [] None None 94))).

Definition yy150 : code :=
  Inc (Result MGMT_INVALID_ARGS).

Definition yy151 : code :=
  Inc (Fill 128 (Switch
    [Arm [(0, 0)] (Some 128) None 92;
     Arm [(70, 70); (102, 102)] None None 158]
    (Arm [] None None 94))).

Definition yy152 : code :=
  Inc (Fill 129 (Switch
    [Arm [(0, 0)] (Some 129) None 92;
     Arm [(83, 83); (115, 115)] None None 159]
    (Arm [] None None 94))).

Definition yy153 : code :=
  Inc (Result MGMT_STATS).

Definition yy154 : code :=
  Inc (Result MGMT_USERS).

Definition yy155 : code :=
  Inc (Fill 130 (Switch
    [Arm [(0, 0)] (Some 130) None 92;
     Arm [(33, 127)] None None 93]
    (Arm [] None None 161))).

Definition yy156 : code :=
  Inc (Fill 131 (Switch
    [Arm [(0, 0)] (Some 131) None 92;
     Arm [(13, 13)] None None 162;
     Arm [(32, 32)] None None 163]
    (Arm [] None None 94))).

Definition yy157 : code :=
  Inc (Fill 132 (Switch
    [Arm [(0, 0)] (Some 132) None 92;
     Arm [(82, 82); (114, 114)] None None 164]
    (Arm [] None None 94))).

Definition yy158 : code :=
  Inc (Fill 133 (Switch
    [Arm [(0, 0)] (Some 133) None 92;
     Arm [(83, 83); (115, 115)] None None 165]
    (Arm [] None None 94))).

Definition yy159 : code :=
  Inc (Fill 134 (Switch
    [Arm [(0, 0)] (Some 134) None 92;
     Arm [(69, 69); (101, 101)] None None 166]
    (Arm [] None None 94))).

Definition yy160 : code :=
  Inc (Fill 135 (Goto 161)).

Definition yy161 : code :=
  Switch
    [Arm [(13, 13)] None None 91;
     Arm [(32, 32)] None None 160;
     Arm [(33, 127)] None (Some yyt1) 167]
    (Arm [] (Some 135) None 92).

Definition yy162 : code :=
  Inc (Fill 136 (Switch
    [Arm [(10, 10)] None None 168]
    (Arm [] (Some 136) None 92))).

Definition yy163 : code :=
  Inc (Fill 137 (Switch
    [Arm [(13, 13)] None None 162;
     Arm [(32, 32)] None None 163]
    (Arm [] (Some 137) None 129))).

Definition yy164 : code :=
  Inc (Fill 138 (Switch
    [Arm [(0, 0)] (Some 138) None 92;
     Arm [(45, 45)] None None 169]
    (Arm [] None None 94))).

Definition yy165 : code :=
  Inc (Fill 139 (Switch
    [Arm [(0, 0)] (Some 139) None 92;
     Arm [(73, 73); (105, 105)] None None 170]
    (Arm [] None None 94))).

Definition yy166 : code :=
  Inc (Fill 140 (Switch
    [Arm [(0, 0)] (Some 140) None 92;
     Arm [(67, 67); (99, 99)] None None 171]
    (Arm [] None None 94))).

Definition yy167 : code :=
  Inc (Fill 141 (Switch
    [Arm [(13, 13)] None (Some yyt2) 172;
     Arm [(32, 32)] None (Some yyt2) 173;
     Arm [(33, 127)] None None 167]
    (Arm [] (Some 141) None 92))).

Definition yy168 : code :=
  Inc (Result MGMT_GET_BUFFSIZE).

Definition yy169 : code :=
  Inc (Fill 142 (Switch
    [Arm [(0, 0)] (Some 142) None 92;
     Arm [(83, 83); (115, 115)] None None 174]
    (Arm [] None None 94))).

Definition yy170 : code :=
  Inc (Fill 143 (Switch
    [Arm [(0, 0)] (Some 143) None 92;
     Arm [(90, 90); (122, 122)] None None 175]
    (Arm [] None None 94))).

Definition yy171 : code :=
  Inc (Fill 144 (Switch
    [Arm [(0, 0)] (Some 144) None 92;
     Arm [(84, 84); (116, 116)] None None 176]
    (Arm [] None None 94))).

Definition yy172 : code :=
  Inc (Fill 145 (Switch
    [Arm [(10, 10)] None None 177]
    (Arm [] (Some 145) None 92))).

Definition yy173 : code :=
  Inc (Fill 146 (Switch
    [Arm [(13, 13)] None None 172;
     Arm [(32, 32)] None None 173;
     Arm [(33, 127)] None None 93]
    (Arm [] (Some 146) None 92))).

Definition yy174 : code :=
  Inc (Fill 147 (Switch
    [Arm [(0, 0)] (Some 147) None 92;
     Arm [(84, 84); (116, 116)] None None 178]
    (Arm [] None None 94))).

Definition yy175 : code :=
  Inc (Fill 148 (Switch
    [Arm [(0, 0)] (Some 148) None 92;
     Arm [(69, 69); (101, 101)] None None 179]
    (Arm [] None None 94))).

Definition yy176 : code :=
  Inc (Fill 149 (Switch
    [Arm [(0, 0)] (Some 149) None 92;
     Arm [(79, 79); (111, 111)] None None 180]
    (Arm [] None None 94))).

Definition yy177 : code :=
  Inc (Args arge_yyt2 (Result MGMT_ADD_USER)).

Definition yy178 : code :=
  Inc (Fill 150 (Switch
    [Arm [(0, 0)] (Some 150) None 92;
     Arm [(65, 65); (97, 97)] None None 181]
    (Arm [] None None 94))).

Definition yy179 : code :=
  Inc (Fill 151 (Switch
    [Arm [(0, 0)] (Some 151) None 92;
     Arm [(32, 32)] None None 182]
    (Arm [] None None 94))).

Definition yy180 : code :=
  Inc (Fill 152 (Switch
    [Arm [(0, 0)] (Some 152) None 92;
     Arm [(82, 82); (114, 114)] None None 183]
    (Arm [] None None 94))).

Definition yy181 : code :=
  Inc (Fill 153 (Switch
    [Arm [(0, 0)] (Some 153) None 92;
     Arm [(84, 84); (116, 116)] None None 184]
    (Arm [] None None 94))).

Definition yy182 : code :=
  Inc (Fill 154 (Switch
    [Arm [(13, 13)] None None 140;
     Arm [(32, 32)] None None 182;
     Arm [(48, 57)] None (Some yyt1) 185]
    (Arm [] (Some 154) None 129))).

Definition yy183 : code :=
  Inc (Fill 155 (Switch
    [Arm [(0, 0)] (Some 155) None 92;
     Arm [(45, 45)] None None 186]
    (Arm [] None None 94))).

Definition yy184 : code :=
  Inc (Fill 156 (Switch
    [Arm [(0, 0)] (Some 156) None 92;
     Arm [(85, 85); (117, 117)] None None 187]
    (Arm [] None None 94))).

Definition yy185 : code :=
  Inc (Fill 157 (Switch
    [Arm [(13, 13)] None (Some yyt2) 188;
     Arm [(32, 32)] None (Some yyt2) 189;
     Arm [(48, 57)] None None 185]
    (Arm [] (Some 157) None 129))).

Definition yy186 : code :=
  Inc (Fill 158 (Switch
    [Arm [(0, 0)] (Some 158) None 92;
     Arm [(83, 83); (115, 115)] None None 190]
    (Arm [] None None 94))).

Definition yy187 : code :=
  Inc (Fill 159 (Switch
    [Arm [(0, 0)] (Some 159) None 92;
     Arm [(83, 83); (115, 115)] None None 191]
    (Arm [] None None 94))).

Definition yy188 : code :=
  Inc (Fill 160 (Switch
    [Arm [(10, 10)] None None 192]
    (Arm [] (Some 160) None 92))).

Definition yy189 : code :=
  Inc (Fill 161 (Switch
    [Arm [(13, 13)] None None 188;
     Arm [(32, 32)] None None 189]
    (Arm [] (Some 161) None 129))).

Definition yy190 : code :=
  Inc (Fill 162 (Switch
    [Arm [(0, 0)] (Some 162) None 92;
     Arm [(84, 84); (116, 116)] None None 193]
    (Arm [] None None 94))).

Definition yy191 : code :=
  Inc (Fill 163 (Switch
    [Arm [(0, 0)] (Some 163) None 92;
     Arm [(32, 32)] None None 194]
    (Arm [] None None 94))).

Definition yy192 : code :=
  Inc (Args arge_yyt2 (Result MGMT_SET_BUFFSIZE)).

Definition yy193 : code :=
  Inc (Fill 164 (Switch
    [Arm [(0, 0)] (Some 164) None 92;
     Arm [(65, 65); (97, 97)] None None 195]
    (Arm [] None None 94))).

Definition yy194 : code :=
  Inc (Fill 165 (Switch
    [Arm [(13, 13)] None None 196;
     Arm [(32, 32)] None None 194]
    (Arm [] (Some 165) None 129))).

Definition yy195 : code :=
  Inc (Fill 166 (Switch
    [Arm [(0, 0)] (Some 166) None 92;
     Arm [(84, 84); (116, 116)] None None 197]
    (Arm [] None None 94))).

Definition yy196 : code :=
  Inc (Fill 167 (Switch
    [Arm [(10, 10)] None None 198]
    (Arm [] (Some 167) None 92))).

Definition yy197 : code :=
  Inc (Fill 168 (Switch
    [Arm [(0, 0)] (Some 168) None 92;
     Arm [(85, 85); (117, 117)] None None 199]
    (Arm [] None None 94))).

Definition yy198 : code :=
  Inc (Result MGMT_GET_DISSECTOR_STATUS).

Definition yy199 : code :=
  Inc (Fill 169 (Switch
    [Arm [(0, 0)] (Some 169) None 92;
     Arm [(83, 83); (115, 115)] None None 200]
    (Arm [] None None 94))).

Definition yy200 : code :=
  Inc (Fill 170 (Switch
    [Arm [(0, 0)] (Some 170) None 92;
     Arm [(32, 32)] None None 201]
    (Arm [] None None 94))).

Definition yy201 : code :=
  Inc (Fill 171 (Switch
    [Arm [(13, 13)] None None 140;
     Arm [(32, 32)] None None 201;
     Arm [(111, 111)] None (Some yyt1) 202]
    (Arm [] (Some 171) None 129))).

Definition yy202 : code :=
  Inc (Fill 172 (Switch
    [Arm [(0, 0)] (Some 172) None 129;
     Arm [(102, 102)] None None 203;
     Arm [(110, 110)] None None 204]
    (Arm [] None None 130))).

Definition yy203 : code :=
  Inc (Fill 173 (Switch
    [Arm [(0, 0)] (Some 173) None 129;
     Arm [(102, 102)] None None 204]
    (Arm [] None None 130))).

Definition yy204 : code :=
  Inc (Fill 174 (Switch
    [Arm [(13, 13)] None None 205]
    (Arm [] (Some 174) None 129))).

Definition yy205 : code :=
  Inc (Fill 175 (Switch
    [Arm [(10, 10)] None None 206]
    (Arm [] (Some 175) None 92))).

Definition yy206 : code :=
  Inc (Args arge_cur_2 (Result MGMT_SET_DISSECTOR_STATUS)).

Definition yy207 : code :=
  Result MGMT_INCOMPLETE.

(** The code at [yy<l>]. *)
Definition trns_block (l : positive) : option code :=
  match l with
  | 77 => Some yy77 | 78 => Some yy78 | 79 => Some yy79 | 80 => Some yy80 | 81 => Some yy81
  | 82 => Some yy82 | 83 => Some yy83 | 84 => Some yy84 | 85 => Some yy85 | 86 => Some yy86
  | 87 => Some yy87 | 88 => Some yy88 | 89 => Some yy89 | 90 => Some yy90 | 91 => Some yy91
  | 92 => Some yy92 | 93 => Some yy93 | 94 => Some yy94 | 95 => Some yy95 | 96 => Some yy96
  | 97 => Some yy97 | 98 => Some yy98 | 99 => Some yy99 | 100 => Some yy100 | 101 => Some yy101
  | 102 => Some yy102 | 103 => Some yy103 | 104 => Some yy104 | 105 => Some yy105
  | 106 => Some yy106 | 107 => Some yy107 | 108 => Some yy108 | 109 => Some yy109
  | 110 => Some yy110 | 111 => Some yy111 | 112 => Some yy112 | 113 => Some yy113
  | 114 => Some yy114 | 115 => Some yy115 | 116 => Some yy116 | 117 => Some yy117
  | 118 => Some yy118 | 119 => Some yy119 | 120 => Some yy120 | 121 => Some yy121
  | 122 => Some yy122 | 123 => Some yy123 | 124 => Some yy124 | 125 => Some yy125
  | 126 => Some yy126 | 127 => Some yy127 | 128 => Some yy128 | 129 => Some yy129
  | 130 => Some yy130 | 131 => Some yy131 | 132 => Some yy132 | 133 => Some yy133
  | 134 => Some yy134 | 135 => Some yy135 | 136 => Some yy136 | 137 => Some yy137
  | 138 => Some yy138 | 139 => Some yy139 | 140 => Some yy140 | 141 => Some yy141
  | 142 => Some yy142 | 143 => Some yy143 | 144 => Some yy144 | 145 => Some yy145
  | 146 => Some yy146 | 147 => Some yy147 | 148 => Some yy148 | 149 => Some yy149
  | 150 => Some yy150 | 151 => Some yy151 | 152 => Some yy152 | 153 => Some yy153
  | 154 => Some yy154 | 155 => Some yy155 | 156 => Some yy156 | 157 => Some yy157
  | 158 => Some yy158 | 159 => Some yy159 | 160 => Some yy160 | 161 => Some yy161
  | 162 => Some yy162 | 163 => Some yy163 | 164 => Some yy164 | 165 => Some yy165
  | 166 => Some yy166 | 167 => Some yy167 | 168 => Some yy168 | 169 => Some yy169
  | 170 => Some yy170 | 171 => Some yy171 | 172 => Some yy172 | 173 => Some yy173
  | 174 => Some yy174 | 175 => Some yy175 | 176 => Some yy176 | 177 => Some yy177
  | 178 => Some yy178 | 179 => Some yy179 | 180 => Some yy180 | 181 => Some yy181
  | 182 => Some yy182 | 183 => Some yy183 | 184 => Some yy184 | 185 => Some yy185
  | 186 => Some yy186 | 187 => Some yy187 | 188 => Some yy188 | 189 => Some yy189
  | 190 => Some yy190 | 191 => Some yy191 | 192 => Some yy192 | 193 => Some yy193
  | 194 => Some yy194 | 195 => Some yy195 | 196 => Some yy196 | 197 => Some yy197
  | 198 => Some yy198 | 199 => Some yy199 | 200 => Some yy200 | 201 => Some yy201
  | 202 => Some yy202 | 203 => Some yy203 | 204 => Some yy204 | 205 => Some yy205
  | 206 => Some yy206 | 207 => Some yy207
  | _ => None
  end%positive.

(** The code at [yyFillLabel<n>]. *)
Definition trns_fill (n : Z) : option code :=
  match n with
  | 63 => fill_of yyc_trns | 64 => fill_of yy79 | 65 => fill_of yy80 | 66 => fill_of yy81
  | 67 => fill_of yy82 | 68 => fill_of yy83 | 69 => fill_of yy84 | 70 => fill_of yy85
  | 71 => fill_of yy86 | 72 => fill_of yy87 | 73 => fill_of yy88 | 74 => fill_of yy89
  | 75 => fill_of yy91 | 76 => fill_of yy93 | 77 => fill_of yy95 | 78 => fill_of yy96
  | 79 => fill_of yy97 | 80 => fill_of yy98 | 81 => fill_of yy99 | 82 => fill_of yy100
  | 83 => fill_of yy101 | 84 => fill_of yy102 | 85 => fill_of yy103 | 86 => fill_of yy104
  | 87 => fill_of yy106 | 88 => fill_of yy107 | 89 => fill_of yy108 | 90 => fill_of yy109
  | 91 => fill_of yy110 | 92 => fill_of yy111 | 93 => fill_of yy112 | 94 => fill_of yy113
  | 95 => fill_of yy114 | 96 => fill_of yy115 | 97 => fill_of yy116 | 98 => fill_of yy117
  | 99 => fill_of yy118 | 100 => fill_of yy119 | 101 => fill_of yy120 | 102 => fill_of yy121
  | 103 => fill_of yy122 | 104 => fill_of yy123 | 105 => fill_of yy124 | 106 => fill_of yy125
  | 107 => fill_of yy126 | 108 => fill_of yy127 | 109 => fill_of yy128 | 110 => fill_of yy129
  | 111 => fill_of yy131 | 112 => fill_of yy132 | 113 => fill_of yy133 | 114 => fill_of yy134
  | 115 => fill_of yy135 | 116 => fill_of yy136 | 117 => fill_of yy137 | 118 => fill_of yy139
  | 119 => fill_of yy140 | 120 => fill_of yy142 | 121 => fill_of yy143 | 122 => fill_of yy144
  | 123 => fill_of yy145 | 124 => fill_of yy146 | 125 => fill_of yy147 | 126 => fill_of yy148
  | 127 => fill_of yy149 | 128 => fill_of yy151 | 129 => fill_of yy152 | 130 => fill_of yy155
  | 131 => fill_of yy156 | 132 => fill_of yy157 | 133 => fill_of yy158 | 134 => fill_of yy159
  | 135 => fill_of yy160 | 136 => fill_of yy162 | 137 => fill_of yy163 | 138 => fill_of yy164
  | 139 => fill_of yy165 | 140 => fill_of yy166 | 141 => fill_of yy167 | 142 => fill_of yy169
  | 143 => fill_of yy170 | 144 => fill_of yy171 | 145 => fill_of yy172 | 146 => fill_of yy173
  | 147 => fill_of yy174 | 148 => fill_of yy175 | 149 => fill_of yy176 | 150 => fill_of yy178
  | 151 => fill_of yy179 | 152 => fill_of yy180 | 153 => fill_of yy181 | 154 => fill_of yy182
  | 155 => fill_of yy183 | 156 => fill_of yy184 | 157 => fill_of yy185 | 158 => fill_of yy186
  | 159 => fill_of yy187 | 160 => fill_of yy188 | 161 => fill_of yy189 | 162 => fill_of yy190
  | 163 => fill_of yy191 | 164 => fill_of yy193 | 165 => fill_of yy194 | 166 => fill_of yy195
  | 167 => fill_of yy196 | 168 => fill_of yy197 | 169 => fill_of yy199 | 170 => fill_of yy200
  | 171 => fill_of yy201 | 172 => fill_of yy202 | 173 => fill_of yy203 | 174 => fill_of yy204
  | 175 => fill_of yy205
  | _ => None
  end.
