(* ===== verification/Lexer.v ===== *)
(** * Lexer: [parseMgmtRequest] of src/mgmt_protocol.re.c

    The scanner of management requests: entry (fresh, or resumed where the last
    call ran out of input), the run through the blocks of LexerPass and
    LexerTrns, and the epilogue that reports the command, its argument and its
    length. *)

From S2P Require Import Prelude MgmtProtocol LexerCode LexerPass LexerTrns.

(** The code at a label, and at a [yyFillLabel]. *)
Definition block (l : positive) : outcome code :=
  of_option Undefined (match pass_block l with Some k => Some k | None => trns_block l end).
Definition yyFillLabel (n : Z) : outcome code :=
  of_option Undefined (match pass_fill n with Some k => Some k | None => trns_fill n end).

(** The label the scanner resumes at in [state] when there is still no input:
    the cases of the first [switch], for the states of each condition. *)
Definition pass_fallback (state : Z) : option positive :=
  (if state =? 0 then Some 75%positive
   else if (1 <=? state) && (state <=? 11) then Some 3%positive
   else if (12 <=? state) && (state <=? 62) then Some 17%positive
   else None)%Z.
Definition trns_fallback (state : Z) : option positive :=
  (if state =? 63 then Some 207%positive
   else if (64 <=? state) && (state <=? 74) then Some 78%positive
   else if (75 <=? state) && (state <=? 175) then Some 92%positive
   else None)%Z.
Definition fallback (state : Z) : option positive :=
  match pass_fallback state with Some l => Some l | None => trns_fallback state end.

(** The first [switch] and, for a fresh scan, [yy0]: a condition other than
    [yyctrns] ends in the block that follows the second [switch]. *)
Definition entry (i : Input) : outcome code :=
  match fallback (in_state i) with
  | Some l => if in_lim i <=? in_cur i then block l else yyFillLabel (in_state i)
  | None => mret (if (in_cond i =? yyctrns)%Z then yyc_trns else yyc_pass)
  end.

(** Each jump is a [goto]; [run_fuel] of them are enough (see LexerSpec). *)
Fixpoint run (fuel : nat) (mem : list byte) (lim : nat) (k : code) (s : lexer) : outcome next :=
  match fuel with
  | O => Fault Diverge
  | S fuel' =>
      r ← exec mem lim k s;
      match r with
      | Jump l s' => k' ← block l; run fuel' mem lim k' s'
      | Need _ _ | Break _ _ => mret r
      end
  end.

Definition run_fuel (i : Input) : nat := 3 * (in_lim i - in_cur i) + 3.

(** The three output arguments: [arg] ([None] is the null pointer), [argLen]
    and [len]. They are left alone when the scanner needs more input. *)
Record request := Request { rq_arg : option nat; rq_argLen : Z; rq_len : nat }.

Definition parseMgmtRequest (i : Input) : outcome (MgmtCommand * option request * Input) :=
  k ← entry i;
  r ← run (run_fuel i) (in_mem i) (in_lim i) k
        (Lexer (in_cur i) (in_mar i) (in_yyt1 i) (in_yyt2 i) NUL None);
  match r with
  | Need n s =>
      mret (MGMT_INCOMPLETE, None,
            MkInput (in_mem i) (in_bufSize i) (in_lim i) (l_cur s) (l_mar s) (in_tok i)
              n (in_cond i) (l_yyt1 s) (l_yyt2 s))
  | Break c s =>
      mret (c,
            Some (Request (fst <$> l_arg s)
                    (match l_arg s with Some (a, e) => Z.of_nat e - Z.of_nat a | None => 0 end)%Z
                    (l_cur s - in_tok i)),
            MkInput (in_mem i) (in_bufSize i) (in_lim i) (l_cur s) (l_cur s) (l_cur s)
              (-1)%Z (in_cond i) (l_yyt1 s) (l_yyt2 s))
  | Jump _ _ => Fault Diverge
  end.
