(* ===== verification/Regex.v ===== *)
(** * Regex: regular expressions over bytes

    The notation of lexer/mgmt_protocol.re: expressions, the words they
    denote, and the derivative of an expression by a byte. Character classes
    are ranges of codes, as in the switches of the scanner. *)

From S2P Require Import Prelude LexerCode.

Inductive re :=
| Void
| Eps
| Chr (r : list (Z * Z))
| Seq (a b : re)
| Alt (a b : re)
| Star (a : re).

#[global] Instance re_eq_dec : EqDecision re.
Proof. solve_decision. Defined.

Inductive matches : re -> list byte -> Prop :=
| m_eps : matches Eps []
| m_chr r c : in_ranges (Zb c) r = true -> matches (Chr r) [c]
| m_seq a b u v : matches a u -> matches b v -> matches (Seq a b) (u ++ v)
| m_alt_l a b u : matches a u -> matches (Alt a b) u
| m_alt_r a b u : matches b u -> matches (Alt a b) u
| m_star_nil a : matches (Star a) []
| m_star_app a u v : matches a u -> matches (Star a) v -> matches (Star a) (u ++ v).

#[export] Hint Constructors matches : socks.

Definition Plus (a : re) : re := Seq a (Star a).

(** The word of a case-sensitive literal, and of one in single quotes. *)
Definition exactly (c : byte) : re := Chr [(Zb c, Zb c)].
Definition either_case (c : byte) : re :=
  Chr (if ((97 <=? Zb c) && (Zb c <=? 122))%Z then [(Zb c - 32, Zb c - 32); (Zb c, Zb c)]%Z
       else [(Zb c, Zb c)]).
Fixpoint seq_all (l : list re) : re :=
  match l with [] => Eps | a :: l' => Seq a (seq_all l') end.
Definition word (s : list byte) : re := seq_all (exactly <$> s).
Definition iword (s : list byte) : re := seq_all (either_case <$> s).

(** ** Derivatives, with the simplifications that keep them finite *)

Fixpoint nullable (r : re) : bool :=
  match r with
  | Void | Chr _ => false
  | Eps | Star _ => true
  | Seq a b => nullable a && nullable b
  | Alt a b => nullable a || nullable b
  end.

Definition mkSeq (a b : re) : re :=
  match a with Void => Void | Eps => b | _ => match b with Void => Void | _ => Seq a b end end.

(** Boolean equality, which evaluates faster than the decision procedure. *)
Fixpoint ranges_eqb (a b : list (Z * Z)) : bool :=
  match a, b with
  | [], [] => true
  | (x, y) :: a', (x', y') :: b' => (x =? x')%Z && (y =? y')%Z && ranges_eqb a' b'
  | _, _ => false
  end.
Fixpoint re_eqb (a b : re) : bool :=
  match a, b with
  | Void, Void | Eps, Eps => true
  | Chr r, Chr r' => ranges_eqb r r'
  | Seq a b, Seq a' b' | Alt a b, Alt a' b' => re_eqb a a' && re_eqb b b'
  | Star a, Star a' => re_eqb a a'
  | _, _ => false
  end.

(** Is [b] one of the alternatives of [a]? *)
Fixpoint has_alt (a b : re) : bool :=
  re_eqb a b || match a with Alt x y => has_alt x b || has_alt y b | _ => false end.

Definition mkAlt (a b : re) : re :=
  match a, b with
  | Void, _ => b
  | _, Void => a
  | _, _ => if has_alt a b then a else Alt a b
  end.

Fixpoint deriv (z : Z) (r : re) : re :=
  match r with
  | Void | Eps => Void
  | Chr rs => if in_ranges z rs then Eps else Void
  | Seq a b => if nullable a then mkAlt (mkSeq (deriv z a) b) (deriv z b) else mkSeq (deriv z a) b
  | Alt a b => mkAlt (deriv z a) (deriv z b)
  | Star a => mkSeq (deriv z a) (Star a)
  end.

(** ** Correctness *)

Lemma ranges_eqb_eq a b : ranges_eqb a b = true -> a = b.
Proof.
  revert b. induction a as [|[x y] a IH]; intros [|[x' y'] b]; simpl; try done.
  intros H. tests. f_equal; [congruence | auto].
Qed.

Lemma re_eqb_eq a b : re_eqb a b = true -> a = b.
Proof.
  revert b. induction a; intros []; simpl; try done; intros; tests; f_equal;
    auto using ranges_eqb_eq.
Qed.

Lemma matches_Void w : ~ matches Void w.
Proof. inversion 1. Qed.

Lemma matches_Seq a b w : matches (Seq a b) w <-> exists u v, w = u ++ v /\ matches a u /\ matches b v.
Proof. split; [inversion 1; subst; eauto | intros (u & v & -> & ? & ?); eauto with socks]. Qed.

Lemma matches_Alt a b w : matches (Alt a b) w <-> matches a w \/ matches b w.
Proof. split; [inversion 1; subst; eauto | intros [?|?]; eauto with socks]. Qed.

Lemma matches_mkSeq a b w : matches (mkSeq a b) w <-> matches (Seq a b) w.
Proof.
  assert (Hv : forall x, matches Void w <-> matches (Seq x Void) w).
  { intros x. rewrite matches_Seq. split; [by intros ?%matches_Void|].
    by intros (? & ? & _ & _ & ?%matches_Void). }
  destruct a; simpl; try (destruct b; naive_solver).
  - rewrite matches_Seq. split; [by intros ?%matches_Void|].
    by intros (? & ? & _ & ?%matches_Void & _).
  - rewrite matches_Seq. split; [exists [], w; eauto with socks|].
    intros (u & v & -> & Hu & ?). by inversion Hu; subst.
Qed.

Lemma has_alt_unfold a b :
  has_alt a b = re_eqb a b || match a with Alt x y => has_alt x b || has_alt y b | _ => false end.
Proof. by destruct a. Qed.

Lemma has_alt_matches a b w : has_alt a b = true -> matches b w -> matches a w.
Proof.
  induction a; rewrite has_alt_unfold; intros [Hb|Hb]%orb_true_iff Hw;
    try (apply re_eqb_eq in Hb; by subst); try done.
  apply orb_true_iff in Hb as [?|?]; eauto with socks.
Qed.

Lemma matches_mkAlt a b w : matches (mkAlt a b) w <-> matches (Alt a b) w.
Proof.
  rewrite matches_Alt.
  assert (H : matches (if has_alt a b then a else Alt a b) w <-> matches a w \/ matches b w).
  { destruct (has_alt a b) eqn:E; [|by rewrite matches_Alt].
    split; [auto|]. intros [?|?]; eauto using has_alt_matches. }
  pose proof (matches_Void w). destruct a, b; simpl in *; tauto.
Qed.

Lemma nullable_spec r : nullable r = true <-> matches r [].
Proof.
  induction r; simpl.
  - split; [done | by intros ?%matches_Void].
  - split; eauto with socks.
  - split; [done | inversion 1].
  - rewrite andb_true_iff, IHr1, IHr2, matches_Seq. split.
    + intros [? ?]. by exists [], [].
    + intros (u & v & E & ? & ?). symmetry in E. by apply app_eq_nil in E as [-> ->].
  - by rewrite orb_true_iff, IHr1, IHr2, matches_Alt.
  - split; eauto with socks.
Qed.

Lemma matches_Star_cons a c w :
  matches (Star a) (c :: w) <-> exists u v, w = u ++ v /\ matches a (c :: u) /\ matches (Star a) v.
Proof.
  split.
  - intros H. remember (Star a) as r. remember (c :: w) as cw. revert a c w Heqr Heqcw.
    induction H; intros a0 c0 w0 Er Ew; try discriminate. injection Er as ->.
    destruct u as [|d u]; simpl in *; [by eapply IHmatches2|].
    injection Ew as -> <-. eauto.
  - intros (u & v & -> & ? & ?). change (c :: u ++ v) with ((c :: u) ++ v). eauto with socks.
Qed.

(** The derivative denotes what may follow the byte. *)
Theorem deriv_spec c r w : matches (deriv (Zb c) r) w <-> matches r (c :: w).
Proof.
  revert w. induction r as [| |rs|a IHa b IHb|a IHa b IHb|a IHa]; intros w; simpl.
  - split; inversion 1.
  - split; inversion 1.
  - destruct (in_ranges (Zb c) rs) eqn:E; split; inversion 1; subst; eauto with socks; congruence.
  - assert (H : matches (mkSeq (deriv (Zb c) a) b) w <->
                exists u v, w = u ++ v /\ matches a (c :: u) /\ matches b v).
    { rewrite matches_mkSeq, matches_Seq. split; intros (u & v & ? & Hu & ?);
        exists u, v; by rewrite IHa in *. }
    assert (Hs : matches (Seq a b) (c :: w) <->
                 (exists u v, w = u ++ v /\ matches a (c :: u) /\ matches b v) \/
                 (nullable a = true /\ matches b (c :: w))).
    { rewrite matches_Seq, nullable_spec. split.
      - intros ([|d u] & v & E & Ha & Hb); simpl in E; [right; by subst|].
        injection E as <- ->. left. eauto.
      - intros [(u & v & -> & Ha & Hb)|[Ha Hb]]; [by exists (c :: u), v | by exists [], (c :: w)]. }
    rewrite Hs. destruct (nullable a); [rewrite matches_mkAlt, matches_Alt, IHb|]; rewrite H;
      intuition congruence.
  - by rewrite matches_mkAlt, !matches_Alt, IHa, IHb.
  - rewrite matches_mkSeq, matches_Seq, matches_Star_cons.
    split; intros (u & v & ? & ? & ?); exists u, v; by rewrite IHa in *.
Qed.

(** ** Words that end at their first CR *)

(** The expression does not use the byte [z]; the case of CR. *)
Fixpoint avoids (z : Z) (r : re) : bool :=
  match r with
  | Void | Eps => true
  | Chr rs => negb (in_ranges z rs)
  | Seq a b | Alt a b => avoids z a && avoids z b
  | Star a => avoids z a
  end.
Definition no_cr : re -> bool := avoids 13.

Lemma avoids_spec r w d : matches r w -> avoids (Zb d) r = true -> d ∉ w.
Proof.
  induction 1 as [|rs c Hc|a b u v _ IHu _ IHv|a b u _ IH|a b u _ IH| |a u v _ IHu _ IHv];
    simpl; intros H; tests; try (apply not_elem_of_nil); try (apply not_elem_of_app); auto.
  intros <-%list_elem_of_singleton. congruence.
Qed.

Lemma no_cr_spec r w : matches r w -> no_cr r = true -> CR ∉ w.
Proof. apply (avoids_spec r w CR). Qed.

(** ** Emptiness

    Derivatives of expressions over non-empty classes are empty only when they
    are [Void]. *)
Definition inhabited_class (rs : list (Z * Z)) : bool :=
  existsb (fun '(lo, hi) => (0 <=? lo) && (lo <=? hi) && (lo <=? 255))%Z rs.

Fixpoint inhabited (r : re) : bool :=
  match r with
  | Void => false
  | Eps | Star _ => true
  | Chr rs => inhabited_class rs
  | Seq a b => inhabited a && inhabited b
  | Alt a b => inhabited a || inhabited b
  end.

Lemma inhabited_matches r : inhabited r = true -> exists w, matches r w.
Proof.
  induction r as [| |rs|a IHa b IHb|a IHa b IHb|a IHa]; simpl; intros H.
  - done.
  - eauto with socks.
  - apply existsb_exists in H as ([lo hi] & Hin & H). tests.
    exists [byte_of lo]. constructor. unfold in_ranges. apply existsb_exists.
    exists (lo, hi). split; [done|]. rewrite Zb_byte_of by lia.
    apply andb_true_iff. split; apply Z.leb_le; lia.
  - tests. destruct IHa as [u ?], IHb as [v ?]; try done. exists (u ++ v). eauto with socks.
  - apply orb_true_iff in H as [H|H]; [destruct IHa as [u ?]|destruct IHb as [u ?]];
      try done; exists u; eauto with socks.
  - exists []. constructor.
Qed.
