(* ===== verification/LexerRules.v ===== *)
(** * LexerRules: the rules of lexer/mgmt_protocol.re

    The specification the scanner was generated from: for each condition the
    list of rules, in order of priority. A fresh scan must find the longest
    prefix of its input that a rule matches, and the first rule that matches
    it; when no prefix can match, the rule [*] takes one byte. *)

From S2P Require Import Prelude MgmtProtocol LexerCode Regex.

Definition blank : re := Chr [(32, 32)]%Z.
Definition print : re := Chr [(32, 127)]%Z.
Definition arg : re := Plus (Chr [(33, 127)]%Z).
Definition numarg : re := Plus (Chr [(48, 57)]%Z).
Definition not_cr : re := Chr [(0, 12); (14, 255)]%Z.
Definition crlf : re := iword CRLF.

Definition cmds : re :=
  Alt (iword (lit "pass")) (Alt (iword (lit "users")) (Alt (iword (lit "list"))
    (Alt (iword (lit "buffsize")) (Alt (iword (lit "set-buffsize"))
      (Alt (iword (lit "dissector-status")) (iword (lit "set-dissector-status"))))))).

Definition rule : Type := re * MgmtCommand.

(** Rules without an argument, and with one between blanks. *)
Definition plain (name : list byte) (c : MgmtCommand) : rule :=
  (Seq (Seq (iword name) (Star blank)) crlf, c).
Definition with_arg (name : list byte) (a : re) (c : MgmtCommand) : rule :=
  (Seq (Seq (iword name) (Seq (Plus blank) (Seq a (Star blank)))) crlf, c).

(** The rules marked [<*>], which come after the others. *)
Definition common_rules : list rule :=
  [plain (lit "quit") MGMT_QUIT;
   plain (lit "capa") MGMT_CAPA;
   (Seq (Seq cmds (Seq (Plus blank) (Star not_cr))) crlf, MGMT_INVALID_ARGS);
   (Seq (Plus print) crlf, MGMT_INVALID_CMD);
   (Seq Eps crlf, MGMT_INVALID_CMD)].

Definition pass_rules : list rule :=
  with_arg (lit "token") arg MGMT_TOKEN :: common_rules.

Definition trns_rules : list rule :=
  [plain (lit "stats") MGMT_STATS;
   plain (lit "users") MGMT_USERS;
   plain (lit "buffsize") MGMT_GET_BUFFSIZE;
   with_arg (lit "set-buffsize") numarg MGMT_SET_BUFFSIZE;
   (Seq (Seq (iword (lit "dissector-status")) (Plus blank)) crlf, MGMT_GET_DISSECTOR_STATUS);
   (Seq (Seq (iword (lit "set-dissector-status"))
          (Seq (Plus blank) (Alt (word (lit "on")) (word (lit "off"))))) crlf,
    MGMT_SET_DISSECTOR_STATUS);
   with_arg (lit "add-user") arg MGMT_ADD_USER] ++ common_rules.

Definition rules (cond : Z) : list rule := if (cond =? yyctrns)%Z then trns_rules else pass_rules.

(** ** What a scan of [w] has to report *)

(** [c] is the command of the first rule that matches [u]. *)
Fixpoint first_match (rs : list rule) (u : list byte) (c : MgmtCommand) : Prop :=
  match rs with
  | [] => False
  | (r, c') :: rs' => matches r u /\ c = c' \/ ~ matches r u /\ first_match rs' u c
  end.

(** Some rule matches [u]; some rule matches a word that starts with [u]. *)
Definition matched (rs : list rule) (u : list byte) : Prop := Exists (fun r => matches r.1 u) rs.
Definition viable (rs : list rule) (u : list byte) : Prop := exists v, matched rs (u ++ v).

(** ** Running the rules: the live derivatives *)

Fixpoint step_rules (z : Z) (rs : list rule) : list rule :=
  match rs with
  | [] => []
  | (r, c) :: rs' =>
      match deriv z r with
      | Void => step_rules z rs'
      | d => (d, c) :: step_rules z rs'
      end
  end.
Definition run_rules (rs : list rule) (u : list byte) : list rule :=
  fold_left (fun rs c => step_rules (Zb c) rs) u rs.

(** The command of the first rule that accepts here. *)
Fixpoint accepted (rs : list rule) : option MgmtCommand :=
  match rs with
  | [] => None
  | (r, c) :: rs' => if nullable r then Some c else accepted rs'
  end.

(** ** Lemmas *)

Lemma matches_dec r u : {matches r u} + {~ matches r u}.
Proof.
  revert r. induction u as [|c u IH]; intros r.
  - destruct (nullable r) eqn:E; [left; by apply nullable_spec | right].
    intros H%nullable_spec. congruence.
  - destruct (IH (deriv (Zb c) r)) as [H|H]; rewrite deriv_spec in H; auto.
Qed.

Lemma first_match_matched rs u c : first_match rs u c -> matched rs u.
Proof.
  induction rs as [|[r c'] rs IH]; simpl; [done|].
  intros [[? _]|[_ ?]]; [by apply Exists_cons_hd | apply Exists_cons_tl; by apply IH].
Qed.

Lemma matched_first_match rs u : matched rs u -> exists c, first_match rs u c.
Proof.
  induction 1 as [[r c] rs H|[r c] rs _ [k IH]]; simpl in *; [exists c; auto|].
  destruct (matches_dec r u); eauto.
Qed.

Lemma first_match_fun rs u c c' : first_match rs u c -> first_match rs u c' -> c = c'.
Proof.
  induction rs as [|[r k] rs IH]; simpl; [done|].
  intros [[? ->]|[? ?]] [[? ->]|[? ?]]; tauto.
Qed.

Lemma step_rules_spec c rs u k :
  first_match (step_rules (Zb c) rs) u k <-> first_match rs (c :: u) k.
Proof.
  induction rs as [|[r k'] rs IH]; simpl; [done|].
  rewrite <- deriv_spec, <- IH.
  destruct (deriv (Zb c) r) eqn:E; simpl; try done.
  pose proof (matches_Void u). tauto.
Qed.

Lemma run_rules_app rs u v : run_rules rs (u ++ v) = run_rules (run_rules rs u) v.
Proof. apply fold_left_app. Qed.

Lemma run_rules_spec rs u v k : first_match (run_rules rs u) v k <-> first_match rs (u ++ v) k.
Proof.
  revert rs. induction u as [|c u IH]; intros rs; simpl; [done|].
  change (run_rules rs (c :: u)) with (run_rules (step_rules (Zb c) rs) u).
  by rewrite IH, step_rules_spec.
Qed.

Lemma accepted_spec rs k : accepted rs = Some k <-> first_match rs [] k.
Proof.
  induction rs as [|[r c] rs IH]; simpl; [done|].
  destruct (nullable r) eqn:E.
  - apply nullable_spec in E. split; [intros [= ->]; auto | intros [[_ ->]|[? _]]; tauto].
  - assert (~ matches r []) by (intros H%nullable_spec; congruence). rewrite IH. tauto.
Qed.

Lemma accepted_run rs u k : accepted (run_rules rs u) = Some k <-> first_match rs u k.
Proof. by rewrite accepted_spec, run_rules_spec, app_nil_r. Qed.

Lemma accepted_none rs u : accepted (run_rules rs u) = None -> ~ matched rs u.
Proof. intros E [k H]%matched_first_match. apply accepted_run in H. congruence. Qed.

Lemma viable_run rs u v : matched rs (u ++ v) -> run_rules rs u <> [].
Proof.
  intros [k H]%matched_first_match E. rewrite <- run_rules_spec, E in H. done.
Qed.

Lemma run_viable rs u :
  run_rules rs u <> [] -> forallb (fun r => inhabited r.1) (run_rules rs u) = true -> viable rs u.
Proof.
  destruct (run_rules rs u) as [|[r c] rs'] eqn:E; [done|]. intros _ H. simpl in H.
  apply andb_true_iff in H as [[v Hv]%inhabited_matches _].
  exists v. eapply first_match_matched. rewrite <- run_rules_spec, E. simpl. eauto.
Qed.

(** Every rule ends in CR LF and has no other CR, so a match cannot be
    extended: the longest match is the only one. *)
Definition ends_in_crlf (r : rule) : bool :=
  match r.1 with Seq a b => no_cr a && re_eqb b crlf | _ => false end.

Lemma matches_crlf u : matches crlf u -> u = CRLF.
Proof.
  unfold crlf. intros H. apply matches_Seq in H as (x & y & -> & Hx & Hy).
  apply matches_Seq in Hy as (y1 & y2 & -> & Hy & Hn).
  inversion Hx as [|? c Hc| | | | |]; inversion Hy as [|? d Hd| | | | |]; inversion Hn; subst.
  assert (c = CR) as ->.
  { apply Zb_inj. unfold in_ranges in Hc. cbn [existsb] in Hc. tests.
    rewrite orb_false_r in Hc. tests. change (Zb CR) with 13%Z in *. lia. }
  assert (d = LF) as ->; [|done].
  apply Zb_inj. unfold in_ranges in Hd. cbn [existsb] in Hd.
  rewrite orb_false_r in Hd. tests. change (Zb LF) with 10%Z in *. lia.
Qed.

Lemma rules_end_in_crlf cond u :
  matched (rules cond) u -> exists x, u = x ++ CRLF /\ CR ∉ x.
Proof.
  assert (H : forallb ends_in_crlf (rules cond) = true).
  { unfold rules. destruct (cond =? yyctrns)%Z; reflexivity. }
  intros ([r c] & Hin & Hr)%Exists_exists. rewrite forallb_forall in H.
  apply list_elem_of_In in Hin. specialize (H _ Hin). unfold ends_in_crlf in H. simpl in H, Hr.
  destruct r as [| | |a b| |]; try done. tests.
  match goal with H : re_eqb _ _ = true |- _ => apply re_eqb_eq in H as -> end.
  apply matches_Seq in Hr as (x & y & -> & Hx & ->%matches_crlf).
  exists x. split; [done|]. by eapply no_cr_spec.
Qed.

Lemma matched_prefix_free cond u v :
  matched (rules cond) u -> matched (rules cond) (u ++ v) -> v = [].
Proof.
  intros (x & -> & Hx)%rules_end_in_crlf (y & E & Hy)%rules_end_in_crlf.
  rewrite <- app_assoc in E. simpl in E. unfold CRLF in E at 1. simpl in E. revert y Hy E.
  induction x as [|a x IH]; intros [|b y] Hy E; simpl in E.
  - injection E as E. done.
  - injection E as <- E. by destruct Hy; apply list_elem_of_here.
  - injection E as -> E. by destruct Hx; apply list_elem_of_here.
  - injection E as -> E. apply (IH ltac:(set_solver) y); set_solver.
Qed.

(** A command with an argument has no NUL in its text. *)
Lemma arg_command_no_NUL cond u c :
  first_match (rules cond) u c ->
  c = MGMT_TOKEN \/ c = MGMT_SET_BUFFSIZE \/ c = MGMT_SET_DISSECTOR_STATUS \/ c = MGMT_ADD_USER ->
  NUL ∉ u.
Proof.
  set (takes c := bool_decide (c = MGMT_TOKEN \/ c = MGMT_SET_BUFFSIZE \/
                               c = MGMT_SET_DISSECTOR_STATUS \/ c = MGMT_ADD_USER)).
  assert (Hall : forallb (fun r => negb (takes r.2) || avoids 0 r.1) (rules cond) = true).
  { unfold rules. destruct (cond =? yyctrns)%Z; reflexivity. }
  intros Hm Hc. induction (rules cond) as [|[r c'] rs IH]; [done|]. simpl in Hall.
  apply andb_true_iff in Hall as [Hr Hall]. destruct Hm as [[Hm ->]|[_ Hm]]; [|by apply IH].
  unfold takes in Hr. rewrite bool_decide_eq_true_2 in Hr by done.
  by apply (avoids_spec r u NUL).
Qed.

(** No rule matches the empty text. *)
Lemma matched_nonempty cond u : matched (rules cond) u -> u <> [].
Proof. intros (x & -> & _)%rules_end_in_crlf. by destruct x. Qed.

(** No rule asks for more input. *)
Lemma first_match_complete cond u c : first_match (rules cond) u c -> c <> MGMT_INCOMPLETE.
Proof.
  assert (Hall : forallb (fun r => negb (bool_decide (r.2 = MGMT_INCOMPLETE))) (rules cond) = true).
  { unfold rules. destruct (cond =? yyctrns)%Z; reflexivity. }
  induction (rules cond) as [|[r c'] rs IH]; [done|]. simpl in Hall.
  apply andb_true_iff in Hall as [Hr Hall]. intros [[_ ->]|[_ Hm]]; [by tests|by apply IH].
Qed.
