(* ===== verification/LexerCheck.v ===== *)
(** * LexerCheck: the scanner against its rules, by computation

    The generated blocks are validated against the rules they come from. One
    step of the scanner on a byte is computed symbolically ([astep]); a [node]
    pairs a point of the scanner with the live derivatives of the rules and
    what is known of its pointers there; [table] holds the nodes reachable from
    the two starting points and [check_table] verifies that every byte leads
    from each of them to another, or to the end the rules prescribe. *)

From S2P Require Import Prelude MgmtProtocol LexerCode LexerPass LexerTrns Lexer Regex LexerRules.

(** ** One byte of the scanner *)

(** What the statements executed on a byte do: move past it, mark, save tags,
    go back to the mark, set the argument. *)
Record effect := Effect {
  ef_inc : bool; ef_mark : bool; ef_t1 : bool; ef_t2 : bool;
  ef_restored : bool; ef_arg : option arge_expr
}.
Definition effect0 : effect := Effect false false false false false None.

Definition apply_effect (e : effect) (c : byte) (s : lexer) : lexer :=
  let p := l_cur s in
  let mar := if ef_mark e then p + 1 else l_mar s in
  let t1 := if ef_t1 e then p else l_yyt1 s in
  let t2 := if ef_t2 e then p else l_yyt2 s in
  let cur := if ef_restored e then mar else if ef_inc e then p + 1 else p in
  Lexer cur mar t1 t2 c
    (match ef_arg e with
     | Some arge_yyt2 => Some (t1, t2)
     | Some arge_cur_2 => Some (t1, cur - 2)
     | None => l_arg s
     end).

Inductive aend :=
| ANext (n : Z) (e : effect)
| ABreak (c : MgmtCommand) (e : effect)
| AJump (l : positive) (e : effect)
| AStuck.

Definition ef_tagged (t : option ytag) (e : effect) : effect :=
  match t with
  | None => e
  | Some yyt1 => Effect (ef_inc e) (ef_mark e) true (ef_t2 e) (ef_restored e) (ef_arg e)
  | Some yyt2 => Effect (ef_inc e) (ef_mark e) (ef_t1 e) true (ef_restored e) (ef_arg e)
  end.

(** Nothing but tags has been done. *)
Definition ef_fresh (e : effect) : bool :=
  negb (ef_inc e) && negb (ef_restored e) && negb (ef_mark e) &&
  match ef_arg e with None => true | _ => false end.

(** The rest must not load again. *)
Definition no_next (r : aend) : aend := match r with ANext _ _ => AStuck | _ => r end.

Fixpoint aexec (z : Z) (k : code) (e : effect) : aend :=
  match k with
  | Inc k =>
      if ef_fresh e then aexec z k (Effect true false (ef_t1 e) (ef_t2 e) false None) else AStuck
  | IncMark k =>
      if ef_fresh e then aexec z k (Effect true true (ef_t1 e) (ef_t2 e) false None) else AStuck
  | Fill n _ => ANext n e
  | Switch arms dflt =>
      if ef_fresh e then
        let a := select_arm z arms dflt in AJump (arm_goto a) (ef_tagged (arm_tag a) e)
      else AStuck
  | Restore k =>
      if ef_fresh e
      then no_next (aexec z k (Effect false false (ef_t1 e) (ef_t2 e) true None)) else AStuck
  | Goto l => AJump l e
  | Args a k =>
      match ef_arg e with
      | None =>
          no_next (aexec z k (Effect (ef_inc e) (ef_mark e) (ef_t1 e) (ef_t2 e)
                                (ef_restored e) (Some a)))
      | Some _ => AStuck
      end
  | Result c => ABreak c e
  end.

(** At most [fuel] jumps. *)
Fixpoint arun (fuel : nat) (z : Z) (k : code) (e : effect) : aend :=
  match aexec z k e with
  | AJump l e' =>
      match fuel with
      | O => AStuck
      | S fuel' => match block l with Done k' => arun fuel' z k' e' | Fault _ => AStuck end
      end
  | r => r
  end.

Definition astep (n z : Z) : aend :=
  match yyFillLabel n with Done (Fill _ k) => arun 3 z k effect0 | _ => AStuck end.

(** At the end of the input the scanner asks for more, in state [n]. *)
Definition needs (n : Z) (k : code) : bool :=
  match k with
  | Switch arms dflt =>
      match arm_fill (select_arm 0 arms dflt) with Some m => (n =? m)%Z | None => false end
  | _ => false
  end.
Definition aeof (n : Z) : bool :=
  match yyFillLabel n with
  | Done (Fill _ (Goto l)) => match block l with Done k => needs n k | Fault _ => false end
  | Done (Fill _ k) => needs n k
  | _ => false
  end.

(** ** Where the argument of a request is *)

(** In the keyword, in the blanks after it, in the argument, just after the CR
    that ends it, later; or at a CR where an argument would begin. *)
Inductive phase := PKw | PSp | PArg | PCr | PPost | PNone.

Definition pstep (ph : phase) (z : Z) : phase :=
  match ph with
  | PKw => if (z =? 32)%Z then PSp else PKw
  | PSp => if (z =? 32)%Z then PSp else if (z =? 13)%Z then PNone else PArg
  | PArg => if (z =? 32)%Z then PPost else if (z =? 13)%Z then PCr else PArg
  | PCr | PPost => PPost
  | PNone => PNone
  end.

Definition phase_eqb (a b : phase) : bool :=
  match a, b with
  | PKw, PKw | PSp, PSp | PArg, PArg | PCr, PCr | PPost, PPost | PNone, PNone => true
  | _, _ => false
  end.

Definition command_eqb (a b : MgmtCommand) : bool := bool_decide (a = b).

Definition has_arg (c : MgmtCommand) : bool :=
  match c with
  | MGMT_TOKEN | MGMT_SET_BUFFSIZE | MGMT_SET_DISSECTOR_STATUS | MGMT_ADD_USER => true
  | _ => false
  end.

(** ** The product *)

(** [nd_len] is the number of bytes read, two standing for more; [nd_mark]: the
    mark is one past the start; [nd_t1], [nd_t2]: the tags are the ends of the
    argument. *)
Record node := Node {
  nd_fill : Z; nd_rules : list rule; nd_phase : phase; nd_len : nat;
  nd_mark : bool; nd_t1 : bool; nd_t2 : bool
}.

Fixpoint rules_eqb (a b : list rule) : bool :=
  match a, b with
  | [], [] => true
  | (r, c) :: a', (r', c') :: b' => command_eqb c c' && re_eqb r r' && rules_eqb a' b'
  | _, _ => false
  end.

Definition node_eqb (a b : node) : bool :=
  (nd_fill a =? nd_fill b)%Z && phase_eqb (nd_phase a) (nd_phase b) && (nd_len a =? nd_len b) &&
  Bool.eqb (nd_mark a) (nd_mark b) && Bool.eqb (nd_t1 a) (nd_t1 b) &&
  Bool.eqb (nd_t2 a) (nd_t2 b) && rules_eqb (nd_rules a) (nd_rules b).

Definition next_t1 (nd : node) (z : Z) (e : effect) : bool :=
  if phase_eqb (nd_phase nd) PSp && phase_eqb (pstep (nd_phase nd) z) PArg
  then ef_t1 e else nd_t1 nd && negb (ef_t1 e).
Definition next_t2 (nd : node) (z : Z) (e : effect) : bool :=
  if phase_eqb (nd_phase nd) PArg && negb (phase_eqb (pstep (nd_phase nd) z) PArg)
  then ef_t2 e else nd_t2 nd && negb (ef_t2 e).

Definition next_node (nd : node) (z n : Z) (e : effect) : node :=
  Node n (step_rules z (nd_rules nd)) (pstep (nd_phase nd) z) (Nat.min 2 (S (nd_len nd)))
    (nd_mark nd || ef_mark e) (next_t1 nd z e) (next_t2 nd z e).

Definition arg_ok (nd : node) (z : Z) (c : MgmtCommand) (e : effect) : bool :=
  match ef_arg e with
  | None => negb (has_arg c)
  | Some a =>
      has_arg c && next_t1 nd z e &&
      match a with
      | arge_yyt2 => next_t2 nd z e && phase_eqb (pstep (nd_phase nd) z) PPost
      | arge_cur_2 => phase_eqb (nd_phase nd) PCr
      end
  end.

(** After a byte that no rule continues with, the cursor is one past the start. *)
Definition one_byte (nd : node) (e : effect) : bool :=
  match nd_len nd with
  | O => ef_inc e && negb (ef_restored e)
  | S O => if ef_restored e then nd_mark nd && negb (ef_mark e) else negb (ef_inc e)
  | _ => ef_restored e && nd_mark nd && negb (ef_mark e)
  end.

(** The nodes by fill label, in a binary tree. *)
Inductive trie := Leaf | Branch (l : trie) (v : list node) (r : trie).
Fixpoint tget (p : positive) (t : trie) : list node :=
  match t with
  | Leaf => []
  | Branch l v r => match p with xH => v | xO p' => tget p' l | xI p' => tget p' r end
  end.
Fixpoint tput (p : positive) (nd : node) (t : trie) : trie :=
  match p with
  | xH => match t with Leaf => Branch Leaf [nd] Leaf | Branch l v r => Branch l (nd :: v) r end
  | xO p' =>
      match t with
      | Leaf => Branch (tput p' nd Leaf) [] Leaf
      | Branch l v r => Branch (tput p' nd l) v r
      end
  | xI p' =>
      match t with
      | Leaf => Branch Leaf [] (tput p' nd Leaf)
      | Branch l v r => Branch l v (tput p' nd r)
      end
  end.
Fixpoint tforall (P : node -> bool) (t : trie) : bool :=
  match t with Leaf => true | Branch l v r => forallb P v && tforall P l && tforall P r end.

Definition fill_pos (n : Z) : positive := Z.to_pos (n + 1).
Definition member (nd : node) (t : trie) : bool :=
  existsb (node_eqb nd) (tget (fill_pos (nd_fill nd)) t).

Definition check_byte (t : trie) (nd : node) (z : Z) : bool :=
  match astep (nd_fill nd) z with
  | ANext n e =>
      let nd' := next_node nd z n e in
      ef_inc e && negb (ef_restored e) && match ef_arg e with None => true | _ => false end &&
      (if nd_len nd =? 0 then true else negb (ef_mark e)) && member nd' t
  | ABreak c e =>
      let rs := step_rules z (nd_rules nd) in
      match accepted rs with
      | Some c' => command_eqb c c' && ef_inc e && negb (ef_restored e) && arg_ok nd z c e
      | None =>
          match rs with [] => true | _ => false end && command_eqb c MGMT_INVALID_CMD &&
          match ef_arg e with None => true | _ => false end && one_byte nd e
      end
  | _ => false
  end.

Definition byte_codes : list Z := Eval vm_compute in Z.of_nat <$> seq 0 256.

(** The argument has begun. *)
Definition in_arg (ph : phase) : bool :=
  match ph with PArg | PCr | PPost => true | PKw | PSp | PNone => false end.

Definition check_node (t : trie) (nd : node) : bool :=
  implb (nd_t1 nd || nd_t2 nd) (in_arg (nd_phase nd)) &&
  match fallback (nd_fill nd) with Some _ => true | None => false end &&
  match accepted (nd_rules nd) with None => true | Some _ => false end &&
  match nd_rules nd with [] => false | _ => true end &&
  forallb (fun r => inhabited r.1) (nd_rules nd) &&
  aeof (nd_fill nd) && forallb (check_byte t nd) byte_codes.

(** ** The reachable nodes *)

Definition start_node (cond : Z) : node :=
  Node (if (cond =? yyctrns)%Z then 63 else 0)%Z (rules cond) PKw 0 false false false.

Definition successors (nd : node) : list node :=
  omap (fun z => match astep (nd_fill nd) z with
                 | ANext n e => Some (next_node nd z n e)
                 | _ => None
                 end) byte_codes.

Fixpoint explore (fuel : nat) (todo : list node) (t : trie) : trie :=
  match fuel with
  | O => t
  | S fuel' =>
      match todo with
      | [] => t
      | nd :: todo' =>
          if member nd t then explore fuel' todo' t
          else explore fuel' (successors nd ++ todo') (tput (fill_pos (nd_fill nd)) nd t)
      end
  end.

(** The fuel covers the edges of the product; that the result is closed is what
    [table_checked] verifies. *)
Definition table : trie :=
  Eval vm_compute in explore (N.to_nat 200000) [start_node yycpass; start_node yyctrns] Leaf.

Lemma table_checked : tforall (check_node table) table = true.
Proof. vm_cast_no_check (eq_refl true). Qed.
