(* ===== verification/LexerSpec.v ===== *)
(** * LexerSpec: the scanner implements its rules

    From the computed check of LexerCheck: the generated scanner, started
    afresh or resumed after it asked for more input, reports the command, the
    length and the argument that the rules of LexerRules prescribe for all the
    bytes it has seen. *)

From S2P Require Import Prelude MgmtProtocol LexerCode LexerPass LexerTrns Lexer Regex LexerRules.
From S2P Require Import LexerCheck.

(** ** The run of the blocks *)

Lemma run_more f g mem lim k s r : run f mem lim k s = Done r -> run (g + f) mem lim k s = Done r.
Proof.
  revert g k s. induction f as [|f IH]; intros g k s; [done|].
  rewrite Nat.add_succ_r. simpl. destruct (exec mem lim k s) as [[l s'| |]|]; simpl; try done.
  destruct (block l); simpl; [apply IH | done].
Qed.

(** A label found behind a block is the label of that number: by enumeration
    of the labels, which have at most eight bits. *)
#[local] Instance arm_eq_dec : EqDecision arm.
Proof. solve_decision. Defined.
#[local] Instance arge_expr_eq_dec : EqDecision arge_expr.
Proof. solve_decision. Defined.
#[local] Instance code_eq_dec : EqDecision code.
Proof. solve_decision. Defined.

Definition fill_ok (l : positive) : bool :=
  match block l with
  | Done k =>
      match fill_of k with
      | Some (Fill n k' as f) =>
          match yyFillLabel n with Done f' => bool_decide (f' = f) | Fault _ => false end
      | _ => true
      end
  | Fault _ => true
  end.

Lemma fill_ok_all l : fill_ok l = true.
Proof.
  let rec go n :=
    lazymatch n with
    | O => vm_compute; reflexivity
    | S ?m => destruct l as [l|l|]; [go m | go m | vm_compute; reflexivity]
    end in go 8.
Qed.

Lemma fill_of_block l k n k' :
  block l = Done k -> fill_of k = Some (Fill n k') -> yyFillLabel n = Done (Fill n k').
Proof.
  intros Hl Hk. pose proof (fill_ok_all l) as H. unfold fill_ok in H. rewrite Hl, Hk in H.
  destruct (yyFillLabel n); [by tests; subst | done].
Qed.

Lemma ef_fresh_inv e :
  ef_fresh e = true -> ef_inc e = false /\ ef_restored e = false /\ ef_mark e = false /\ ef_arg e = None.
Proof. unfold ef_fresh. intros. tests. by destruct (ef_arg e). Qed.

Lemma apply_tagged e c s t :
  ef_fresh e = true ->
  set_tag t (apply_effect e c s) = apply_effect (ef_tagged t e) c s.
Proof.
  intros (Ei & Er & Em & Ea)%ef_fresh_inv. destruct t as [[]|]; [..|done];
    unfold set_tag, apply_effect; simpl; by rewrite Ei, Er, Em, Ea.
Qed.

(** Name the state [exec] runs in by the effect that leads to it. *)
Ltac exec_in e' c s :=
  match goal with
  | |- context [exec _ _ _ ?x] =>
      replace x with (apply_effect e' c s)
        by (unfold apply_effect; simpl; repeat match goal with H : _ = _ |- _ => rewrite H end; done)
  end.

Ltac fresh_effect e F :=
  destruct (ef_fresh e) eqn:F; [|done]; destruct (ef_fresh_inv e F) as (?Ei & ?Er & ?Em & ?Ea).

(** Once the cursor has moved, only a load follows. *)
Lemma aexec_next_inc z k e n e' :
  aexec z k e = ANext n e' -> ef_inc e = true -> exists k', k = Fill n k' /\ e = e'.
Proof.
  intros A Ei. assert (F : ef_fresh e = false) by (unfold ef_fresh; by rewrite Ei).
  destruct k as [k|k|m k|arms d|k|l|a k|r]; simpl in A; rewrite ?F in A; try discriminate.
  - injection A as -> ->. eauto.
  - destruct (ef_arg e); [done|]. unfold no_next in A. by destruct (aexec _ _ _).
Qed.

(** The symbolic execution agrees with [exec] before the end of the input. *)
Lemma aexec_sound mem lim c s k e :
  l_cur s < lim ->
  match aexec (Zb c) k e with
  | AJump l e' => exec mem lim k (apply_effect e c s) = Done (Jump l (apply_effect e' c s))
  | ABreak r e' => exec mem lim k (apply_effect e c s) = Done (Break r (apply_effect e' c s))
  | ANext n e' => exists k', fill_of k = Some (Fill n k') /\
      exec mem lim k (apply_effect e c s) = exec mem lim (Fill n k') (apply_effect e' c s)
  | AStuck => True
  end.
Proof.
  intros Hlim. revert e.
  induction k as [k IH|k IH|n k _|arms d|k IH|l|a k IH|r]; intros e; simpl; try done.
  - fresh_effect e F.
    specialize (IH (Effect true false (ef_t1 e) (ef_t2 e) false None)).
    exec_in (Effect true false (ef_t1 e) (ef_t2 e) false None) c s.
    destruct (aexec _ k _) as [n e'|r e'|l e'|] eqn:A; try done.
    apply aexec_next_inc in A as (k' & -> & <-); [by exists k' | done].
  - fresh_effect e F.
    specialize (IH (Effect true true (ef_t1 e) (ef_t2 e) false None)).
    exec_in (Effect true true (ef_t1 e) (ef_t2 e) false None) c s.
    destruct (aexec _ k _) as [n e'|r e'|l e'|] eqn:A; try done.
    apply aexec_next_inc in A as (k' & -> & <-); [by exists k' | done].
  - by exists k.
  - fresh_effect e F. unfold mret, outcome_ret. f_equal.
    unfold take_arm. rewrite apply_tagged by done. change (l_yych (apply_effect e c s)) with c.
    assert (l_cur (apply_effect e c s) < lim) as Hl
      by (unfold apply_effect; simpl; by rewrite Er, Ei).
    rewrite (proj2 (Nat.leb_gt _ _)) by done. by destruct (arm_fill _).
  - fresh_effect e F.
    specialize (IH (Effect false false (ef_t1 e) (ef_t2 e) true None)).
    exec_in (Effect false false (ef_t1 e) (ef_t2 e) true None) c s.
    by destruct (aexec _ k _).
  - destruct (ef_arg e) eqn:Ea; [done|].
    specialize (IH (Effect (ef_inc e) (ef_mark e) (ef_t1 e) (ef_t2 e) (ef_restored e) (Some a))).
    destruct a;
      exec_in (Effect (ef_inc e) (ef_mark e) (ef_t1 e) (ef_t2 e) (ef_restored e) (Some arge_yyt2)) c s ||
      exec_in (Effect (ef_inc e) (ef_mark e) (ef_t1 e) (ef_t2 e) (ef_restored e) (Some arge_cur_2)) c s;
      by destruct (aexec _ k _).
Qed.

Definition fill_known (k : code) : Prop :=
  forall n k', fill_of k = Some (Fill n k') -> yyFillLabel n = Done (Fill n k').

Lemma run_exec f mem lim k k' s s' :
  exec mem lim k s = exec mem lim k' s' -> run f mem lim k s = run f mem lim k' s'.
Proof. destruct f; simpl; [done|]. by intros ->. Qed.

Lemma arun_sound mem lim c s f fuel k e :
  l_cur s < lim -> fill_known k ->
  match arun fuel (Zb c) k e with
  | ANext n e' => exists kf, yyFillLabel n = Done kf /\ forall r,
      run f mem lim kf (apply_effect e' c s) = Done r ->
      run (fuel + f) mem lim k (apply_effect e c s) = Done r
  | ABreak r e' =>
      run (fuel + S f) mem lim k (apply_effect e c s) = Done (Break r (apply_effect e' c s))
  | _ => True
  end.
Proof.
  intros Hlim. revert k e. induction fuel as [|fuel IH]; intros k e Hk;
    pose proof (aexec_sound mem lim c s k e Hlim) as A; simpl arun;
    destruct (aexec (Zb c) k e) as [n e'|r e'|l e'|] eqn:Ea; try done.
  - destruct A as (k' & Hf & A). exists (Fill n k'). split; [by apply Hk|].
    intros r Hr. simpl. by rewrite (run_exec _ _ _ _ _ _ _ A).
  - simpl. by rewrite A.
  - destruct A as (k' & Hf & A). exists (Fill n k'). split; [by apply Hk|].
    intros r Hr. rewrite (run_exec _ _ _ _ _ _ _ A). by apply run_more.
  - simpl. by rewrite A.
  - destruct (block l) as [k'|] eqn:El; [|done].
    specialize (IH k' e' (fun n k'' => fill_of_block l k' n k'' El)).
    destruct (arun fuel (Zb c) k' e') as [n e2|r e2|? ?|]; try done.
    + destruct IH as (kf & ? & IH). exists kf. split; [done|]. intros r Hr.
      simpl. rewrite A. simpl. rewrite El. simpl. auto.
    + simpl. rewrite A. simpl. by rewrite El.
Qed.

(** A load before the end of the input, and at it. *)
Lemma exec_Fill mem lim m k s c :
  mem !! l_cur s = Some c -> exec mem lim (Fill m k) s = exec mem lim k (apply_effect effect0 c s).
Proof. intros E. simpl. unfold mem_get. by rewrite E. Qed.

Lemma needs_sound mem lim n k s :
  needs n k = true -> l_cur s = lim -> l_yych s = NUL -> exec mem lim k s = Done (Need n s).
Proof.
  destruct k as [| | |arms d| | | |]; try done. simpl. unfold take_arm. intros Hn -> ->.
  change (Zb NUL) with 0%Z. destruct (arm_fill _); [|done]. tests. subst. by rewrite Nat.leb_refl.
Qed.

Lemma aeof_sound n :
  aeof n = true ->
  exists m k, yyFillLabel n = Done (Fill m k) /\ fill_known k /\
    forall mem lim s f, l_cur s = lim -> mem !! lim = Some NUL ->
      run (2 + f) mem lim (Fill m k) s = Done (Need n (apply_effect effect0 NUL s)).
Proof.
  unfold aeof. destruct (yyFillLabel n) as [[| |m k| | | | |]|] eqn:E; try done. intros H.
  exists m, k. split; [done|].
  assert (Hk : fill_of k = None) by (by destruct k).
  split; [intros ? ?; by rewrite Hk|]. intros mem lim s f Hc Hm. rewrite <- Hc in Hm.
  assert (H0 : l_cur (apply_effect effect0 NUL s) = lim) by done.
  destruct k as [| | |arms d| |l| |]; try discriminate.
  - rewrite (run_exec _ _ _ _ _ _ _ (exec_Fill _ _ m _ _ _ Hm)). cbn [run Nat.add].
    by rewrite (needs_sound _ _ n (Switch arms d) _ H H0).
  - rewrite (run_exec _ _ _ _ _ _ _ (exec_Fill _ _ m _ _ _ Hm)). cbn [run exec Nat.add].
    simpl mbind. destruct (block l) as [k'|]; [|done]. simpl mbind.
    by rewrite (needs_sound _ _ n k' _ H H0).
Qed.

Lemma astep_sound mem lim n m k s c f :
  yyFillLabel n = Done (Fill m k) -> fill_known k -> mem !! l_cur s = Some c -> l_cur s < lim ->
  match astep n (Zb c) with
  | ANext n' e => exists kf, yyFillLabel n' = Done kf /\ forall r,
      run f mem lim kf (apply_effect e c s) = Done r -> run (3 + f) mem lim (Fill m k) s = Done r
  | ABreak r e => run (4 + f) mem lim (Fill m k) s = Done (Break r (apply_effect e c s))
  | _ => True
  end.
Proof.
  intros Hf Hk Hc Hl. unfold astep. rewrite Hf.
  pose proof (arun_sound mem lim c s f 3 k effect0 Hl Hk) as A.
  destruct (arun 3 (Zb c) k effect0) as [n' e|r e|? ?|]; try done.
  - destruct A as (kf & ? & A). exists kf. split; [done|]. intros r Hr.
    rewrite (run_exec _ _ _ _ _ _ _ (exec_Fill _ _ m _ _ _ Hc)). by apply A.
  - rewrite (run_exec _ _ _ _ _ _ _ (exec_Fill _ _ m _ _ _ Hc)).
    replace (4 + f) with (3 + S f) by lia. done.
Qed.

(** ** The table *)

Lemma tforall_tget P t p nd : tforall P t = true -> nd ∈ tget p t -> P nd = true.
Proof.
  revert p. induction t as [|l IHl v r IHr]; intros p; simpl.
  { intros _. by destruct p; intros ?%not_elem_of_nil. }
  intros H. tests. destruct p; eauto. intros Hin.
  match goal with H : forallb _ _ = true |- _ => rewrite forallb_forall in H; apply H end.
  by apply list_elem_of_In.
Qed.

Lemma phase_eqb_eq a b : phase_eqb a b = true -> a = b.
Proof. by destruct a, b. Qed.

Lemma command_eqb_eq a b : command_eqb a b = true -> a = b.
Proof. unfold command_eqb. intros. by tests. Qed.

Lemma rules_eqb_eq a b : rules_eqb a b = true -> a = b.
Proof.
  revert b. induction a as [|[r c] a IH]; intros [|[r' c'] b]; simpl; try done. intros H. tests.
  f_equal; [f_equal; auto using re_eqb_eq, command_eqb_eq | auto].
Qed.

Lemma node_eqb_eq a b : node_eqb a b = true -> a = b.
Proof.
  unfold node_eqb. destruct a, b; simpl. intros H. tests.
  repeat match goal with
  | H : Bool.eqb _ _ = true |- _ => apply Bool.eqb_prop in H
  | H : phase_eqb _ _ = true |- _ => apply phase_eqb_eq in H
  | H : rules_eqb _ _ = true |- _ => apply rules_eqb_eq in H
  end. by subst.
Qed.

Lemma byte_codes_spec c : In (Zb c) byte_codes.
Proof.
  assert (H : forallb (fun c => existsb (Z.eqb (Zb c)) byte_codes) all_bytes = true)
    by (vm_compute; reflexivity).
  apply forall_bytes with (b := c) in H. apply existsb_exists in H as (z & ? & ?). by tests; subst.
Qed.

(** The nodes of the table. *)
Definition valid (nd : node) : Prop := member nd table = true.

Lemma valid_checked nd : valid nd -> check_node table nd = true.
Proof.
  unfold valid, member. intros (nd' & Hin & E)%existsb_exists. apply node_eqb_eq in E as <-.
  eapply tforall_tget; [apply table_checked|]. by apply list_elem_of_In.
Qed.

Record node_facts (nd : node) : Prop := {
  nf_tags : nd_t1 nd || nd_t2 nd = true -> in_arg (nd_phase nd) = true;
  nf_fallback : is_Some (fallback (nd_fill nd));
  nf_open : accepted (nd_rules nd) = None;
  nf_live : nd_rules nd <> [];
  nf_inhabited : forallb (fun r => inhabited r.1) (nd_rules nd) = true;
  nf_eof : aeof (nd_fill nd) = true;
  nf_bytes : forall c, check_byte table nd (Zb c) = true
}.

Lemma valid_facts nd : valid nd -> node_facts nd.
Proof.
  intros H%valid_checked. unfold check_node in H.
  apply andb_true_iff in H as [H H7]. apply andb_true_iff in H as [H H6].
  apply andb_true_iff in H as [H H5]. apply andb_true_iff in H as [H H4].
  apply andb_true_iff in H as [H H3]. apply andb_true_iff in H as [H1 H2]. split.
  - intros E. by rewrite E in H1.
  - by destruct (fallback _).
  - by destruct (accepted _).
  - by destruct (nd_rules nd).
  - done.
  - done.
  - intros c. rewrite forallb_forall in H7. apply H7, byte_codes_spec.
Qed.

Lemma start_valid cond : valid (start_node cond).
Proof.
  unfold start_node, rules, valid. destruct (cond =? yyctrns)%Z; vm_compute; reflexivity.
Qed.

(** ** The argument of a request *)

Record argpos := ArgPos { ap_phase : phase; ap_start : nat; ap_end : nat; ap_len : nat }.

Definition ap_step (a : argpos) (c : byte) : argpos :=
  let ph := ap_phase a in
  let ph' := pstep ph (Zb c) in
  ArgPos ph'
    (if phase_eqb ph PSp && phase_eqb ph' PArg then ap_len a else ap_start a)
    (if phase_eqb ph PArg && negb (phase_eqb ph' PArg) then ap_len a else ap_end a)
    (S (ap_len a)).

Definition arg_pos (u : list byte) : argpos := fold_left ap_step u (ArgPos PKw 0 0 0).

Lemma arg_pos_snoc u c : arg_pos (u ++ [c]) = ap_step (arg_pos u) c.
Proof. unfold arg_pos. by rewrite fold_left_app. Qed.

Lemma ap_len_length u : ap_len (arg_pos u) = length u.
Proof.
  induction u as [|c u IH] using rev_ind; [done|].
  rewrite arg_pos_snoc, length_app. simpl. lia.
Qed.

Definition BLANK : byte := Byte.x20.
Definition delimiter (c : byte) : Prop := c = BLANK \/ c = CR.

(** [a], at offset [off] of [u], is the first run of characters other than
    blanks after the first blanks; a blank or a CR follows it. *)
Definition argument (u a : list byte) (off : nat) : Prop :=
  exists kw sp d rest, u = kw ++ sp ++ a ++ d :: rest /\ off = length (kw ++ sp) /\
    (BLANK ∉ kw) /\ sp <> [] /\ Forall (fun c => c = BLANK) sp /\
    a <> [] /\ Forall (fun c => ~ delimiter c) a /\ delimiter d.

(** The text read so far in each phase; [n] and [e] are the ends found. *)
Definition phase_text (ph : phase) (n e : nat) (u : list byte) : Prop :=
  let lead kw sp := (BLANK ∉ kw) /\ sp <> [] /\ Forall (fun c => c = BLANK) sp in
  let body kw sp a := lead kw sp /\ a <> [] /\ Forall (fun c => ~ delimiter c) a /\
                      n = length (kw ++ sp) in
  match ph with
  | PKw => BLANK ∉ u
  | PSp => exists kw sp, u = kw ++ sp /\ lead kw sp
  | PArg => exists kw sp a, u = kw ++ sp ++ a /\ body kw sp a
  | PCr => exists kw sp a, u = kw ++ sp ++ a ++ [CR] /\ body kw sp a /\ e = n + length a
  | PPost => exists a, argument u a n /\ e = n + length a
  | PNone => True
  end.

Lemma Zb_BLANK c : (Zb c =? 32)%Z = bool_decide (c = BLANK).
Proof.
  destruct (Z.eqb_spec (Zb c) 32) as [E|E]; symmetry;
    [apply bool_decide_eq_true_2, Zb_inj; by rewrite E |
     apply bool_decide_eq_false_2; by intros ->].
Qed.

Lemma Zb_CR c : (Zb c =? 13)%Z = bool_decide (c = CR).
Proof.
  destruct (Z.eqb_spec (Zb c) 13) as [E|E]; symmetry;
    [apply bool_decide_eq_true_2, Zb_inj; by rewrite E |
     apply bool_decide_eq_false_2; by intros ->].
Qed.

Lemma argument_snoc u a n c : argument u a n -> argument (u ++ [c]) a n.
Proof.
  intros (kw & sp & d & rest & -> & H). exists kw, sp, d, (rest ++ [c]).
  split; [by rewrite <- !app_assoc|done].
Qed.

Lemma phase_text_snoc ph n e u c :
  phase_text ph n e u -> 
  let a := ap_step (ArgPos ph n e (length u)) c in
  phase_text (ap_phase a) (ap_start a) (ap_end a) (u ++ [c]).
Proof.
  destruct ph; simpl; rewrite ?Zb_BLANK, ?Zb_CR.
  - intros Hu. case_bool_decide; simpl; [|set_solver]. subst. exists u, [BLANK].
    split_and!; try done. by repeat constructor.
  - intros (kw & sp & -> & Hk & Hs & Hb). repeat case_bool_decide; simpl.
    + subst. exists kw, (sp ++ [BLANK]). rewrite app_assoc. split_and!; try done.
      * by destruct sp.
      * apply Forall_app; auto.
    + done.
    + exists kw, sp, [c]. rewrite app_assoc. split_and!; try done.
      repeat constructor. unfold delimiter. tauto.
  - intros (kw & sp & a & -> & (Hk & Hs & Hb) & Ha & Hf & ->). repeat case_bool_decide; simpl.
    + subst. exists a. split; [|rewrite !length_app; lia].
      exists kw, sp, BLANK, []. rewrite <- !app_assoc. split_and!; try done. by left.
    + subst. exists kw, sp, a. rewrite <- !app_assoc. split_and!; try done. rewrite !length_app. lia.
    + exists kw, sp, (a ++ [c]). rewrite <- !app_assoc. split_and!; try done.
      * by destruct a.
      * apply Forall_app. split; [done|]. repeat constructor. unfold delimiter. tauto.
  - intros (kw & sp & a & -> & ((Hk & Hs & Hb) & Ha & Hf & ->) & ->). exists a. split; [|done].
    exists kw, sp, CR, [c]. rewrite <- !app_assoc. split_and!; try done. by right.
  - intros (a & Hu & ->). exists a. split; [by apply argument_snoc | done].
  - done.
Qed.

Lemma arg_pos_text u :
  phase_text (ap_phase (arg_pos u)) (ap_start (arg_pos u)) (ap_end (arg_pos u)) u.
Proof.
  induction u as [|c u IH] using rev_ind; [by apply not_elem_of_nil|].
  rewrite arg_pos_snoc. apply (phase_text_snoc _ _ _ u c) in IH.
  rewrite <- (ap_len_length u) in IH. by destruct (arg_pos u).
Qed.

(** ** The invariant of a scan *)

(** The scan that began at [tok] has read [u] and stands at node [nd]. *)
Record at_node (cond : Z) (tok : nat) (u : list byte) (nd : node) (s : lexer) : Prop := {
  an_valid : valid nd;
  an_rules : nd_rules nd = run_rules (rules cond) u;
  an_phase : nd_phase nd = ap_phase (arg_pos u);
  an_len : nd_len nd = Nat.min 2 (length u);
  an_cur : l_cur s = tok + length u;
  an_mark : nd_mark nd = true -> l_mar s = tok + 1;
  an_t1 : nd_t1 nd = true -> l_yyt1 s = tok + ap_start (arg_pos u);
  an_t2 : nd_t2 nd = true -> l_yyt2 s = tok + ap_end (arg_pos u);
  an_arg : l_arg s = None
}.

(** The argument the scanner reports with command [c] for the text [u]. *)
Definition arg_report (c : MgmtCommand) (tok : nat) (u : list byte) (r : option (nat * nat)) : Prop :=
  if has_arg c then exists a off, argument u a off /\ r = Some (tok + off, tok + off + length a)
  else r = None.

Section Step.
Context (cond : Z) (tok : nat) (u : list byte) (nd : node) (s : lexer) (c : byte).
Context (Hat : at_node cond tok u nd s).

Lemma step_checked : check_byte table nd (Zb c) = true.
Proof. apply nf_bytes, valid_facts, (an_valid _ _ _ _ _ Hat). Qed.

Lemma step_rules_snoc : step_rules (Zb c) (nd_rules nd) = run_rules (rules cond) (u ++ [c]).
Proof. by rewrite (an_rules _ _ _ _ _ Hat), run_rules_app. Qed.

Lemma step_t1 e :
  next_t1 nd (Zb c) e = true ->
  l_yyt1 (apply_effect e c s) = tok + ap_start (arg_pos (u ++ [c])).
Proof.
  unfold next_t1. rewrite arg_pos_snoc, (an_phase _ _ _ _ _ Hat). simpl.
  destruct (phase_eqb _ PSp && _).
  - intros ->. by rewrite ap_len_length, (an_cur _ _ _ _ _ Hat).
  - intros [H1 H2%negb_true_iff]%andb_true_iff. rewrite H2. by apply (an_t1 _ _ _ _ _ Hat).
Qed.

Lemma step_t2 e :
  next_t2 nd (Zb c) e = true ->
  l_yyt2 (apply_effect e c s) = tok + ap_end (arg_pos (u ++ [c])).
Proof.
  unfold next_t2. rewrite arg_pos_snoc, (an_phase _ _ _ _ _ Hat). simpl.
  destruct (phase_eqb _ PArg && _).
  - intros ->. by rewrite ap_len_length, (an_cur _ _ _ _ _ Hat).
  - intros [H1 H2%negb_true_iff]%andb_true_iff. rewrite H2. by apply (an_t2 _ _ _ _ _ Hat).
Qed.

Lemma step_next n e :
  astep (nd_fill nd) (Zb c) = ANext n e ->
  at_node cond tok (u ++ [c]) (next_node nd (Zb c) n e) (apply_effect e c s).
Proof.
  intros E. pose proof step_checked as H. unfold check_byte in H. rewrite E in H.
  apply andb_true_iff in H as [H Hm]. apply andb_true_iff in H as [H Hmark].
  apply andb_true_iff in H as [H Harg]. apply andb_true_iff in H as [Hi Hr%negb_true_iff].
  destruct (ef_arg e) eqn:Ea; [done|].
  split; cbn -[Nat.min Nat.add]; rewrite ?Hr, ?Hi, ?Ea.
  - exact Hm.
  - apply step_rules_snoc.
  - by rewrite arg_pos_snoc, (an_phase _ _ _ _ _ Hat).
  - rewrite (an_len _ _ _ _ _ Hat), length_app. cbn [length]. lia.
  - rewrite (an_cur _ _ _ _ _ Hat), length_app. simpl. lia.
  - intros Hmk. pose proof (an_len _ _ _ _ _ Hat) as Hlen. rewrite (an_cur _ _ _ _ _ Hat).
    destruct (ef_mark e); [|rewrite orb_false_r in Hmk; by apply (an_mark _ _ _ _ _ Hat)].
    destruct (Nat.eqb_spec (nd_len nd) 0); [lia | done].
  - apply step_t1.
  - apply step_t2.
  - apply (an_arg _ _ _ _ _ Hat).
Qed.

Lemma step_arg r e :
  ef_inc e = true -> ef_restored e = false -> arg_ok nd (Zb c) r e = true ->
  arg_report r tok (u ++ [c]) (l_arg (apply_effect e c s)).
Proof.
  intros Hi Hr Ha. unfold arg_ok in Ha. unfold arg_report. pose proof (arg_pos_text (u ++ [c])) as Ht.
  destruct (ef_arg e) as [a|] eqn:Ea.
  - apply andb_true_iff in Ha as [Ha Hx]. apply andb_true_iff in Ha as [-> H1%step_t1].
    destruct a.
    + apply andb_true_iff in Hx as [H2%step_t2 Hph]. apply phase_eqb_eq in Hph.
      assert (Hp : ap_phase (arg_pos (u ++ [c])) = PPost)
        by (by rewrite arg_pos_snoc; simpl; rewrite <- (an_phase _ _ _ _ _ Hat)).
      rewrite Hp in Ht. destruct Ht as (a & Ht & He). exists a, (ap_start (arg_pos (u ++ [c]))).
      split; [done|]. simpl in *. rewrite Ea, H1, H2, He. f_equal. f_equal. lia.
    + apply phase_eqb_eq in Hx. rewrite (an_phase _ _ _ _ _ Hat) in Hx.
      pose proof (arg_pos_text u) as Hu. rewrite Hx in Hu.
      destruct Hu as (kw & sp & a & Eu & (_ & _ & _ & Hn) & He).
      assert (Hp : ap_phase (arg_pos (u ++ [c])) = PPost)
        by (by rewrite arg_pos_snoc; simpl; rewrite Hx).
      rewrite Hp in Ht. destruct Ht as (a' & Ht & He'). exists a', (ap_start (arg_pos (u ++ [c]))).
      split; [done|]. simpl in *. rewrite Ea, H1, Hr, Hi, (an_cur _ _ _ _ _ Hat). f_equal. f_equal.
      assert (length u = ap_start (arg_pos u) + length a + 1)
        by (rewrite Eu at 1; rewrite Hn, !length_app; simpl; lia).
      rewrite arg_pos_snoc in *. simpl in *. rewrite Hx in *. simpl in *. lia.
  - apply negb_true_iff in Ha as ->. simpl. rewrite Ea. apply (an_arg _ _ _ _ _ Hat).
Qed.

Lemma step_break r e :
  astep (nd_fill nd) (Zb c) = ABreak r e ->
  let s' := apply_effect e c s in
  first_match (rules cond) (u ++ [c]) r /\ l_cur s' = tok + length u + 1 /\
    arg_report r tok (u ++ [c]) (l_arg s') \/
  run_rules (rules cond) (u ++ [c]) = [] /\ r = MGMT_INVALID_CMD /\ l_cur s' = tok + 1 /\
    l_arg s' = None.
Proof.
  intros E s'. pose proof step_checked as H. unfold check_byte in H. rewrite E in H.
  rewrite step_rules_snoc in H.
  destruct (accepted (run_rules (rules cond) (u ++ [c]))) as [r'|] eqn:Ea.
  - left. apply andb_true_iff in H as [H Harg]. apply andb_true_iff in H as [H Hr%negb_true_iff].
    apply andb_true_iff in H as [<-%command_eqb_eq Hi]. split_and!.
    + by apply accepted_run.
    + unfold s'. simpl. by rewrite Hr, Hi, (an_cur _ _ _ _ _ Hat).
    + by apply step_arg.
  - right. apply andb_true_iff in H as [H H1]. apply andb_true_iff in H as [H Harg].
    apply andb_true_iff in H as [Hrs ->%command_eqb_eq].
    destruct (ef_arg e) eqn:Eg; [done|]. split_and!; try done.
    + by destruct (run_rules _ _).
    + unfold one_byte in H1. pose proof (an_len _ _ _ _ _ Hat) as Hlen.
      pose proof (an_cur _ _ _ _ _ Hat) as Hcur. pose proof (an_mark _ _ _ _ _ Hat) as Hm.
      unfold s'. simpl. destruct (nd_len nd) as [|[|k]].
      * apply andb_true_iff in H1 as [-> H1%negb_true_iff]. rewrite H1. lia.
      * destruct (ef_restored e); tests; [|by replace (ef_inc e) with false; lia].
        replace (ef_mark e) with false. auto.
      * tests. replace (ef_restored e) with true. replace (ef_mark e) with false. auto.
    + unfold s'. simpl. rewrite Eg. apply (an_arg _ _ _ _ _ Hat).
Qed.
End Step.

(** ** The scan of the bytes available *)

(** [u] is not a request, but may begin one. *)
Definition open_prefix (cond : Z) (u : list byte) : Prop :=
  viable (rules cond) u /\ ~ matched (rules cond) u.

Lemma at_node_open cond tok u nd s : at_node cond tok u nd s -> open_prefix cond u.
Proof.
  intros Hat. pose proof (valid_facts _ (an_valid _ _ _ _ _ Hat)) as Hf. split.
  - apply run_viable; rewrite <- (an_rules _ _ _ _ _ Hat);
      [apply nf_live, Hf | apply nf_inhabited, Hf].
  - apply accepted_none. rewrite <- (an_rules _ _ _ _ _ Hat). apply nf_open, Hf.
Qed.

(** Nor is any prefix of it. *)
Lemma open_prefix_take cond u m : open_prefix cond u -> ~ matched (rules cond) (take m u).
Proof.
  intros [[v Hv] Hn] Hm. rewrite <- (take_drop m u), <- app_assoc in Hv.
  apply (matched_prefix_free _ _ _ Hm), app_eq_nil in Hv as [Hd _].
  apply Hn. by rewrite <- (take_drop m u), Hd, app_nil_r.
Qed.

(** What a run from [u] over [w] ends with. *)
Inductive scan_result (cond : Z) (tok : nat) (u w : list byte) : next -> Prop :=
| sr_need nd s :
    at_node cond tok (u ++ w) nd s -> scan_result cond tok u w (Need (nd_fill nd) s)
| sr_match n c s :
    1 <= n <= length w -> first_match (rules cond) (u ++ take n w) c ->
    l_cur s = tok + length u + n -> arg_report c tok (u ++ take n w) (l_arg s) ->
    scan_result cond tok u w (Break c s)
| sr_none n s :
    1 <= n <= length w -> run_rules (rules cond) (u ++ take n w) = [] ->
    open_prefix cond (u ++ take (n - 1) w) -> l_cur s = tok + 1 -> l_arg s = None ->
    scan_result cond tok u w (Break MGMT_INVALID_CMD s).

Lemma at_node_aeof cond tok u nd s : at_node cond tok u nd s -> aeof (nd_fill nd) = true.
Proof. intros H. apply nf_eof, valid_facts, (an_valid _ _ _ _ _ H). Qed.

Lemma scan_result_cons cond tok u c w r :
  scan_result cond tok (u ++ [c]) w r -> scan_result cond tok u (c :: w) r.
Proof.
  assert (E : forall n, (u ++ [c]) ++ take n w = u ++ take (S n) (c :: w))
    by (intros; by rewrite <- app_assoc).
  destruct 1 as [nd s H|n k s ? H Hc Ha|n s ? H Ho Hc Ha].
  - constructor. by rewrite <- app_assoc in H.
  - rewrite E in *. apply (sr_match _ _ _ _ (S n)); simpl length in *; try lia; try done.
    rewrite length_app in Hc. simpl in Hc. lia.
  - rewrite E in *. apply (sr_none _ _ _ _ (S n)); simpl length in *; try lia; try done.
    by replace (S n - 1) with (S (n - 1)) by lia.
Qed.

Lemma at_node_load cond tok u nd s :
  at_node cond tok u nd s ->
  at_node cond tok u nd (Lexer (l_cur s) (l_mar s) (l_yyt1 s) (l_yyt2 s) NUL (l_arg s)).
Proof. by intros []. Qed.

Lemma run_scan cond tok mem lim w u nd s kf :
  at_node cond tok u nd s -> yyFillLabel (nd_fill nd) = Done kf ->
  lim = l_cur s + length w -> mem !! lim = Some NUL ->
  (forall j c, w !! j = Some c -> mem !! (l_cur s + j) = Some c) ->
  exists r, run (3 * length w + 3) mem lim kf s = Done r /\ scan_result cond tok u w r.
Proof.
  revert u nd s kf. induction w as [|c w IH]; intros u nd s kf Hat Hkf Hlim Hnul Hmem;
    destruct (aeof_sound _ (at_node_aeof _ _ _ _ _ Hat)) as (m & k & Hk & Hfk & Heof);
    rewrite Hk in Hkf; injection Hkf as <-.
  - eexists. split; [apply (Heof mem lim s 1); [simpl in Hlim; lia | done]|].
    constructor. rewrite app_nil_r. by apply at_node_load.
  - assert (Hc : mem !! l_cur s = Some c) by (rewrite <- (Nat.add_0_r (l_cur s)); by apply Hmem).
    assert (Hl : l_cur s < lim) by (simpl in Hlim; lia).
    pose proof (fun f => astep_sound mem lim (nd_fill nd) m k s c f Hk Hfk Hc Hl) as Hstep.
    destruct (astep (nd_fill nd) (Zb c)) as [n e|r e|? ?|] eqn:Ea.
    + destruct (Hstep (3 * length w + 3)) as (kf & Hkf & Hrun).
      pose proof (step_next _ _ _ _ _ c Hat _ _ Ea) as Hat'.
      assert (Hcur : l_cur (apply_effect e c s) = S (l_cur s))
        by (rewrite (an_cur _ _ _ _ _ Hat'), (an_cur _ _ _ _ _ Hat), length_app; simpl; lia).
      destruct (IH _ _ _ kf Hat' Hkf) as (r & Hr & Hres).
      * rewrite Hcur. simpl in Hlim. lia.
      * done.
      * intros j d Hj. rewrite Hcur. replace (S (l_cur s) + j) with (l_cur s + S j) by lia.
        by apply Hmem.
      * exists r. split; [|by apply scan_result_cons].
        replace (3 * length (c :: w) + 3) with (3 + (3 * length w + 3)) by (simpl; lia). auto.
    + exists (Break r (apply_effect e c s)). split.
      * replace (3 * length (c :: w) + 3) with (4 + (3 * length w + 2)) by (simpl; lia). auto.
      * destruct (step_break _ _ _ _ _ c Hat _ _ Ea) as [(H1 & H2 & H3)|(H1 & -> & H2 & H3)].
        -- by apply (sr_match _ _ _ _ 1); [simpl; lia|..].
        -- apply (sr_none _ _ _ _ 1); [simpl; lia|done| |done|done].
           simpl. rewrite app_nil_r. by eapply at_node_open.
    + pose proof (step_checked _ _ _ _ _ c Hat) as H. unfold check_byte in H. by rewrite Ea in H.
    + pose proof (step_checked _ _ _ _ _ c Hat) as H. unfold check_byte in H. by rewrite Ea in H.
Qed.

(** ** Requests *)

(** The bytes of the area from [p] on are [w], and a terminator follows. *)
Definition holds (mem : list byte) (p : nat) (w : list byte) : Prop :=
  forall j c, (w ++ [NUL]) !! j = Some c -> mem !! (p + j) = Some c.

(** The scanner's variables between two calls. *)
Definition saved (i : Input) : lexer :=
  Lexer (in_cur i) (in_mar i) (in_yyt1 i) (in_yyt2 i) NUL None.

(** A request is being scanned: [u] has been read of it, [w] is available. The
    scan is fresh, or it stopped at a label after reading [u]. *)
Record scanning (i : Input) (u w : list byte) : Prop := {
  sc_text : holds (in_mem i) (in_tok i) (u ++ w);
  sc_lim : in_lim i = in_tok i + length (u ++ w);
  sc_cur : in_cur i = in_tok i + length u;
  sc_at : u = [] /\ fallback (in_state i) = None \/
          exists nd, at_node (in_cond i) (in_tok i) u nd (saved i) /\ in_state i = nd_fill nd
}.

Lemma holds_app mem p u w : holds mem p (u ++ w) -> holds mem (p + length u) w.
Proof.
  intros H j c Hj. rewrite <- Nat.add_assoc. apply H. rewrite <- app_assoc.
  rewrite lookup_app_r by lia. by replace (length u + j - length u) with j by lia.
Qed.

Lemma start_at i :
  in_cur i = in_tok i -> at_node (in_cond i) (in_tok i) [] (start_node (in_cond i)) (saved i).
Proof.
  intros E. split; try done; [apply start_valid|]. simpl. lia.
Qed.

Lemma scanning_entry i u w :
  scanning i u w -> fallback (in_state i) = None \/ w <> [] ->
  exists nd kf, at_node (in_cond i) (in_tok i) u nd (saved i) /\
    yyFillLabel (nd_fill nd) = Done kf /\ entry i = Done kf.
Proof.
  intros [_ Hlim Hcur Hat] Hw. unfold entry.
  destruct Hat as [[-> E]|(nd & Hat & E)].
  - rewrite E. exists (start_node (in_cond i)).
    assert (in_cur i = in_tok i) by (simpl in Hcur; lia).
    pose proof (start_at i ltac:(done)) as Hs. unfold start_node in *. simpl nd_fill.
    destruct (in_cond i =? yyctrns)%Z; eexists; split_and!; try done.
  - pose proof (valid_facts _ (an_valid _ _ _ _ _ Hat)) as Hf.
    destruct (aeof_sound _ (nf_eof _ Hf)) as (m & k & Hk & _).
    exists nd, (Fill m k). split_and!; try done. rewrite E.
    destruct (nf_fallback _ Hf) as [l El]. rewrite E, El in Hw. destruct Hw as [|Hw]; [done|].
    rewrite El. rewrite (proj2 (Nat.leb_gt _ _)); [done|].
    rewrite Hlim, Hcur, length_app. destruct w; [done|]. simpl. lia.
Qed.

(** The argument as the two output parameters give it. *)
Definition arg_out (a : option (nat * nat)) : option nat * Z :=
  match a with Some (b, e) => (Some b, (Z.of_nat e - Z.of_nat b)%Z) | None => (None, 0%Z) end.

(** What the rules prescribe for the text [t] of a request at [tok]. *)
Inductive prescribed (cond : Z) (tok : nat) (t : list byte) : MgmtCommand -> option request -> Prop :=
| pr_match n c a :
    n <= length t -> first_match (rules cond) (take n t) c -> arg_report c tok (take n t) a ->
    prescribed cond tok t c (Some (Request (arg_out a).1 (arg_out a).2 n))
| pr_more : open_prefix cond t -> prescribed cond tok t MGMT_INCOMPLETE None
| pr_default :
    t <> [] -> ~ viable (rules cond) t ->
    (forall n, n <= length t -> ~ matched (rules cond) (take n t)) ->
    prescribed cond tok t MGMT_INVALID_CMD (Some (Request None 0 1)).

(** The result of a call for the text [t] in the input [i]: the next request
    starts after the bytes consumed, or the scan of this one goes on. *)
Definition scanned (i : Input) (t : list byte) (rq : option request) (i' : Input) : Prop :=
  in_cond i' = in_cond i /\
  match rq with
  | Some q => scanning i' [] (drop (rq_len q) t)
  | None => scanning i' t []
  end.

Lemma scanning_next i u w n m y1 y2 :
  scanning i u w -> n <= length (u ++ w) -> m = in_tok i + n ->
  scanning (MkInput (in_mem i) (in_bufSize i) (in_lim i) m m m (-1)%Z (in_cond i) y1 y2)
    [] (drop n (u ++ w)).
Proof.
  intros [Ht Hlim _ _] Hn ->. split; simpl.
  - rewrite <- (take_drop n (u ++ w)) in Ht. apply holds_app in Ht.
    by rewrite length_take, Nat.min_l in Ht by done.
  - rewrite length_drop. lia.
  - lia.
  - by left.
Qed.

(** The prescription is met whatever the run ended with. *)
Lemma scan_result_prescribed i u w r :
  scanning i u w -> open_prefix (in_cond i) u -> scan_result (in_cond i) (in_tok i) u w r ->
  match r with
  | Need n s => prescribed (in_cond i) (in_tok i) (u ++ w) MGMT_INCOMPLETE None
  | Break c s => in_tok i <= l_cur s /\
      prescribed (in_cond i) (in_tok i) (u ++ w) c
        (Some (Request (arg_out (l_arg s)).1 (arg_out (l_arg s)).2 (l_cur s - in_tok i)))
  | Jump _ _ => False
  end.
Proof.
  intros Hi Hu. destruct 1 as [nd s Hat|n c s Hn Hm Hc Ha|n s Hn Hr Ho Hc Ha].
  - constructor. by eapply at_node_open.
  - assert (E : u ++ take n w = take (length u + n) (u ++ w))
      by (by rewrite take_app_add).
    rewrite E in *. split; [lia|].
    replace (l_cur s - in_tok i) with (length u + n) by lia.
    constructor; try done. rewrite length_app. lia.
  - rewrite Ha, Hc. split; [lia|]. replace (in_tok i + 1 - in_tok i) with 1 by lia.
    rewrite <- take_app_add in Hr, Ho.
    apply pr_default.
    + destruct w; [simpl in Hn; lia|]. by destruct u.
    + intros [v Hv]. rewrite <- (take_drop (length u + n) (u ++ w)), <- app_assoc in Hv.
      by apply viable_run in Hv.
    + intros m Hm Hmat. destruct (decide (m <= length u + (n - 1))) as [Hle|Hgt].
      * apply (open_prefix_take _ _ m Ho). by rewrite take_take, Nat.min_l.
      * rewrite <- (take_drop (length u + n) (take m (u ++ w))), take_take, Nat.min_l in Hmat by lia.
        by apply viable_run in Hmat.
Qed.

Lemma parseMgmtRequest_spec (i : Input) (u w : list byte) :
  scanning i u w -> fallback (in_state i) = None \/ w <> [] ->
  exists c rq i', parseMgmtRequest i = Done (c, rq, i') /\
    prescribed (in_cond i) (in_tok i) (u ++ w) c rq /\ scanned i (u ++ w) rq i'.
Proof.
  intros Hi Hw. destruct (scanning_entry i u w Hi Hw) as (nd & kf & Hat & Hkf & He).
  pose proof Hi as [Ht Hlim Hcur _].
  assert (Hlen : length w = in_lim i - in_cur i) by (rewrite Hlim, Hcur, length_app; lia).
  pose proof (holds_app _ _ _ _ Ht) as Hw'. rewrite <- Hcur in Hw'.
  destruct (run_scan (in_cond i) (in_tok i) (in_mem i) (in_lim i) w u nd (saved i) kf)
    as (r & Hr & Hres); try done.
  { simpl. rewrite Hlim, Hcur, length_app. lia. }
  { replace (in_lim i) with (in_cur i + length w) by (rewrite Hlim, Hcur, length_app; lia).
    apply Hw'. by rewrite lookup_app_r, Nat.sub_diag by lia. }
  { intros j c Hj. apply Hw'. by apply lookup_app_l_Some. }
  pose proof (scan_result_prescribed i u w r Hi (at_node_open _ _ _ _ _ Hat) Hres) as Hp.
  unfold parseMgmtRequest. rewrite He. simpl. unfold run_fuel. rewrite <- Hlen.
  change (Lexer (in_cur i) (in_mar i) (in_yyt1 i) (in_yyt2 i) NUL None) with (saved i).
  rewrite Hr. simpl. destruct r as [|n s|c s]; [done|..].
  - eexists _, _, _. split; [reflexivity|]. split; [done|]. split; [done|].
    inversion Hres as [nd' ? Hat' | |]; subst. split; simpl.
    + by rewrite app_nil_r.
    + by rewrite app_nil_r.
    + apply (an_cur _ _ _ _ _ Hat').
    + right. exists nd'. split; [|done].
      pose proof (an_arg _ _ _ _ _ Hat'). by destruct Hat'.
  - destruct Hp as [Hle Hp]. eexists _, _, _. split; [reflexivity|].
    assert (E : Request (arg_out (l_arg s)).1 (arg_out (l_arg s)).2 (l_cur s - in_tok i)
                = Request (fst <$> l_arg s)
                    match l_arg s with Some (a, e) => (Z.of_nat e - Z.of_nat a)%Z | None => 0%Z end
                    (l_cur s - in_tok i)) by (by destruct (l_arg s) as [[]|]).
    rewrite <- E. split; [done|]. split; [done|]. simpl.
    apply scanning_next; [done| |lia]. inversion Hp; subst; [done|]. destruct (u ++ w); [done|]. simpl. lia.
Qed.

(** C1. The scanner re2c generated implements its rules: started afresh or
    resumed with at least one more byte, it returns; the command, its length
    and its argument are those of the longest match and the first rule with it
    when the text seen so far has a match; it asks for more exactly when the
    text is not a request but may begin one; and it takes a single byte as an
    invalid command when nothing can match. The next request, or the rest of
    this one, is scanned from where it stopped. *)
Theorem scanner_implements_rules (i : Input) (u w : list byte) :
  scanning i u w -> fallback (in_state i) = None \/ w <> [] ->
  exists c rq i', parseMgmtRequest i = Done (c, rq, i') /\
    prescribed (in_cond i) (in_tok i) (u ++ w) c rq /\ scanned i (u ++ w) rq i'.
Proof. apply parseMgmtRequest_spec. Qed.

(** A fresh input whose bytes are [w]. *)
Definition fresh_input (cond : Z) (w : list byte) : Input :=
  MkInput (w ++ [NUL]) (length w) (length w) 0 0 0 (-1)%Z cond 0 0.

Lemma fresh_scanning cond w : scanning (fresh_input cond w) [] w.
Proof. split; try done; [|by left]. intros j c. simpl. done. Qed.

Lemma scanner_implements_rules_witness :
  let w := lit "token  abc" ++ CRLF in
  scanning (fresh_input yycpass w) [] w /\
  exists i', parseMgmtRequest (fresh_input yycpass w) =
    Done (MGMT_TOKEN, Some (Request (Some 7) 3 12), i').
Proof.
  intros w. pose proof (fresh_scanning yycpass w) as H. split; [exact H|].
  destruct (scanner_implements_rules (fresh_input yycpass w) [] w H (or_introl eq_refl))
    as (c & rq & i' & E & _).
  exists i'. rewrite E. vm_compute in E. injection E as <- <- <-. reflexivity.
Defined.
