(* ===== verification/MgmtInput.v ===== *)
(** * MgmtInput: the input buffer between the scanner's calls

    [fillBuffer] moves the request being scanned to the front of the area and
    appends what the socket has. These theorems say when the scan goes on as if
    the bytes had been there from the start, and when it does not: the tags of
    an argument already begun are left behind by the move. *)

From S2P Require Import Prelude Os SocketsIO MgmtProtocol LexerCode Lexer LexerRules LexerCheck.
From S2P Require Import LexerSpec.

(** The buffer ends within the area, with room for a terminator. *)
Definition input_wf (i : Input) : Prop :=
  in_lim i <= in_bufSize i /\ in_bufSize i < length (in_mem i).

Lemma initState_scanning i :
  in_bufSize i < length (in_mem i) ->
  exists i', initState i = Done i' /\ input_wf i' /\ scanning i' [] [] /\ in_cond i' = yycpass.
Proof.
  intros H. unfold initState.
  destruct (mem_write_fits (in_mem i) (in_bufSize i) [NUL]) as (m & Hm & Hl); [simpl; lia|].
  rewrite Hm. eexists. split; [reflexivity|]. split_and!; simpl.
  - split; simpl; lia.
  - split; simpl; [|lia|lia|by left].
    rewrite mem_write_Done in Hm by (simpl; lia). injection Hm as <-.
    intros [|j] c Hj; simpl in Hj; simplify_eq. rewrite Nat.add_0_r.
    rewrite lookup_app_r by (rewrite length_take; lia).
    by rewrite length_take, Nat.min_l, Nat.sub_diag by lia.
  - done.
Qed.

(** The text of a request, as a slice of the area. *)
Lemma holds_slice mem p t :
  p + length t < length mem ->
  holds mem p t <-> take (length t + 1) (drop p mem) = t ++ [NUL].
Proof.
  intros Hl. split.
  - intros H. apply list_eq. intros j. destruct ((t ++ [NUL]) !! j) as [c|] eqn:Ej.
    + assert (j < length t + 1) by (apply lookup_lt_Some in Ej; rewrite length_app in Ej; done).
      rewrite lookup_take_lt, lookup_drop by done. by apply H.
    + apply lookup_ge_None in Ej. rewrite length_app in Ej. simpl in Ej.
      apply lookup_ge_None. rewrite length_take. lia.
  - intros E j c Hj. rewrite <- E in Hj. apply lookup_take_Some in Hj as [Hj _].
    by rewrite lookup_drop in Hj.
Qed.

Section Fill.
Context {E : Type} `{OSLaws E}.

(** The argument of the request being scanned has not begun, or the request is
    already at the front. *)
Definition tags_safe (i : Input) (u : list byte) : Prop :=
  in_tok i = 0 \/ in_arg (ap_phase (arg_pos u)) = false.

Lemma at_node_shift cond tok u nd s :
  at_node cond tok u nd s -> tok = 0 \/ in_arg (ap_phase (arg_pos u)) = false ->
  at_node cond 0 u nd (Lexer (l_cur s - tok) (l_mar s - tok) (l_yyt1 s) (l_yyt2 s) NUL (l_arg s)).
Proof.
  intros Hat Hs. pose proof (valid_facts _ (an_valid _ _ _ _ _ Hat)) as Hf.
  destruct Hs as [->|Hs].
  - destruct Hat. split; simpl; try done; [lia|]. intros. rewrite Nat.sub_0_r. auto.
  - rewrite <- (an_phase _ _ _ _ _ Hat) in Hs. pose proof (nf_tags _ Hf) as Ht. rewrite Hs in Ht.
    destruct Hat. split; simpl; try done.
    + lia.
    + intros Hm. rewrite an_mark by done. lia.
    + intros H1. rewrite H1 in Ht. by specialize (Ht eq_refl).
    + intros H2. rewrite H2, orb_true_r in Ht. by specialize (Ht eq_refl).
Qed.

(** The move to the front: the area then starts with the text. *)
Lemma shift_text mem n p t l m :
  p + length t <= n -> n < length mem ->
  holds mem p t -> mem_read mem p (n - p) = Done l -> mem_write mem 0 l = Done m ->
  length m = length mem /\ take (length t) m = t.
Proof.
  intros Hp Hn Ht Hr Hw. split; [by eapply mem_write_length|].
  rewrite mem_read_Done in Hr by lia. injection Hr as <-.
  rewrite mem_write_Done in Hw by (rewrite length_take, length_drop; lia). injection Hw as <-.
  simpl. rewrite take_app_le by (rewrite length_take, length_drop; lia).
  rewrite take_take, Nat.min_l by lia.
  apply (holds_slice mem p t) in Ht; [|lia].
  rewrite <- (Nat.min_l (length t) (length t + 1)) by lia. rewrite <- take_take, Ht.
  by rewrite take_app_length.
Qed.

(** Bytes stored after the text, and the terminator after them. *)
Lemma append_text m t d m1 m2 :
  take (length t) m = t -> length t <= length m ->
  mem_write m (length t) d = Done m1 -> mem_write m1 (length t + length d) [NUL] = Done m2 ->
  holds m2 0 (t ++ d).
Proof.
  intros Ht Hl [Hd ->]%mem_write_inv [Hn ->]%mem_write_inv.
  rewrite Ht, take_app_add, take_app_length.
  intros j c Hj. change (0 + j) with j. rewrite (app_assoc (t ++ d)).
  apply lookup_app_l_Some. done.
Qed.

(** C23. Filling the input never faults and changes nothing the scan depends on
    when the request being scanned is at the front of the buffer or its
    argument has not begun: the request moves to the front, the bytes received
    follow those not yet scanned, and the scan continues with them. *)
Theorem fillBuffer_keeps_scan (i : Input) (fd : Z) (u w : list byte) (s : io E) :
  input_wf i -> scanning i u w -> tags_safe i u ->
  exists count i' s' d, fillBuffer i fd s = Done ((count, i'), s') /\
    input_wf i' /\ in_tok i' = 0 /\ in_cond i' = in_cond i /\ scanning i' u (w ++ d) /\
    (count = -1 /\ d = [] /\ io_trace s' = io_trace s \/
     count = Z.of_nat (length d) /\ io_trace s' = EvRecv fd d :: io_trace s)%Z.
Proof.
  intros [Hlim Hsz] [Ht Hl Hc Hat] Hsafe. rewrite length_app in Hl.
  set (t := u ++ w). assert (Hlt : length t = in_lim i - in_tok i) by (unfold t; rewrite length_app; lia).
  destruct (mem_read (in_mem i) (in_tok i) (in_bufSize i - in_tok i)) as [l|] eqn:El;
    [|rewrite mem_read_Done in El by lia; done].
  destruct (mem_write_fits (in_mem i) 0 l) as (m & Em & _).
  { rewrite mem_read_Done in El by lia. injection El as <-. rewrite length_take, length_drop. lia. }
  destruct (shift_text (in_mem i) (in_bufSize i) (in_tok i) t l m) as [Hm Htm]; try done; [lia|].
  destruct (sys_read_spec fd (in_bufSize i - (in_lim i - in_tok i)) s) as (r & s' & Er & Hr).
  set (d := default [] r).
  assert (Hd : length t + length d <= in_bufSize i).
  { unfold d. destruct r; simpl; [destruct Hr|]; lia. }
  destruct (mem_write_fits m (length t) d) as (m1 & Em1 & Hm1); [lia|].
  destruct (mem_write_fits m1 (length t + length d) [NUL]) as (m2 & Em2 & Hm2); [simpl; lia|].
  exists (match r with Some _ => Z.of_nat (length d) | None => -1 end)%Z,
    (MkInput m2 (in_bufSize i) (length t + length d) (in_cur i - in_tok i) (in_mar i - in_tok i)
       0 (in_state i) (in_cond i) (in_yyt1 i) (in_yyt2 i)), s', d.
  split_and!.
  - unfold fillBuffer. mstep El. mstep Em. mstep Er. rewrite <- Hlt, Nat.sub_diag.
    unfold d in *. destruct r as [d'|]; simpl in *.
    + rewrite Em1. simpl. unfold lift at 1, mbind at 1, M_bind at 1. simpl.
      by rewrite Em2.
    + unfold lift at 1, mbind at 1, M_bind at 1. simpl.
      rewrite mem_write_Done in Em1 by (simpl; lia). injection Em1 as <-. simpl in *.
      rewrite Nat.add_0_r in *. rewrite take_drop in Em2. by rewrite Em2.
  - split; simpl; lia.
  - done.
  - done.
  - assert (Htd : u ++ w ++ d = t ++ d) by (unfold t; by rewrite app_assoc).
    split; simpl; rewrite ?Htd.
    + eapply append_text; [exact Htm| |exact Em1|exact Em2]. lia.
    + by rewrite length_app.
    + lia.
    + destruct Hat as [[-> ?]|(nd & Hat & ?)]; [by left|right]. exists nd. split; [|done].
      apply at_node_shift in Hat; [exact Hat | exact Hsafe].
  - unfold d. destruct r as [d'|]; simpl.
    + right. destruct Hr. done.
    + by left.
Qed.
End Fill.

Lemma fillBuffer_keeps_scan_witness :
  let i := fresh_input yycpass [] in
  let s := Io (Script [lit "quit"] 0 0) 0%Z [] in
  input_wf i /\ scanning i [] [] /\ tags_safe i [] /\
  exists count i' s', fillBuffer i 3 s = Done ((count, i'), s') /\ in_tok i' = 0.
Proof.
  intros i s.
  assert (H1 : input_wf i) by (split; simpl; lia).
  pose proof (fresh_scanning yycpass []) as H2.
  assert (H3 : tags_safe i []) by (by left).
  split_and!; try done.
  destruct (fillBuffer_keeps_scan i 3 [] [] s H1 H2 H3) as (n & i' & s' & d & E & _ & Ht & _).
  exists n, i', s'. split; [exact E | exact Ht].
Defined.

(** The scans of a connection that receives [stats] and the beginning of an
    [add-user] in one segment and the rest in a second one. *)
Definition split_add_user : outcome (MgmtCommand * option request * Input) :=
  let i := MkInput (lit "stats" ++ CRLF ++ lit "add-user al" ++ repeat NUL 47) 64 18 0 0 0
             (-1)%Z yyctrns 0 0 in
  '(_, _, i) ← parseMgmtRequest i;
  '(_, _, i) ← parseMgmtRequest i;
  '(_, i, _) ← fillBuffer i 3 (Io (Script [lit "ice:pw" ++ CRLF] 0 0) 0%Z []);
  parseMgmtRequest i.

(** Outside that condition the argument is lost: when the part of a request
    already scanned reaches into its argument and an earlier request precedes it
    in the buffer, the tag of the argument keeps its place while the text moves:
    here [add-user alice:pw] is reported with [w] and a length of one. *)
Example fillBuffer_misplaces_argument :
  exists rq i', split_add_user = Done (MGMT_ADD_USER, Some rq, i') /\
    (rq_arg rq = Some 16 /\ rq_argLen rq = 1%Z) /\
    cstr (drop 16 (in_mem i')) = lit "w" ++ CRLF /\
    holds (in_mem i') 0 (lit "add-user alice:pw" ++ CRLF) /\
    argument (lit "add-user alice:pw" ++ CRLF) (lit "alice:pw") 9.
Proof.
  destruct split_add_user as [[[c rq] i']|] eqn:E; vm_compute in E; [|done].
  injection E as <- <- <-. eexists _, _. split; [reflexivity|]. split_and!; try reflexivity.
  - apply holds_slice; [vm_compute; lia|]. reflexivity.
  - exists (lit "add-user"), [BLANK], CR, [LF]. split_and!; try done; try reflexivity.
    + vm_compute. set_solver.
    + by repeat constructor.
    + repeat constructor; intros [H|H]; discriminate.
    + by right.
Qed.
