(* ===== verification/World.v ===== *)
(** * World: the state of the server process

    The structs of include/clients.h and include/mgmt.h, and the record of
    everything the handlers share: the kernel, the selector, the settings and
    tables, the heap of connection structs (by address, address 0 being the
    null pointer) and the resolver threads that are running. A connection
    struct that has been freed is absent from the heap, and an access to it is
    [Undefined]. *)

From S2P Require Import Prelude Buffer Os State Users Tokens Pop3Sniffer Selector Stm MgmtProtocol.

Local Open Scope Z_scope.

(** ** Connections *)

Definition MAX_CREDENTIALS : nat := 256.

(** [enum socket_ends] *)
Definition CLIENT_WRITE : Z := 1.
Definition CLIENT_READ : Z := 2.
Definition CLIENT : Z := Z.lor CLIENT_READ CLIENT_WRITE.
Definition ORIGIN_WRITE : Z := 4.
Definition ORIGIN_READ : Z := 8.
Definition ORIGIN : Z := Z.lor ORIGIN_READ ORIGIN_WRITE.

(** [enum socks5_states] *)
Definition AUTH_METHOD : nat := 0.
Definition PLAIN_AUTH : nat := 1.
Definition REQUEST : nat := 2.
Definition RESOLVING : nat := 3.
Definition CONNECTING : nat := 4.
Definition PROXY : nat := 5.
Definition DONE : nat := 6.
Definition WRITE_REMAINING : nat := 7.

(** The [state] members of the table [state_actions]. *)
Definition socks5_state_ids : list nat :=
  [AUTH_METHOD; PLAIN_AUTH; REQUEST; RESOLVING; CONNECTING; PROXY; DONE; WRITE_REMAINING].

(** [enum server_reply_type] *)
Definition REPLY_SUCCEEDED : Z := 0.
Definition REPLY_SERVER_FAILURE : Z := 1.
Definition REPLY_NOT_ALLOWED : Z := 2.
Definition REPLY_NETWORK_UNREACHABLE : Z := 3.
Definition REPLY_HOST_UNREACHABLE : Z := 4.
Definition REPLY_CONNECTION_REFUSED : Z := 5.
Definition REPLY_TTL_EXPIRED : Z := 6.
Definition REPLY_COMMAND_NOT_SUPPORTED : Z := 7.
Definition REPLY_ADDRESS_NOT_SUPPORTED : Z := 8.

(** [enum atyp] *)
Definition ATYP_IPV4 : Z := 1.
Definition ATYP_DOMAIN_NAME : Z := 3.
Definition ATYP_IPV6 : Z := 4.

(** An [addrinfo] node; a linked list of them is a list, and the null pointer
    the empty list. *)
Record addrinfo := Addrinfo { ai_family : family; ai_addr : sockaddr }.

Record client := Client {
  client_sock : Z;
  origin_sock : Z;
  client_addr : sockaddr;
  c_atyp : Z;
  client_buf : buffer;            (** over client_buf_raw *)
  origin_buf : buffer;            (** over origin_buf_raw *)
  socks_user : list byte;         (** char socks_user[MAX_CREDENTIALS] *)
  active_ends : Z;
  dest_fqdn : option (list byte); (** the allocated area, or null *)
  dest_port : Z;
  resolution : list addrinfo;
  curr_addr : list addrinfo;
  c_stm : state_machine;
  c_pop3 : option pop3_parser
}.

(** Field updates. *)
Definition set_origin_sock (v : Z) (c : client) : client :=
  Client (client_sock c) v (client_addr c) (c_atyp c) (client_buf c) (origin_buf c)
    (socks_user c) (active_ends c) (dest_fqdn c) (dest_port c) (resolution c) (curr_addr c)
    (c_stm c) (c_pop3 c).
Definition set_client_addr (v : sockaddr) (c : client) : client :=
  Client (client_sock c) (origin_sock c) v (c_atyp c) (client_buf c) (origin_buf c)
    (socks_user c) (active_ends c) (dest_fqdn c) (dest_port c) (resolution c) (curr_addr c)
    (c_stm c) (c_pop3 c).
Definition set_atyp (v : Z) (c : client) : client :=
  Client (client_sock c) (origin_sock c) (client_addr c) v (client_buf c) (origin_buf c)
    (socks_user c) (active_ends c) (dest_fqdn c) (dest_port c) (resolution c) (curr_addr c)
    (c_stm c) (c_pop3 c).
Definition set_client_buf (v : buffer) (c : client) : client :=
  Client (client_sock c) (origin_sock c) (client_addr c) (c_atyp c) v (origin_buf c)
    (socks_user c) (active_ends c) (dest_fqdn c) (dest_port c) (resolution c) (curr_addr c)
    (c_stm c) (c_pop3 c).
Definition set_origin_buf (v : buffer) (c : client) : client :=
  Client (client_sock c) (origin_sock c) (client_addr c) (c_atyp c) (client_buf c) v
    (socks_user c) (active_ends c) (dest_fqdn c) (dest_port c) (resolution c) (curr_addr c)
    (c_stm c) (c_pop3 c).
Definition set_socks_user (v : list byte) (c : client) : client :=
  Client (client_sock c) (origin_sock c) (client_addr c) (c_atyp c) (client_buf c) (origin_buf c)
    v (active_ends c) (dest_fqdn c) (dest_port c) (resolution c) (curr_addr c)
    (c_stm c) (c_pop3 c).
Definition set_active_ends (v : Z) (c : client) : client :=
  Client (client_sock c) (origin_sock c) (client_addr c) (c_atyp c) (client_buf c) (origin_buf c)
    (socks_user c) v (dest_fqdn c) (dest_port c) (resolution c) (curr_addr c)
    (c_stm c) (c_pop3 c).
Definition set_dest (h : option (list byte)) (p : Z) (c : client) : client :=
  Client (client_sock c) (origin_sock c) (client_addr c) (c_atyp c) (client_buf c) (origin_buf c)
    (socks_user c) (active_ends c) h p (resolution c) (curr_addr c)
    (c_stm c) (c_pop3 c).
Definition set_resolution (v : list addrinfo) (c : client) : client :=
  Client (client_sock c) (origin_sock c) (client_addr c) (c_atyp c) (client_buf c) (origin_buf c)
    (socks_user c) (active_ends c) (dest_fqdn c) (dest_port c) v (curr_addr c)
    (c_stm c) (c_pop3 c).
Definition set_curr_addr (v : list addrinfo) (c : client) : client :=
  Client (client_sock c) (origin_sock c) (client_addr c) (c_atyp c) (client_buf c) (origin_buf c)
    (socks_user c) (active_ends c) (dest_fqdn c) (dest_port c) (resolution c) v
    (c_stm c) (c_pop3 c).
Definition set_stm (v : state_machine) (c : client) : client :=
  Client (client_sock c) (origin_sock c) (client_addr c) (c_atyp c) (client_buf c) (origin_buf c)
    (socks_user c) (active_ends c) (dest_fqdn c) (dest_port c) (resolution c) (curr_addr c)
    v (c_pop3 c).
Definition set_pop3 (v : option pop3_parser) (c : client) : client :=
  Client (client_sock c) (origin_sock c) (client_addr c) (c_atyp c) (client_buf c) (origin_buf c)
    (socks_user c) (active_ends c) (dest_fqdn c) (dest_port c) (resolution c) (curr_addr c)
    (c_stm c) v.

(** ** Management connections *)

Definition MGMT_BUFFSIZE : nat := 2048.

Record mgmt_client := MgmtClient {
  m_fd : Z;
  write_buf : buffer;
  pending_buf : buffer;
  m_input : Input;
  quitted : bool
}.

(** ** The process *)

(** The four static [fd_handler] structs. *)
Inductive handler_id := H_master | H_monitor | H_socks5 | H_mgmt.

#[global] Instance handler_id_eq_dec : EqDecision handler_id.
Proof. solve_decision. Defined.

Section World.
Context {E : Type} `{OS E}.

Record world := World {
  w_io : io E;
  w_sel : fdselector handler_id;
  w_state : server_state;
  w_users : list user;
  w_tokens : list (list byte);
  w_clients : gmap Z client;
  w_mgmt : gmap Z mgmt_client;
  w_next : Z;                      (** the next address the allocator gives *)
  w_threads : list Z               (** structs a resolver thread works for *)
}.

Definition io_lens : lens world (io E) :=
  Lens w_io (fun v w => World v (w_sel w) (w_state w) (w_users w) (w_tokens w) (w_clients w)
                          (w_mgmt w) (w_next w) (w_threads w)).
Definition sel_lens : lens world (fdselector handler_id) :=
  Lens w_sel (fun v w => World (w_io w) v (w_state w) (w_users w) (w_tokens w) (w_clients w)
                           (w_mgmt w) (w_next w) (w_threads w)).
Definition state_lens : lens world server_state :=
  Lens w_state (fun v w => World (w_io w) (w_sel w) v (w_users w) (w_tokens w) (w_clients w)
                             (w_mgmt w) (w_next w) (w_threads w)).
Definition users_lens : lens world (list user) :=
  Lens w_users (fun v w => World (w_io w) (w_sel w) (w_state w) v (w_tokens w) (w_clients w)
                             (w_mgmt w) (w_next w) (w_threads w)).
Definition tokens_lens : lens world (list (list byte)) :=
  Lens w_tokens (fun v w => World (w_io w) (w_sel w) (w_state w) (w_users w) v (w_clients w)
                              (w_mgmt w) (w_next w) (w_threads w)).
Definition clients_lens : lens world (gmap Z client) :=
  Lens w_clients (fun v w => World (w_io w) (w_sel w) (w_state w) (w_users w) (w_tokens w) v
                               (w_mgmt w) (w_next w) (w_threads w)).
Definition mgmt_lens : lens world (gmap Z mgmt_client) :=
  Lens w_mgmt (fun v w => World (w_io w) (w_sel w) (w_state w) (w_users w) (w_tokens w)
                            (w_clients w) v (w_next w) (w_threads w)).
Definition next_lens : lens world Z :=
  Lens w_next (fun v w => World (w_io w) (w_sel w) (w_state w) (w_users w) (w_tokens w)
                            (w_clients w) (w_mgmt w) v (w_threads w)).
Definition threads_lens : lens world (list Z) :=
  Lens w_threads (fun v w => World (w_io w) (w_sel w) (w_state w) (w_users w) (w_tokens w)
                               (w_clients w) (w_mgmt w) (w_next w) v).

(** A call of the kernel. *)
Definition sys {A} (m : M (io E) A) : M world A := zoom io_lens m.

(** An update of the counters and settings. *)
Definition on_state {A} (f : server_state -> A * server_state) : M world A :=
  zoom state_lens (fun s => Done (f s)).
Definition upd_state (f : server_state -> server_state) : M world unit :=
  on_state (fun s => (tt, f s)).

Definition get_client (a : Z) : M world client := fun w =>
  match w_clients w !! a with Some c => Done (c, w) | None => Fault Undefined end.
Definition put_client (a : Z) (c : client) : M world unit := fun w =>
  match w_clients w !! a with
  | Some _ => Done (tt, lput clients_lens (<[a := c]> (w_clients w)) w)
  | None => Fault Undefined
  end.

(** [f] applied to the struct at [a]. *)
Definition upd_client (a : Z) (f : client -> client) : M world unit :=
  c ← get_client a; put_client a (f c).

(** Release of the struct at [a]: it must be allocated. *)
Definition free_client (a : Z) : M world unit := fun w =>
  match w_clients w !! a with
  | Some _ => Done (tt, lput clients_lens (delete a (w_clients w)) w)
  | None => Fault Undefined
  end.

Definition get_mgmt (a : Z) : M world mgmt_client := fun w =>
  match w_mgmt w !! a with Some c => Done (c, w) | None => Fault Undefined end.
Definition put_mgmt (a : Z) (c : mgmt_client) : M world unit := fun w =>
  match w_mgmt w !! a with
  | Some _ => Done (tt, lput mgmt_lens (<[a := c]> (w_mgmt w)) w)
  | None => Fault Undefined
  end.

(** [malloc] of a struct: a fresh address when it succeeds. *)
Definition alloc_addr (n : nat) : M world (option Z) :=
  r ← sys (sys_malloc n);
  match r with
  | Some _ => a ← gets w_next; modify (lput next_lens (a + 1));; mret (Some a)
  | None => mret None
  end.

#[global] Instance world_selector : SelectorEnv handler_id world := {|
  sel := sel_lens;
  sel_alloc := r ← sys (sys_malloc 1); mret (bool_decide (is_Some r))
|}.

(** A selector operation whose status the caller ignores. *)
Definition sel_do (f : fdselector handler_id -> outcome (selector_status * fdselector handler_id))
    : M world unit := on_selector f;; mret tt.

(** The state machine of the connection at [a]. *)
Definition client_stm (a : Z) : stm_ref world :=
  StmRef (c ← get_client a; mret (c_stm c)) (fun m => upd_client a (set_stm m)).

(** [stm_state(c->stm)] *)
Definition c_stm_state (a : Z) : M world nat :=
  c ← get_client a; lift (stm_state socks5_state_ids (c_stm c)).
End World.
Arguments world : clear implicits.

#[global] Instance io_lens_laws {E} : LensLaws (@io_lens E).
Proof. by split; intros; try destruct s. Qed.
#[global] Instance sel_lens_laws {E} : LensLaws (@sel_lens E).
Proof. by split; intros; try destruct s. Qed.
#[global] Instance state_lens_laws {E} : LensLaws (@state_lens E).
Proof. by split; intros; try destruct s. Qed.
#[global] Instance clients_lens_laws {E} : LensLaws (@clients_lens E).
Proof. by split; intros; try destruct s. Qed.
