(* ===== verification/Util.v ===== *)
(** * Util: src/util.c

    Printing of addresses and the two log lines. The text of an address comes
    from the C library ([os_inet_ntop]). [log_access_info] and
    [log_sniffer_info] build their line in fixed arrays with [strncpy] and
    [strncat]; where the source reads a null name or an array that [strncpy]
    left unterminated, the result is [Undefined]. *)

From S2P Require Import Prelude Os World.

Local Open Scope Z_scope.

(** Swap of the two bytes of a 16-bit value (little-endian host). *)
Definition ntohs (z : Z) : Z := (z mod 256) * 256 + (z / 256) mod 256.
Definition htons : Z -> Z := ntohs.

Definition TAB : byte := Byte.x09.

(** ** Fields of a struct addrinfo (the constants of Linux) *)

Definition AF_UNSPEC_code : Z := 0.
Definition AF_UNIX_code : Z := 1.
Definition AF_INET_code : Z := 2.
Definition AF_INET6_code : Z := 10.

Definition printFamily (ai_family : Z) : list byte :=
  if ai_family =? AF_INET_code then lit "inet"
  else if ai_family =? AF_INET6_code then lit "inet6"
  else if ai_family =? AF_UNIX_code then lit "unix"
  else if ai_family =? AF_UNSPEC_code then lit "unspecified"
  else lit "unknown".

Definition SOCK_STREAM : Z := 1.
Definition SOCK_DGRAM : Z := 2.
Definition SOCK_RAW : Z := 3.
Definition SOCK_SEQPACKET : Z := 5.

Definition printType (ai_socktype : Z) : list byte :=
  if ai_socktype =? SOCK_STREAM then lit "stream"
  else if ai_socktype =? SOCK_DGRAM then lit "datagram"
  else if ai_socktype =? SOCK_SEQPACKET then lit "seqpacket"
  else if ai_socktype =? SOCK_RAW then lit "raw"
  else lit "unknown ".

Definition IPPROTO_TCP : Z := 6.
Definition IPPROTO_UDP : Z := 17.
Definition IPPROTO_RAW : Z := 255.

Definition printProtocol (ai_protocol : Z) : list byte :=
  if ai_protocol =? 0 then lit "default"
  else if ai_protocol =? IPPROTO_TCP then lit "TCP"
  else if ai_protocol =? IPPROTO_UDP then lit "UDP"
  else if ai_protocol =? IPPROTO_RAW then lit "raw"
  else lit "unkown".

(** The flags in the order they are tested, with their bit. *)
Definition ai_flag_names : list (Z * list byte) :=
  [(1, lit " passive"); (2, lit " canon"); (4, lit " numhost"); (1024, lit " numserv");
   (8, lit " v4mapped"); (16, lit " all")].

(** The text printed. *)
Definition printFlags (ai_flags : Z) : list byte :=
  lit "flags" ++
  if ai_flags =? 0 then lit " 0"
  else concat (map (fun '(bit, name) => if Z.land ai_flags bit =? 0 then [] else name) ai_flag_names).

Section Util.
Context {E : Type} `{OS E}.

Definition port_suffix (p : Z) : list byte :=
  if p =? 0 then [] else lit ":" ++ dec (ntohs p).

Definition printAddressPort (aip : addrinfo) : list byte :=
  match ai_family aip with
  | AF_INET | AF_INET6 =>
      default (lit "unknown") (os_inet_ntop (ai_family aip) (sa_ip (ai_addr aip)))
      ++ port_suffix (sa_port (ai_addr aip))
  | AF_OTHER => lit "unknown"
  end.

Definition printSocketAddress (a : sockaddr) : Z * list byte :=
  match sa_family a with
  | AF_INET | AF_INET6 =>
      (1, match os_inet_ntop (sa_family a) (sa_ip a) with
          | None => lit "[invalid address]"
          | Some t => t ++ port_suffix (sa_port a)
          end)
  | AF_OTHER => (0, lit "[unknown type]")
  end.

(** Null pointers are [None]. *)
Definition sockAddrsEqual (a b : option sockaddr) : bool :=
  match a, b with
  | Some a, Some b =>
      bool_decide (sa_family a = sa_family b) &&
      match sa_family a with
      | AF_INET | AF_INET6 => bool_decide (sa_ip a = sa_ip b) && (sa_port a =? sa_port b)
      | AF_OTHER => false
      end
  | None, None => true
  | _, _ => false
  end.

(** [strncpy(origin_addr_buf, c->dest_fqdn, 255)] followed by [strncat] of the
    port: the name is read through the pointer, and a name of 255 characters or
    more leaves the array without the terminator [strncat] looks for. *)
Definition fqdn_and_port (c : client) : outcome (list byte) :=
  match dest_fqdn c with
  | None => Fault Undefined
  | Some m =>
      if decide (NUL ∈ m) then
        if decide (length (cstr m) < 255)%nat
        then mret (cstr m ++ lit ":" ++ dec (htons (u16 (dest_port c))))
        else Fault Undefined
      else Fault Undefined
  end.

Definition log_access_info (c : client) (reply : Z) : outcome (list byte) :=
  let client_addr_buf := (printSocketAddress (client_addr c)).2 in
  origin_addr_buf ←
    (if c_atyp c =? ATYP_DOMAIN_NAME then fqdn_and_port c
     else match curr_addr c with
          | aip :: _ => mret (printAddressPort aip)
          | [] => mret (lit "Address unkown")
          end);
  mret (lit "<" ++ cstr (socks_user c) ++ lit ">" ++ TAB :: lit "A" ++ TAB :: client_addr_buf ++
        TAB :: origin_addr_buf ++ TAB :: lit "status:" ++ dec reply).

Definition log_sniffer_info (c : client) (user pass : list byte) : outcome (list byte) :=
  let client_addr_buf := (printSocketAddress (client_addr c)).2 in
  origin_addr_buf ←
    (if c_atyp c =? ATYP_DOMAIN_NAME then fqdn_and_port c
     else match curr_addr c with
          | aip :: _ => mret (printAddressPort aip)
          | [] => Fault Undefined
          end);
  mret (lit "<" ++ cstr (socks_user c) ++ lit ">" ++ TAB :: lit "P" ++ TAB :: client_addr_buf ++
        TAB :: origin_addr_buf ++ TAB :: cstr user ++ lit ":" ++ cstr pass).
End Util.

(** The port of a wire address is its two bytes in network order. *)
Lemma ntohs_load b0 b1 : ntohs (Zb b0 + 256 * Zb b1) = Zb b0 * 256 + Zb b1.
Proof.
  pose proof (Zb_range b0). pose proof (Zb_range b1). unfold ntohs.
  rewrite (Z.mul_comm 256), Z.mod_add, Z.div_add by lia.
  rewrite Z.mod_small, Z.div_small by lia. rewrite Z.add_0_l, Z.mod_small by lia. lia.
Qed.
