(* ===== verification/TcpServer.v ===== *)
(** * TcpServer: src/tcpServerUtil.c

    Passive sockets: creating one that listens on an address, and accepting a
    connection from it. The calls they need beyond those of [OS] are the
    operations of [NetOS]. *)

From S2P Require Import Prelude Os Util.

Local Open Scope Z_scope.

Definition MAX_PENDING_CONNECTIONS : nat := 30.

(** The two options the program sets. *)
Inductive sockopt := IPV6_V6ONLY | SO_REUSEADDR.

Class NetOS (E : Type) := {
  os_setsockopt : Z -> sockopt -> E -> sysres unit * E;
  os_bind : Z -> sockaddr -> E -> sysres unit * E;
  os_listen : Z -> nat -> E -> sysres unit * E;
  (** the address a text denotes *)
  os_inet_pton : family -> list byte -> option (list byte)
}.

Section TcpServer.
Context {E : Type} `{OS E} `{NetOS E}.

Definition sys_setsockopt (fd : Z) (o : sockopt) : M (io E) (option unit) := call (os_setsockopt fd o).

Definition sys_bind (fd : Z) (a : sockaddr) : M (io E) (option unit) :=
  r ← call (os_bind fd a);
  match r with Some _ => emit (EvBind fd a);; mret (Some tt) | None => mret None end.

Definition sys_listen (fd : Z) (backlog : nat) : M (io E) (option unit) :=
  r ← call (os_listen fd backlog);
  match r with Some _ => emit (EvListen fd);; mret (Some tt) | None => mret None end.

(** The address is also printed into a static array that nothing reads. *)
Definition acceptTCPConnection (servSock : Z) : M (io E) Z :=
  r ← sys_accept servSock;
  match r with
  | None => mret (-1)
  | Some (clntSock, _) => mret clntSock
  end.

(** [close(sock); return -1;] *)
Definition abandon_socket (sock : Z) : M (io E) Z := sys_close sock;; mret (-1).

Definition setUpMasterSocket (ip : list byte) (port : Z) (ipv6 : bool) : M (io E) Z :=
  let f := if ipv6 then AF_INET6 else AF_INET in
  sock ← sys_socket f;
  match sock with
  | None => mret (-1)
  | Some sock =>
      opt ← sys_setsockopt sock (if ipv6 then IPV6_V6ONLY else SO_REUSEADDR);
      match opt with
      | None => abandon_socket sock
      | Some _ =>
          match os_inet_pton f ip with
          | None => abandon_socket sock
          | Some addr =>
              bound ← sys_bind sock (Sockaddr f addr (htons port));
              match bound with
              | None => abandon_socket sock
              | Some _ =>
                  listening ← sys_listen sock MAX_PENDING_CONNECTIONS;
                  match listening with
                  | None => abandon_socket sock
                  | Some _ => mret sock
                  end
              end
          end
      end
  end.
End TcpServer.

(** ** What setting up a socket does *)

Section Specs.
Context {E : Type} `{OSLaws E} `{NetOS E}.

Definition socket_family (ipv6 : bool) : family := if ipv6 then AF_INET6 else AF_INET.

(** The events of a socket that ends up listening, newest first. *)
Definition listening_events (fd : Z) (a : sockaddr) : list event :=
  [EvListen fd; EvBind fd a; EvSocket fd].

(** A failed attempt: nothing listens, and a socket that was created has been
    closed. *)
Definition failed_events (evs : list event) : Prop :=
  (forall fd, EvListen fd ∉ evs) /\ (forall fd, EvSocket fd ∈ evs -> EvClose fd ∈ evs).

(** [a] is the address the text and the port denote. *)
Definition denotes (ip : list byte) (port : Z) (ipv6 : bool) (a : sockaddr) : Prop :=
  exists addr, os_inet_pton (socket_family ipv6) ip = Some addr /\
    a = Sockaddr (socket_family ipv6) addr (htons port).

(** What an attempt leaves: the descriptor, and the trace. *)
Definition set_up (ip : list byte) (port : Z) (ipv6 : bool) (r : Z) (t t' : list event) : Prop :=
  exists evs, t' = evs ++ t /\ (forall fd a, EvBind fd a ∈ evs -> denotes ip port ipv6 a) /\
    (r = -1 /\ failed_events evs \/
     0 <= r /\ exists a, denotes ip port ipv6 a /\ evs = listening_events r a).

Lemma call_trace {A} (f : E -> sysres A * E) (s : io E) :
  exists r s', call f s = Done (r, s') /\ io_trace s' = io_trace s.
Proof. unfold call. destruct (f (io_os s)) as [[a|e] os']; eauto. Qed.

Lemma sys_socket_trace f (s : io E) :
  exists r s', sys_socket f s = Done (r, s') /\
    match r with
    | Some fd => 0 <= fd /\ ~ os_open (io_os s) fd /\ io_trace s' = EvSocket fd :: io_trace s
    | None => io_trace s' = io_trace s
    end.
Proof.
  unfold sys_socket, call, mbind, M_bind.
  destruct (os_socket f (io_os s)) as [[fd|e] os'] eqn:Es; simpl; eexists _, _; (split; [reflexivity|]); [|done].
  destruct (os_socket_fresh _ _ _ _ Es). by split_and!.
Qed.

Lemma sys_bind_trace fd a (s : io E) :
  exists r s', sys_bind fd a s = Done (r, s') /\
    io_trace s' = (if r then [EvBind fd a] else []) ++ io_trace s.
Proof.
  unfold sys_bind, call, mbind, M_bind.
  destruct (os_bind fd a (io_os s)) as [[u|e] os']; simpl; eexists _, _; (split; [reflexivity|]); done.
Qed.

Lemma sys_listen_trace fd n (s : io E) :
  exists r s', sys_listen fd n s = Done (r, s') /\
    io_trace s' = (if r then [EvListen fd] else []) ++ io_trace s.
Proof.
  unfold sys_listen, call, mbind, M_bind.
  destruct (os_listen fd n (io_os s)) as [[u|e] os']; simpl; eexists _, _; (split; [reflexivity|]); done.
Qed.

(** Closing the socket after the events [evs]. *)
Lemma abandoned ip port ipv6 sock evs (s0 s : io E) :
  io_trace s = evs ++ io_trace s0 -> (forall fd, EvListen fd ∉ evs) ->
  (forall fd, EvSocket fd ∈ evs -> fd = sock) -> (forall fd a, EvBind fd a ∈ evs -> denotes ip port ipv6 a) ->
  exists r s', abandon_socket sock s = Done (r, s') /\ set_up ip port ipv6 r (io_trace s0) (io_trace s').
Proof.
  intros Ht Hl Hs Hb. eexists _, _. split; [reflexivity|]. exists (EvClose sock :: evs).
  split; [by rewrite <- app_comm_cons, <- Ht|].
  split; [intros fd a [?|Hin]%elem_of_cons; [done|by eapply Hb]|]. left. split; [done|]. split.
  - intros fd [?|?]%elem_of_cons; [done|by apply (Hl fd)].
  - intros fd [?|Hin]%elem_of_cons; [done|]. apply Hs in Hin as ->. apply list_elem_of_here.
Qed.

Lemma setUpMasterSocket_spec ip port ipv6 (s : io E) :
  exists r s', setUpMasterSocket ip port ipv6 s = Done (r, s') /\
    set_up ip port ipv6 r (io_trace s) (io_trace s').
Proof.
  unfold setUpMasterSocket. fold (socket_family ipv6). cbv zeta.
  destruct (sys_socket_trace (socket_family ipv6) s) as (r & s1 & E1 & Hr1). mstep E1.
  destruct r as [sock|].
  2:{ exists (-1), s1. split; [done|]. exists [].
      split; [done|]. split; [intros fd a Hin; by apply not_elem_of_nil in Hin|]. left. split; [done|].
      split; intros fd Hin; by apply not_elem_of_nil in Hin. }
  destruct Hr1 as (Hfd & _ & Ht1).
  destruct (call_trace (os_setsockopt sock (if ipv6 then IPV6_V6ONLY else SO_REUSEADDR)) s1) as (r & s2 & E2 & Ht2).
  rewrite (bind_Done _ _ _ _ _ E2). rewrite Ht1 in Ht2.
  assert (Hl1 : forall fd, EvListen fd ∉ [EvSocket sock]) by (intros fd Hin%list_elem_of_singleton; done).
  assert (Hs1 : forall fd, EvSocket fd ∈ [EvSocket sock] -> fd = sock) by (intros fd [= ->]%list_elem_of_singleton; done).
  assert (Hb1 : forall fd a, EvBind fd a ∈ [EvSocket sock] -> denotes ip port ipv6 a)
    by (intros fd a Hin%list_elem_of_singleton; done).
  destruct r as [u|]; [|by apply (abandoned _ _ _ sock [EvSocket sock] s)].
  destruct (os_inet_pton (socket_family ipv6) ip) as [addr|] eqn:Ea;
    [|by apply (abandoned _ _ _ sock [EvSocket sock] s)].
  set (a := Sockaddr (socket_family ipv6) addr (htons port)).
  assert (Ha : denotes ip port ipv6 a) by (by exists addr).
  assert (Hb2 : forall fd x, EvBind fd x ∈ [EvBind sock a; EvSocket sock] -> denotes ip port ipv6 x)
    by (intros fd x [[= -> ->]|Hin]%elem_of_cons; [done|by eapply Hb1]).
  destruct (sys_bind_trace sock a s2) as (r & s3 & E3 & Ht3). mstep E3. rewrite Ht2 in Ht3.
  destruct r as [u'|]; [|by apply (abandoned _ _ _ sock [EvSocket sock] s)].
  destruct (sys_listen_trace sock MAX_PENDING_CONNECTIONS s3) as (r & s4 & E4 & Ht4). mstep E4. rewrite Ht3 in Ht4.
  destruct r as [u''|].
  - exists sock, s4. split; [done|]. exists (listening_events sock a). split; [done|].
    split; [intros fd x [?|Hin]%elem_of_cons; [done|by eapply Hb2]|]. right. split; [done|]. by exists a.
  - apply (abandoned _ _ _ sock [EvBind sock a; EvSocket sock] s); [done|..].
    + intros fd [?|Hin]%elem_of_cons; [done|by apply (Hl1 fd)].
    + intros fd [?|Hin]%elem_of_cons; [done|by apply Hs1].
    + exact Hb2.
Qed.

(** C19. Setting up a passive socket, whichever of its calls fails, returns and
    leaks nothing: it yields a descriptor bound to the address given by the
    text and the port (in network order) and listening on it, or -1 with no
    socket listening and the one it created, if any, closed. *)
Theorem setUpMasterSocket_correct (ip : list byte) (port : Z) (ipv6 : bool) (s : io E) :
  exists r s', setUpMasterSocket ip port ipv6 s = Done (r, s') /\
    set_up ip port ipv6 r (io_trace s) (io_trace s').
Proof. apply setUpMasterSocket_spec. Qed.
End Specs.

(** ** A scripted network *)

#[global] Instance script_net : NetOS script := {|
  os_setsockopt fd o e := (Ok tt, e);
  os_bind fd a e := (Ok tt, e);
  os_listen fd n e := (Ok tt, e);
  os_inet_pton f t := Some (match f with AF_INET => repeat NUL 4 | _ => repeat NUL 16 end)
|}.

Lemma setUpMasterSocket_correct_witness :
  let s := Io (Script [] 64 3) 0 [] in
  exists s', setUpMasterSocket (lit "::1") 8080 true s = Done (3, s') /\
    io_trace s' = listening_events 3 (Sockaddr AF_INET6 (repeat NUL 16) (htons 8080)).
Proof.
  intros s.
  destruct (@setUpMasterSocket_correct script script_os script_laws script_net (lit "::1") 8080 true s)
    as (r & s' & Er & _). exists s'.
  assert (r = 3 /\ io_trace s' = listening_events 3 (Sockaddr AF_INET6 (repeat NUL 16) (htons 8080))) as [-> Ht].
  { vm_compute in Er. injection Er as <- <-. split; reflexivity. }
  split; [exact Er|exact Ht].
Defined.
