(* ===== verification/WorldLogic.v ===== *)
(** * WorldLogic: reasoning about the server's computations

    Rules of [wp] for the operations of World: accesses to the connection
    structs, calls of the kernel and of the selector. A rule leaves the new
    state as an update of one component of the old one. *)

From S2P Require Import Prelude Buffer Os SocketsIO State Selector SelectorSpec Stm World.
Import Registry.

Local Open Scope Z_scope.

(** ** The registrations of a selector *)

(** The handler and data [fd] is registered with. *)
Definition reg (s : fdselector handler_id) (fd : Z) : option (option handler_id * Z) :=
  (fun it => (i_handler it, i_data it)) <$> look s fd.

Definition sel_ok (s : fdselector handler_id) : Prop := exists g, repr s g.

Lemma reg_repr s g fd :
  repr s g -> reg s fd = (fun e => (Some (e_handler e), e_data e)) <$> g !! fd.
Proof. intros [_ H]. unfold reg. rewrite H. by destruct (g !! fd). Qed.

(** The registry a selector represents is unique. *)
Lemma repr_fun (s : fdselector handler_id) g g' : repr s g -> repr s g' -> g = g'.
Proof.
  intros [_ H1] [_ H2]. apply map_eq. intros fd. specialize (H1 fd). rewrite H2 in H1.
  destruct (g !! fd) as [[]|], (g' !! fd) as [[]|]; simplify_eq/=; done.
Qed.

(** The selector goes from [s] to [s'] by the operations [os]. *)
Definition runs (s : fdselector handler_id) (os : list (op handler_id)) (s' : fdselector handler_id) : Prop :=
  exists g, repr s g /\ repr s' (rrun g os).2.

Lemma rrun_app (g : gmap Z (entry handler_id)) os1 os2 : (rrun g (os1 ++ os2)).2 = (rrun (rrun g os1).2 os2).2.
Proof.
  revert g. induction os1 as [|o os1 IH]; intros g; [done|]. cbn [app rrun].
  destruct (rstep g o) as [r g1]. specialize (IH g1).
  destruct (rrun g1 (os1 ++ os2)), (rrun g1 os1). exact IH.
Qed.

Lemma runs_refl s : sel_ok s -> runs s [] s.
Proof. intros [g Hg]. by exists g. Qed.

Lemma runs_trans s os1 s1 os2 s2 : runs s os1 s1 -> runs s1 os2 s2 -> runs s (os1 ++ os2) s2.
Proof.
  intros (g & Hg & Hg1) (g1 & Hg1' & Hg2). exists g. split; [done|].
  by rewrite rrun_app, (repr_fun _ _ _ Hg1 Hg1').
Qed.

Lemma runs_ok s os s' : runs s os s' -> sel_ok s'.
Proof. intros (g & _ & Hg). by eexists. Qed.

(** The descriptors a sequence of operations without registrations unregisters. *)
Definition unregistered (os : list (op handler_id)) : list Z :=
  omap (fun o => match o with Unregister fd => Some fd | _ => None end) os.

Definition no_register (o : op handler_id) : Prop := match o with Register _ _ _ _ => False | _ => True end.

(** The five operations on interests. *)
Inductive interest_op : (fdselector handler_id -> outcome (selector_status * fdselector handler_id))
                        -> Prop :=
| io_set fd i : interest_op (selector_set_interest fd i)
| io_add fd i : interest_op (selector_add_interest fd i)
| io_unmask fd i : interest_op (selector_unmask_interest fd i)
| io_remove fd i : interest_op (selector_remove_interest fd i)
| io_mask fd i : interest_op (selector_mask_interest fd i).

#[export] Hint Constructors interest_op : socks.

Lemma adjust_reg (g : gmap Z (entry handler_id)) fd f fd' :
  (forall e, e_handler (f e) = e_handler e /\ e_data (f e) = e_data e) ->
  (fun e => (Some (e_handler e), e_data e)) <$> (adjust g fd f).2 !! fd'
  = (fun e => (Some (e_handler e), e_data e)) <$> g !! fd'.
Proof.
  intros Hf. unfold adjust. destruct (g !! fd) as [e|] eqn:E; simpl; [|done].
  destruct (decide (fd' = fd)) as [->|].
  - rewrite lookup_insert_eq, E. simpl. by destruct (Hf e) as [-> ->].
  - by rewrite lookup_insert_ne.
Qed.

Lemma interest_op_spec f s :
  interest_op f -> sel_ok s ->
  exists st s', f s = Done (st, s') /\ sel_ok s' /\ forall fd, reg s' fd = reg s fd.
Proof.
  intros Hop [g Hg].
  assert (Hs : exists o fd f', f s = sstep s o /\ rstep g o = adjust g fd f' /\
            forall e, e_handler (f' e) = e_handler e /\ e_data (f' e) = e_data e).
  { destruct Hop as [fd i|fd i|fd i|fd i|fd i];
      [exists (SetInterest fd i)|exists (AddInterest fd i)|exists (UnmaskInterest fd i)
      |exists (RemoveInterest fd i)|exists (MaskInterest fd i)];
      exists fd; eexists; (split; [reflexivity|]); (split; [reflexivity|]); done. }
  destruct Hs as (o & fd & f' & -> & Er & Hf).
  destruct (sstep_spec s g o Hg) as (s' & -> & Hg'). rewrite Er in *.
  eexists _, s'. split; [reflexivity|]. split; [by eexists|].
  intros fd'. rewrite (reg_repr s' _ fd' Hg'), (reg_repr s g fd' Hg). by apply adjust_reg.
Qed.

Lemma rrun_reg os (g : gmap Z (entry handler_id)) fd :
  Forall no_register os ->
  (fun e => (Some (e_handler e), e_data e)) <$> (rrun g os).2 !! fd =
    if decide (fd ∈ unregistered os) then None else (fun e => (Some (e_handler e), e_data e)) <$> g !! fd.
Proof.
  intros Hos. revert g. induction Hos as [|o os Ho _ IH]; intros g; [done|]. cbn [rrun].
  assert (E1 : (fun e => (Some (e_handler e), e_data e)) <$> (rstep g o).2 !! fd =
    if decide (fd ∈ unregistered [o]) then None else (fun e => (Some (e_handler e), e_data e)) <$> g !! fd).
  { destruct o as [fd' h i d|fd'|fd' i|fd' i|fd' i|fd' i|fd' i]; cbn [rstep]; [done|..];
      [|by rewrite adjust_reg..].
    unfold unregistered. cbn [omap list_omap]. destruct (g !! fd') as [e|] eqn:Eg; cbn [snd].
    - rewrite lookup_delete. repeat case_decide; first [done | set_solver].
    - destruct (decide (fd ∈ [fd'])) as [Hd|Hd]; [|reflexivity]. apply list_elem_of_singleton in Hd. subst. by rewrite Eg. }
  specialize (IH (rstep g o).2). destruct (rstep g o) as [r g1]. cbn [snd] in *.
  destruct (rrun g1 os) as [rs g2]. cbn [snd] in *. rewrite IH, E1. clear IH E1.
  change (unregistered (o :: os)) with (unregistered ([o] ++ os)). unfold unregistered. rewrite omap_app.
  repeat case_decide; first [done | set_solver].
Qed.

Lemma runs_reg s os s' fd :
  Forall no_register os -> runs s os s' ->
  reg s' fd = if decide (fd ∈ unregistered os) then None else reg s fd.
Proof.
  intros Hos (g & Hg & Hg'). rewrite (reg_repr _ _ _ Hg'), (reg_repr _ _ _ Hg). by apply rrun_reg.
Qed.

Section Rules.
Context {E : Type} `{OS E}.
Implicit Types (w : world E).

Lemma wp_get_client a c (Q : client -> world E -> Prop) w :
  w_clients w !! a = Some c -> Q c w -> wp (get_client a) Q w.
Proof. unfold wp, get_client. by intros ->. Qed.

Lemma wp_upd_client a c f (Q : unit -> world E -> Prop) w :
  w_clients w !! a = Some c ->
  Q tt (lput clients_lens (<[a := f c]> (w_clients w)) w) -> wp (upd_client a f) Q w.
Proof.
  intros Hc HQ. apply wp_bind. eapply wp_get_client; [done|]. unfold wp, put_client. by rewrite Hc.
Qed.

Lemma wp_sys {A} (m : M (io E) A) (Q : A -> world E -> Prop) w :
  wp m (fun a i => Q a (lput io_lens i w)) (w_io w) -> wp (sys m) Q w.
Proof. apply wp_zoom. Qed.

Lemma wp_sel_do f (Q : unit -> world E -> Prop) w :
  interest_op f -> sel_ok (w_sel w) ->
  (forall s', sel_ok s' -> (forall fd, reg s' fd = reg (w_sel w) fd) -> Q tt (lput sel_lens s' w)) ->
  wp (sel_do f) Q w.
Proof.
  intros Hop Hs HQ. destruct (interest_op_spec f _ Hop Hs) as (st & s' & Ef & Hs' & Hr).
  apply wp_bind, wp_zoom. eapply wp_Done; [exact Ef|]. apply wp_ret. by apply HQ.
Qed.

(** The same with the effect on the registry. *)
Lemma wp_sel_step f o (Q : unit -> world E -> Prop) w :
  (forall s, f s = sstep s o) -> sel_ok (w_sel w) ->
  (forall s', runs (w_sel w) [o] s' -> Q tt (lput sel_lens s' w)) -> wp (sel_do f) Q w.
Proof.
  intros Hf [g Hg] HQ. destruct (sstep_spec (w_sel w) g o Hg) as (s' & Es & Hg').
  apply wp_bind, wp_zoom. eapply wp_Done; [by rewrite Hf|]. apply wp_ret, HQ. exists g. split; [done|].
  cbn [rrun]. by destruct (rstep g o).
Qed.

Lemma wp_upd_state f (Q : unit -> world E -> Prop) w :
  Q tt (lput state_lens (f (w_state w)) w) -> wp (upd_state f) Q w.
Proof. done. Qed.

(** Unregistering a descriptor that has no close handler, or is not registered. *)
Lemma wp_unregister hclose fd (Q : selector_status -> world E -> Prop) w :
  sel_ok (w_sel w) ->
  (forall h d, reg (w_sel w) fd = Some (Some h, d) -> hclose h = None) ->
  (forall st s', runs (w_sel w) [Unregister fd] s' -> Q st (lput sel_lens s' w)) ->
  wp (selector_unregister_fd hclose fd) Q w.
Proof.
  intros [g Hg] Hh HQ. pose proof Hg as [Hwf Hlk]. unfold selector_unregister_fd.
  destruct (unregister_spec _ _ fd Hg) as (s1 & E1 & Hg1).
  assert (Hrun : runs (w_sel w) [Unregister fd] s1).
  { exists g. split; [done|]. cbn [rrun]. by destruct (rstep g (Unregister fd)). }
  clear Hg1. simpl in E1. destruct (INVALID_FD fd) eqn:Einv.
  - injection E1 as Est <-. apply wp_ret.
    replace w with (lput sel_lens (w_sel w) w) at 1 by (by destruct w). by apply HQ.
  - apply INVALID_FD_spec in Einv. destruct (item_at_look _ fd Hwf Einv) as (it & Ei & Hl).
    apply wp_bind, wp_zoom. unfold wp. simpl. rewrite Ei in *. simpl in *.
    replace (lput sel_lens (w_sel w) w) with w by (by destruct w).
    destruct (ITEM_USED it); simpl in *.
    + rewrite Hlk in Hl. destruct (g !! fd) as [e|] eqn:Eg; [|done]. injection Hl as <-. simpl in *.
      assert (Hr : reg (w_sel w) fd = Some (Some (e_handler e), e_data e))
        by (by rewrite (reg_repr _ g fd Hg), Eg).
      rewrite (Hh _ _ Hr). unfold mbind, M_bind. simpl. unfold on_selector, zoom. simpl.
      destruct (release_item fd (w_sel w)) as [s'|] eqn:Er; simpl in *; [|done].
      injection E1 as <-. by apply HQ.
    + injection E1 as Est <-. unfold mret, M_ret.
      replace w with (lput sel_lens (w_sel w) w) at 1 by (by destruct w). by apply HQ.
Qed.

(** The calls that only leave an event. *)
Lemma wp_shutdown fd h (Q : unit -> world E -> Prop) w :
  (forall i, io_trace i = EvShutdown fd h :: io_trace (w_io w) -> Q tt (lput io_lens i w)) ->
  wp (sys (sys_shutdown fd h)) Q w.
Proof. intros HQ. apply wp_sys. by apply HQ. Qed.

Lemma wp_close fd (Q : unit -> world E -> Prop) w :
  (forall i, io_trace i = EvClose fd :: io_trace (w_io w) -> Q tt (lput io_lens i w)) ->
  wp (sys (sys_close fd)) Q w.
Proof. intros HQ. apply wp_sys. by apply HQ. Qed.

Lemma wp_emit ev (Q : unit -> world E -> Prop) w :
  (forall i, io_trace i = ev :: io_trace (w_io w) -> Q tt (lput io_lens i w)) ->
  wp (sys (emit ev)) Q w.
Proof. intros HQ. apply wp_sys. by apply HQ. Qed.
End Rules.

(** ** Allocation and registration *)

Section Alloc.
Context {E : Type} `{OSLaws E}.
Implicit Types (w : world E).

Lemma wp_malloc n w (Q : option (list byte) -> world E -> Prop) :
  (forall r e' i, os_malloc n (io_os (w_io w)) = (r, e') -> io_os i = e' -> io_trace i = io_trace (w_io w) ->
     (forall area, r = Some area -> length area = n) -> Q r (lput io_lens i w)) ->
  wp (sys (sys_malloc n)) Q w.
Proof.
  intros HQ. apply wp_sys. unfold wp, sys_malloc.
  destruct (os_malloc n (io_os (w_io w))) as [r e'] eqn:Em.
  eapply HQ; [reflexivity|done|done|]. intros area ->. by eapply os_malloc_length.
Qed.

Lemma wp_malloc_any n w (Q : option (list byte) -> world E -> Prop) :
  (forall r i, io_trace i = io_trace (w_io w) -> (forall area, r = Some area -> length area = n) ->
     Q r (lput io_lens i w)) ->
  wp (sys (sys_malloc n)) Q w.
Proof. intros HQ. apply wp_malloc. intros r e' i _ _. apply HQ. Qed.

Lemma register_any ok gr fd h interest data (s : fdselector handler_id) :
  sel_wf s -> selector_register ok gr fd h interest data s = selector_register true item_zero fd h interest data s.
Proof.
  intros Hwf. unfold selector_register. destruct (INVALID_FD fd || bool_decide (h = None)) eqn:Ei; [done|].
  apply orb_false_iff in Ei as [Ei _]. apply INVALID_FD_spec in Ei.
  destruct (wf_table s Hwf) as (l & _ & _ & Hsz). by rewrite (proj2 (Z.ltb_ge _ _)) by lia.
Qed.

Lemma wp_do_register fd h interest data g w (Q : selector_status -> world E -> Prop) :
  repr (w_sel w) g ->
  (forall i s', io_trace i = io_trace (w_io w) -> repr s' (rstep g (Register fd h interest data)).2 ->
     Q (rstep g (Register fd h interest data)).1 (lput sel_lens s' (lput io_lens i w))) ->
  wp (do_register fd h interest data) Q w.
Proof.
  intros Hg HQ. unfold do_register. apply wp_bind. unfold sel_alloc. simpl. apply wp_bind, wp_malloc_any.
  intros r i Hi _. apply wp_ret. apply wp_zoom. simpl.
  destruct (register_spec _ _ fd h interest data Hg) as (s' & Er & Hg').
  eapply wp_Done; [rewrite register_any by apply Hg; exact Er|]. by apply HQ.
Qed.

End Alloc.

(** ** Steps of one connection *)

Section Progress.
Context {E : Type} `{OS E}.
Implicit Types (w : world E).

(** What is not a connection struct, the selector or the trace. *)
Definition rest_same w w' : Prop :=
  w_state w' = w_state w /\ w_users w' = w_users w /\ w_tokens w' = w_tokens w /\
  w_mgmt w' = w_mgmt w /\ w_next w' = w_next w /\ w_threads w' = w_threads w.

(** The connection at [a] becomes [c'], the descriptors [fds] are unregistered
    and the events [evs] happen, newest first; nothing else changes. *)
Record progress (a : Z) (c' : client) (fds : list Z) (evs : list event) w w' : Prop := {
  pg_clients : w_clients w' = <[a := c']> (w_clients w);
  pg_rest : rest_same w w';
  pg_sel : sel_ok (w_sel w');
  pg_reg fd : reg (w_sel w') fd = if decide (fd ∈ fds) then None else reg (w_sel w) fd;
  pg_trace : io_trace (w_io w') = evs ++ io_trace (w_io w)
}.

Lemma progress_refl a c w :
  w_clients w !! a = Some c -> sel_ok (w_sel w) -> progress a c [] [] w w.
Proof. intros Hc Hs. split; try done. by rewrite insert_id. Qed.

Lemma progress_trans a c1 c2 l1 l2 e1 e2 w w1 w2 :
  progress a c1 l1 e1 w w1 -> progress a c2 l2 e2 w1 w2 ->
  progress a c2 (l1 ++ l2) (e2 ++ e1) w w2.
Proof.
  intros [Hc1 Hr1 Hs1 Hg1 Ht1] [Hc2 Hr2 Hs2 Hg2 Ht2]. split.
  - by rewrite Hc2, Hc1, insert_insert_eq.
  - unfold rest_same in *. intuition congruence.
  - done.
  - intros fd. rewrite Hg2, Hg1. repeat case_decide; set_solver.
  - by rewrite Ht2, Ht1, app_assoc.
Qed.

(** A step that neither unregisters nor is seen by the kernel, after another. *)
Lemma progress_silent a c1 c2 l e w w1 w2 :
  progress a c1 l e w w1 -> progress a c2 [] [] w1 w2 -> progress a c2 l e w w2.
Proof. intros H1 H2. rewrite <- (app_nil_r l). by apply (progress_trans _ _ _ _ _ _ _ _ _ _ H1 H2). Qed.

Lemma progress_lookup a c l e w w' : progress a c l e w w' -> w_clients w' !! a = Some c.
Proof. intros Hp. by rewrite (pg_clients _ _ _ _ _ _ Hp), lookup_insert_eq. Qed.

Lemma progress_upd a c w : 
  sel_ok (w_sel w) -> progress a c [] [] w (lput clients_lens (<[a := c]> (w_clients w)) w).
Proof. by split. Qed.

(** The descriptor belongs to SOCKS connections only. *)
Definition socks_fd w (fd : Z) : Prop :=
  forall h d, reg (w_sel w) fd = Some (Some h, d) -> h = H_socks5.

Lemma socks_fd_progress a c l e w w' fd : progress a c l e w w' -> socks_fd w fd -> socks_fd w' fd.
Proof. intros Hp Hf h d. rewrite (pg_reg _ _ _ _ _ _ Hp). case_decide; [done|]. apply Hf. Qed.

Lemma wp_interest a c f w (Q : unit -> world E -> Prop) :
  interest_op f -> w_clients w !! a = Some c -> sel_ok (w_sel w) ->
  (forall w', progress a c [] [] w w' -> Q tt w') -> wp (sel_do f) Q w.
Proof.
  intros Hf Hc Hs HQ. apply wp_sel_do; [done|done|]. intros s' Hs' Hr. apply HQ.
  split; simpl; try done. by rewrite insert_id.
Qed.
End Progress.

(** ** A sample world, for the witnesses

    One SOCKS connection, at address 1, in state [st], over sockets 5 and 7. *)
Definition sample_client (st : nat) (ends : Z) (cb ob : buffer) : client :=
  Client 5 7 (Sockaddr AF_INET (repeat NUL 4) 0) 0 cb ob (lit "?" ++ repeat NUL 255) ends None 0 [] []
    (StateMachine AUTH_METHOD WRITE_REMAINING (Some st)) None.

Definition sample_world (reads : list (list byte)) (c : client) : world script :=
  World (Io (Script reads 64 9) 0 []) selector0 state_init [] [] {[1 := c]} ∅ 2 [].

Lemma sample_sel reads c : sel_ok (w_sel (sample_world reads c)).
Proof. exists ∅. apply repr_selector0. Qed.

Lemma sample_reg reads c fd : reg (w_sel (sample_world reads c)) fd = None.
Proof. unfold reg. simpl. by rewrite look_selector0. Qed.
