(* ===== verification/Mgmt.v ===== *)
(** * Mgmt: src/mgmt.c

    The management connections: accepting one, reading and scanning requests,
    executing them and sending the answers. [response_buf] is the text the
    formats of the source print into it. A request whose answer does not fit
    in the output buffer leaves the answer in [pending_buf] and stops the
    interpretation of further requests until it has been moved. *)

From S2P Require Import Prelude Buffer Os SocketsIO State Users Tokens Selector MgmtProtocol.
From S2P Require Import LexerCode Lexer World TcpServer.

Definition MIN_SOCKS_BUFFSIZE : Z := 512.
Definition MAX_SOCKS_BUFFSIZE : Z := 10241.

Definition success_status : list byte := lit "+OK".
Definition error_status : list byte := lit "-ERR".
Definition line_delimiter : list byte := CRLF.
Definition multiline_delimiter : list byte := lit ".".

Definition capa_message : list byte :=
  lit "+OK " ++ CRLF ++ lit "TOKEN" ++ CRLF ++ lit "USERS" ++ CRLF ++ lit "STATS" ++ CRLF ++
  lit "BUFFSIZE" ++ CRLF ++ lit "SET-BUFFSIZE" ++ CRLF ++ lit "DISSECTOR-STATUS" ++ CRLF ++
  lit "SET-DISSECTOR-STATUS" ++ CRLF ++ lit "." ++ CRLF.

(** [snprintf(response_buf, MGMT_BUFFSIZE, ...)] of a text: what the array then
    holds and the value returned, the length of the whole text. *)
Definition respond (text : list byte) : list byte * nat :=
  (take (MGMT_BUFFSIZE - 1) text, length text).

Definition hello : list byte :=
  success_status ++ lit " mgmt server ready. Authenticate using TOKEN to access all functionalities"
  ++ line_delimiter.

(** [atoi] of the C library: the leading digits, clamped by [strtol] to 64 bits
    and converted to [int]. *)
Fixpoint digits_value (s : list byte) (acc : Z) : Z :=
  match s with
  | [] => acc
  | c :: s' =>
      if ((48 <=? Zb c) && (Zb c <=? 57))%Z then digits_value s' (acc * 10 + (Zb c - 48)) else acc
  end.
Definition atoi (s : list byte) : Z := i32 (Z.min (digits_value s 0) (2 ^ 63 - 1)).

Section Mgmt.
Context {E : Type} `{OS E}.

Definition upd_mgmt (a : Z) (f : mgmt_client -> mgmt_client) : M (world E) unit :=
  c ← get_mgmt a; put_mgmt a (f c).

Definition set_input (v : Input) (c : mgmt_client) : mgmt_client :=
  MgmtClient (m_fd c) (write_buf c) (pending_buf c) v (quitted c).
Definition set_write_buf (v : buffer) (c : mgmt_client) : mgmt_client :=
  MgmtClient (m_fd c) v (pending_buf c) (m_input c) (quitted c).
Definition set_pending_buf (v : buffer) (c : mgmt_client) : mgmt_client :=
  MgmtClient (m_fd c) (write_buf c) v (m_input c) (quitted c).
Definition set_quitted (v : bool) (c : mgmt_client) : mgmt_client :=
  MgmtClient (m_fd c) (write_buf c) (pending_buf c) (m_input c) v.
Definition set_mem (m : list byte) (i : Input) : Input :=
  MkInput m (in_bufSize i) (in_lim i) (in_cur i) (in_mar i) (in_tok i) (in_state i) (in_cond i)
    (in_yyt1 i) (in_yyt2 i).
Definition set_cond (v : Z) (i : Input) : Input :=
  MkInput (in_mem i) (in_bufSize i) (in_lim i) (in_cur i) (in_mar i) (in_tok i) (in_state i) v
    (in_yyt1 i) (in_yyt2 i).

(** ** Output *)

Definition write_response (b : buffer) (response : list byte) : outcome (Z * buffer) :=
  '(size, _) ← buffer_write_ptr b;
  if size <? length response then mret ((-1)%Z, b)
  else b' ← buffer_store b response; mret (Z.of_nat (length response), b').

(** Result: the returned value, the destination and the source. *)
Definition copy_from_buf (dest src : buffer) : outcome (Z * buffer * buffer) :=
  '(dest_capa, _) ← buffer_write_ptr dest;
  '(src_size, src_ptr) ← buffer_read_ptr src;
  if dest_capa <? src_size then mret ((-1)%Z, dest, src)
  else
    l ← mem_read (b_data src) src_ptr src_size;
    src' ← buffer_read_adv src (Z.of_nat src_size);
    dest' ← buffer_store dest l;
    mret (Z.of_nat src_size, dest', src').

(** ** Requests *)

(** [arg[argLen] = 0], and the address of the argument. *)
Definition terminate_arg (a : Z) (rq : request) : M (world E) nat :=
  match rq_arg rq with
  | None => mfault Undefined
  | Some off =>
      if (rq_argLen rq <? 0)%Z then mfault Undefined
      else
        c ← get_mgmt a;
        m ← lift (mem_write (in_mem (m_input c)) (off + Z.to_nat (rq_argLen rq)) [NUL]);
        upd_mgmt a (set_input (set_mem m (m_input c)));;
        mret off
  end.

(** The memory from the argument on. *)
Definition arg_area (a : Z) (off : nat) : M (world E) (list byte) :=
  c ← get_mgmt a; mret (drop off (in_mem (m_input c))).
Definition put_arg_area (a : Z) (off : nat) (m : list byte) : M (world E) unit :=
  c ← get_mgmt a;
  upd_mgmt a (set_input (set_mem (take off (in_mem (m_input c)) ++ m) (m_input c))).

(** [for(i = 0; arg[i]; i++) arg[i] = tolower(arg[i])] *)
Definition tolower_str (m : list byte) : outcome (list byte) :=
  if decide (NUL ∈ m) then mret ((tolower <$> cstr m) ++ drop (length (cstr m)) m)
  else Fault Undefined.

(** The names of the users, a line each, appended by [strcat]. *)
Definition list_users (header : list byte) (us : list user) : outcome (list byte) :=
  let text := header ++ mjoin ((fun u => cstr (username u) ++ line_delimiter) <$> us)
              ++ lit "." ++ CRLF in
  if decide (length text < MGMT_BUFFSIZE) then mret text else Fault Undefined.

(** The [switch] of [processMgmtClient]: what a command does, the contents of
    [response_buf] and [response_len]. *)
Definition execute (a : Z) (cmd : MgmtCommand) (rq : request) : M (world E) (list byte * nat) :=
  match cmd with
  | MGMT_INCOMPLETE => mfault Abort
  | MGMT_INVALID_CMD =>
      mret (respond (error_status ++ lit " Invalid command for this stage " ++ line_delimiter))
  | MGMT_INVALID_ARGS =>
      mret (respond (error_status ++ lit " Invalid arguments for command" ++ line_delimiter))
  | MGMT_CAPA => mret (respond capa_message)
  | MGMT_TOKEN =>
      off ← terminate_arg a rq;
      arg ← arg_area a off;
      tokens ← gets w_tokens;
      if check_token arg tokens then
        upd_mgmt a (fun c => set_input (set_cond yyctrns (m_input c)) c);;
        mret (respond (success_status ++ lit " Welcome!" ++ line_delimiter))
      else
        mret (respond (error_status ++ lit " Incorrect password - try again" ++ line_delimiter))
  | MGMT_STATS =>
      st ← gets w_state;
      mret (respond (success_status ++
        lit " Showing stats (B)yte (H)istorical connections (C)urrent connections..." ++
        line_delimiter ++ lit "B" ++ dec (get_transferred_bytes st) ++ line_delimiter ++
        lit "H" ++ dec (get_all_connections st) ++ line_delimiter ++
        lit "C" ++ dec (get_current_clients st) ++ line_delimiter ++
        multiline_delimiter ++ line_delimiter))
  | MGMT_USERS =>
      let '(header, response_len) := respond (success_status ++ lit " Listing users... " ++ CRLF) in
      us ← gets (fun w => (get_users (w_users w)).2);
      text ← lift (list_users header us);
      mret (text, response_len)
  | MGMT_GET_BUFFSIZE =>
      n ← gets (fun w => get_buffsize (w_state w));
      mret (respond (success_status ++ lit " " ++ line_delimiter ++ dec n ++ line_delimiter ++
                     multiline_delimiter ++ line_delimiter))
  | MGMT_SET_BUFFSIZE =>
      off ← terminate_arg a rq;
      arg ← arg_area a off;
      let new_size := u64 (atoi (cstr arg)) in
      if ((MIN_SOCKS_BUFFSIZE <? new_size) && (new_size <? MAX_SOCKS_BUFFSIZE))%Z then
        upd_state (set_buffsize new_size);;
        mret (respond (success_status ++ lit " Buffsize updated " ++ line_delimiter))
      else mret (respond (error_status ++ lit " Error updating buffsize " ++ line_delimiter))
  | MGMT_GET_DISSECTOR_STATUS =>
      b ← gets (fun w => get_dissector_state (w_state w));
      mret (respond (success_status ++ lit " " ++ line_delimiter ++
                     (if b : bool then lit "on" else lit "off") ++ line_delimiter ++
                     multiline_delimiter ++ line_delimiter))
  | MGMT_SET_DISSECTOR_STATUS =>
      off ← terminate_arg a rq;
      arg ← arg_area a off;
      arg ← lift (tolower_str arg);
      put_arg_area a off arg;;
      if streq arg (lit "on") then
        upd_state (set_dissector_state true);;
        mret (respond (success_status ++ lit " Dissector status updated " ++ line_delimiter))
      else if streq arg (lit "off") then
        upd_state (set_dissector_state false);;
        mret (respond (success_status ++ lit " Dissector status updated " ++ line_delimiter))
      else
        mret (respond (error_status ++ lit " Error updating dissector status " ++ line_delimiter))
  | MGMT_ADD_USER =>
      off ← terminate_arg a rq;
      arg ← arg_area a off;
      us ← gets w_users;
      '(ok, us, arg) ← lift (add_user arg us);
      modify (lput users_lens us);;
      put_arg_area a off arg;;
      if ok : bool
      then mret (respond (success_status ++ lit " Added user " ++ cstr arg ++ line_delimiter))
      else mret (respond (error_status ++ lit " Error adding user " ++ cstr arg ++ line_delimiter))
  | MGMT_QUIT =>
      upd_mgmt a (set_quitted true);;
      mret (respond (success_status ++ lit " Quitting..." ++ line_delimiter))
  end.

(** An iteration of the loop of [processMgmtClient] up to the answer: the space
    for it, [response_buf] and [response_len]; nothing when the scanner needs
    more input. *)
Definition serve_request (a : Z) : M (world E) (option (nat * list byte * nat)) :=
  c ← get_mgmt a;
  '(cmd, rq, i) ← lift (parseMgmtRequest (m_input c));
  upd_mgmt a (set_input i);;
  if bool_decide (cmd = MGMT_INCOMPLETE) then mret None
  else
    match rq with
    | None => mfault Undefined
    | Some rq =>
        '(space, _) ← lift (buffer_write_ptr (write_buf c));
        '(response, response_len) ← execute a cmd rq;
        mret (Some (space, response, response_len))
    end.

(** The loop. Every request consumes at least a byte of the input. *)
Fixpoint process_requests (fuel : nat) (a : Z) : M (world E) bool :=
  match fuel with
  | O => mfault Diverge
  | S fuel' =>
      r ← serve_request a;
      match r with
      | None => mret true
      | Some (space, response, response_len) =>
          c ← get_mgmt a;
          if space <? response_len then
            '(_, b) ← lift (write_response (pending_buf c) response);
            upd_mgmt a (set_pending_buf b);;
            mret true
          else
            '(_, b) ← lift (write_response (write_buf c) response);
            upd_mgmt a (set_write_buf b);;
            process_requests fuel' a
      end
  end.

Definition processMgmtClient (a : Z) : M (world E) bool :=
  c ← get_mgmt a;
  process_requests (in_lim (m_input c) - in_tok (m_input c) + 1) a.

(** ** Handlers *)

(** [free] of the struct, which may be the null pointer. *)
Definition free_mgmt (a : Z) : M (world E) unit := fun w =>
  if (a =? 0)%Z then Done (tt, w)
  else
    match w_mgmt w !! a with
    | Some _ => Done (tt, lput mgmt_lens (delete a (w_mgmt w)) w)
    | None => Fault Undefined
    end.

Definition handle_mgmt_close (key : selector_key) : M (world E) unit :=
  sys (sys_close (key_fd key));;
  free_mgmt (key_data key);;
  upd_state rm_mgmt_client.

(** The [handle_close] members of the four handlers: only this one has it. *)
Definition hclose (h : handler_id) : option (selector_key -> M (world E) unit) :=
  match h with
  | H_mgmt => Some handle_mgmt_close
  | H_master | H_monitor | H_socks5 => None
  end.

Definition handle_mgmt_read (key : selector_key) : M (world E) unit :=
  let a := key_data key in
  c ← get_mgmt a;
  if buffer_can_read (pending_buf c) then mret tt
  else
    '(count, i) ← sys (fillBuffer (m_input c) (m_fd c));
    upd_mgmt a (set_input i);;
    eof ← sys (checkEOF count);
    if (eof : bool) then selector_unregister_fd hclose (m_fd c);; mret tt
    else
      processMgmtClient a;;
      sel_do (selector_set_interest (m_fd c) (Z.lor OP_WRITE OP_READ)).

Definition handle_mgmt_write (key : selector_key) : M (world E) unit :=
  let a := key_data key in
  c ← get_mgmt a;
  if negb (buffer_can_read (write_buf c)) && negb (buffer_can_read (pending_buf c))
  then sel_do (selector_set_interest (key_fd key) OP_READ)
  else
    when (buffer_can_read (pending_buf c))
      ('(n, w, p) ← lift (copy_from_buf (write_buf c) (pending_buf c));
       upd_mgmt a (fun c => set_pending_buf p (set_write_buf w c));;
       when (0 <? n)%Z (processMgmtClient a;; mret tt));;
    c ← get_mgmt a;
    '(bytes_left, b) ← sys (write_to_sock (m_fd c) (write_buf c));
    upd_mgmt a (set_write_buf b);;
    when ((bytes_left =? 0)%Z && quitted c) (selector_unregister_fd hclose (m_fd c);; mret tt);;
    when (bytes_left <? 0)%Z (selector_unregister_fd hclose (m_fd c);; mret tt).

Definition mgmt_handler : fd_handler (world E) :=
  FdHandler (Some handle_mgmt_read) (Some handle_mgmt_write) None (Some handle_mgmt_close).

(** The struct is 6320 bytes: the descriptor, the three arrays from offsets 4,
    2052 and 4100 (the last followed by padding), the two buffers and the
    scanner's variables. *)
Definition create_mgmt_client (sock : Z) : M (world E) (option Z) :=
  area ← sys (sys_malloc 6320);
  match area with
  | None => mret None
  | Some m =>
      write_buf_raw ← lift (mem_read m 4 MGMT_BUFFSIZE);
      pending_buf_raw ← lift (mem_read m 2052 MGMT_BUFFSIZE);
      read_buf_raw ← lift (mem_read m 4100 (MGMT_BUFFSIZE + PADDING));
      i ← lift (initState (MkInput read_buf_raw MGMT_BUFFSIZE 0 0 0 0 0 0 0 0));
      a ← gets w_next;
      modify (lput next_lens (a + 1)%Z);;
      modify (fun w => lput mgmt_lens
        (<[a := MgmtClient sock (buffer_init MGMT_BUFFSIZE write_buf_raw)
                  (buffer_init MGMT_BUFFSIZE pending_buf_raw) i false]> (w_mgmt w)) w);;
      mret (Some a)
  end.

Definition mgmt_master_read_handler (key : selector_key) : M (world E) unit :=
  room ← on_state add_mgmt_client;
  if negb room then mret tt
  else
    new_socket ← sys (acceptTCPConnection (key_fd key));
    if (new_socket <? 0)%Z then upd_state rm_mgmt_client
    else
      sys (selector_fd_set_nio new_socket);;
      new_client ← create_mgmt_client new_socket;
      match new_client with
      | None =>
          handle_mgmt_close (SelectorKey new_socket 0);;
          upd_state rm_mgmt_client
      | Some a =>
          c ← get_mgmt a;
          b ← lift (buffer_store (write_buf c) (respond hello).1);
          upd_mgmt a (set_write_buf b);;
          st ← do_register new_socket (Some H_mgmt) (Z.lor OP_WRITE OP_READ) a;
          when (bool_decide (st <> SELECTOR_SUCCESS))
            (handle_mgmt_close (SelectorKey new_socket a);;
             upd_state rm_mgmt_client)
      end.
End Mgmt.
