(* ===== verification/CloseClient.v ===== *)
(** * CloseClient: closing the ends of a connection (src/clients.c)

    [closeClient] and [enable_write], on which the handshake and the relay both
    depend. [closeClient] closes the requested ends that are still active,
    unregisters and closes a socket whose two ends are closed, propagates the
    closure to the ends that have become useless, and returns the next state of
    the connection's machine. *)

From S2P Require Import Prelude Buffer Os State Selector SelectorSpec Stm World WorldLogic.
Import Registry.

Local Open Scope Z_scope.

Section CloseClient.
Context {E : Type} `{OS E}.

(** The [handle_close] members of the structs: the SOCKS handler has none, and
    the only sockets unregistered here are SOCKS ones. *)
Context (hclose : handler_id -> option (selector_key -> M (world E) unit)).

Definition enable_write (a : Z) : M (world E) unit :=
  c ← get_client a;
  when (flag (active_ends c) CLIENT_WRITE)
    (sel_do (selector_add_interest (client_sock c) OP_WRITE);;
     sel_do (selector_unmask_interest (client_sock c) OP_WRITE));;
  when (flag (active_ends c) ORIGIN_WRITE)
    (sel_do (selector_add_interest (origin_sock c) OP_WRITE);;
     sel_do (selector_unmask_interest (client_sock c) OP_WRITE)).

(** The body of [closeClient] before its returns: [level] holds the ends to
    close, all of them active. *)
Definition close_step (a : Z) (c : client) (level : Z) : M (world E) unit :=
  when (flag level CLIENT_READ)
    (sel_do (selector_remove_interest (client_sock c) OP_READ);;
     sys (sys_shutdown (client_sock c) SHUT_RD));;
  when (flag level ORIGIN_WRITE)
    (sel_do (selector_remove_interest (origin_sock c) OP_WRITE);;
     sys (sys_shutdown (origin_sock c) SHUT_WR));;
  when (flag level CLIENT_WRITE)
    (sel_do (selector_remove_interest (client_sock c) OP_WRITE);;
     sys (sys_shutdown (client_sock c) SHUT_WR));;
  when (flag level ORIGIN_READ)
    (sel_do (selector_remove_interest (origin_sock c) OP_READ);;
     sys (sys_shutdown (origin_sock c) SHUT_RD));;
  let ends := Z.land (active_ends c) (not32 level) in
  upd_client a (set_active_ends ends);;
  when (flag level CLIENT && negb (flag ends CLIENT))
    (selector_unregister_fd hclose (client_sock c);;
     when (0 <? client_sock c) (sys (sys_close (client_sock c))));;
  when (flag level ORIGIN && negb (flag ends ORIGIN))
    (selector_unregister_fd hclose (origin_sock c);;
     when (0 <? origin_sock c) (sys (sys_close (origin_sock c)))).

(** Each recursive call passes ends that do not ask for a further one twice:
    three levels suffice (see [closeClient_correct]). *)
Fixpoint closeClient_fuel (fuel : nat) (a level : Z) : M (world E) nat :=
  match fuel with
  | O => mfault Diverge
  | S fuel' =>
      c ← get_client a;
      let level := Z.land level (active_ends c) in
      close_step a c level;;
      let ends := Z.land (active_ends c) (not32 level) in
      if flag level CLIENT_WRITE then closeClient_fuel fuel' a (Z.lor CLIENT_READ ORIGIN)
      else if flag level ORIGIN_WRITE then closeClient_fuel fuel' a CLIENT_READ
      else if ends =? 0 then mret DONE
      else if negb (flag ends (Z.lor CLIENT_READ ORIGIN_READ)) then mret WRITE_REMAINING
      else enable_write a;; c_stm_state a
  end.

Definition closeClient (a level : Z) : M (world E) nat := closeClient_fuel 3 a level.
End CloseClient.

(** ** What closing does *)

(** The ends that stay open: without its writing end towards the client the
    connection is useless, and without the one towards the origin nothing needs
    to be read from the client. *)
Definition close_ends (ends level : Z) : Z :=
  let l := Z.land level ends in
  let e := Z.land ends (not32 l) in
  if flag l CLIENT_WRITE then 0
  else if flag l ORIGIN_WRITE then Z.land e (not32 CLIENT_READ)
  else e.

(** [fd] has just lost its last end. *)
Definition released (mask ends ends' : Z) : bool := flag ends mask && negb (flag ends' mask).
Definition released_fds (c : client) (ends' : Z) : list Z :=
  (if released CLIENT (active_ends c) ends' then [client_sock c] else []) ++
  (if released ORIGIN (active_ends c) ends' then [origin_sock c] else []).

Definition close_next (st : nat) (ends : Z) : nat :=
  if ends =? 0 then DONE
  else if negb (flag ends (Z.lor CLIENT_READ ORIGIN_READ)) then WRITE_REMAINING
  else st.

(** ** The steps of closing *)

(** The two sockets of a connection. *)
Inductive side := Cl | Or.
Definition sock_of (c : client) (s : side) : Z := match s with Cl => client_sock c | Or => origin_sock c end.

(** One direction of a socket is closed; a socket without directions left is
    released; writing is asked for, on the socket [s]. *)
Inductive act := Shut (s : side) (h : shut) | Release (s : side) | WantWrite (s : side).

#[global] Instance side_eq_dec : EqDecision side.
Proof. solve_decision. Defined.
#[global] Instance shut_eq_dec : EqDecision shut.
Proof. solve_decision. Defined.
#[global] Instance act_eq_dec : EqDecision act.
Proof. solve_decision. Defined.

(** What a step does to the registrations. Asking for writing on either socket
    unmasks the one of the client, as the source does. *)
Definition act_ops (c : client) (x : act) : list (op handler_id) :=
  match x with
  | Shut s SHUT_RD => [RemoveInterest (sock_of c s) OP_READ]
  | Shut s SHUT_WR => [RemoveInterest (sock_of c s) OP_WRITE]
  | Release s => [Unregister (sock_of c s)]
  | WantWrite s => [AddInterest (sock_of c s) OP_WRITE; UnmaskInterest (client_sock c) OP_WRITE]
  end.

(** What the kernel is asked. *)
Definition act_evs (c : client) (x : act) : list event :=
  match x with
  | Shut s h => [EvShutdown (sock_of c s) h]
  | Release s => if 0 <? sock_of c s then [EvClose (sock_of c s)] else []
  | WantWrite _ => []
  end.

(** The steps for the ends [l], when [e] are those left. *)
Definition close_these (l e : Z) : list act :=
  (if flag l CLIENT_READ then [Shut Cl SHUT_RD] else []) ++
  (if flag l ORIGIN_WRITE then [Shut Or SHUT_WR] else []) ++
  (if flag l CLIENT_WRITE then [Shut Cl SHUT_WR] else []) ++
  (if flag l ORIGIN_READ then [Shut Or SHUT_RD] else []) ++
  (if flag l CLIENT && negb (flag e CLIENT) then [Release Cl] else []) ++
  (if flag l ORIGIN && negb (flag e ORIGIN) then [Release Or] else []).

Definition enable_acts (e : Z) : list act :=
  (if flag e CLIENT_WRITE then [WantWrite Cl] else []) ++
  (if flag e ORIGIN_WRITE then [WantWrite Or] else []).

(** All the steps: the requested ends that are open, then those that became
    useless, then, if something can still be read, writing what is buffered. *)
Definition close_acts (ends level : Z) : list act :=
  let l := Z.land level ends in
  let e := Z.land ends (not32 l) in
  let e' := close_ends ends level in
  close_these l e ++ close_these (Z.land e (not32 e')) e' ++
  (if flag e' (Z.lor CLIENT_READ ORIGIN_READ) then enable_acts e' else []).

Definition close_event (ev : event) : Prop :=
  match ev with EvClose _ | EvShutdown _ _ => True | _ => False end.

Lemma close_events_quiet evs t fd :
  Forall close_event evs -> received fd (evs ++ t) = received fd t /\ sent fd (evs ++ t) = sent fd t.
Proof. induction 1 as [|[] evs He _ IH]; simpl; done. Qed.

(** The recursion of [closeClient] on the ends alone: those left, and the
    steps; [None] when the fuel runs out. *)
Fixpoint close_model (fuel : nat) (ends level : Z) : option (Z * list act) :=
  match fuel with
  | O => None
  | S fuel' =>
      let l := Z.land level ends in
      let e := Z.land ends (not32 l) in
      let more lv := '(e', acts) ← close_model fuel' e lv; Some (e', close_these l e ++ acts) in
      if flag l CLIENT_WRITE then more (Z.lor CLIENT_READ ORIGIN)
      else if flag l ORIGIN_WRITE then more CLIENT_READ
      else Some (e, close_these l e ++
                    (if flag e (Z.lor CLIENT_READ ORIGIN_READ) then enable_acts e else []))
  end.

(** A property of every combination of ends. *)
Lemma all_ends (P : Z -> Z -> bool) :
  forallb (fun n => forallb (fun m => P (Z.of_nat n) (Z.of_nat m)) (seq 0 16)) (seq 0 16) = true ->
  forall ends level, 0 <= ends < 16 -> 0 <= level < 16 -> P ends level = true.
Proof.
  intros Hall ends level He Hl.
  rewrite forallb_forall in Hall. specialize (Hall (Z.to_nat ends) ltac:(apply in_seq; lia)).
  rewrite forallb_forall in Hall. specialize (Hall (Z.to_nat level) ltac:(apply in_seq; lia)).
  by rewrite !Z2Nat.id in Hall by lia.
Qed.

(** Three levels are enough, and lead to the ends of [close_ends] by the steps
    of [close_acts]. *)
Lemma close_model_3 ends level :
  0 <= ends < 16 -> 0 <= level < 16 ->
  close_model 3 ends level = Some (close_ends ends level, close_acts ends level).
Proof.
  intros He Hl. apply (proj1 (bool_decide_eq_true _)). revert ends level He Hl. apply all_ends. vm_compute. reflexivity.
Qed.

(** Each socket is released exactly when it loses its last end. *)
Lemma close_acts_release s ends level :
  0 <= ends < 16 -> 0 <= level < 16 ->
  Release s ∈ close_acts ends level <->
  released (match s with Cl => CLIENT | Or => ORIGIN end) ends (close_ends ends level) = true.
Proof.
  intros He Hl. rewrite <- (bool_decide_eq_true (Release s ∈ _)).
  assert (Heq : bool_decide (bool_decide (Release s ∈ close_acts ends level) =
    released (match s with Cl => CLIENT | Or => ORIGIN end) ends (close_ends ends level)) = true).
  { revert ends level He Hl. apply all_ends. destruct s; vm_compute; reflexivity. }
  apply bool_decide_eq_true in Heq. by rewrite Heq.
Qed.

Lemma close_ends_range ends level :
  0 <= ends < 16 -> 0 <= level < 16 -> 0 <= close_ends ends level < 16.
Proof.
  intros He Hl. apply (proj1 (bool_decide_eq_true (0 <= close_ends ends level < 16))).
  revert ends level He Hl. apply all_ends. vm_compute. reflexivity.
Qed.

(** The sockets, which are all the steps depend on. *)
Definition same_socks (c c' : client) : Prop :=
  client_sock c' = client_sock c /\ origin_sock c' = origin_sock c.

Lemma act_ops_same c c' x : same_socks c c' -> act_ops c' x = act_ops c x.
Proof. intros [Ec Eo]. destruct x as [[] []|[]|[]]; simpl; by rewrite ?Ec, ?Eo. Qed.

Lemma act_evs_same c c' x : same_socks c c' -> act_evs c' x = act_evs c x.
Proof. intros [Ec Eo]. destruct x as [[] []|[]|[]]; simpl; by rewrite ?Ec, ?Eo. Qed.

(** The sockets released by steps. *)
Definition released_by (c : client) (acts : list act) : list Z :=
  unregistered (concat (map (act_ops c) acts)).

Lemma elem_of_released_by c acts fd :
  fd ∈ released_by c acts <-> exists s, Release s ∈ acts /\ fd = sock_of c s.
Proof.
  unfold released_by, unregistered. induction acts as [|x acts IH]; cbn [map concat].
  - cbn. set_solver.
  - rewrite omap_app, elem_of_app, IH.
    destruct x as [s []|s|s]; cbn; set_solver.
Qed.

Lemma acts_no_register c acts : Forall no_register (concat (map (act_ops c) acts)).
Proof.
  induction acts as [|x acts IH]; [constructor|]. cbn [map concat]. apply Forall_app. split; [|done].
  destruct x as [s []|s|s]; repeat constructor.
Qed.

Lemma acts_close_events c acts : Forall close_event (rev (concat (map (act_evs c) acts))).
Proof.
  apply Forall_rev. induction acts as [|x acts IH]; [constructor|]. cbn [map concat].
  apply Forall_app. split; [|done].
  destruct x as [s h|s|s]; cbn [act_evs]; [by repeat constructor|case_match; by repeat constructor|constructor].
Qed.

Lemma released_acts c ends level fd :
  0 <= ends < 16 -> 0 <= level < 16 -> active_ends c = ends ->
  fd ∈ released_by (set_active_ends (close_ends ends level) c) (close_acts ends level) <->
  fd ∈ released_fds c (close_ends ends level).
Proof.
  intros He Hl Ha. rewrite elem_of_released_by. setoid_rewrite (fun s => close_acts_release s ends level He Hl).
  unfold released_fds. rewrite Ha, elem_of_app. split.
  - intros ([] & -> & ->); [left|right]; apply list_elem_of_here.
  - intros [Hin|Hin]; [exists Cl|exists Or]; simpl;
      (match type of Hin with context [if ?b then _ else _] => destruct b end);
      (apply list_elem_of_singleton in Hin || apply not_elem_of_nil in Hin); done.
Qed.

Section Spec.
Context {E : Type} `{OS E}.
Context (hclose : handler_id -> option (selector_key -> M (world E) unit)).
Context (Hsocks : hclose H_socks5 = None).
Implicit Types (w : world E).

(** The connection at [a] becomes [c'] by the steps [acts]: nothing else changes
    than its struct, the registrations and what the kernel was asked, in that
    order. *)
Record closing (a : Z) (c' : client) (acts : list act) w w' : Prop := {
  cl_clients : w_clients w' = <[a := c']> (w_clients w);
  cl_rest : rest_same w w';
  cl_sel : runs (w_sel w) (concat (map (act_ops c') acts)) (w_sel w');
  cl_trace : io_trace (w_io w') = rev (concat (map (act_evs c') acts)) ++ io_trace (w_io w)
}.

Lemma closing_refl a c w : w_clients w !! a = Some c -> sel_ok (w_sel w) -> closing a c [] w w.
Proof. intros Hc Hs. split; [by rewrite insert_id|done|by apply runs_refl|done]. Qed.

Lemma closing_trans a c1 c2 l1 l2 w w1 w2 :
  same_socks c1 c2 -> closing a c1 l1 w w1 -> closing a c2 l2 w1 w2 -> closing a c2 (l1 ++ l2) w w2.
Proof.
  intros Hsame [Hc1 Hr1 Hs1 Ht1] [Hc2 Hr2 Hs2 Ht2].
  assert (Eo : map (act_ops c1) l1 = map (act_ops c2) l1)
    by (apply map_ext; intros x; symmetry; by apply act_ops_same).
  assert (Ee : map (act_evs c1) l1 = map (act_evs c2) l1)
    by (apply map_ext; intros x; symmetry; by apply act_evs_same).
  split.
  - by rewrite Hc2, Hc1, insert_insert_eq.
  - unfold rest_same in *. intuition congruence.
  - rewrite map_app, concat_app. eapply runs_trans; [|exact Hs2]. by rewrite <- Eo.
  - by rewrite map_app, concat_app, rev_app_distr, <- app_assoc, <- Ee, <- Ht1.
Qed.

Lemma closing_reg a c l w w' fd :
  closing a c l w w' -> reg (w_sel w') fd = if decide (fd ∈ released_by c l) then None else reg (w_sel w) fd.
Proof. intros Hc. apply runs_reg; [apply acts_no_register|apply Hc]. Qed.

Lemma closing_progress a c' acts fds w w' :
  closing a c' acts w w' -> (forall fd, fd ∈ released_by c' acts <-> fd ∈ fds) ->
  progress a c' fds (rev (concat (map (act_evs c') acts))) w w'.
Proof.
  intros Hcl Hfds. pose proof Hcl as [Hc Hr Hs Ht]. split; try done.
  - by eapply runs_ok.
  - intros fd. rewrite (closing_reg _ _ _ _ _ fd Hcl). specialize (Hfds fd). repeat case_decide; tauto.
Qed.

Lemma closing_lookup a c l w w' : closing a c l w w' -> w_clients w' !! a = Some c.
Proof. intros Hc. by rewrite (cl_clients _ _ _ _ _ Hc), lookup_insert_eq. Qed.

Lemma closing_ok a c l w w' : closing a c l w w' -> sel_ok (w_sel w').
Proof. intros Hc. eapply runs_ok, Hc. Qed.

Lemma socks_fd_closing a c l w w' fd : closing a c l w w' -> socks_fd w fd -> socks_fd w' fd.
Proof. intros Hc Hf h d. rewrite (closing_reg _ _ _ _ _ _ Hc). case_decide; [done|]. apply Hf. Qed.

(** ** The code performs the steps *)

Lemma wp_shut a c s h w (Q : unit -> world E -> Prop) :
  w_clients w !! a = Some c -> sel_ok (w_sel w) ->
  (forall w', closing a c [Shut s h] w w' -> Q tt w') ->
  wp (sel_do (selector_remove_interest (sock_of c s) (match h with SHUT_RD => OP_READ | SHUT_WR => OP_WRITE end));;
      sys (sys_shutdown (sock_of c s) h)) Q w.
Proof.
  intros Hc Hs HQ. apply wp_bind.
  apply (wp_sel_step _ (RemoveInterest (sock_of c s) (match h with SHUT_RD => OP_READ | SHUT_WR => OP_WRITE end)));
    [done|done|]. intros s' Hs'.
  apply wp_shutdown. intros t Ht. apply HQ. split; simpl; try done.
  - by rewrite insert_id.
  - by destruct h.
Qed.

Lemma wp_release a c s w (Q : unit -> world E -> Prop) :
  w_clients w !! a = Some c -> sel_ok (w_sel w) -> socks_fd w (sock_of c s) ->
  (forall w', closing a c [Release s] w w' -> Q tt w') ->
  wp (selector_unregister_fd hclose (sock_of c s);; when (0 <? sock_of c s) (sys (sys_close (sock_of c s)))) Q w.
Proof.
  intros Hc Hs Hf HQ. apply wp_bind. apply wp_unregister; [done|by intros h d ->%Hf|].
  intros st s' Hs'. apply wp_when; intros Hpos.
  - apply wp_close. intros t Ht. apply HQ. split; simpl; try done.
    + by rewrite insert_id.
    + rewrite Hpos. done.
  - apply HQ. split; simpl; try done.
    + by rewrite insert_id.
    + by rewrite Hpos.
Qed.

Lemma wp_want a c s w (Q : unit -> world E -> Prop) :
  w_clients w !! a = Some c -> sel_ok (w_sel w) ->
  (forall w', closing a c [WantWrite s] w w' -> Q tt w') ->
  wp (sel_do (selector_add_interest (sock_of c s) OP_WRITE);;
      sel_do (selector_unmask_interest (client_sock c) OP_WRITE)) Q w.
Proof.
  intros Hc Hs HQ. apply wp_bind, (wp_sel_step _ (AddInterest (sock_of c s) OP_WRITE)); [done|done|].
  intros s1 Hs1. apply (wp_sel_step _ (UnmaskInterest (client_sock c) OP_WRITE)); [done|by eapply runs_ok|].
  intros s2 Hs2. apply HQ. split; simpl; try done.
  - by rewrite insert_id.
  - exact (runs_trans _ [_] _ [_] _ Hs1 Hs2).
Qed.

(** A guarded step. *)
Lemma wp_when_closing (b : bool) a c l w (m : M (world E) unit) (Q : unit -> world E -> Prop) :
  w_clients w !! a = Some c -> sel_ok (w_sel w) ->
  (b = true -> (forall w', closing a c l w w' -> Q tt w') -> wp m Q w) ->
  (forall w', closing a c (if b then l else []) w w' -> Q tt w') ->
  wp (when b m) Q w.
Proof.
  intros Hc Hs Hm HQ. apply wp_when; intros ->.
  - by apply Hm.
  - apply HQ. by apply closing_refl.
Qed.

(** The next guarded step, after the steps of [Hpre]. *)
Ltac next_step Hpre a c x :=
  apply wp_bind, (wp_when_closing _ a c [x]);
  [eapply closing_lookup, Hpre|eapply closing_ok, Hpre|..].

Lemma wp_close_step a c level w (Q : unit -> world E -> Prop) :
  w_clients w !! a = Some c -> sel_ok (w_sel w) ->
  socks_fd w (client_sock c) -> socks_fd w (origin_sock c) ->
  let ends := Z.land (active_ends c) (not32 level) in
  (forall w', closing a (set_active_ends ends c) (close_these level ends) w w' -> Q tt w') ->
  wp (close_step hclose a c level) Q w.
Proof.
  intros Hc Hs Hcf Hof ends HQ. unfold close_step. fold ends.
  assert (Hsame : same_socks c c) by done. pose proof (closing_refl a c w Hc Hs) as H0.
  next_step H0 a c (Shut Cl SHUT_RD).
  { intros _ HQ'. by apply (wp_shut a c Cl SHUT_RD). }
  intros w1 H1. next_step H1 a c (Shut Or SHUT_WR).
  { intros _ HQ'. apply (wp_shut a c Or SHUT_WR); [by eapply closing_lookup|by eapply closing_ok|done]. }
  intros w2 H2. pose proof (closing_trans _ _ _ _ _ _ _ _ Hsame H1 H2) as H3. clear H1 H2.
  next_step H3 a c (Shut Cl SHUT_WR).
  { intros _ HQ'. apply (wp_shut a c Cl SHUT_WR); [by eapply closing_lookup|by eapply closing_ok|done]. }
  intros w3 H4. pose proof (closing_trans _ _ _ _ _ _ _ _ Hsame H3 H4) as H5. clear H3 H4.
  next_step H5 a c (Shut Or SHUT_RD).
  { intros _ HQ'. apply (wp_shut a c Or SHUT_RD); [by eapply closing_lookup|by eapply closing_ok|done]. }
  intros w4 H6. pose proof (closing_trans _ _ _ _ _ _ _ _ Hsame H5 H6) as H7. clear H5 H6.
  apply wp_bind. eapply wp_upd_client; [by eapply closing_lookup|].
  set (c' := set_active_ends ends c). set (w5 := lput _ _ w4).
  assert (H8 : closing a c' [] w4 w5)
    by (split; [done|done|exact (runs_refl _ (closing_ok _ _ _ _ _ H7))|done]).
  assert (Hsame' : same_socks c c') by done. assert (Hsame'' : same_socks c' c') by done.
  pose proof (closing_trans _ _ _ _ _ _ _ _ Hsame' H7 H8) as H9. clear H7 H8.
  next_step H9 a c' (Release Cl).
  { intros _ HQ'. apply (wp_release a c' Cl); [by eapply closing_lookup|by eapply closing_ok| |done].
    eapply socks_fd_closing; [exact H9|exact Hcf]. }
  intros w6 H10. pose proof (closing_trans _ _ _ _ _ _ _ _ Hsame'' H9 H10) as H11. clear H9 H10.
  apply (wp_when_closing _ a c' [Release Or]); [by eapply closing_lookup|by eapply closing_ok|..].
  { intros _ HQ'. apply (wp_release a c' Or); [by eapply closing_lookup|by eapply closing_ok| |done].
    eapply socks_fd_closing; [exact H11|exact Hof]. }
  intros w7 H12. apply HQ. pose proof (closing_trans _ _ _ _ _ _ _ _ Hsame'' H11 H12) as H13.
  rewrite app_nil_r, <- !app_assoc in H13. exact H13.
Qed.

Lemma wp_enable_write a c w (Q : unit -> world E -> Prop) :
  w_clients w !! a = Some c -> sel_ok (w_sel w) ->
  (forall w', closing a c (enable_acts (active_ends c)) w w' -> Q tt w') -> wp (enable_write a) Q w.
Proof.
  intros Hc Hs HQ. unfold enable_write. apply wp_bind. eapply wp_get_client; [done|].
  pose proof (closing_refl a c w Hc Hs) as H0. next_step H0 a c (WantWrite Cl).
  { intros _ HQ'. by apply (wp_want a c Cl). }
  intros w1 H1.
  apply (wp_when_closing _ a c [WantWrite Or]); [by eapply closing_lookup|by eapply closing_ok|..].
  { intros _ HQ'. apply (wp_want a c Or); [by eapply closing_lookup|by eapply closing_ok|done]. }
  intros w2 H2. apply HQ. by eapply closing_trans.
Qed.

Lemma wp_closeClient_fuel fuel a c level w st e acts :
  w_clients w !! a = Some c -> sel_ok (w_sel w) ->
  socks_fd w (client_sock c) -> socks_fd w (origin_sock c) ->
  stm_state socks5_state_ids (c_stm c) = Done st ->
  close_model fuel (active_ends c) level = Some (e, acts) ->
  wp (closeClient_fuel hclose fuel a level)
    (fun n w' => n = close_next st e /\ closing a (set_active_ends e c) acts w w') w.
Proof.
  revert c level w e acts. induction fuel as [|fuel IH]; [done|].
  intros c level w e acts Hc Hs Hcf Hof Hst Hm. simpl in Hm. cbn [closeClient_fuel].
  apply wp_bind. eapply wp_get_client; [done|]. cbv zeta.
  set (l := Z.land level (active_ends c)) in *. set (e1 := Z.land (active_ends c) (not32 l)) in *.
  apply wp_bind, wp_close_step; try done. fold e1. intros w1 H1.
  assert (Hmore : forall lv,
    ('(e', acts) ← close_model fuel e1 lv; Some (e', close_these l e1 ++ acts)) = Some (e, acts) ->
    wp (closeClient_fuel hclose fuel a lv)
       (fun n w' => n = close_next st e /\ closing a (set_active_ends e c) acts w w') w1).
  { intros lv Hlv. destruct (close_model fuel e1 lv) as [[e' acts']|] eqn:E'; [|done]. injection Hlv as -> <-.
    eapply wp_mono; [apply (IH (set_active_ends e1 c) lv w1 e acts')|]; try done.
    - by eapply closing_lookup.
    - by eapply closing_ok.
    - by eapply socks_fd_closing.
    - by eapply socks_fd_closing.
    - intros n w' [-> H2]. split; [done|]. eapply closing_trans; [|exact H1|exact H2]. done. }
  destruct (flag l CLIENT_WRITE); [by apply Hmore|].
  destruct (flag l ORIGIN_WRITE); [by apply Hmore|]. clear Hmore. injection Hm as <- <-.
  unfold close_next. destruct (Z.eqb_spec e1 0) as [Hz|Hz].
  { apply wp_ret. rewrite Hz in *. change (flag 0 (Z.lor CLIENT_READ ORIGIN_READ)) with false.
    by rewrite app_nil_r. }
  destruct (flag e1 (Z.lor CLIENT_READ ORIGIN_READ)); cbn [negb];
    [|apply wp_ret; by rewrite app_nil_r].
  apply wp_bind. apply (wp_enable_write a (set_active_ends e1 c));
    [by eapply closing_lookup|by eapply closing_ok|]. intros w2 H2.
  unfold c_stm_state. apply wp_bind. eapply wp_get_client; [by eapply closing_lookup|].
  eapply wp_lift; [exact Hst|]. split; [done|]. eapply closing_trans; [|exact H1|exact H2]. done.
Qed.

Lemma wp_closeClient a level c w st (Q : nat -> world E -> Prop) :
  w_clients w !! a = Some c -> sel_ok (w_sel w) ->
  socks_fd w (client_sock c) -> socks_fd w (origin_sock c) ->
  stm_state socks5_state_ids (c_stm c) = Done st ->
  0 <= active_ends c < 16 -> 0 <= level < 16 ->
  (forall w', closing a (set_active_ends (close_ends (active_ends c) level) c)
     (close_acts (active_ends c) level) w w' ->
     Q (close_next st (close_ends (active_ends c) level)) w') ->
  wp (closeClient hclose a level) Q w.
Proof.
  intros Hc Hs Hcf Hof Hst He Hl HQ. unfold closeClient.
  eapply wp_mono.
  { eapply wp_closeClient_fuel; try done. by apply close_model_3. }
  intros n w' [-> Hcl]. by apply HQ.
Qed.

(** C12. [closeClient] always returns. It performs exactly the steps of
    [close_acts], in that order: each requested end that was open, and then each
    end that became useless, loses its interest in the selector and is shut down
    in its direction on its socket; a socket that has lost both ends, and only
    then, is unregistered and closed; and, while something can still be read,
    writing is asked for on the ends that can write. The ends left are those of
    [close_ends], no other connection or registration is touched, and the state
    returned is the one the ends left call for. *)
Theorem closeClient_correct (a level : Z) (c : client) (w : world E) (st : nat) :
  w_clients w !! a = Some c -> sel_ok (w_sel w) ->
  socks_fd w (client_sock c) -> socks_fd w (origin_sock c) ->
  stm_state socks5_state_ids (c_stm c) = Done st ->
  0 <= active_ends c < 16 -> 0 <= level < 16 ->
  let ends := close_ends (active_ends c) level in
  exists w', closeClient hclose a level w = Done (close_next st ends, w') /\
    closing a (set_active_ends ends c) (close_acts (active_ends c) level) w w' /\
    forall fd, reg (w_sel w') fd = if decide (fd ∈ released_fds c ends) then None else reg (w_sel w) fd.
Proof.
  intros Hc Hs Hcf Hof Hst He Hl ends.
  apply (wp_closeClient a level c w st
    (fun n w' => n = close_next st ends /\
       closing a (set_active_ends ends c) (close_acts (active_ends c) level) w w')) in Hst as Hw; try done.
  apply wp_inv in Hw as (n & w' & Hr & -> & Hcl). exists w'. split; [done|]. split; [done|].
  intros fd. rewrite (closing_reg _ _ _ _ _ fd Hcl).
  pose proof (released_acts c _ level fd He Hl eq_refl). repeat case_decide; tauto.
Qed.
End Spec.

Lemma closeClient_correct_witness :
  let b := buffer_init 16 (repeat NUL 16) in
  let c := sample_client PROXY (Z.lor CLIENT ORIGIN) b b in
  let w := sample_world [] c in
  w_clients w !! 1 = Some c /\ sel_ok (w_sel w) /\
  exists w', closeClient (fun _ => None) 1 ORIGIN_WRITE w = Done (PROXY, w') /\
    active_ends <$> w_clients w' !! 1 = Some (Z.lor ORIGIN_READ CLIENT_WRITE).
Proof.
  intros b c w.
  assert (H1 : w_clients w !! 1 = Some c) by reflexivity.
  pose proof (sample_sel [] c) as H2.
  assert (H3 : forall fd, socks_fd w fd)
    by (intros fd h d; unfold w; rewrite (sample_reg [] c fd); discriminate).
  split_and!; [exact H1|exact H2|].
  destruct (closeClient_correct (fun _ => None) eq_refl 1 ORIGIN_WRITE c w PROXY H1 H2
    (H3 _) (H3 _) eq_refl) as (w' & E & Hc & _); [vm_compute; split; [discriminate|reflexivity]..|].
  exists w'. split; [exact E|]. rewrite (cl_clients _ _ _ _ _ Hc). vm_compute. reflexivity.
Defined.
