(* ===== verification/Handshake.v ===== *)
(** * Handshake: src/handshake.c and include/handshake.h

    The SOCKS5 negotiation: method selection, username/password authentication
    and the request. The three handlers read what is available into the buffer
    towards the origin, wait while the message is incomplete, consume exactly
    one message and answer through the buffer towards the client. [a] is the
    address of the connection's struct, [key->data]. *)

From S2P Require Import Prelude Buffer Os SocketsIO State Users Selector Stm World Util CloseClient.

Local Open Scope Z_scope.

Definition server_version : byte := Byte.x05.
Definition plain_auth_version : byte := Byte.x01.
Definition EMPTY_IP : list byte := [Byte.x00; Byte.x00; Byte.x00; Byte.x00].

(** [enum cmd] *)
Definition CONNECT : Z := 1.

(** A 16-bit load and store (little-endian host). *)
Definition load16 (m : list byte) (off : nat) : outcome Z :=
  lo ← mem_get m off; hi ← mem_get m (off + 1); mret (Zb lo + 256 * Zb hi).
Definition bytes16 (z : Z) : list byte := [byte_of (z mod 256); byte_of (z / 256)].

Section Handshake.
Context {E : Type} `{OS E}.
Context (hclose : handler_id -> option (selector_key -> M (world E) unit)).

(** An update of a buffer of the connection. *)
Definition on_client_buf (a : Z) (f : buffer -> outcome buffer) : M (world E) unit :=
  c ← get_client a; b ← lift (f (client_buf c)); upd_client a (set_client_buf b).
Definition on_origin_buf (a : Z) (f : buffer -> outcome buffer) : M (world E) unit :=
  c ← get_client a; b ← lift (f (origin_buf c)); upd_client a (set_origin_buf b).

Definition simple_reply (version method : byte) (a : Z) : M (world E) unit :=
  on_client_buf a (fun b => buffer_write b version);;
  on_client_buf a (fun b => buffer_write b method).

(** [read_from_sock] into a buffer of the connection, and [write_to_sock] from
    one: the socket and the buffer are members of the struct. *)
Definition recv_into (sock : client -> Z) (buf : client -> buffer)
    (set_buf : buffer -> client -> client) (a : Z) : M (world E) Z :=
  c ← get_client a;
  '(n, b) ← sys (read_from_sock (sock c) (buf c));
  upd_client a (set_buf b);;
  mret n.
Definition send_from (sock : client -> Z) (buf : client -> buffer)
    (set_buf : buffer -> client -> client) (a : Z) : M (world E) Z :=
  c ← get_client a;
  '(n, b) ← sys (write_to_sock (sock c) (buf c));
  upd_client a (set_buf b);;
  mret n.

Definition recv_client : Z -> M (world E) Z := recv_into client_sock origin_buf set_origin_buf.
Definition recv_origin : Z -> M (world E) Z := recv_into origin_sock client_buf set_client_buf.
Definition send_client : Z -> M (world E) Z := send_from client_sock client_buf set_client_buf.
Definition send_origin : Z -> M (world E) Z := send_from origin_sock origin_buf set_origin_buf.

Definition server_reply (a reply atyp : Z) (addr : list byte) (port : Z) : M (world E) unit :=
  c ← get_client a;
  line ← lift (log_access_info c reply);
  sys (emit (EvLog line));;
  on_client_buf a (fun b => buffer_write b server_version);;
  on_client_buf a (fun b => buffer_write b (byte_of reply));;
  on_client_buf a (fun b => buffer_write b (byte_of 0));;
  on_client_buf a (fun b => buffer_write b (byte_of atyp));;
  c ← get_client a;
  '(space, _) ← lift (buffer_write_ptr (client_buf c));
  addrLen ← lift (if atyp =? ATYP_IPV4 then mret 4%nat
                  else if atyp =? ATYP_IPV6 then mret 16%nat
                  else if atyp =? ATYP_DOMAIN_NAME then mret (length (cstr addr))
                  else Fault Undefined);
  if (space <? addrLen + 2)%nat then mret tt
  else
    src ← lift (mem_read addr 0 addrLen);
    on_client_buf a (fun b => buffer_store b src);;
    on_client_buf a (fun b => buffer_store b (bytes16 port)).

(** The replies without an address. *)
Definition empty_reply (a reply : Z) : M (world E) unit :=
  server_reply a reply ATYP_IPV4 EMPTY_IP 0.

(** ** Method selection *)

(** The loop over the offered methods, from offset [off] of the area: the first
    one the server takes, which depends on whether there are users. *)
Fixpoint choose_method (m : list byte) (off n nUsers : nat) : outcome (option byte) :=
  match n with
  | O => mret None
  | S n' =>
      k ← mem_get m off;
      if (Zb k =? 0) && (nUsers =? 0)%nat then mret (Some Byte.x00)
      else if (Zb k =? 2) && negb (nUsers =? 0)%nat then mret (Some Byte.x02)
      else choose_method m (off + 1) n' nUsers
  end.

Definition read_auth_method (key : selector_key) : M (world E) nat :=
  let a := key_data key in
  c ← get_client a;
  massert (client_sock c =? key_fd key);;
  bytes_read ← recv_client a;
  eof ← sys (checkEOF bytes_read);
  if (eof : bool) then closeClient hclose a CLIENT_READ
  else
    c ← get_client a;
    '(availableBytes, readBuffer) ← lift (buffer_read_ptr (origin_buf c));
    if (availableBytes <? 2)%nat then c_stm_state a
    else
      nMethods ← lift (mem_get (b_data (origin_buf c)) (readBuffer + 1));
      if (availableBytes <? Z.to_nat (Zb nMethods) + 2)%nat then c_stm_state a
      else
        version ← lift (mem_get (b_data (origin_buf c)) readBuffer);
        on_origin_buf a (fun b => buffer_read_adv b (Zb nMethods + 2));;
        c ← get_client a;
        nUsers ← gets (fun w => (get_users (w_users w)).1);
        method ← (if bool_decide (version = server_version)
                  then lift (choose_method (b_data (origin_buf c)) (readBuffer + 2)
                               (Z.to_nat (Zb nMethods)) nUsers)
                  else mret None);
        match method with
        | Some k =>
            simple_reply server_version k a;;
            sel_do (selector_add_interest (client_sock c) OP_WRITE);;
            mret (if bool_decide (k = Byte.x00) then REQUEST else PLAIN_AUTH)
        | None =>
            simple_reply server_version Byte.xff a;;
            closeClient hclose a CLIENT_READ
        end.

(** ** Username and password *)

Definition read_plain_auth (key : selector_key) : M (world E) nat :=
  let a := key_data key in
  c ← get_client a;
  massert (client_sock c =? key_fd key);;
  bytes_read ← recv_client a;
  eof ← sys (checkEOF bytes_read);
  if (eof : bool) then closeClient hclose a CLIENT_READ
  else
    c ← get_client a;
    '(availableBytes, readBuffer) ← lift (buffer_read_ptr (origin_buf c));
    if (availableBytes <? 2)%nat then c_stm_state a
    else
      let m := b_data (origin_buf c) in
      userLen ← lift (mem_get m (readBuffer + 1));
      let ulen := Z.to_nat (Zb userLen) in
      if (availableBytes <? 2 + ulen)%nat then c_stm_state a
      else
        version ← lift (mem_get m readBuffer);
        passLen ← lift (mem_get m (readBuffer + 2 + ulen));
        let plen := Z.to_nat (Zb passLen) in
        if (availableBytes <? 3 + ulen + plen)%nat then c_stm_state a
        else
          on_origin_buf a (fun b => buffer_read_adv b (3 + Zb userLen + Zb passLen));;
          if bool_decide (version <> plain_auth_version) then
            simple_reply plain_auth_version Byte.xff a;;
            closeClient hclose a CLIENT_READ
          else
            c ← get_client a;
            let m := b_data (origin_buf c) in
            user ← lift (mem_read m (readBuffer + 2) ulen);
            socks_user ← lift (mem_write (socks_user c) 0 user);
            socks_user ← lift (mem_write socks_user ulen [NUL]);
            upd_client a (set_socks_user socks_user);;
            pass ← lift (mem_read m (readBuffer + 3 + ulen) plen);
            users ← gets w_users;
            if try_credentials socks_user (pass ++ [NUL]) users then
              simple_reply plain_auth_version Byte.x00 a;;
              sel_do (selector_add_interest (client_sock c) OP_WRITE);;
              mret REQUEST
            else
              simple_reply plain_auth_version Byte.x01 a;;
              closeClient hclose a CLIENT_READ.

(** ** The request *)

(** The length of the address field, from the type and the first byte of the
    field; [None] for a type that is not supported. *)
Definition request_addrLen (atyp : Z) (first : byte) : option nat :=
  if atyp =? ATYP_IPV4 then Some 4%nat
  else if atyp =? ATYP_IPV6 then Some 16%nat
  else if atyp =? ATYP_DOMAIN_NAME then Some (1 + Z.to_nat (Zb first))%nat
  else None.

(** The two allocations of the address branches and the node they build. When
    the second fails the first is freed but [c->curr_addr] keeps its address,
    and the reply that follows logs through it. *)
Definition connect_numeric (a : Z) (f : family) (ip : list byte) (port : Z) : M (world E) nat :=
  n1 ← sys (sys_malloc 48);
  match n1 with
  | None =>
      upd_client a (set_curr_addr []);;
      empty_reply a REPLY_SERVER_FAILURE;;
      closeClient hclose a CLIENT_READ
  | Some _ =>
      n2 ← sys (sys_malloc (match f with AF_INET => 16 | _ => 28 end));
      match n2 with
      | None => mfault Undefined
      | Some _ =>
          upd_client a (set_curr_addr [Addrinfo f (Sockaddr f ip port)]);;
          mret CONNECTING
      end
  end.

(** The end of the handler, for a [CONNECT] whose fields start at [readBuffer]:
    the destination is recorded in the connection, as the name to resolve or as
    the address to connect to. *)
Definition request_destination (a : Z) (c : client) (readBuffer addrLen : nat) (atyp : Z)
    : M (world E) nat :=
  let m := b_data (origin_buf c) in
  sel_do (selector_remove_interest (client_sock c) OP_READ);;
  port ← lift (load16 m (readBuffer + 4 + addrLen));
  if atyp =? ATYP_DOMAIN_NAME then
    area ← sys (sys_malloc addrLen);
    match area with
    | None =>
        upd_client a (set_dest None (dest_port c));;
        empty_reply a REPLY_SERVER_FAILURE;;
        closeClient hclose a CLIENT_READ
    | Some area =>
        name ← lift (mem_read m (readBuffer + 5) (addrLen - 1));
        area ← lift (mem_write area 0 name);
        area ← lift (mem_write area (addrLen - 1) [NUL]);
        upd_client a (set_dest (Some area) port);;
        mret RESOLVING
    end
  else
    ip ← lift (mem_read m (readBuffer + 4) addrLen);
    connect_numeric a (if atyp =? ATYP_IPV4 then AF_INET else AF_INET6) ip port.

Definition read_proxy_request (key : selector_key) : M (world E) nat :=
  let a := key_data key in
  c ← get_client a;
  massert (client_sock c =? key_fd key);;
  bytes_read ← recv_client a;
  eof ← sys (checkEOF bytes_read);
  if (eof : bool) then
    empty_reply a REPLY_COMMAND_NOT_SUPPORTED;;
    closeClient hclose a CLIENT_READ
  else
    c ← get_client a;
    '(availableBytes, readBuffer) ← lift (buffer_read_ptr (origin_buf c));
    if (availableBytes <? 5)%nat then c_stm_state a
    else
      let m := b_data (origin_buf c) in
      atyp ← lift (mem_get m (readBuffer + 3));
      upd_client a (set_atyp (Zb atyp));;
      first ← lift (mem_get m (readBuffer + 4));
      match request_addrLen (Zb atyp) first with
      | None =>
          empty_reply a REPLY_ADDRESS_NOT_SUPPORTED;;
          closeClient hclose a CLIENT_READ
      | Some addrLen =>
          if (availableBytes <? 6 + addrLen)%nat then c_stm_state a
          else
            on_origin_buf a (fun b => buffer_read_adv b (Z.of_nat addrLen + 6));;
            c ← get_client a;
            let m := b_data (origin_buf c) in
            cmd ← lift (mem_get m (readBuffer + 1));
            if negb (Zb cmd =? CONNECT) then
              empty_reply a REPLY_COMMAND_NOT_SUPPORTED;;
              closeClient hclose a CLIENT_READ
            else
              request_destination a c readBuffer addrLen (Zb atyp)
      end.
End Handshake.
