(* ===== verification/HandshakeSpec.v ===== *)
(** * HandshakeSpec: the negotiation follows RFC 1928 and RFC 1929

    What each handler of the negotiation does with the bytes it has: it waits
    while its message is incomplete, consumes exactly one message, answers, and
    moves to the next state only under the policy of the server: without
    authentication when there are no users, and with the credentials of one of
    them otherwise. *)

From S2P Require Import Prelude Buffer Os SocketsIO State Users Selector SelectorSpec Stm World.
From S2P Require Import WorldLogic Util CloseClient Handshake.

Local Open Scope Z_scope.

(** ** Bytes of a buffer *)

Lemma contents_get b k x :
  buffer_wf b -> contents b !! k = Some x -> mem_get (b_data b) (b_read b + k) = Done x.
Proof.
  intros Hwf Hk. pose proof (lookup_lt_Some _ _ _ Hk) as Hl. rewrite contents_length in Hl by done.
  rewrite contents_lookup in Hk by done. unfold mem_get. by rewrite Hk.
Qed.

Lemma contents_read b k n :
  buffer_wf b -> (k + n <= length (contents b))%nat ->
  mem_read (b_data b) (b_read b + k) n = Done (take n (drop k (contents b))).
Proof.
  intros Hwf Hn. pose proof Hwf as (Hrw & Hwl & Hlen). rewrite contents_length in Hn by done.
  rewrite mem_read_Done by lia. unfold contents.
  rewrite skipn_firstn_comm, drop_drop, take_take, Nat.min_l by lia. done.
Qed.

(** ** Method selection: the message *)

(** Version, methods offered and the bytes after a complete message. *)
Definition parse_hello (l : list byte) : option (byte * list byte * list byte) :=
  match l with
  | v :: n :: l' =>
      let k := Z.to_nat (Zb n) in
      if (length l' <? k)%nat then None else Some (v, take k l', drop k l')
  | _ => None
  end.

(** The policy: no authentication exactly when there are no users. *)
Definition select_method (nUsers : nat) (ms : list byte) : option byte :=
  let m := if (nUsers =? 0)%nat then Byte.x00 else Byte.x02 in
  if decide (m ∈ ms) then Some m else None.

Lemma Zb_eqb c z : 0 <= z < 256 -> (Zb c =? z) = bool_decide (c = byte_of z).
Proof.
  intros Hz. destruct (Z.eqb_spec (Zb c) z) as [<-|Hne]; symmetry.
  - apply bool_decide_eq_true_2. by rewrite byte_of_Zb.
  - apply bool_decide_eq_false_2. intros ->. by rewrite Zb_byte_of in Hne.
Qed.

Lemma choose_method_spec m ms off nUsers :
  (forall k x, ms !! k = Some x -> mem_get m (off + k) = Done x) ->
  choose_method m off (length ms) nUsers = Done (select_method nUsers ms).
Proof.
  revert off. induction ms as [|x ms IH]; intros off Hm.
  { unfold select_method. by destruct (nUsers =? 0)%nat. }
  cbn [length choose_method]. rewrite <- (Nat.add_0_r off) at 1. rewrite (Hm 0%nat x) by done. simpl.
  assert (IH' : choose_method m (off + 1) (length ms) nUsers = Done (select_method nUsers ms)).
  { apply IH. intros k y Hk. rewrite <- Nat.add_assoc. by apply (Hm (1 + k)%nat). }
  rewrite !Zb_eqb by lia. change (byte_of 0) with Byte.x00. change (byte_of 2) with Byte.x02.
  unfold select_method in *.
  destruct (nUsers =? 0)%nat; rewrite ?andb_true_r, ?andb_false_r; cbn [negb andb].
  - case_bool_decide as Hx; [|]; simpl.
    + rewrite decide_True; [done|]. subst. apply list_elem_of_here.
    + rewrite ?andb_false_r. rewrite IH'. f_equal. repeat case_decide; set_solver.
  - case_bool_decide as Hx; simpl.
    + rewrite decide_True; [done|]. subst. apply list_elem_of_here.
    + rewrite IH'. f_equal. repeat case_decide; set_solver.
Qed.

(** ** Connections in a consistent state *)

Section Conn.
Context {E : Type} `{OSLaws E}.
Context (hclose : handler_id -> option (selector_key -> M (world E) unit)).
Context (Hsocks : hclose H_socks5 = None).
Implicit Types (w : world E).

(** The connection at [a] is [c], in state [st]; its buffers are well formed
    and its descriptors are its own kind. *)
Record conn_ok w (a : Z) (c : client) (st : nat) : Prop := {
  co_client : w_clients w !! a = Some c;
  co_sel : sel_ok (w_sel w);
  co_cs : socks_fd w (client_sock c);
  co_os : socks_fd w (origin_sock c);
  co_cbuf : buffer_wf (client_buf c);
  co_obuf : buffer_wf (origin_buf c);
  co_stm : stm_state socks5_state_ids (c_stm c) = Done st;
  co_ends : 0 <= active_ends c < 16;
  co_user : length (socks_user c) = MAX_CREDENTIALS
}.

(** The parts of a connection the steps of the negotiation keep. *)
Definition same_conn (c c' : client) : Prop :=
  client_sock c' = client_sock c /\ origin_sock c' = origin_sock c /\ c_stm c' = c_stm c.

Lemma conn_ok_progress w w' a c c' st l e :
  conn_ok w a c st -> progress a c' l e w w' -> same_conn c c' ->
  buffer_wf (client_buf c') -> buffer_wf (origin_buf c') -> 0 <= active_ends c' < 16 ->
  length (socks_user c') = MAX_CREDENTIALS -> conn_ok w' a c' st.
Proof.
  intros Hco Hp (Ec & Eo & Es) Hcb Hob He Hu. split; try done.
  - by eapply progress_lookup.
  - apply (pg_sel _ _ _ _ _ _ Hp).
  - rewrite Ec. eapply socks_fd_progress; [done|]. apply (co_cs _ _ _ _ Hco).
  - rewrite Eo. eapply socks_fd_progress; [done|]. apply (co_os _ _ _ _ Hco).
  - rewrite Es. apply (co_stm _ _ _ _ Hco).
Qed.

Lemma conn_ok_same w w' a c st l e : conn_ok w a c st -> progress a c l e w w' -> conn_ok w' a c st.
Proof. intros Hco Hp. eapply conn_ok_progress; [exact Hco|exact Hp|done|..]; apply Hco. Qed.

(** ** The pieces of the handlers *)

Lemma wp_checkEOF n w (Q : bool -> world E -> Prop) :
  Q ((n =? 0) || ((n <? 0) && negb (io_errno (w_io w) =? EAGAIN))) w -> wp (sys (checkEOF n)) Q w.
Proof. intros HQ. apply wp_sys. simpl. unfold wp. simpl. by destruct w. Qed.

Lemma wp_recv_into sock buf set_buf a c w (Q : Z -> world E -> Prop) :
  w_clients w !! a = Some c -> sel_ok (w_sel w) -> buffer_wf (buf c) ->
  (forall n b evs w', progress a (set_buf b c) [] evs w w' ->
     recv_post (sock c) (buf c) [] n b evs -> Q n w') ->
  wp (recv_into sock buf set_buf a) Q w.
Proof.
  intros Hc Hs Hb HQ. unfold recv_into. apply wp_bind. eapply wp_get_client; [exact Hc|].
  apply wp_bind, wp_sys.
  destruct (read_from_sock_spec (sock c) (buf c) (w_io w) Hb) as (n & b & i & Er & Hp).
  eapply wp_Done; [exact Er|]. cbv beta iota. apply wp_bind.
  eapply wp_upd_client; [exact Hc|]. apply wp_ret.
  destruct Hp as (Hwf & Hl & Hcase). destruct Hcase as [(-> & -> & Et)|(l & Hn & Hr & Hct & Hrm & Hrd & Et)].
  - eapply (HQ _ _ []); [by split|]. split_and!; try done. by left.
  - eapply (HQ _ _ [EvRecv (sock c) l]); [by split|]. split_and!; try done. right. by exists l.
Qed.

Lemma wp_send_from sock buf set_buf a c w (Q : Z -> world E -> Prop) :
  w_clients w !! a = Some c -> sel_ok (w_sel w) -> buffer_wf (buf c) ->
  (forall n b evs w', progress a (set_buf b c) [] evs w w' ->
     send_post (sock c) (buf c) [] n b evs -> Q n w') ->
  wp (send_from sock buf set_buf a) Q w.
Proof.
  intros Hc Hs Hb HQ. unfold send_from. apply wp_bind. eapply wp_get_client; [exact Hc|].
  apply wp_bind, wp_sys.
  destruct (write_to_sock_spec (sock c) (buf c) (w_io w) Hb) as (n & b & i & Er & Hp).
  eapply wp_Done; [exact Er|]. cbv beta iota. apply wp_bind.
  eapply wp_upd_client; [exact Hc|]. apply wp_ret.
  destruct Hp as (Hwf & Hl & Hcase). destruct Hcase as [(-> & -> & Et)|(l & Hct & Hn & Hr & Et)].
  - eapply (HQ _ _ []); [by split|]. split_and!; try done. by left.
  - eapply (HQ _ _ [EvSend (sock c) l]); [by split|]. split_and!; try done. right. by exists l.
Qed.

Lemma wp_recv_client a c st w (Q : Z -> world E -> Prop) :
  conn_ok w a c st ->
  (forall n b evs w', progress a (set_origin_buf b c) [] evs w w' ->
     recv_post (client_sock c) (origin_buf c) [] n b evs ->
     conn_ok w' a (set_origin_buf b c) st -> Q n w') ->
  wp (recv_client a) Q w.
Proof.
  intros Hco HQ. eapply wp_recv_into; try apply Hco. intros n b evs w' Hp Hr.
  eapply HQ; [exact Hp|exact Hr|].
  eapply conn_ok_progress; [exact Hco|exact Hp|done|..]; simpl; try apply Hco. apply Hr.
Qed.

Lemma wp_on_client_buf a c st f b w (Q : unit -> world E -> Prop) :
  conn_ok w a c st -> f (client_buf c) = Done b -> buffer_wf b ->
  (forall w', progress a (set_client_buf b c) [] [] w w' ->
     conn_ok w' a (set_client_buf b c) st -> Q tt w') ->
  wp (on_client_buf a f) Q w.
Proof.
  intros Hco Hf Hb HQ. apply wp_bind. eapply wp_get_client; [by apply Hco|].
  apply wp_bind. eapply wp_lift; [exact Hf|]. eapply wp_upd_client; [by apply Hco|].
  pose proof (progress_upd a (set_client_buf b c) w (co_sel _ _ _ _ Hco)) as Hp.
  apply HQ; [exact Hp|]. eapply conn_ok_progress; [exact Hco|exact Hp|done|..]; try apply Hco. done.
Qed.

Lemma wp_on_origin_buf_io a c st f b w (Q : unit -> world E -> Prop) :
  conn_ok w a c st -> f (origin_buf c) = Done b -> buffer_wf b ->
  (forall w', progress a (set_origin_buf b c) [] [] w w' -> w_io w' = w_io w ->
     conn_ok w' a (set_origin_buf b c) st -> Q tt w') ->
  wp (on_origin_buf a f) Q w.
Proof.
  intros Hco Hf Hb HQ. apply wp_bind. eapply wp_get_client; [by apply Hco|].
  apply wp_bind. eapply wp_lift; [exact Hf|]. eapply wp_upd_client; [by apply Hco|].
  pose proof (progress_upd a (set_origin_buf b c) w (co_sel _ _ _ _ Hco)) as Hp.
  apply HQ; [exact Hp|done|]. eapply conn_ok_progress; [exact Hco|exact Hp|done|..]; try apply Hco. done.
Qed.

Lemma wp_on_origin_buf a c st f b w (Q : unit -> world E -> Prop) :
  conn_ok w a c st -> f (origin_buf c) = Done b -> buffer_wf b ->
  (forall w', progress a (set_origin_buf b c) [] [] w w' ->
     conn_ok w' a (set_origin_buf b c) st -> Q tt w') ->
  wp (on_origin_buf a f) Q w.
Proof. intros Hco Hf Hb HQ. eapply wp_on_origin_buf_io; [done|done|done|]. intros w' Hp _ Hco'. by apply HQ. Qed.

(** Bytes written one at a time while there is room. *)
Definition appended (b b' : buffer) (l : list byte) : Prop :=
  buffer_wf b' /\ contents b' = contents b ++ take (room b) l /\ room b' = (room b - length l)%nat.

Lemma appended_trans b b1 b2 l1 l2 :
  appended b b1 l1 -> appended b1 b2 l2 -> appended b b2 (l1 ++ l2).
Proof.
  intros (_ & Hc1 & Hr1) (Hw2 & Hc2 & Hr2). split_and!; [done| |rewrite length_app; lia].
  rewrite Hc2, Hc1, Hr1, <- app_assoc. f_equal. symmetry. apply take_app.
Qed.

Lemma appended_write b x : buffer_wf b -> exists b', buffer_write b x = Done b' /\ appended b b' [x].
Proof.
  intros Hwf. destruct (buffer_write_spec b x Hwf) as (b' & Eb & Hw & _ & _ & Hc & Hr).
  exists b'. split; [done|]. unfold appended. split_and!; [done| |done]. rewrite Hc.
  destruct (Nat.ltb_spec 0 (room b)); [destruct (room b); [lia|]; simpl; by rewrite take_nil|].
  replace (room b) with 0%nat by lia. simpl. by rewrite app_nil_r.
Qed.

Lemma wp_write_client a c st x w (Q : unit -> world E -> Prop) :
  conn_ok w a c st ->
  (forall b w', appended (client_buf c) b [x] -> progress a (set_client_buf b c) [] [] w w' ->
     conn_ok w' a (set_client_buf b c) st -> Q tt w') ->
  wp (on_client_buf a (fun b => buffer_write b x)) Q w.
Proof.
  intros Hco HQ. destruct (appended_write (client_buf c) x (co_cbuf _ _ _ _ Hco)) as (b & Eb & Ha).
  eapply wp_on_client_buf; [exact Hco|exact Eb|apply Ha|]. intros w' Hp Hco'. by eapply HQ.
Qed.

Lemma wp_simple_reply v m a c st w (Q : unit -> world E -> Prop) :
  conn_ok w a c st ->
  (forall b w', appended (client_buf c) b [v; m] -> progress a (set_client_buf b c) [] [] w w' ->
     conn_ok w' a (set_client_buf b c) st -> Q tt w') ->
  wp (simple_reply v m a) Q w.
Proof.
  intros Hco HQ. apply wp_bind. eapply wp_write_client; [exact Hco|]. intros b1 w1 Ha1 Hp1 Hco1.
  eapply wp_write_client; [exact Hco1|]. intros b2 w2 Ha2 Hp2 Hco2. apply (HQ b2).
  - by apply (appended_trans _ b1 _ [v] [m]).
  - by apply (progress_silent _ _ _ _ _ _ _ _ Hp1 Hp2).
  - done.
Qed.

Lemma wp_c_stm_state a c st w (Q : nat -> world E -> Prop) :
  conn_ok w a c st -> Q st w -> wp (c_stm_state a) Q w.
Proof.
  intros Hco HQ. apply wp_bind. eapply wp_get_client; [by apply Hco|].
  by eapply wp_lift; [apply (co_stm _ _ _ _ Hco)|].
Qed.

Lemma wp_close_conn a level c st w (Q : nat -> world E -> Prop) :
  conn_ok w a c st -> 0 <= level < 16 ->
  (forall evs w', let ends := close_ends (active_ends c) level in
     progress a (set_active_ends ends c) (released_fds c ends) evs w w' ->
     Forall close_event evs -> conn_ok w' a (set_active_ends ends c) st -> Q (close_next st ends) w') ->
  wp (closeClient hclose a level) Q w.
Proof.
  intros Hco Hl HQ. eapply wp_closeClient; try apply Hco; try done.
  intros w' Hcl.
  pose proof (closing_progress _ _ _ (released_fds c (close_ends (active_ends c) level)) _ _ Hcl
    (fun fd => released_acts c _ level fd (co_ends _ _ _ _ Hco) Hl eq_refl)) as Hp.
  eapply HQ; [exact Hp|apply acts_close_events|].
  eapply conn_ok_progress; [exact Hco|exact Hp|done|..]; try apply Hco.
  apply close_ends_range; [apply Hco|done].
Qed.

(** The bytes of a read, whatever it returned. *)
Lemma recv_post_data sd b n b' evs :
  recv_post sd b [] n b' evs ->
  buffer_wf b' /\ b_read b' = b_read b /\ b_limit b' = b_limit b /\ exists d, contents b' = contents b ++ d /\ received sd evs = d /\
    ((n = 0 \/ n < 0) -> d = []).
Proof.
  intros (Hwf & Hlim & [(-> & -> & ->)|(l & -> & _ & Hc & _ & Hrd & ->)]); (split_and!; try done).
  - exists []. by rewrite app_nil_r.
  - exists l. split; [done|]. simpl. rewrite decide_True by done. split; [done|].
    destruct l; simpl; [done|lia].
Qed.

(** The read with which the three handlers begin: its result [n], the bytes [d]
    it delivered and the process after it. *)
Definition read_step (a : Z) (c : client) w (n : Z) (d : list byte) w1 : Prop :=
  recv_client a w = Done (n, w1) /\
  exists evs, io_trace (w_io w1) = evs ++ io_trace (w_io w) /\ received (client_sock c) evs = d.

(** [checkEOF] of that result. *)
Definition at_eof (n : Z) w1 : bool := (n =? 0) || ((n <? 0) && negb (io_errno (w_io w1) =? EAGAIN)).

Lemma read_step_exists a c st w : conn_ok w a c st -> exists n d w1, read_step a c w n d w1.
Proof.
  intros Hco.
  assert (Hw : wp (recv_client a) (fun n w1 => exists d evs, io_trace (w_io w1) = evs ++ io_trace (w_io w) /\
    received (client_sock c) evs = d) w).
  { eapply wp_recv_client; [exact Hco|]. intros n b evs w' Hp _ _. eexists _, evs. split; [apply Hp|done]. }
  destruct (wp_inv _ _ _ Hw) as (n & w1 & Er & d & evs & Ht & Hd). exists n, d, w1. split; [done|]. by exists evs.
Qed.

(** The beginning the three handlers share: a read, and [X] at the end of the
    stream or [Y] with the bytes appended. *)
Lemma wpf_receive_exact {A} a c st w n d w1 (X Y : M (world E) A) (Q : A -> world E -> Prop) F :
  conn_ok w a c st -> read_step a c w n d w1 ->
  (forall b evs, progress a (set_origin_buf b c) [] evs w w1 ->
     conn_ok w1 a (set_origin_buf b c) st -> received (client_sock c) evs = d ->
     contents b = contents (origin_buf c) ++ d ->
     b_read b = b_read (origin_buf c) -> b_limit b = b_limit (origin_buf c) ->
     (at_eof n w1 = true -> d = [] -> wpf X Q F w1) /\ (at_eof n w1 = false -> wpf Y Q F w1)) ->
  wpf (bytes_read ← recv_client a; eof ← sys (checkEOF bytes_read); if (eof : bool) then X else Y)
    Q F w.
Proof.
  intros Hco [Er (evs1 & Ht1 & Hd)] HXY. apply wpf_bind.
  assert (Hw : wp (recv_client a) (fun n' w' => n' = n -> w' = w1 ->
    wpf (eof ← sys (checkEOF n'); if (eof : bool) then X else Y) Q F w') w).
  { eapply wp_recv_client; [exact Hco|]. intros n' b evs w' Hp1 Hrecv Hco1 -> ->.
    apply recv_post_data in Hrecv as (Hb & Hrd & Hlim & d' & Hc & Hd' & Hn).
    assert (evs1 = evs) as ->.
    { pose proof (pg_trace _ _ _ _ _ _ Hp1) as Ht. rewrite Ht1 in Ht. by apply app_inv_tail in Ht. }
    assert (d' = d) as -> by congruence.
    destruct (HXY b evs) as [HX HY]; try done. apply wpf_bind, wp_checkEOF. fold (at_eof n w1).
    destruct (at_eof n w1) eqn:Heof; [|by apply HY].
    apply HX; [done|]. apply Hn. apply orb_true_iff in Heof as [?|?]; tests; lia. }
  unfold wp in Hw |- *. rewrite Er in Hw |- *. by apply Hw.
Qed.

Lemma wpf_receive {A} a c st w (X Y : M (world E) A) (Q : A -> world E -> Prop) F :
  conn_ok w a c st ->
  (forall b evs w1, progress a (set_origin_buf b c) [] evs w w1 ->
     conn_ok w1 a (set_origin_buf b c) st ->
     contents b = contents (origin_buf c) ++ received (client_sock c) evs ->
     b_read b = b_read (origin_buf c) -> b_limit b = b_limit (origin_buf c) ->
     (received (client_sock c) evs = [] -> wpf X Q F w1) /\ wpf Y Q F w1) ->
  wpf (bytes_read ← recv_client a; eof ← sys (checkEOF bytes_read); if (eof : bool) then X else Y)
    Q F w.
Proof.
  intros Hco HXY. destruct (read_step_exists a c st w Hco) as (n & d & w1 & Hr).
  eapply wpf_receive_exact; [exact Hco|exact Hr|]. intros b evs Hp Hco1 Hd Hc Hrd Hlim.
  destruct (HXY b evs w1) as [HX HY]; try done; [by rewrite Hd|]. split; [|done]. intros _ Hnil. apply HX. congruence.
Qed.

Lemma wp_receive {A} a c st w (X Y : M (world E) A) (Q : A -> world E -> Prop) :
  conn_ok w a c st ->
  (forall b evs w1, progress a (set_origin_buf b c) [] evs w w1 ->
     conn_ok w1 a (set_origin_buf b c) st ->
     contents b = contents (origin_buf c) ++ received (client_sock c) evs ->
     b_read b = b_read (origin_buf c) -> b_limit b = b_limit (origin_buf c) ->
     (received (client_sock c) evs = [] -> wp X Q w1) /\ wp Y Q w1) ->
  wp (bytes_read ← recv_client a; eof ← sys (checkEOF bytes_read); if (eof : bool) then X else Y) Q w.
Proof. intros Hco HXY. apply wp_wpf. by eapply wpf_receive. Qed.

(** ** Method selection: the handler *)

(** What the handler leaves when the socket delivered [d]: the next state and
    the connection. *)
Inductive hello_post (nUsers : nat) (c : client) (st : nat) (d : list byte) : nat -> client -> Prop :=
| hello_eof b e :
    contents b = contents (origin_buf c) -> e = close_ends (active_ends c) CLIENT_READ ->
    hello_post nUsers c st d (close_next st e) (set_active_ends e (set_origin_buf b c))
| hello_wait b :
    contents b = contents (origin_buf c) ++ d -> parse_hello (contents b) = None ->
    hello_post nUsers c st d st (set_origin_buf b c)
| hello_accept ms m b cb :
    parse_hello (contents (origin_buf c) ++ d) = Some (server_version, ms, contents b) ->
    select_method nUsers ms = Some m ->
    appended (client_buf c) cb [server_version; m] ->
    hello_post nUsers c st d (if decide (m = Byte.x00) then REQUEST else PLAIN_AUTH)
      (set_client_buf cb (set_origin_buf b c))
| hello_refuse v ms b cb e :
    parse_hello (contents (origin_buf c) ++ d) = Some (v, ms, contents b) ->
    v <> server_version \/ select_method nUsers ms = None ->
    appended (client_buf c) cb [server_version; Byte.xff] ->
    e = close_ends (active_ends c) CLIENT_READ ->
    hello_post nUsers c st d (close_next st e)
      (set_active_ends e (set_client_buf cb (set_origin_buf b c))).

Lemma wp_read_auth_method a c st w key :
  conn_ok w a c st -> key_data key = a -> key_fd key = client_sock c ->
  wp (read_auth_method hclose key)
    (fun next w' => exists c' fds evs, progress a c' fds evs w w' /\ conn_ok w' a c' st /\
       hello_post (length (w_users w)) c st (received (client_sock c) evs) next c') w.
Proof.
  intros Hco <- Hfd. set (a := key_data key) in *. unfold read_auth_method. fold a.
  apply wp_bind. eapply wp_get_client; [by apply Hco|].
  apply wp_bind, wp_massert; [by apply Z.eqb_eq|].
  eapply wp_receive; [exact Hco|]. intros b evs w1 Hp1 Hco1 Hc _ _.
  set (d := received (client_sock c) evs) in *. assert (Hd : received (client_sock c) evs = d) by done.
  pose proof (co_obuf _ _ _ _ Hco1) as Hb. cbn [origin_buf set_origin_buf] in Hb. split.
  { intros Hnil. eapply wp_close_conn; [exact Hco1|done|]. intros evs2 w2 ends Hp2 Hev Hcoe.
    eexists _, _, _. split; [exact (progress_trans _ _ _ _ _ _ _ _ _ _ Hp1 Hp2)|]. split; [exact Hcoe|].
    rewrite (proj1 (close_events_quiet _ _ _ Hev)). apply hello_eof; [|done].
    by rewrite Hc, Hnil, app_nil_r. }
  clearbody d. apply wp_bind. eapply wp_get_client; [by apply Hco1|].
  apply wp_bind. eapply wp_lift; [by apply read_ptr_wf|]. cbn [origin_buf set_origin_buf].
  assert (Hwait : parse_hello (contents b) = None ->
    wp (c_stm_state a) (fun next w' => exists c' fds evs, progress a c' fds evs w w' /\ conn_ok w' a c' st /\
       hello_post (length (w_users w)) c st (received (client_sock c) evs) next c') w1).
  { intros Hnone. eapply wp_c_stm_state; [exact Hco1|]. eexists _, _, _. split; [exact Hp1|]. split; [exact Hco1|].
    rewrite Hd. by apply hello_wait. }
  destruct (contents b) as [|v [|nm l']] eqn:EL; [by apply Hwait..|].
  change (length (v :: nm :: l') <? 2)%nat with false. cbn [length].
  apply wp_bind. eapply wp_lift; [by apply (contents_get b 1); [|rewrite EL]|].
  set (k := Z.to_nat (Zb nm)). pose proof (Zb_range nm) as Hnm.
  assert (Hph : parse_hello (v :: nm :: l') =
    if (length l' <? k)%nat then None else Some (v, take k l', drop k l')) by done.
  destruct (Nat.ltb_spec (length l') k) as [Hlt|Hge].
  { rewrite (proj2 (Nat.ltb_lt _ _)) by lia. by apply Hwait. }
  clear Hwait. rewrite (proj2 (Nat.ltb_ge _ _)) by lia.
  apply wp_bind. eapply wp_lift.
  { rewrite <- (Nat.add_0_r (b_read b)). by apply (contents_get b 0); [|rewrite EL]. }
  destruct (buffer_read_adv_spec b (k + 2) Hb) as (b' & Eb' & Hb' & Hcb' & _ & Hdata & _);
    [rewrite EL; simpl; lia|].
  rewrite EL in Hcb'. rewrite Nat.add_comm in Hcb'. simpl in Hcb'.
  replace (Z.of_nat (k + 2)) with (Zb nm + 2) in Eb' by (unfold k; lia).
  apply wp_bind. eapply wp_on_origin_buf; [exact Hco1|exact Eb'|exact Hb'|]. intros w2 Hp2 Hco2.
  pose proof (progress_silent _ _ _ _ _ _ _ _ Hp1 Hp2) as Hp. clear Hp1 Hp2.
  apply wp_bind. eapply wp_get_client; [by apply Hco2|]. apply wp_bind, wp_gets.
  destruct (pg_rest _ _ _ _ _ _ Hp) as (_ & Hus & _). rewrite Hus. cbn [get_users fst].
  cbn [origin_buf set_origin_buf].
  assert (Hmeth : choose_method (b_data b') (b_read b + 2) k (length (w_users w))
                  = Done (select_method (length (w_users w)) (take k l'))).
  { rewrite Hdata. rewrite <- (length_take_le l' k) at 1 by lia. apply choose_method_spec.
    intros j x Hj. rewrite <- Nat.add_assoc. apply contents_get; [done|]. rewrite EL.
    apply lookup_take_Some in Hj as [Hj _]. done. }
  rewrite Hc in Hph.
  assert (Hrefuse : v <> server_version \/ select_method (length (w_users w)) (take k l') = None ->
    wp (simple_reply server_version Byte.xff a;; closeClient hclose a CLIENT_READ)
      (fun next w' => exists c' fds evs, progress a c' fds evs w w' /\ conn_ok w' a c' st /\
       hello_post (length (w_users w)) c st (received (client_sock c) evs) next c') w2).
  { intros Hwhy. apply wp_bind. eapply wp_simple_reply; [exact Hco2|]. intros cb w3 Ha Hp3 Hco3.
    eapply wp_close_conn; [exact Hco3|done|]. intros evs4 w4 ends Hp4 Hev Hcoe.
    pose proof (progress_trans _ _ _ _ _ _ _ _ _ _ (progress_silent _ _ _ _ _ _ _ _ Hp Hp3) Hp4)
      as Hp5.
    eexists _, _, _. split; [exact Hp5|]. split; [exact Hcoe|]. rewrite (proj1 (close_events_quiet _ _ _ Hev)), Hd.
    apply (hello_refuse _ c st d v (take k l') b' cb (close_ends (active_ends c) CLIENT_READ));
      try done. by rewrite Hcb'. }
  destruct (decide (v = server_version)) as [->|Hv].
  - rewrite bool_decide_eq_true_2 by done. apply wp_bind. eapply wp_lift; [exact Hmeth|].
    destruct (select_method _ (take k l')) as [m|] eqn:Em; [|by apply Hrefuse; right].
    apply wp_bind. eapply wp_simple_reply; [exact Hco2|]. intros cb w3 Ha Hp3 Hco3.
    pose proof (progress_silent _ _ _ _ _ _ _ _ Hp Hp3) as Hp4.
    apply wp_bind. eapply wp_interest; [constructor|by apply Hco3|by apply Hco3|]. intros w5 Hp5.
    apply wp_ret. eexists _, _, _.
    split; [exact (progress_silent _ _ _ _ _ _ _ _ Hp4 Hp5)|].
    split; [exact (conn_ok_same _ _ _ _ _ _ _ Hco3 Hp5)|]. rewrite Hd.
    replace (if bool_decide (m = Byte.x00) then REQUEST else PLAIN_AUTH)
      with (if decide (m = Byte.x00) then REQUEST else PLAIN_AUTH)
      by (by case_decide; case_bool_decide).
    apply (hello_accept _ c st d (take k l') m b' cb); try done. by rewrite Hcb'.
  - rewrite bool_decide_eq_false_2 by done. apply wp_bind, wp_ret. by apply Hrefuse; left.
Qed.

(** C9. Method selection, on every input: the handler never faults; it waits,
    with the bytes kept, while the message is incomplete; of a complete one it
    consumes exactly its bytes and answers with version 5 and the method the
    policy selects among those offered, moving to the request when there are no
    users and to authentication otherwise; it answers 0xFF and stops reading
    when the version or every method is unacceptable. *)
Theorem read_auth_method_correct (w : world E) (key : selector_key) (c : client) (st : nat) :
  conn_ok w (key_data key) c st -> key_fd key = client_sock c ->
  exists next w' c' fds evs, read_auth_method hclose key w = Done (next, w') /\
    progress (key_data key) c' fds evs w w' /\ conn_ok w' (key_data key) c' st /\
    hello_post (length (w_users w)) c st (received (client_sock c) evs) next c'.
Proof.
  intros Hco Hfd. destruct (wp_inv _ _ _ (wp_read_auth_method _ c st w key Hco eq_refl Hfd))
    as (next & w' & Er & c' & fds & evs & Hp & Hco' & Hh). by exists next, w', c', fds, evs.
Qed.

(** ** Username and password *)

(** Version, user, password and the bytes after a complete message. *)
Definition parse_auth (l : list byte) : option (byte * list byte * list byte * list byte) :=
  match l with
  | v :: n :: l' =>
      let u := Z.to_nat (Zb n) in
      match drop u l' with
      | p :: r =>
          let k := Z.to_nat (Zb p) in
          if (length r <? k)%nat then None else Some (v, take u l', take k r, drop k r)
      | [] => None
      end
  | _ => None
  end.

(** The user name as the connection stores it. *)
Definition stored_user (area user : list byte) : list byte :=
  user ++ NUL :: drop (length user + 1) area.

Inductive auth_post (users : list user) (c : client) (st : nat) (d : list byte) : nat -> client -> Prop :=
| auth_eof b e :
    contents b = contents (origin_buf c) -> e = close_ends (active_ends c) CLIENT_READ ->
    auth_post users c st d (close_next st e) (set_active_ends e (set_origin_buf b c))
| auth_wait b :
    contents b = contents (origin_buf c) ++ d -> parse_auth (contents b) = None ->
    auth_post users c st d st (set_origin_buf b c)
| auth_version v user pass b cb e :
    parse_auth (contents (origin_buf c) ++ d) = Some (v, user, pass, contents b) ->
    v <> plain_auth_version ->
    appended (client_buf c) cb [plain_auth_version; Byte.xff] ->
    e = close_ends (active_ends c) CLIENT_READ ->
    auth_post users c st d (close_next st e)
      (set_active_ends e (set_client_buf cb (set_origin_buf b c)))
| auth_accept user pass b cb :
    parse_auth (contents (origin_buf c) ++ d) = Some (plain_auth_version, user, pass, contents b) ->
    User (cstr user) (cstr pass) ∈ users ->
    appended (client_buf c) cb [plain_auth_version; Byte.x00] ->
    auth_post users c st d REQUEST
      (set_client_buf cb (set_socks_user (stored_user (socks_user c) user) (set_origin_buf b c)))
| auth_reject user pass b cb e :
    parse_auth (contents (origin_buf c) ++ d) = Some (plain_auth_version, user, pass, contents b) ->
    User (cstr user) (cstr pass) ∉ users ->
    appended (client_buf c) cb [plain_auth_version; Byte.x01] ->
    e = close_ends (active_ends c) CLIENT_READ ->
    auth_post users c st d (close_next st e)
      (set_active_ends e (set_client_buf cb
        (set_socks_user (stored_user (socks_user c) user) (set_origin_buf b c)))).

Lemma cstr_app_stop s t : cstr (s ++ NUL :: t) = cstr s.
Proof.
  induction s as [|x s IH]; simpl; [done|]. destruct (decide (x = NUL)); [done|]. by rewrite IH.
Qed.

(** The two stores of the user name. *)
Lemma store_user area user :
  (length user < length area)%nat ->
  exists m, mem_write area 0 user = Done m /\
    mem_write m (length user) [NUL] = Done (stored_user area user).
Proof.
  intros Hl. eexists. split; [apply mem_write_Done; lia|]. simpl.
  rewrite mem_write_Done by (rewrite length_app, length_drop; simpl; lia). f_equal.
  rewrite take_app_length. unfold stored_user. f_equal. simpl. f_equal.
  rewrite drop_app_ge by lia. rewrite drop_drop. f_equal. lia.
Qed.

Lemma stored_user_length area user :
  (length user < length area)%nat -> length (stored_user area user) = length area.
Proof. intros Hl. unfold stored_user. rewrite length_app. simpl. rewrite length_drop. lia. Qed.

(** The length of the password is read even when it is not there yet: past the
    end of a buffer without a place for it. *)
Definition no_space (c : client) (f : fault) : Prop :=
  f = Undefined /\ (b_limit (origin_buf c) < b_read (origin_buf c) + 258)%nat.

Lemma wpf_read_plain_auth a c st w key :
  conn_ok w a c st -> key_data key = a -> key_fd key = client_sock c -> users_wf (w_users w) ->
  wpf (read_plain_auth hclose key)
    (fun next w' => exists c' fds evs, progress a c' fds evs w w' /\ conn_ok w' a c' st /\
       auth_post (w_users w) c st (received (client_sock c) evs) next c')
    (no_space c) w.
Proof.
  intros Hco <- Hfd Husers. set (a := key_data key) in *. unfold read_plain_auth. fold a.
  apply wpf_bind. eapply wp_get_client; [by apply Hco|].
  apply wpf_bind, wp_massert; [by apply Z.eqb_eq|].
  eapply wpf_receive; [exact Hco|]. intros b evs w1 Hp1 Hco1 Hc Hrd Hlim.
  set (d := received (client_sock c) evs) in *. assert (Hd : received (client_sock c) evs = d) by done.
  pose proof (co_obuf _ _ _ _ Hco1) as Hb. cbn [origin_buf set_origin_buf] in Hb. split.
  { intros Hnil. apply wpf_wp. eapply wp_close_conn; [exact Hco1|done|]. intros evs2 w2 ends Hp2 Hev Hcoe.
    eexists _, _, _. split; [exact (progress_trans _ _ _ _ _ _ _ _ _ _ Hp1 Hp2)|]. split; [exact Hcoe|].
    rewrite (proj1 (close_events_quiet _ _ _ Hev)). apply auth_eof; [|done].
    by rewrite Hc, Hnil, app_nil_r. }
  clearbody d. apply wpf_bind. eapply wp_get_client; [by apply Hco1|].
  apply wpf_bind. eapply wp_lift; [by apply read_ptr_wf|]. cbn [origin_buf set_origin_buf].
  assert (Hwait : parse_auth (contents b) = None ->
    wp (c_stm_state a) (fun next w' => exists c' fds evs, progress a c' fds evs w w' /\ conn_ok w' a c' st /\
       auth_post (w_users w) c st (received (client_sock c) evs) next c') w1).
  { intros Hnone. eapply wp_c_stm_state; [exact Hco1|]. eexists _, _, _. split; [exact Hp1|]. split; [exact Hco1|].
    rewrite Hd. by apply auth_wait. }
  destruct (contents b) as [|v [|nu l']] eqn:EL; [by apply wpf_wp, Hwait..|].
  change (length (v :: nu :: l') <? 2)%nat with false. cbn [length].
  apply wpf_bind. eapply wp_lift; [by apply (contents_get b 1); [|rewrite EL]|].
  set (u := Z.to_nat (Zb nu)). pose proof (Zb_range nu) as Hnu.
  assert (Hpa : parse_auth (v :: nu :: l') =
    match drop u l' with
    | p :: r => if (length r <? Z.to_nat (Zb p))%nat then None
                else Some (v, take u l', take (Z.to_nat (Zb p)) r, drop (Z.to_nat (Zb p)) r)
    | [] => None end) by done.
  destruct (Nat.ltb_spec (S (S (length l'))) (2 + u)) as [Hlt|Hge].
  { apply wpf_wp, Hwait. rewrite Hpa. by rewrite drop_ge by lia. }
  apply wpf_bind. eapply wp_lift.
  { rewrite <- (Nat.add_0_r (b_read b)). by apply (contents_get b 0); [|rewrite EL]. }
  destruct (drop u l') as [|np r] eqn:Er.
  { (* the length of the password is not there yet: what is read is not used *)
    assert (Hul : length l' = u) by (apply (f_equal length) in Er; rewrite length_drop in Er; simpl in Er; lia).
    destruct (mem_get (b_data b) (b_read b + 2 + u)) as [x|f] eqn:Hx.
    - apply wpf_bind. eapply wp_lift; [reflexivity|].
      rewrite (proj2 (Nat.ltb_lt _ _)) by lia. by apply wpf_wp, Hwait.
    - eapply wpf_lift_fault; [reflexivity|]. unfold mem_get in Hx.
      destruct (b_data b !! (b_read b + 2 + u)%nat) eqn:El; [done|]. injection Hx as <-. split; [done|].
      apply lookup_ge_None in El. destruct Hb as (? & ? & Hdl). lia. }
  assert (Hl' : l' = take u l' ++ np :: r) by (by rewrite <- Er, take_drop).
  assert (Hul : length (take u l') = u) by (apply length_take_le; lia).
  assert (Hlr : length l' = (u + S (length r))%nat)
    by (rewrite Hl' at 1; rewrite length_app, Hul; done).
  apply wpf_bind. eapply wp_lift.
  { rewrite <- Nat.add_assoc. apply (contents_get b (2 + u)); [done|]. rewrite EL, Hl'. simpl.
    by rewrite lookup_app_r, Hul, Nat.sub_diag by lia. }
  apply wpf_wp. set (k := Z.to_nat (Zb np)) in *. pose proof (Zb_range np) as Hnp.
  destruct (Nat.ltb_spec (length r) k) as [Hlt|Hge'].
  { rewrite (proj2 (Nat.ltb_lt _ _)) by lia. by apply Hwait. }
  clear Hwait. rewrite (proj2 (Nat.ltb_ge _ _)) by lia. rewrite Hc in Hpa.
  destruct (buffer_read_adv_spec b (3 + u + k) Hb) as (b' & Eb' & Hb' & Hcb' & _ & Hdata & _);
    [rewrite EL; simpl; lia|].
  assert (Hrest : contents b' = drop k r).
  { rewrite Hcb', EL. replace (3 + u + k)%nat with (2 + (u + (1 + k)))%nat by lia. simpl.
    rewrite <- drop_drop, Er. done. }
  replace (Z.of_nat (3 + u + k)) with (3 + Zb nu + Zb np) in Eb' by (unfold u, k; lia).
  apply wp_bind. eapply wp_on_origin_buf; [exact Hco1|exact Eb'|exact Hb'|]. intros w2 Hp2 Hco2.
  pose proof (progress_silent _ _ _ _ _ _ _ _ Hp1 Hp2) as Hp. clear Hp1 Hp2.
  set (c1 := set_origin_buf b' c).
  change (set_origin_buf b' (set_origin_buf b c)) with c1 in Hp, Hco2.
  destruct (decide (v = plain_auth_version)) as [->|Hv]; cycle 1.
  { rewrite bool_decide_eq_true_2 by done. apply wp_bind.
    eapply wp_simple_reply; [exact Hco2|]. intros cb w3 Ha Hp3 Hco3.
    eapply wp_close_conn; [exact Hco3|done|]. intros evs4 w4 ends Hp4 Hev Hcoe.
    pose proof (progress_trans _ _ _ _ _ _ _ _ _ _ (progress_silent _ _ _ _ _ _ _ _ Hp Hp3) Hp4)
      as Hp5.
    eexists _, _, _. split; [exact Hp5|]. split; [exact Hcoe|]. rewrite (proj1 (close_events_quiet _ _ _ Hev)), Hd.
    apply (auth_version _ c st d v (take u l') (take k r) b' cb
             (close_ends (active_ends c) CLIENT_READ)); try done. by rewrite Hrest. }
  rewrite bool_decide_eq_false_2 by tauto.
  apply wp_bind. eapply wp_get_client; [by apply Hco2|].
  change (b_data (origin_buf c1)) with (b_data b'). rewrite Hdata.
  apply wp_bind. eapply wp_lift.
  { rewrite (contents_read b 2 u Hb) by (rewrite EL; simpl; lia). rewrite EL. reflexivity. }
  cbn [drop]. change (socks_user c1) with (socks_user c).
  destruct (store_user (socks_user c) (take u l')) as (m & Em1 & Em2).
  { rewrite (co_user _ _ _ _ Hco), Hul. unfold MAX_CREDENTIALS. lia. }
  rewrite Hul in Em2.
  apply wp_bind. eapply wp_lift; [exact Em1|]. apply wp_bind. eapply wp_lift; [exact Em2|].
  apply wp_bind. eapply wp_upd_client; [by apply Hco2|].
  pose proof (progress_upd a (set_socks_user (stored_user (socks_user c) (take u l')) c1) w2
    (co_sel _ _ _ _ Hco2)) as Hp3.
  set (w3 := lput clients_lens _ w2) in *.
  pose proof (progress_silent _ _ _ _ _ _ _ _ Hp Hp3) as Hp4.
  assert (Hco3 : conn_ok w3 a (set_socks_user (stored_user (socks_user c) (take u l')) c1) st).
  { eapply conn_ok_progress; [exact Hco2|exact Hp3|done|..]; try apply Hco2. simpl.
    rewrite stored_user_length; rewrite (co_user _ _ _ _ Hco); [done|]. unfold MAX_CREDENTIALS. lia. }
  apply wp_bind. eapply wp_lift.
  { replace (b_read b + 3 + u)%nat with (b_read b + (3 + u))%nat by lia.
    rewrite (contents_read b (3 + u) k Hb) by (rewrite EL; simpl; lia). rewrite EL. simpl.
    replace (S u) with (u + 1)%nat by lia. rewrite <- drop_drop, Er. reflexivity. }
  cbn [drop]. apply wp_bind, wp_gets.
  destruct (pg_rest _ _ _ _ _ _ Hp4) as (_ & Hus & _). rewrite Hus.
  change (drop 0 r) with r.
  assert (Hcred : try_credentials (stored_user (socks_user c) (take u l')) (take k r ++ [NUL]) (w_users w)
                  = bool_decide (User (cstr (take u l')) (cstr (take k r)) ∈ w_users w)).
  { rewrite try_credentials_spec by done. apply bool_decide_ext. unfold stored_user.
    by rewrite (cstr_app_stop (take u l')), (cstr_app_stop (take k r) []). }
  rewrite Hcred.
  case_bool_decide as Hin.
  - apply wp_bind. eapply wp_simple_reply; [exact Hco3|]. intros cb w5 Ha Hp5 Hco5.
    pose proof (progress_silent _ _ _ _ _ _ _ _ Hp4 Hp5) as Hp6.
    apply wp_bind. eapply wp_interest; [constructor|by apply Hco5|by apply Hco5|]. intros w7 Hp7.
    apply wp_ret. eexists _, _, _.
    split; [exact (progress_silent _ _ _ _ _ _ _ _ Hp6 Hp7)|].
    split; [exact (conn_ok_same _ _ _ _ _ _ _ Hco5 Hp7)|]. rewrite Hd.
    apply (auth_accept _ c st d (take u l') (take k r) b' cb); try done. by rewrite Hrest.
  - apply wp_bind. eapply wp_simple_reply; [exact Hco3|]. intros cb w5 Ha Hp5 Hco5.
    eapply wp_close_conn; [exact Hco5|done|]. intros evs6 w6 ends Hp6 Hev Hcoe.
    pose proof (progress_trans _ _ _ _ _ _ _ _ _ _ (progress_silent _ _ _ _ _ _ _ _ Hp4 Hp5) Hp6)
      as Hp7.
    eexists _, _, _. split; [exact Hp7|]. split; [exact Hcoe|]. rewrite (proj1 (close_events_quiet _ _ _ Hev)), Hd.
    apply (auth_reject _ c st d (take u l') (take k r) b' cb
             (close_ends (active_ends c) CLIENT_READ)); try done. by rewrite Hrest.
Qed.

(** C10. Authentication, on every input that leaves the buffer a place for the
    password's length: the handler never faults; it waits, with the bytes kept,
    while the message is incomplete; of a complete one it consumes exactly its
    bytes, records the user, and reaches the request state only when the name
    and the password, read as C strings, are those of a user in the table; any
    other pair is answered with a failure and nothing more is read. *)
Theorem read_plain_auth_correct (w : world E) (key : selector_key) (c : client) (st : nat) :
  conn_ok w (key_data key) c st -> key_fd key = client_sock c -> users_wf (w_users w) ->
  (b_read (origin_buf c) + 258 <= b_limit (origin_buf c))%nat ->
  exists next w' c' fds evs, read_plain_auth hclose key w = Done (next, w') /\
    progress (key_data key) c' fds evs w w' /\ conn_ok w' (key_data key) c' st /\
    auth_post (w_users w) c st (received (client_sock c) evs) next c'.
Proof.
  intros Hco Hfd Hu Hsp. pose proof (wpf_read_plain_auth _ c st w key Hco eq_refl Hfd Hu) as Hw.
  unfold wpf in Hw. destruct (read_plain_auth hclose key w) as [[next w']|f]; [|by destruct Hw; lia].
  destruct Hw as (c' & fds & evs & Hp & Hco' & Hh). by exists next, w', c', fds, evs.
Qed.
End Conn.

(** ** Witnesses *)

Lemma sample_conn_ok reads st ends cb ob :
  (st < 8)%nat -> 0 <= ends < 16 -> buffer_wf cb -> buffer_wf ob ->
  conn_ok (sample_world reads (sample_client st ends cb ob)) 1 (sample_client st ends cb ob) st.
Proof.
  intros Hst He Hcb Hob. split.
  - done.
  - apply sample_sel.
  - intros h d. by rewrite sample_reg.
  - intros h d. by rewrite sample_reg.
  - done.
  - done.
  - do 8 (destruct st as [|st]; [done|]). lia.
  - done.
  - done.
Qed.

Lemma read_auth_method_correct_witness :
  let b := buffer_init 16 (repeat NUL 16) in
  let c := sample_client AUTH_METHOD CLIENT b b in
  let w := sample_world [[Byte.x05; Byte.x02; Byte.x02; Byte.x00]] c in
  conn_ok w 1 c AUTH_METHOD /\ key_fd (SelectorKey 5 1) = client_sock c /\
  exists next w', read_auth_method (fun _ => None) (SelectorKey 5 1) w = Done (next, w').
Proof.
  intros b c w.
  assert (Hb : buffer_wf b) by (split_and!; simpl; lia).
  assert (H1 : conn_ok w 1 c AUTH_METHOD)
    by (apply sample_conn_ok; [unfold AUTH_METHOD; lia|vm_compute; split; congruence|done|done]).
  split; [exact H1|]. split; [reflexivity|].
  destruct (read_auth_method_correct (fun _ => None) eq_refl w (SelectorKey 5 1) c AUTH_METHOD H1 eq_refl)
    as (next & w' & _ & _ & _ & Er & _).
  exists next, w'. exact Er.
Defined.

Lemma read_plain_auth_correct_witness :
  let b := buffer_init 600 (repeat NUL 600) in
  let c := sample_client PLAIN_AUTH CLIENT b b in
  let w := sample_world [[Byte.x01; Byte.x01] ++ lit "u" ++ [Byte.x01] ++ lit "p"] c in
  conn_ok w 1 c PLAIN_AUTH /\ key_fd (SelectorKey 5 1) = client_sock c /\ users_wf (w_users w) /\
  exists next w', read_plain_auth (fun _ => None) (SelectorKey 5 1) w = Done (next, w').
Proof.
  intros b c w.
  assert (Hb : buffer_wf b) by (split_and!; [simpl; lia|simpl; lia|apply repeat_length]).
  assert (H1 : conn_ok w 1 c PLAIN_AUTH)
    by (apply sample_conn_ok; [unfold PLAIN_AUTH; lia|vm_compute; split; congruence|done|done]).
  assert (H2 : users_wf (w_users w)) by (split_and!; [simpl; lia|constructor|constructor]).
  split; [exact H1|]. split; [reflexivity|]. split; [exact H2|].
  destruct (read_plain_auth_correct (fun _ => None) eq_refl w (SelectorKey 5 1) c PLAIN_AUTH H1 eq_refl H2)
    as (next & w' & _ & _ & _ & Er & _); [cbn [origin_buf c sample_client b buffer_init b_read b_limit]; lia|].
  exists next, w'. exact Er.
Defined.
