(* ===== verification/RequestSpec.v ===== *)
(** * RequestSpec: the SOCKS request

    What [read_proxy_request] does with the bytes it has: when it waits, how a
    complete request is decoded into the next state and its destination, which
    replies it sends, and exactly when it reads through a null pointer: its
    replies are logged with the destination's name, which is not set yet when a
    request for a name is refused. *)

From S2P Require Import Prelude Buffer Os SocketsIO State Users Selector SelectorSpec Stm World.
From S2P Require Import WorldLogic Util CloseClient Handshake HandshakeSpec.

Local Open Scope Z_scope.

(** ** The message *)

(** A request: not complete yet (with the type of its address, once that is
    known), of a type that is not supported, or complete: command, type,
    address field, port field and the bytes after it. *)
Inductive request_msg :=
| RqWait (atyp : option byte)
| RqBadType (atyp : byte)
| RqFull (cmd atyp : byte) (addr port rest : list byte).

Definition parse_request (l : list byte) : request_msg :=
  match l with
  | _ :: cmd :: _ :: atyp :: x :: _ =>
      match request_addrLen (Zb atyp) x with
      | None => RqBadType atyp
      | Some n =>
          if (length l <? 6 + n)%nat then RqWait (Some atyp)
          else RqFull cmd atyp (take n (drop 4 l)) (take 2 (drop (4 + n) l)) (drop (6 + n) l)
      end
  | _ => RqWait None
  end.

(** The port field as the 16-bit member of an address holds it. *)
Definition port_field (p : list byte) : Z :=
  match p with lo :: hi :: _ => Zb lo + 256 * Zb hi | _ => 0 end.

Section Request.
Context {E : Type} `{OSLaws E}.
Context (hclose : handler_id -> option (selector_key -> M (world E) unit)).
Context (Hsocks : hclose H_socks5 = None).
Implicit Types (w : world E).

(** ** Replies *)

(** The log line of a reply needs no name, or finds it. *)
Lemma log_access_Done c reply :
  c_atyp c <> ATYP_DOMAIN_NAME -> exists line, log_access_info c reply = Done line.
Proof.
  intros Ha. unfold log_access_info. rewrite (proj2 (Z.eqb_neq _ _)) by done.
  destruct (curr_addr c); simpl; eauto.
Qed.

Lemma log_access_null c reply :
  c_atyp c = ATYP_DOMAIN_NAME -> dest_fqdn c = None -> log_access_info c reply = Fault Undefined.
Proof. intros Ha Hd. unfold log_access_info, fqdn_and_port. rewrite Ha, Hd. done. Qed.

(** A reply is sent whole if it fits; otherwise what fits of its head is. *)
Definition replied (b b' : buffer) (head tail : list byte) : Prop :=
  buffer_wf b' /\
  contents b' = contents b ++ (if (room b <? length head + length tail)%nat
                               then take (room b) head else head ++ tail).

Definition reply_head (reply atyp : Z) : list byte :=
  [server_version; byte_of reply; byte_of 0; byte_of atyp].

Lemma wp_write_head a c st reply atyp w (Q : unit -> world E -> Prop) k :
  conn_ok w a c st ->
  (forall b w', appended (client_buf c) b (reply_head reply atyp) ->
     progress a (set_client_buf b c) [] [] w w' ->
     conn_ok w' a (set_client_buf b c) st -> wp k Q w') ->
  wp (on_client_buf a (fun b => buffer_write b server_version);;
      on_client_buf a (fun b => buffer_write b (byte_of reply));;
      on_client_buf a (fun b => buffer_write b (byte_of 0));;
      on_client_buf a (fun b => buffer_write b (byte_of atyp));; k) Q w.
Proof.
  intros Hco HQ.
  apply wp_bind. eapply wp_write_client; [exact Hco|]. intros b1 w1 Ha1 Hp1 Hco1.
  apply wp_bind. eapply wp_write_client; [exact Hco1|]. intros b2 w2 Ha2 Hp2 Hco2.
  apply wp_bind. eapply wp_write_client; [exact Hco2|]. intros b3 w3 Ha3 Hp3 Hco3.
  apply wp_bind. eapply wp_write_client; [exact Hco3|]. intros b4 w4 Ha4 Hp4 Hco4.
  apply (HQ b4); [|by eapply progress_silent; [eapply progress_silent; [by eapply progress_silent|]|]|exact Hco4].
  exact (appended_trans _ _ _ [_; _; _] [_]
    (appended_trans _ _ _ [_; _] [_] (appended_trans _ _ _ [_] [_] Ha1 Ha2) Ha3) Ha4).
Qed.

(** The log line goes out before the bytes are queued. *)
Lemma wp_server_reply a c st reply atyp addr n port w (Q : unit -> world E -> Prop) :
  conn_ok w a c st -> (exists line, log_access_info c reply = Done line) ->
  atyp = ATYP_IPV4 /\ n = 4%nat \/ atyp = ATYP_IPV6 /\ n = 16%nat -> (n <= length addr)%nat ->
  (forall b line w', replied (client_buf c) b (reply_head reply atyp) (take n addr ++ bytes16 port) ->
     progress a (set_client_buf b c) [] [EvLog line] w w' ->
     conn_ok w' a (set_client_buf b c) st -> Q tt w') ->
  wp (server_reply a reply atyp addr port) Q w.
Proof.
  intros Hco [line Hlog] Hat Hn HQ. unfold server_reply.
  apply wp_bind. eapply wp_get_client; [by apply Hco|].
  apply wp_bind. eapply wp_lift; [exact Hlog|]. apply wp_bind, wp_emit. intros i Hi.
  set (w0 := lput io_lens i w).
  assert (Hp0 : progress a c [] [EvLog line] w w0).
  { split; try done; [by rewrite insert_id by apply Hco|apply (co_sel _ _ _ _ Hco)]. }
  assert (Hco0 : conn_ok w0 a c st)
    by (eapply conn_ok_progress; [exact Hco|exact Hp0|done|..]; apply Hco).
  eapply wp_write_head; [exact Hco0|]. intros b4 w4 Ha4 Hp4 Hco4.
  pose proof (progress_silent _ _ _ _ _ _ _ _ Hp0 Hp4) as Hp.
  apply wp_bind. eapply wp_get_client; [by apply Hco4|].
  pose proof (co_cbuf _ _ _ _ Hco4) as Hb4. cbn [client_buf set_client_buf] in Hb4 |- *.
  apply wp_bind. eapply wp_lift; [by apply write_ptr_wf|].
  assert (Hlen : (if atyp =? ATYP_IPV4 then mret 4%nat
                  else if atyp =? ATYP_IPV6 then mret 16%nat
                  else if atyp =? ATYP_DOMAIN_NAME then mret (length (cstr addr))
                  else Fault Undefined) = Done n).
  { destruct Hat as [[-> ->]|[-> ->]]; reflexivity. }
  apply wp_bind. eapply wp_lift; [exact Hlen|]. clear Hlen.
  destruct Ha4 as (_ & Hc4 & Hr4).
  assert (Htl : length (take n addr ++ bytes16 port) = (n + 2)%nat)
    by (rewrite length_app, length_take_le by lia; done).
  change (length (reply_head reply atyp)) with 4%nat in Hr4.
  destruct (Nat.ltb_spec (room b4) (n + 2)) as [Hsmall|Hfit].
  { apply wp_ret. eapply HQ; [|exact Hp|exact Hco4]. split; [done|]. rewrite Hc4, Htl.
    change (length (reply_head reply atyp)) with 4%nat.
    rewrite (proj2 (Nat.ltb_lt _ _)) by lia. done. }
  apply wp_bind. eapply wp_lift; [apply mem_read_Done; lia|].
  destruct (buffer_store_spec b4 (take n addr) Hb4) as (b5 & E5 & Hb5 & Hc5 & Hr5 & _);
    [rewrite length_take_le by lia; lia|].
  rewrite length_take_le in Hr5 by lia.
  apply wp_bind. eapply wp_on_client_buf; [exact Hco4|exact E5|exact Hb5|]. intros w5 Hp5 Hco5.
  destruct (buffer_store_spec b5 (bytes16 port) Hb5) as (b6 & E6 & Hb6 & Hc6 & _); [simpl; lia|].
  eapply wp_on_client_buf; [exact Hco5|exact E6|exact Hb6|]. intros w6 Hp6 Hco6.
  eapply HQ; [|exact (progress_silent _ _ _ _ _ _ _ _ (progress_silent _ _ _ _ _ _ _ _ Hp Hp5) Hp6)
              |exact Hco6].
  split; [done|]. rewrite Hc6, Hc5, Hc4, Htl. change (length (reply_head reply atyp)) with 4%nat.
  rewrite (proj2 (Nat.ltb_ge _ _)) by lia. rewrite take_ge by (simpl; lia).
  by rewrite <- !app_assoc.
Qed.

(** A reply without an address. *)
Definition refusal (reply : Z) (b b' : buffer) : Prop :=
  replied b b' (reply_head reply ATYP_IPV4) (EMPTY_IP ++ bytes16 0).

Lemma wp_empty_reply a c st reply w (Q : unit -> world E -> Prop) :
  conn_ok w a c st -> (exists line, log_access_info c reply = Done line) ->
  (forall b line w', refusal reply (client_buf c) b ->
     progress a (set_client_buf b c) [] [EvLog line] w w' ->
     conn_ok w' a (set_client_buf b c) st -> Q tt w') ->
  wp (empty_reply a reply) Q w.
Proof.
  intros Hco Hlog HQ. eapply (wp_server_reply _ _ _ _ _ _ 4); [exact Hco|exact Hlog|by left|done|].
  exact HQ.
Qed.

(** A refused connection: the reply, and no more reading. *)
Lemma wp_refuse a c st reply w (Q : nat -> world E -> Prop) :
  conn_ok w a c st -> (exists line, log_access_info c reply = Done line) ->
  (forall b line evs w', let ends := close_ends (active_ends c) CLIENT_READ in
     refusal reply (client_buf c) b -> Forall close_event evs ->
     progress a (set_active_ends ends (set_client_buf b c)) (released_fds c ends)
       (evs ++ [EvLog line]) w w' ->
     conn_ok w' a (set_active_ends ends (set_client_buf b c)) st ->
     Q (close_next st ends) w') ->
  wp (empty_reply a reply;; closeClient hclose a CLIENT_READ) Q w.
Proof.
  intros Hco Hlog HQ. apply wp_bind. eapply wp_empty_reply; [exact Hco|exact Hlog|].
  intros b line w1 Hb Hp1 Hco1. eapply wp_close_conn; [exact Hsocks|exact Hco1|done|].
  intros evs w2 ends Hp2 Hev Hco2. eapply HQ; [exact Hb|exact Hev| |exact Hco2].
  exact (progress_trans _ _ _ _ _ _ _ _ _ _ Hp1 Hp2).
Qed.

(** ** The handler *)

(** The allocations for a numeric address: the node, then the address. *)
Definition node_size : nat := 48.
Definition sockaddr_size (f : family) : nat := match f with AF_INET => 16 | _ => 28 end.

Definition addr_family (atyp : Z) : family := if atyp =? ATYP_IPV4 then AF_INET else AF_INET6.

(** What the handler leaves when the read ended the stream or not ([eof]) and
    delivered [d], with the kernel in the state [e] after it: the next state and
    the connection. *)
Inductive request_post (c : client) (st : nat) (eof : bool) (e : E) (d : list byte) : nat -> client -> Prop :=
| rp_eof b cb ends :
    eof = true -> d = [] -> c_atyp c <> ATYP_DOMAIN_NAME -> contents b = contents (origin_buf c) ->
    refusal REPLY_COMMAND_NOT_SUPPORTED (client_buf c) cb ->
    ends = close_ends (active_ends c) CLIENT_READ ->
    request_post c st eof e d (close_next st ends)
      (set_active_ends ends (set_client_buf cb (set_origin_buf b c)))
| rp_short b :
    eof = false -> contents b = contents (origin_buf c) ++ d -> parse_request (contents b) = RqWait None ->
    request_post c st eof e d st (set_origin_buf b c)
| rp_wait b atyp :
    eof = false -> contents b = contents (origin_buf c) ++ d ->
    parse_request (contents b) = RqWait (Some atyp) ->
    request_post c st eof e d st (set_atyp (Zb atyp) (set_origin_buf b c))
| rp_type b atyp cb ends :
    eof = false -> contents b = contents (origin_buf c) ++ d -> parse_request (contents b) = RqBadType atyp ->
    refusal REPLY_ADDRESS_NOT_SUPPORTED (client_buf c) cb ->
    ends = close_ends (active_ends c) CLIENT_READ ->
    request_post c st eof e d (close_next st ends)
      (set_active_ends ends (set_client_buf cb (set_atyp (Zb atyp) (set_origin_buf b c))))
| rp_command b cmd atyp addr port cb ends :
    eof = false -> parse_request (contents (origin_buf c) ++ d) = RqFull cmd atyp addr port (contents b) ->
    Zb cmd <> CONNECT -> Zb atyp <> ATYP_DOMAIN_NAME ->
    refusal REPLY_COMMAND_NOT_SUPPORTED (client_buf c) cb ->
    ends = close_ends (active_ends c) CLIENT_READ ->
    request_post c st eof e d (close_next st ends)
      (set_active_ends ends (set_client_buf cb (set_atyp (Zb atyp) (set_origin_buf b c))))
| rp_name b cmd atyp n name port :
    eof = false -> parse_request (contents (origin_buf c) ++ d) = RqFull cmd atyp (n :: name) port (contents b) ->
    Zb cmd = CONNECT -> Zb atyp = ATYP_DOMAIN_NAME -> is_Some (os_malloc (S (length name)) e).1 ->
    request_post c st eof e d RESOLVING
      (set_dest (Some (name ++ [NUL])) (port_field port) (set_atyp (Zb atyp) (set_origin_buf b c)))
| rp_addr b cmd atyp addr port f m e' :
    eof = false -> parse_request (contents (origin_buf c) ++ d) = RqFull cmd atyp addr port (contents b) ->
    Zb cmd = CONNECT ->
    Zb atyp = ATYP_IPV4 /\ f = AF_INET \/ Zb atyp = ATYP_IPV6 /\ f = AF_INET6 ->
    os_malloc node_size e = (Some m, e') -> is_Some (os_malloc (sockaddr_size f) e').1 ->
    request_post c st eof e d CONNECTING
      (set_curr_addr [Addrinfo f (Sockaddr f addr (port_field port))]
         (set_atyp (Zb atyp) (set_origin_buf b c)))
| rp_memory b cmd atyp addr port cb ends :
    eof = false -> parse_request (contents (origin_buf c) ++ d) = RqFull cmd atyp addr port (contents b) ->
    Zb cmd = CONNECT -> Zb atyp <> ATYP_DOMAIN_NAME -> (os_malloc node_size e).1 = None ->
    refusal REPLY_SERVER_FAILURE (client_buf c) cb ->
    ends = close_ends (active_ends c) CLIENT_READ ->
    request_post c st eof e d (close_next st ends)
      (set_active_ends ends (set_client_buf cb (set_curr_addr [] (set_atyp (Zb atyp) (set_origin_buf b c))))).

(** The faults. A reply is logged with the name of a destination that has none:
    at the end of the stream after the beginning of a request for a name, for a
    complete request for a name that is not a [CONNECT], or when there is no
    memory for the name. And it is logged with the address of a freed node, when
    there is memory for the node and not for the address. *)
Definition request_fault (c : client) (eof : bool) (e : E) (d : list byte) (f : fault) : Prop :=
  f = Undefined /\
  (eof = true /\ c_atyp c = ATYP_DOMAIN_NAME \/
   eof = false /\ exists cmd atyp addr port rest,
     parse_request (contents (origin_buf c) ++ d) = RqFull cmd atyp addr port rest /\
     (Zb atyp = ATYP_DOMAIN_NAME /\ (Zb cmd <> CONNECT \/ (os_malloc (length addr) e).1 = None) \/
      Zb atyp <> ATYP_DOMAIN_NAME /\ Zb cmd = CONNECT /\
        exists m e', os_malloc node_size e = (Some m, e') /\
          (os_malloc (sockaddr_size (addr_family (Zb atyp))) e').1 = None)).

(** A change of the kernel's state that leaves no event. *)
Lemma progress_io a c w i :
  w_clients w !! a = Some c -> sel_ok (w_sel w) -> io_trace i = io_trace (w_io w) ->
  progress a c [] [] w (lput io_lens i w).
Proof. intros Hc Hs Hi. split; try done. by rewrite insert_id. Qed.

Lemma load16_spec b k p0 p1 :
  buffer_wf b -> contents b !! k = Some p0 -> contents b !! (k + 1)%nat = Some p1 ->
  load16 (b_data b) (b_read b + k) = Done (Zb p0 + 256 * Zb p1).
Proof.
  intros Hb H0' H1'. unfold load16. rewrite (contents_get b k p0) by done. simpl.
  rewrite <- Nat.add_assoc. by rewrite (contents_get b (k + 1) p1) by done.
Qed.

(** A request that passed the length test has its fields. *)
Lemma request_fields (l : list byte) n :
  (6 + n <= length l)%nat -> exists p0 p1, take 2 (drop (4 + n) l) = [p0; p1] /\
    l !! (4 + n)%nat = Some p0 /\ l !! (4 + n + 1)%nat = Some p1.
Proof.
  intros Hl. destruct (drop (4 + n) l) as [|p0 [|p1 r]] eqn:Ed;
    try (apply (f_equal length) in Ed; rewrite length_drop in Ed; simpl in Ed; lia).
  exists p0, p1. split; [done|]. split.
  - rewrite <- (Nat.add_0_r (4 + n)), <- lookup_drop. by rewrite Ed.
  - rewrite <- lookup_drop. by rewrite Ed.
Qed.

(** ** The destination *)

(** The name, terminated, in the area allocated for it. *)
Lemma store_name area name :
  length area = S (length name) ->
  exists m, mem_write area 0 name = Done m /\ mem_write m (length name) [NUL] = Done (name ++ [NUL]).
Proof.
  intros Hl. destruct (store_user area name) as (m & E1 & E2); [lia|]. exists m. split; [done|].
  rewrite E2. unfold stored_user. by rewrite drop_ge by lia.
Qed.

(** A refusal when the destination's name has not been set. *)
Lemma wpf_refuse a c st reply w (Q : nat -> world E -> Prop) F :
  conn_ok w a c st -> dest_fqdn c = None ->
  (c_atyp c = ATYP_DOMAIN_NAME -> F Undefined) ->
  (forall b line evs w', let ends := close_ends (active_ends c) CLIENT_READ in
     c_atyp c <> ATYP_DOMAIN_NAME ->
     refusal reply (client_buf c) b -> Forall close_event evs ->
     progress a (set_active_ends ends (set_client_buf b c)) (released_fds c ends)
       (evs ++ [EvLog line]) w w' ->
     conn_ok w' a (set_active_ends ends (set_client_buf b c)) st ->
     Q (close_next st ends) w') ->
  wpf (empty_reply a reply;; closeClient hclose a CLIENT_READ) Q F w.
Proof.
  intros Hco Hnone HF HQ. destruct (decide (c_atyp c = ATYP_DOMAIN_NAME)) as [Ha|Ha].
  - unfold wpf, empty_reply, server_reply, mbind, M_bind, get_client, lift.
    rewrite (co_client _ _ _ _ Hco), (log_access_null c reply Ha Hnone). by apply HF.
  - apply wpf_wp. eapply wp_refuse; [exact Hco|by apply log_access_Done|].
    intros b line evs w' ends Hb Hev Hp Hco'. by eapply HQ.
Qed.

(** What a [CONNECT] records, when the kernel is in the state [e]; [l] is the
    whole request. *)
Inductive dest_post (c : client) (e : E) (l : list byte) (n : nat) (atyp : Z) : nat -> client -> Prop :=
| dp_name port :
    atyp = ATYP_DOMAIN_NAME -> port = port_field (take 2 (drop (4 + n) l)) -> is_Some (os_malloc n e).1 ->
    dest_post c e l n atyp RESOLVING
      (set_dest (Some (take (n - 1) (drop 5 l) ++ [NUL])) port c)
| dp_addr port f m e' :
    atyp <> ATYP_DOMAIN_NAME -> port = port_field (take 2 (drop (4 + n) l)) -> f = addr_family atyp ->
    os_malloc node_size e = (Some m, e') -> is_Some (os_malloc (sockaddr_size f) e').1 ->
    dest_post c e l n atyp CONNECTING
      (set_curr_addr [Addrinfo f (Sockaddr f (take n (drop 4 l)) port)] c).

(** The faults of a [CONNECT]. *)
Definition dest_fault (e : E) (n : nat) (atyp : Z) : Prop :=
  atyp = ATYP_DOMAIN_NAME /\ (os_malloc n e).1 = None \/
  atyp <> ATYP_DOMAIN_NAME /\ exists m e', os_malloc node_size e = (Some m, e') /\
    (os_malloc (sockaddr_size (addr_family atyp)) e').1 = None.

(** No memory for the node of an address: the connection is refused. *)
Definition dest_refused (a : Z) (c : client) (st : nat) (atyp : Z) w (Q : nat -> world E -> Prop) : Prop :=
  forall b line evs w', let c1 := set_curr_addr [] c in let ends := close_ends (active_ends c) CLIENT_READ in
    atyp <> ATYP_DOMAIN_NAME -> (os_malloc node_size (io_os (w_io w))).1 = None ->
    refusal REPLY_SERVER_FAILURE (client_buf c) b -> Forall close_event evs ->
    progress a (set_active_ends ends (set_client_buf b c1)) (released_fds c ends) (evs ++ [EvLog line]) w w' ->
    conn_ok w' a (set_active_ends ends (set_client_buf b c1)) st -> Q (close_next st ends) w'.

Lemma wpf_connect_numeric a c st atyp ip port w (Q : nat -> world E -> Prop) F :
  let f := addr_family atyp in
  conn_ok w a c st -> dest_fqdn c = None -> c_atyp c = atyp -> atyp <> ATYP_DOMAIN_NAME ->
  (forall m e' w', os_malloc node_size (io_os (w_io w)) = (Some m, e') ->
     is_Some (os_malloc (sockaddr_size f) e').1 ->
     progress a (set_curr_addr [Addrinfo f (Sockaddr f ip port)] c) [] [] w w' -> Q CONNECTING w') ->
  dest_refused a c st atyp w Q ->
  (dest_fault (io_os (w_io w)) 0 atyp -> F Undefined) ->
  wpf (connect_numeric hclose a f ip port) Q F w.
Proof.
  intros f Hco Hnone Hat Hnd HQ HR HF. unfold connect_numeric. change 48%nat with node_size.
  apply wpf_bind, wp_malloc. intros [m|] e1 i1 Em1 Ei1 Ht1 _.
  - apply wpf_bind, wp_malloc. intros r e2 i2 Em2 _ Ht2 _. cbn [w_io lput io_lens] in Em2, Ht2.
    change (match f with AF_INET => 16%nat | _ => 28%nat end) with (sockaddr_size f) in Em2. rewrite Ei1 in Em2.
    destruct r as [m2|].
    + apply wpf_wp, wp_bind. eapply wp_upd_client; [by apply Hco|]. apply wp_ret.
      eapply HQ; [exact Em1|by rewrite Em2|]. split; try done; [apply (co_sel _ _ _ _ Hco)|]. simpl. congruence.
    + apply wpf_fault, HF. right. split; [done|]. exists m, e1. split; [done|]. fold f. by rewrite Em2.
  - assert (Hp0 : progress a c [] [] w (lput io_lens i1 w)) by (apply progress_io; [apply Hco|apply Hco|done]).
    apply wpf_bind. eapply wp_upd_client; [by apply Hco|].
    set (c1 := set_curr_addr [] c). set (w1 := lput clients_lens _ _).
    assert (Hp1 : progress a c1 [] [] w w1).
    { eapply progress_silent; [exact Hp0|]. apply (progress_upd a c1 (lput io_lens i1 w)). apply Hco. }
    assert (Hco1 : conn_ok w1 a c1 st) by (eapply conn_ok_progress; [exact Hco|exact Hp1|done|..]; apply Hco).
    eapply wpf_refuse; [exact Hco1|done| |].
    { intros Ha. by rewrite <- Hat in Hnd. }
    intros b line evs w' ends _ Hb Hev Hp2 Hco2. eapply HR; [done|by rewrite Em1|exact Hb|exact Hev| |exact Hco2].
    pose proof (progress_trans _ _ _ _ _ _ _ _ _ _ Hp1 Hp2) as Hp. by rewrite app_nil_r in Hp.
Qed.

Lemma wpf_request_destination a c st b n w (Q : nat -> world E -> Prop) F :
  let atyp := c_atyp c in
  conn_ok w a c st -> dest_fqdn c = None -> buffer_wf b -> b_data (origin_buf c) = b_data b ->
  (1 <= n)%nat -> (6 + n <= length (contents b))%nat ->
  (forall next c' w', progress a c' [] [] w w' ->
     dest_post c (io_os (w_io w)) (contents b) n atyp next c' -> Q next w') ->
  dest_refused a c st atyp w Q ->
  (dest_fault (io_os (w_io w)) n atyp -> F Undefined) ->
  wpf (request_destination hclose a c (b_read b) n atyp) Q F w.
Proof.
  intros atyp Hco Hnone Hb Hdata Hn Hlen HQ HR HF. unfold request_destination. rewrite Hdata.
  apply wpf_bind. apply wp_sel_do; [constructor|by apply Hco|]. intros s' Hs' Hreg.
  set (w1 := lput sel_lens s' w).
  assert (Hp1 : progress a c [] [] w w1) by (split; simpl; try done; by rewrite insert_id by apply Hco).
  assert (Hco1 : conn_ok w1 a c st) by (eapply conn_ok_same; [exact Hco|exact Hp1]).
  destruct (request_fields (contents b) n Hlen) as (p0 & p1 & Ep & Ep0 & Ep1).
  apply wpf_bind. rewrite <- Nat.add_assoc. eapply wp_lift; [by eapply load16_spec|].
  assert (Hport : Zb p0 + 256 * Zb p1 = port_field (take 2 (drop (4 + n) (contents b))))
    by (by rewrite Ep).
  destruct (Z.eqb_spec atyp ATYP_DOMAIN_NAME) as [Ha|Ha].
  - apply wpf_bind, wp_malloc. intros [area|] e2 i2 Em2 _ Ht2 Hal; cbn [w_io w1 lput sel_lens] in Em2.
    + specialize (Hal area eq_refl). apply wpf_wp.
      apply wp_bind. eapply wp_lift; [apply contents_read; [done|lia]|].
      set (name := take (n - 1) (drop 5 (contents b))).
      assert (Hnl : length name = (n - 1)%nat) by (apply length_take_le; rewrite length_drop; lia).
      destruct (store_name area name) as (m & E1 & E2); [lia|]. rewrite Hnl in E2.
      apply wp_bind. eapply wp_lift; [exact E1|]. apply wp_bind. eapply wp_lift; [exact E2|].
      apply wp_bind. eapply wp_upd_client; [by apply Hco1|]. apply wp_ret. eapply HQ.
      * eapply progress_silent; [exact Hp1|].
        eapply progress_silent; [apply progress_io; [apply Hco1|apply Hco1|exact Ht2]|].
        apply progress_upd. apply Hco1.
      * apply dp_name; [done|done|by rewrite Em2].
    + apply wpf_bind. eapply wp_upd_client; [by apply Hco1|]. unfold wpf, empty_reply, server_reply.
      set (w2 := lput clients_lens _ _).
      assert (Hc2 : w_clients w2 !! a = Some (set_dest None (dest_port c) c)) by apply lookup_insert_eq.
      unfold mbind, M_bind, get_client, lift. rewrite Hc2, log_access_null by done. apply HF. left.
      split; [done|]. by rewrite Em2.
  - apply wpf_bind. eapply wp_lift; [apply contents_read; [done|lia]|].
    fold (addr_family atyp). eapply wpf_connect_numeric; [exact Hco1|done|done|done|..].
    + intros m e' w2 Em Hs2 Hp2. eapply HQ; [exact (progress_silent _ _ _ _ _ _ _ _ Hp1 Hp2)|].
      by eapply dp_addr.
    + intros cb line evs w2 c1 ends Hnd Hmem Hcb Hev Hp2 Hco2.
      eapply HR; [done|exact Hmem|exact Hcb|exact Hev| |exact Hco2].
      pose proof (progress_trans _ _ _ _ _ _ _ _ _ _ Hp1 Hp2) as Hp. by rewrite app_nil_r in Hp.
    + intros [[? _]|[_ Hm]]; [done|]. apply HF. right. split; [done|exact Hm].
Qed.

(** ** The whole handler *)

(** The log line and the closing say nothing about the bytes received. *)
Lemma received_refused fd evs line t :
  Forall close_event evs -> received fd ((evs ++ [EvLog line]) ++ t) = received fd t.
Proof. intros Hev. rewrite <- app_assoc. apply (close_events_quiet evs (EvLog line :: t) fd Hev). Qed.

Lemma dest_conn_ok w w' a c st e l n atyp next c' :
  conn_ok w a c st -> progress a c' [] [] w w' -> dest_post c e l n atyp next c' -> conn_ok w' a c' st.
Proof.
  intros Hco Hp Hd. eapply conn_ok_progress; [exact Hco|exact Hp|..]; destruct Hd; try done; apply Hco.
Qed.

Lemma dest_request c st e d b l n cmd atyp first next c' :
  parse_request (contents (origin_buf c) ++ d) =
    RqFull cmd atyp (take n (drop 4 l)) (take 2 (drop (4 + n) l)) (contents b) ->
  (6 + n <= length l)%nat ->
  Zb cmd = CONNECT -> request_addrLen (Zb atyp) first = Some n -> l !! 4%nat = Some first ->
  dest_post (set_origin_buf b (set_atyp (Zb atyp) c)) e l n (Zb atyp) next c' ->
  request_post c st false e d next c'.
Proof.
  intros Hpr Hlen Hcmd Hn Hf Hd. unfold request_addrLen in Hn. destruct Hd as [port Ha -> Hm|port f m e' Ha -> -> Hm Hm'].
  - rewrite Ha in Hn. simpl in Hn. injection Hn as <-.
    destruct (drop 4 l) as [|x l4] eqn:E4; [|].
    { apply (f_equal length) in E4. rewrite length_drop in E4. apply lookup_lt_Some in Hf.
      simpl in E4. lia. }
    assert (Hl5 : drop 5 l = l4) by (change 5%nat with (4 + 1)%nat; by rewrite <- drop_drop, E4).
    assert (Hl4 : length (take (Z.to_nat (Zb first)) l4) = Z.to_nat (Zb first)).
    { apply length_take_le. apply (f_equal length) in E4. rewrite length_drop in E4. simpl in E4. lia. }
    rewrite Hl5. replace (S (Z.to_nat (Zb first)) - 1)%nat with (Z.to_nat (Zb first)) by lia.
    eapply rp_name; [done|exact Hpr|done|done|]. by rewrite Hl4.
  - eapply rp_addr; [done|exact Hpr|done| |exact Hm|exact Hm'].
    unfold addr_family. repeat case_match; tests; simplify_eq; [by left|by right].
Qed.

(** The length of the address field of a request. *)
Lemma addrLen_taken (l : list byte) n : (6 + n <= length l)%nat -> length (take n (drop 4 l)) = n.
Proof. intros Hl. apply length_take_le. rewrite length_drop. lia. Qed.

Lemma wpf_read_proxy_request a c st w key n d w1 :
  conn_ok w a c st -> key_data key = a -> key_fd key = client_sock c -> dest_fqdn c = None ->
  read_step a c w n d w1 ->
  wpf (read_proxy_request hclose key)
    (fun next w' => exists c' fds evs, progress a c' fds evs w w' /\ conn_ok w' a c' st /\
       received (client_sock c) evs = d /\
       request_post c st (at_eof n w1) (io_os (w_io w1)) d next c')
    (request_fault c (at_eof n w1) (io_os (w_io w1)) d) w.
Proof.
  intros Hco <- Hfd Hnone Hread. set (a := key_data key) in *. unfold read_proxy_request. fold a.
  apply wpf_bind. eapply wp_get_client; [by apply Hco|].
  apply wpf_bind, wp_massert; [by apply Z.eqb_eq|].
  eapply wpf_receive_exact; [exact Hco|exact Hread|]. intros b evs Hp1 Hco1 Hd Hc _ _.
  pose proof (co_obuf _ _ _ _ Hco1) as Hb. cbn [origin_buf set_origin_buf] in Hb. split.
  { intros -> Hnil. eapply wpf_refuse; [exact Hco1|done|by intros Ha; split; [|left]|].
    intros cb line evs2 w2 ends Ha Hcb Hev Hp2 Hcoe. eexists _, _, _.
    split; [exact (progress_trans _ _ _ _ _ _ _ _ _ _ Hp1 Hp2)|]. split; [exact Hcoe|].
    rewrite received_refused by done. split; [done|].
    apply (rp_eof c st true _ d b cb); try done. by rewrite Hc, Hnil, app_nil_r. }
  intros ->. apply wpf_bind. eapply wp_get_client; [by apply Hco1|].
  apply wpf_bind. eapply wp_lift; [by apply read_ptr_wf|]. cbn [origin_buf set_origin_buf].
  destruct (Nat.ltb_spec (length (contents b)) 5) as [Hshort|Hlong].
  { apply wpf_wp. eapply wp_c_stm_state; [exact Hco1|]. eexists _, _, _. split; [exact Hp1|]. split; [exact Hco1|].
    split; [done|]. apply rp_short; [done|done|].
    by destruct (contents b) as [|? [|? [|? [|? [|? ?]]]]]; simpl in Hshort; try lia. }
  destruct (contents b) as [|v [|cmd [|rsv [|atyp [|first l']]]]] eqn:EL; simpl in Hlong; try lia.
  clear Hlong. rewrite <- EL in *.
  assert (Hget : forall k x, (v :: cmd :: rsv :: atyp :: first :: l') !! k = Some x ->
    mem_get (b_data b) (b_read b + k) = Done x)
    by (intros k x Hk; rewrite <- EL in Hk; by apply contents_get).
  apply wpf_bind. eapply wp_lift; [by apply (Hget 3%nat)|].
  apply wpf_bind. eapply wp_upd_client; [by apply Hco1|].
  set (c2 := set_atyp (Zb atyp) (set_origin_buf b c)). set (w2 := lput clients_lens _ w1).
  assert (Hp12 : progress a c2 [] [] w1 w2) by (apply progress_upd, Hco1).
  assert (Hco2 : conn_ok w2 a c2 st)
    by (eapply conn_ok_progress; [exact Hco1|exact Hp12|done|..]; apply Hco1).
  pose proof (progress_silent _ _ _ _ _ _ _ _ Hp1 Hp12) as Hp2.
  apply wpf_bind. eapply wp_lift; [by apply (Hget 4%nat)|].
  assert (Hpr : parse_request (contents b) =
    match request_addrLen (Zb atyp) first with
    | None => RqBadType atyp
    | Some n => if (length (contents b) <? 6 + n)%nat then RqWait (Some atyp)
        else RqFull cmd atyp (take n (drop 4 (contents b))) (take 2 (drop (4 + n) (contents b)))
               (drop (6 + n) (contents b))
    end) by (by rewrite EL).
  destruct (request_addrLen (Zb atyp) first) as [k|] eqn:Ean.
  2: { assert (Hnd : c_atyp c2 <> ATYP_DOMAIN_NAME).
    { unfold c2. simpl. intros Ha. unfold request_addrLen in Ean. by rewrite Ha in Ean. }
    eapply wpf_refuse; [exact Hco2|done|done|].
    intros cb line evs3 w3 ends _ Hcb Hev Hp3 Hcoe. eexists _, _, _.
    split; [exact (progress_trans _ _ _ _ _ _ _ _ _ _ Hp2 Hp3)|]. split; [exact Hcoe|].
    rewrite received_refused by done. split; [done|]. by apply (rp_type c st false _ d b atyp cb). }
  destruct (Nat.ltb_spec (length (contents b)) (6 + k)) as [Hlt|Hge].
  { apply wpf_wp. eapply wp_c_stm_state; [exact Hco2|]. eexists _, _, _. split; [exact Hp2|]. split; [exact Hco2|].
    split; [done|]. by apply rp_wait. }
  destruct (buffer_read_adv_spec b (k + 6) Hb) as (b' & Eb' & Hb' & Hcb' & _ & Hdata & _); [lia|].
  rewrite Nat.add_comm in Hcb'. rewrite Nat2Z.inj_add in Eb'.
  apply wpf_bind. eapply wp_on_origin_buf_io; [exact Hco2|exact Eb'|exact Hb'|]. intros w3 Hp23 Hio Hco3.
  pose proof (progress_silent _ _ _ _ _ _ _ _ Hp2 Hp23) as Hp3.
  assert (Hos : io_os (w_io w3) = io_os (w_io w1)) by (by rewrite Hio).
  set (c3 := set_origin_buf b' c2) in *. rewrite Hc in Hpr.
  apply wpf_bind. eapply wp_get_client; [by apply Hco3|].
  change (b_data (origin_buf c3)) with (b_data b'). rewrite Hdata.
  apply wpf_bind. eapply wp_lift; [by apply (Hget 1%nat)|]. rewrite <- Hc in Hpr at 2 3 4.
  rewrite <- Hcb' in Hpr. destruct (Z.eqb_spec (Zb cmd) CONNECT) as [Hcmd|Hcmd]; cbn [negb].
  - change (Zb atyp) with (c_atyp c3) at 1.
    eapply (wpf_request_destination _ _ st b); [exact Hco3|done|done|done| |lia|..]; rewrite ?Hos.
    { unfold request_addrLen in Ean. repeat case_match; simplify_eq; lia. }
    + intros next c4 w4 Hp4 Hdest. eexists _, _, _.
      split; [exact (progress_silent _ _ _ _ _ _ _ _ Hp3 Hp4)|].
      split; [by eapply dest_conn_ok|]. split; [done|].
      eapply dest_request; [exact Hpr|exact Hge|exact Hcmd|exact Ean|by rewrite EL|exact Hdest].
    + intros cb line evs4 w4 c4 ends Ha Hmem Hcb Hev Hp4 Hcoe. rewrite Hos in Hmem. eexists _, _, _.
      split; [exact (progress_trans _ _ _ _ _ _ _ _ _ _ Hp3 Hp4)|]. split; [exact Hcoe|].
      rewrite received_refused by done. split; [done|].
      exact (rp_memory c st false _ d b' cmd atyp _ _ cb _ eq_refl Hpr Hcmd Ha Hmem Hcb eq_refl).
    + intros Hf. split; [done|]. right. split; [done|].
      eexists cmd, atyp, _, _, (contents b'). split; [exact Hpr|]. rewrite addrLen_taken by done.
      destruct Hf as [[Ha Hm]|[Ha Hm]]; [left; auto|right; auto].
  - eapply wpf_refuse; [exact Hco3|done| |].
    { intros Ha. split; [done|]. right. split; [done|].
      eexists cmd, atyp, _, _, (contents b'). split; [exact Hpr|]. left. auto. }
    intros cb line evs4 w4 ends Ha Hcb Hev Hp4 Hcoe. eexists _, _, _.
    split; [exact (progress_trans _ _ _ _ _ _ _ _ _ _ Hp3 Hp4)|]. split; [exact Hcoe|].
    rewrite received_refused by done. split; [done|].
    by apply (rp_command c st false _ d b' cmd atyp _ _ cb _ eq_refl Hpr).
Qed.

(** Faults and results exclude each other. *)
Lemma request_fault_not_post c st eof e d f next c' :
  request_fault c eof e d f -> ~ request_post c st eof e d next c'.
Proof.
  intros [_ Hf] Hp. destruct Hf as [[-> Ha]|[-> (cmd & atyp & addr & port & rest & Hpr & Hc)]].
  - destruct Hp; done.
  - destruct Hp as [b cb ends ?|b _ Hb Hw|b at0 _ Hb Hw|b at0 cb ends _ Hb Hw
      |b cmd0 at0 addr0 port0 cb ends _ Hw H1 H2|b cmd0 at0 k name port0 _ Hw H1 H2 H3
      |b cmd0 at0 addr0 port0 f0 m0 e0 _ Hw H1 H2 H3 H4|b cmd0 at0 addr0 port0 cb ends _ Hw H1 H2 H3];
      [done|congruence|congruence|congruence|..]; rewrite Hpr in Hw; injection Hw as -> -> -> -> _.
    + destruct Hc as [[? _]|(_ & ? & _)]; done.
    + destruct Hc as [[_ [?|Hm]]|(? & _)]; [done| |done]. simpl in Hm. rewrite Hm in H3. by destruct H3.
    + destruct Hc as [[Ha _]|(_ & _ & m & e1 & Hm & Hm')].
      * destruct H2 as [[E2 _]|[E2 _]]; rewrite E2 in Ha; discriminate.
      * rewrite Hm in H3. injection H3 as -> ->.
        replace (addr_family (Zb at0)) with f0 in Hm' by (by destruct H2 as [[-> ->]|[-> ->]]).
        rewrite Hm' in H4. by destruct H4.
    + destruct Hc as [[? _]|(_ & _ & m & e1 & Hm & _)]; [done|]. by rewrite Hm in H3.
Qed.

(** C11. The request, on every input and with any result of the allocations,
    when the destination is not set: with [d] the bytes the read delivered, the
    handler waits while the request is incomplete; it refuses a type of address
    or a command it does not support with the reply of that error; of a complete
    [CONNECT] it consumes exactly the bytes, and records the name to resolve or
    the address to connect to, with the port of the request, or refuses it when
    there is no memory for the node of the address. It faults exactly in the
    cases of [request_fault]: the refusal is logged through a name that is not
    set (at the end of the stream after the beginning of a request for a name,
    for a complete one whose command is not [CONNECT], and without memory for the
    name) or through a node that was freed (without memory for the address). *)
Theorem read_proxy_request_correct (w : world E) (key : selector_key) (c : client) (st : nat) :
  conn_ok w (key_data key) c st -> key_fd key = client_sock c -> dest_fqdn c = None ->
  exists n d w1, read_step (key_data key) c w n d w1 /\
    let eof := at_eof n w1 in let e := io_os (w_io w1) in
    ((exists next w' c' fds evs, read_proxy_request hclose key w = Done (next, w') /\
        progress (key_data key) c' fds evs w w' /\ conn_ok w' (key_data key) c' st /\
        received (client_sock c) evs = d /\ request_post c st eof e d next c') \/
     (exists f, read_proxy_request hclose key w = Fault f /\ request_fault c eof e d f)) /\
    (forall f, read_proxy_request hclose key w = Fault f <-> request_fault c eof e d f).
Proof.
  intros Hco Hfd Hnone. destruct (read_step_exists _ c st w Hco) as (n & d & w1 & Hr). exists n, d, w1.
  split; [done|]. pose proof (wpf_read_proxy_request _ c st w key n d w1 Hco eq_refl Hfd Hnone Hr) as Hw.
  unfold wpf in Hw. destruct (read_proxy_request hclose key w) as [[next w']|f].
  - destruct Hw as (c' & fds & evs & Hp & Hco' & Hd & Hpost). split; [left; by exists next, w', c', fds, evs|].
    intros f. split; [done|]. intros Hf. by destruct (request_fault_not_post _ st _ _ _ _ _ _ Hf Hpost).
  - split; [right; eauto|]. intros f'. split; [by intros [= <-]|]. intros [-> _]. by destruct Hw as [-> _].
Qed.

(** C34. Every request for a name that is not a [CONNECT] makes the server read
    through a null pointer: when a read completes such a request, whatever the
    connection and the process, its refusal is logged with the name of a
    destination that is not set. *)
Theorem refused_name_reads_null (w : world E) (key : selector_key) (c : client) (st : nat)
    (n : Z) (d : list byte) (w1 : world E) (cmd atyp : byte) (addr port rest : list byte) :
  conn_ok w (key_data key) c st -> key_fd key = client_sock c -> dest_fqdn c = None ->
  read_step (key_data key) c w n d w1 -> 0 < n ->
  parse_request (contents (origin_buf c) ++ d) = RqFull cmd atyp addr port rest ->
  Zb atyp = ATYP_DOMAIN_NAME -> Zb cmd <> CONNECT ->
  read_proxy_request hclose key w = Fault Undefined.
Proof.
  intros Hco Hfd Hnone Hr Hn Hpr Ha Hc.
  pose proof (wpf_read_proxy_request _ c st w key n d w1 Hco eq_refl Hfd Hnone Hr) as Hw. unfold wpf in Hw.
  assert (Heof : at_eof n w1 = false).
  { unfold at_eof. rewrite (proj2 (Z.eqb_neq _ _)), (proj2 (Z.ltb_ge _ _)) by lia. done. }
  assert (Hf : request_fault c (at_eof n w1) (io_os (w_io w1)) d Undefined).
  { split; [done|]. right. split; [done|]. eexists cmd, atyp, addr, port, rest. split; [done|]. left. auto. }
  destruct (read_proxy_request hclose key w) as [[next w']|f].
  - destruct Hw as (c' & fds & evs & _ & _ & _ & Hpost). by destruct (request_fault_not_post _ _ _ _ _ _ _ _ Hf Hpost).
  - by destruct Hw as [-> _].
Qed.
End Request.

(** A complete request for a name that is not a [CONNECT]: BIND to
    "a", port 80. *)
Definition bind_request : list byte :=
  [Byte.x05; Byte.x02; Byte.x00; Byte.x03; Byte.x01; Byte.x61; Byte.x00; Byte.x50].

Lemma refused_name_reads_null_witness :
  let b := buffer_init 16 (repeat NUL 16) in
  let c := sample_client REQUEST CLIENT b b in
  let w := sample_world [bind_request] c in
  conn_ok w 1 c REQUEST /\
  read_proxy_request (fun _ => None) (SelectorKey 5 1) w = Fault Undefined.
Proof.
  intros b c w.
  assert (Hb : buffer_wf b) by (split_and!; [simpl; lia|simpl; lia|apply repeat_length]).
  assert (H1 : conn_ok w 1 c REQUEST)
    by (apply sample_conn_ok; [unfold REQUEST; lia|vm_compute; split; congruence|done|done]).
  split; [exact H1|].
  destruct (recv_client 1 w) as [[n w1]|] eqn:Er; [|vm_compute in Er; discriminate Er].
  assert (H2 : read_step 1 c w n bind_request w1 /\ 0 < n).
  { unfold read_step. rewrite Er. vm_compute in Er. injection Er as <- <-. split; [|reflexivity].
    split; [reflexivity|]. exists [EvRecv 5 bind_request]. split; reflexivity. }
  destruct H2 as [H2 H3].
  apply (refused_name_reads_null (fun _ => None) eq_refl w (SelectorKey 5 1) c REQUEST n bind_request w1
    Byte.x02 Byte.x03 [Byte.x01; Byte.x61] [Byte.x00; Byte.x50] [] H1 eq_refl eq_refl H2 H3);
    [reflexivity|reflexivity|discriminate].
Defined.

Lemma read_proxy_request_correct_witness :
  let b := buffer_init 600 (repeat NUL 600) in
  let c := sample_client REQUEST CLIENT b b in
  let w := sample_world [[Byte.x05; Byte.x01; Byte.x00; Byte.x03; Byte.x01] ++ lit "h" ++
                         [Byte.x00; Byte.x50]] c in
  conn_ok w 1 c REQUEST /\ key_fd (SelectorKey 5 1) = client_sock c /\ dest_fqdn c = None /\
  exists w', read_proxy_request (fun _ => None) (SelectorKey 5 1) w = Done (RESOLVING, w').
Proof.
  intros b c w.
  assert (Hb : buffer_wf b) by (split_and!; [simpl; lia|simpl; lia|apply repeat_length]).
  assert (H1 : conn_ok w 1 c REQUEST)
    by (apply sample_conn_ok; [unfold REQUEST; lia|vm_compute; split; congruence|done|done]).
  split_and!; try done.
  destruct (read_proxy_request_correct (fun _ => None) eq_refl w (SelectorKey 5 1) c REQUEST H1
    eq_refl eq_refl) as (n & d & w1 & _ & [(next & w' & c' & fds & evs & Er & _)|(f & Er & _)] & _).
  - assert (Hn : next = RESOLVING) by (pose proof Er as E'; vm_compute in E'; by injection E' as <- _).
    subst next. exists w'. exact Er.
  - exfalso. vm_compute in Er. discriminate Er.
Defined.
