(* ===== verification/Clients.v ===== *)
(** * Clients: src/clients.c

    The life of a SOCKS connection after the handshake: resolving the name,
    connecting to the origin, relaying in both directions and releasing the
    struct; the table of states; and the handler that accepts connections. *)

From S2P Require Import Prelude Buffer Os SocketsIO State Users Pop3Sniffer Selector Stm World Util.
From S2P Require Import CloseClient Handshake.

Local Open Scope Z_scope.

Definition POP3_PORT : Z := 110.

(** [sizeof(struct sockaddr)], the type of the member [client_addr], and the
    length the kernel reports for an address of each family. *)
Definition sizeof_sockaddr : nat := 16.
Definition sockaddr_len (f : family) : nat :=
  match f with AF_INET => 16 | AF_INET6 => 28 | AF_OTHER => 16 end.

Definition check_connection_error (error : Z) : Z :=
  if error =? EADDRNOTAVAIL then REPLY_ADDRESS_NOT_SUPPORTED
  else if error =? ECONNRESET then REPLY_NOT_ALLOWED
  else if error =? ECONNREFUSED then REPLY_CONNECTION_REFUSED
  else if error =? ENETUNREACH then REPLY_NETWORK_UNREACHABLE
  else if error =? EHOSTUNREACH then REPLY_HOST_UNREACHABLE
  else if error =? ETIMEDOUT then REPLY_TTL_EXPIRED
  else REPLY_SERVER_FAILURE.

Section Clients.
Context {E : Type} `{OS E}.
Context (hclose : handler_id -> option (selector_key -> M (world E) unit)).

(** ** Resolving *)

Definition start_name_resolution (state : nat) (key : selector_key) : M (world E) unit :=
  modify (fun w => lput threads_lens (key_data key :: w_threads w) w).

(** What the thread does with the struct it was given, when the resolver has
    answered: the selector is told through the descriptor in the struct. *)
Definition thread_name_resolution (a : Z) : M (world E) unit :=
  c ← get_client a;
  host ← lift (of_option Undefined (dest_fqdn c));
  l ← sys (sys_getaddrinfo (cstr host) (ntohs (u16 (dest_port c))));
  upd_client a (set_resolution ((fun s => Addrinfo (sa_family s) s) <$> l));;
  ok ← sel_alloc;
  on_selector (fun s => Done (selector_notify_block ok (client_sock c) s));;
  modify (fun w => lput threads_lens (remove Z.eq_dec a (w_threads w)) w).

Definition handle_finished_resolution (key : selector_key) : M (world E) nat :=
  upd_client (key_data key) (fun c => set_curr_addr (resolution c) c);;
  mret CONNECTING.

(** ** Connecting *)

Definition create_connection (state : nat) (key : selector_key) : M (world E) unit :=
  c ← get_client (key_data key);
  sel_do (selector_add_interest (client_sock c) OP_WRITE).

Definition try_connect (key : selector_key) : M (world E) nat :=
  let a := key_data key in
  c ← get_client a;
  match curr_addr c with
  | [] => mfault Abort
  | aip :: _ =>
      sock ← sys (sys_socket (ai_family aip));
      upd_client a (set_origin_sock (default (-1) sock));;
      match sock with
      | Some sock =>
          sys (selector_fd_set_nio sock);;
          r ← sys (sys_connect sock (ai_addr aip));
          errno ← gets (fun w => io_errno (w_io w));
          if bool_decide (is_Some r) || (errno =? EINPROGRESS) then
            st ← do_register sock (Some H_socks5) OP_WRITE a;
            if bool_decide (st <> SELECTOR_SUCCESS) then
              sys (sys_close sock);;
              empty_reply a REPLY_SERVER_FAILURE;;
              closeClient hclose a CLIENT_READ
            else mret CONNECTING
          else
            empty_reply a (check_connection_error errno);;
            closeClient hclose a CLIENT_READ
      | None =>
          empty_reply a REPLY_SERVER_FAILURE;;
          closeClient hclose a CLIENT_READ
      end
  end.

(** [malloc(sizeof(pop3_parser))] and [init_parser] of the new area; the two
    arrays are at offsets 6 and 46 of the struct. *)
Definition new_pop3_parser (a : Z) : M (world E) unit :=
  area ← sys (sys_malloc 128);
  match area with
  | None => upd_client a (set_pop3 None)
  | Some m =>
      user ← lift (mem_read m 6 MAX_CREDENTIALS_LEN);
      pass ← lift (mem_read m 46 MAX_CREDENTIALS_LEN);
      let p := Pop3Parser POP3_USER_CMD false false user pass (buffer_init 0 []) 0 0 in
      upd_client a (set_pop3 (Some (init_parser p)))
  end.

Definition origin_check_connection (key : selector_key) : M (world E) nat :=
  let a := key_data key in
  c ← get_client a;
  if key_fd key =? client_sock c then
    sel_do (selector_remove_interest (client_sock c) OP_WRITE);;
    match curr_addr c with
    | [] =>
        empty_reply a REPLY_HOST_UNREACHABLE;;
        closeClient hclose a CLIENT_READ
    | _ => try_connect key
    end
  else
    error ← sys (sys_so_error (origin_sock c));
    match curr_addr c with
    | [] => mfault Undefined
    | aip :: next =>
        if error =? 0 then
          upd_client a (set_active_ends (Z.lor (active_ends c) ORIGIN));;
          sel_do (selector_set_interest (origin_sock c) (Z.lor OP_READ OP_WRITE));;
          sel_do (selector_set_interest (client_sock c) (Z.lor OP_READ OP_WRITE));;
          saddr ← sys (sys_getsockname (origin_sock c));
          server_reply a REPLY_SUCCEEDED
            (if bool_decide (ai_family aip = AF_INET) then ATYP_IPV4 else ATYP_IPV6)
            (sa_ip saddr) (sa_port saddr);;
          let port := if bool_decide (ai_family aip = AF_INET)
                      then ntohs (sa_port (ai_addr aip)) else 0 in
          when (port =? POP3_PORT) (new_pop3_parser a);;
          mret PROXY
        else
          selector_unregister_fd hclose (origin_sock c);;
          match next with
          | _ :: _ => upd_client a (set_curr_addr next);; try_connect key
          | [] =>
              empty_reply a (check_connection_error error);;
              closeClient hclose a CLIENT_READ
          end
    end.

(** ** Relaying *)

(** The sniffer on the bytes towards the origin, when it is on. *)
Definition sniff_client (a : Z) : M (world E) unit :=
  c ← get_client a;
  dissect ← gets (fun w => get_dissector_state (w_state w));
  match c_pop3 c with
  | Some p =>
      when dissect
        ('(found, p) ← lift (pop3_parse p (origin_buf c));
         upd_client a (set_pop3 (Some p));;
         when found
           (c ← get_client a;
            line ← lift (log_sniffer_info c (p_user p) (p_pass p));
            sys (emit (EvLog line))))
  | None => mret tt
  end.

(** A first byte from the origin that looks like a POP3 reply starts it. *)
Definition sniff_origin (a : Z) : M (world E) unit :=
  c ← get_client a;
  first ← lift (mem_get (b_data (client_buf c)) (b_read (client_buf c)));
  when (bool_decide (c_pop3 c = None) && ((Zb first =? 43) || (Zb first =? 45)))
    (new_pop3_parser a).

Definition handle_proxy_read (key : selector_key) : M (world E) nat :=
  let a := key_data key in
  c ← get_client a;
  if client_sock c =? key_fd key then
    if negb (buffer_can_write (origin_buf c)) then
      sel_do (selector_mask_interest (client_sock c) OP_READ);;
      c_stm_state a
    else
      bytes_read ← recv_client a;
      eof ← sys (checkEOF bytes_read);
      if (eof : bool) then closeClient hclose a CLIENT_READ
      else
        sel_do (selector_unmask_interest (origin_sock c) OP_WRITE);;
        sniff_client a;;
        c_stm_state a
  else if origin_sock c =? key_fd key then
    if negb (buffer_can_write (client_buf c)) then
      sel_do (selector_mask_interest (origin_sock c) OP_READ);;
      c_stm_state a
    else
      bytes_read ← recv_origin a;
      eof ← sys (checkEOF bytes_read);
      if (eof : bool) then closeClient hclose a ORIGIN_READ
      else
        sel_do (selector_unmask_interest (client_sock c) OP_WRITE);;
        sniff_origin a;;
        c_stm_state a
  else mfault Abort.

(** [add_bytes(bytes_to_write - bytes_left)] at the end of the handler. *)
Definition count_bytes (a : Z) (bytes_to_write : nat) (bytes_left : Z) : M (world E) nat :=
  st ← c_stm_state a;
  when (st =? PROXY)%nat (upd_state (add_bytes (u64 (Z.of_nat bytes_to_write - bytes_left))));;
  c_stm_state a.

Definition handle_proxy_write (key : selector_key) : M (world E) nat :=
  let a := key_data key in
  c ← get_client a;
  if client_sock c =? key_fd key then
    if negb (buffer_can_read (client_buf c)) then
      st ← c_stm_state a;
      if negb (flag (active_ends c) ORIGIN_READ) && (PROXY <=? st)%nat
      then closeClient hclose a CLIENT_WRITE
      else sel_do (selector_mask_interest (key_fd key) OP_WRITE);; c_stm_state a
    else
      '(bytes_to_write, _) ← lift (buffer_read_ptr (client_buf c));
      bytes_left ← send_client a;
      eof ← sys (checkEOF bytes_left);
      if negb (bytes_left =? 0) && eof then closeClient hclose a CLIENT_WRITE
      else
        sel_do (selector_unmask_interest (origin_sock c) OP_READ);;
        count_bytes a bytes_to_write bytes_left
  else if origin_sock c =? key_fd key then
    if negb (buffer_can_read (origin_buf c)) then
      if negb (flag (active_ends c) CLIENT_READ) then closeClient hclose a ORIGIN_WRITE
      else sel_do (selector_mask_interest (key_fd key) OP_WRITE);; c_stm_state a
    else
      '(bytes_to_write, _) ← lift (buffer_read_ptr (origin_buf c));
      bytes_left ← send_origin a;
      eof ← sys (checkEOF bytes_left);
      if negb (bytes_left =? 0) && eof then closeClient hclose a ORIGIN_WRITE
      else
        sel_do (selector_unmask_interest (client_sock c) OP_READ);;
        count_bytes a bytes_to_write bytes_left
  else mfault Abort.

(** ** Release *)

(** The list of addresses, the name, the parser, the machine and the two arrays
    are members of the struct here, where the source has pointers to areas the
    struct alone owns: removing the struct releases them all. *)
Definition client_destroy (state : nat) (key : selector_key) : M (world E) unit :=
  upd_state rm_proxy_client;;
  free_client (key_data key).

(** ** The machine *)

Definition state_actions : list (state_definition (world E)) := [
  StateDefinition AUTH_METHOD None None (Some (read_auth_method hclose)) None None;
  StateDefinition PLAIN_AUTH None None (Some (read_plain_auth hclose))
    (Some handle_proxy_write) None;
  StateDefinition REQUEST None None (Some (read_proxy_request hclose))
    (Some handle_proxy_write) None;
  StateDefinition RESOLVING (Some start_name_resolution) None None
    (Some handle_proxy_write) (Some handle_finished_resolution);
  StateDefinition CONNECTING (Some create_connection) None None
    (Some origin_check_connection) None;
  StateDefinition PROXY None None (Some handle_proxy_read) (Some handle_proxy_write) None;
  StateDefinition DONE (Some client_destroy) None None None None;
  StateDefinition WRITE_REMAINING (Some (fun _ key => enable_write (key_data key))) None None
    (Some handle_proxy_write) None
].

Definition socksv5_read (key : selector_key) : M (world E) unit :=
  stm_handler_read state_actions (client_stm (key_data key)) key;; mret tt.
Definition socksv5_write (key : selector_key) : M (world E) unit :=
  stm_handler_write state_actions (client_stm (key_data key)) key;; mret tt.
Definition socksv5_block (key : selector_key) : M (world E) unit :=
  stm_handler_block state_actions (client_stm (key_data key)) key;; mret tt.

Definition socks5_handler : fd_handler (world E) :=
  FdHandler (Some socksv5_read) (Some socksv5_write) (Some socksv5_block) None.

(** ** New connections *)

(** [None] when an allocation fails; what was allocated is freed then. *)
Definition create_client (sock : Z) : M (world E) (option Z) :=
  new_client ← alloc_addr 512;
  match new_client with
  | None => mret None
  | Some a =>
      stm ← sys (sys_malloc 32);
      match stm with
      | None => mret None
      | Some _ =>
          buffsize ← gets (fun w => get_buffsize (w_state w));
          client_buf_raw ← sys (sys_malloc (Z.to_nat buffsize));
          origin_buf_raw ← sys (sys_malloc (Z.to_nat buffsize));
          match client_buf_raw, origin_buf_raw with
          | Some cb, Some ob =>
              m ← lift (stm_init state_actions (StateMachine AUTH_METHOD WRITE_REMAINING None));
              modify (fun w => lput clients_lens
                (<[a := Client sock (-1) (Sockaddr AF_OTHER [] 0) 0
                          (buffer_init (Z.to_nat buffsize) cb)
                          (buffer_init (Z.to_nat buffsize) ob)
                          (lit "?" ++ repeat NUL (MAX_CREDENTIALS - 1)) CLIENT None 0 [] [] m None]>
                   (w_clients w)) w);;
              mret (Some a)
          | _, _ => mret None
          end
      end
  end.

Definition master_read_handler (key : selector_key) : M (world E) unit :=
  room ← on_state add_proxy_client;
  if negb room then mret tt
  else
    conn ← sys (sys_accept (key_fd key));
    match conn with
    | None => upd_state rm_proxy_client
    | Some (new_socket, clntAddr) =>
        sys (selector_fd_set_nio new_socket);;
        new_client ← create_client new_socket;
        match new_client with
        | None => sys (sys_close new_socket);; upd_state rm_proxy_client
        | Some a =>
            if (sizeof_sockaddr <? sockaddr_len (sa_family clntAddr))%nat then mfault Undefined
            else
              upd_client a (set_client_addr clntAddr);;
              do_register new_socket (Some H_socks5) OP_READ a;;
              mret tt
        end
    end.
End Clients.
