(* ===== verification/RelaySpec.v ===== *)
(** * RelaySpec: the relay carries both streams unchanged

    [handle_proxy_read] and [handle_proxy_write] move bytes from one socket of
    a connection to the other through its two buffers. Each of them is shown to
    return on every outcome of the system calls, with its effect on the buffer,
    the open ends and the counters; and along every interleaving of the two, in
    both directions, the bytes received from one side are those sent to the
    other followed by those still in the buffer. *)

From S2P Require Import Prelude Buffer Os SocketsIO State Pop3Sniffer Selector SelectorSpec Stm World.
From S2P Require Import WorldLogic Util CloseClient Handshake HandshakeSpec Clients.

Local Open Scope Z_scope.

(** ** Traces *)

(** The events are those of one socket: bytes [d] received from [fd], and
    nothing else; bytes [l] sent to [fd], and nothing else; neither. *)
Definition only_recv (fd : Z) (d : list byte) (evs : list event) : Prop :=
  (forall fd', received fd' evs = if decide (fd' = fd) then d else []) /\ forall fd', sent fd' evs = [].
Definition only_sent (fd : Z) (l : list byte) (evs : list event) : Prop :=
  (forall fd', sent fd' evs = if decide (fd' = fd) then l else []) /\ forall fd', received fd' evs = [].
Definition transfer (ev : event) : bool :=
  match ev with EvRecv _ _ | EvSend _ _ => true | _ => false end.
Definition quiet (evs : list event) : Prop := Forall (fun ev => transfer ev = false) evs.

Lemma quiet_nil : quiet [].
Proof. constructor. Qed.
Lemma quiet_log line : quiet [EvLog line].
Proof. by repeat constructor. Qed.
#[local] Hint Resolve quiet_nil quiet_log : core.

Lemma quiet_close evs : Forall close_event evs -> quiet evs.
Proof. intros Hev. eapply Forall_impl; [exact Hev|]. by intros []. Qed.

Lemma quiet_streams evs fd : quiet evs -> received fd evs = [] /\ sent fd evs = [].
Proof. induction 1 as [|[] evs Hev _ IH]; simpl; done. Qed.

(** No read reported the end of the stream. *)
Definition no_eof (fd : Z) (evs : list event) : Prop := EvRecv fd [] ∉ evs.

Lemma no_eof_quiet fd evs q : quiet q -> no_eof fd evs -> no_eof fd (q ++ evs).
Proof.
  unfold no_eof. rewrite elem_of_app. intros Hq Hn [Hin|Hin]; [|done].
  by pose proof (proj1 (Forall_forall _ _) Hq _ Hin).
Qed.

Lemma only_recv_quiet fd d evs q : only_recv fd d evs -> quiet q -> only_recv fd d (q ++ evs).
Proof.
  intros [Hr Hs] Hq. split; intros fd'; destruct (quiet_streams q fd' Hq) as [Eq1 Eq2].
  - by rewrite received_app, Eq1, app_nil_r.
  - by rewrite sent_app, Eq2, app_nil_r.
Qed.

Lemma only_sent_quiet fd l evs q : only_sent fd l evs -> quiet q -> only_sent fd l (q ++ evs).
Proof.
  intros [Hs Hr] Hq. split; intros fd'; destruct (quiet_streams q fd' Hq) as [Eq1 Eq2].
  - by rewrite sent_app, Eq2, app_nil_r.
  - by rewrite received_app, Eq1, app_nil_r.
Qed.

Lemma only_recv_nil fd evs : quiet evs -> only_recv fd [] evs.
Proof. intros Hq. split; intros fd'; destruct (quiet_streams evs fd' Hq) as [E1 E2]; rewrite ?E1, ?E2; by try case_decide. Qed.

Lemma only_sent_nil fd evs : quiet evs -> only_sent fd [] evs.
Proof. intros Hq. split; intros fd'; destruct (quiet_streams evs fd' Hq) as [E1 E2]; rewrite ?E1, ?E2; by try case_decide. Qed.

Lemma recv_post_only sd b n b' evs :
  recv_post sd b [] n b' evs ->
  buffer_wf b' /\ b_read b' = b_read b /\
  exists d, contents b' = contents b ++ d /\ only_recv sd d evs /\ (n <= 0 -> d = []) /\
    (n <> 0 -> no_eof sd evs).
Proof.
  intros (Hwf & Hlim & [(-> & -> & ->)|(l & -> & _ & Hc & _ & Hrd & ->)]); (split_and!; try done).
  - exists []. rewrite app_nil_r. split_and!; try done; [by apply only_recv_nil|].
    intros _. apply not_elem_of_nil.
  - exists l. split_and!; [done|by split|by destruct l; [|simpl; lia]|]. intros Hn.
    unfold no_eof. rewrite list_elem_of_singleton. intros [= <-]. done.
Qed.

Lemma send_post_only sd b n b' evs :
  send_post sd b [] n b' evs ->
  buffer_wf b' /\ exists l, contents b = l ++ contents b' /\ only_sent sd l evs /\
    (n = -1 /\ l = [] /\ b' = b \/ n = Z.of_nat (length (contents b'))).
Proof.
  intros (Hwf & Hlim & [(-> & -> & ->)|(l & Hc & -> & _ & ->)]); (split; [done|]).
  - exists []. split_and!; try done; [by apply only_sent_nil|by left].
  - exists l. split_and!; [done|by split|by right].
Qed.

(** ** Directions *)

(** A direction of the relay: the socket read, the one written, the buffer
    between them, and the ends of the connection that these sockets provide. *)
Record dir := Dir {
  d_in : client -> Z; d_out : client -> Z;
  d_buf : client -> buffer; d_set : buffer -> client -> client;
  d_rend : Z; d_wend : Z
}.

Definition to_origin : dir :=
  Dir client_sock origin_sock origin_buf set_origin_buf CLIENT_READ ORIGIN_WRITE.
Definition to_client : dir :=
  Dir origin_sock client_sock client_buf set_client_buf ORIGIN_READ CLIENT_WRITE.

(** The outcomes of a read from the socket of direction [D] that delivered [d],
    with the events [evs]: the next state, the connection and the descriptors released. *)
Inductive pread_post (D : dir) (c : client) (st : nat) (d : list byte) (evs : list event) : nat -> client -> list Z -> Prop :=
| pr_full :
    room (d_buf D c) = 0%nat -> evs = [] -> d = [] -> pread_post D c st d evs st c []
| pr_data b p :
    contents b = contents (d_buf D c) ++ d -> no_eof (d_in D c) evs ->
    pread_post D c st d evs st (set_pop3 p (d_set D b c)) []
| pr_eof b e :
    d = [] -> contents b = contents (d_buf D c) -> e = close_ends (active_ends c) (d_rend D) ->
    pread_post D c st d evs (close_next st e) (set_active_ends e (d_set D b c)) (released_fds c e).

(** The outcomes of a write to the socket of direction [D] that sent [l], from
    the settings [s]; the last argument is what they become. The writing end is
    closed when the source has ended and everything was delivered, and when the
    call failed; a call that would block counts bytes that were not sent. *)
Inductive pwrite_post (D : dir) (c : client) (st : nat) (l : list byte) (s : server_state)
    : nat -> client -> list Z -> server_state -> Prop :=
| pw_idle :
    contents (d_buf D c) = [] -> l = [] ->
    flag (active_ends c) (d_rend D) = true \/ (st < PROXY)%nat ->
    pwrite_post D c st l s st c [] s
| pw_finish e :
    contents (d_buf D c) = [] -> l = [] -> flag (active_ends c) (d_rend D) = false ->
    e = close_ends (active_ends c) (d_wend D) ->
    pwrite_post D c st l s (close_next st e) (set_active_ends e c) (released_fds c e) s
| pw_sent b :
    contents (d_buf D c) <> [] -> contents (d_buf D c) = l ++ contents b ->
    pwrite_post D c st l s st (d_set D b c) []
      (if decide (st = PROXY) then add_bytes (u64 (Z.of_nat (length l))) s else s)
| pw_again :
    contents (d_buf D c) <> [] -> l = [] ->
    pwrite_post D c st l s st (d_set D (d_buf D c) c) []
      (if decide (st = PROXY)
       then add_bytes (u64 (Z.of_nat (length (contents (d_buf D c))) + 1)) s else s)
| pw_failed e :
    contents (d_buf D c) <> [] -> l = [] -> e = close_ends (active_ends c) (d_wend D) ->
    pwrite_post D c st l s (close_next st e) (set_active_ends e (d_set D (d_buf D c) c))
      (released_fds c e) s.

Section Relay.
Context {E : Type} `{OSLaws E}.
Context (hclose : handler_id -> option (selector_key -> M (world E) unit)).
Context (Hsocks : hclose H_socks5 = None).
Implicit Types (w : world E).

(** A connection whose two sockets differ, whose sniffer is consistent and, once
    it relays, whose destination can be logged. *)
Record relay_ok w (a : Z) (c : client) (st : nat) : Prop := {
  ro_conn : conn_ok w a c st;
  ro_ne : client_sock c <> origin_sock c;
  ro_pop3 p : c_pop3 c = Some p -> pop3_wf p;
  ro_dest u p : st = PROXY -> exists line, log_sniffer_info c u p = Done line
}.

(** ** The sniffer *)

(** [set_pop3] on the connection and at most a log line. *)
Definition sniffed (a : Z) (c : client) w (Q : unit -> world E -> Prop) : Prop :=
  forall p evs w', quiet evs -> (forall q, p = Some q -> pop3_wf q) ->
    progress a (set_pop3 p c) [] evs w w' -> Q tt w'.

Lemma set_pop3_id c : set_pop3 (c_pop3 c) c = c.
Proof. by destruct c. Qed.

Lemma sniffed_skip a c w Q :
  w_clients w !! a = Some c -> sel_ok (w_sel w) -> (forall q, c_pop3 c = Some q -> pop3_wf q) ->
  sniffed a c w Q -> Q tt w.
Proof.
  intros Hc Hs Hp HQ. eapply (HQ (c_pop3 c) []); [done|done|].
  rewrite set_pop3_id. by apply progress_refl.
Qed.

Lemma wp_sniff_client a c w (Q : unit -> world E -> Prop) :
  relay_ok w a c PROXY -> sniffed a c w Q -> wp (sniff_client a) Q w.
Proof.
  intros [Hco _ Hp Hdest] HQ. apply wp_bind. eapply wp_get_client; [by apply Hco|].
  apply wp_bind, wp_gets. pose proof (co_client _ _ _ _ Hco) as Hc. pose proof (co_sel _ _ _ _ Hco) as Hs.
  destruct (c_pop3 c) as [p|] eqn:Ep;
    [|apply wp_ret; eapply sniffed_skip; [exact Hc|exact Hs|by rewrite Ep|exact HQ]].
  apply wp_when; intros _; [|eapply sniffed_skip; [exact Hc|exact Hs|by rewrite Ep|exact HQ]].
  destruct (pop3_parse_wf p (origin_buf c)) as (found & p' & Epp & Hp'); [by apply Hp|by apply Hco|].
  apply wp_bind. eapply wp_lift; [exact Epp|]. cbv beta iota.
  apply wp_bind. eapply wp_upd_client; [exact Hc|]. set (c' := set_pop3 (Some p') c).
  pose proof (progress_upd a c' w Hs) as Hp1. set (w1 := lput clients_lens _ w) in *.
  apply wp_when; intros _; [|by eapply (HQ (Some p') []); [done|intros q [= <-]|]].
  apply wp_bind. eapply wp_get_client; [by eapply progress_lookup|].
  destruct (Hdest (p_user p') (p_pass p') eq_refl) as (line & El).
  apply wp_bind. eapply wp_lift; [exact El|]. apply wp_emit. intros i Hi.
  apply (HQ (Some p') [EvLog line]); [done|by intros q [= <-]|].
  destruct Hp1. by split.
Qed.

Lemma wp_new_pop3_parser a c w (Q : unit -> world E -> Prop) :
  w_clients w !! a = Some c -> sel_ok (w_sel w) -> sniffed a c w Q -> wp (new_pop3_parser a) Q w.
Proof.
  intros Hc Hs HQ. apply wp_bind, wp_sys. unfold wp, sys_malloc.
  destruct (os_malloc 128 (io_os (w_io w))) as [r e'] eqn:Em.
  set (w1 := lput io_lens _ w).
  assert (Hp1 : progress a c [] [] w w1) by (by split; try done; rewrite insert_id).
  assert (Hset : forall p, progress a (set_pop3 p c) [] [] w (lput clients_lens (<[a := set_pop3 p c]> (w_clients w1)) w1))
    by (intros p; eapply progress_silent; [exact Hp1|]; by apply progress_upd).
  destruct r as [m|].
  - apply os_malloc_length in Em.
    apply wp_bind. eapply wp_lift; [apply mem_read_Done; rewrite Em; unfold MAX_CREDENTIALS_LEN; lia|].
    apply wp_bind. eapply wp_lift; [apply mem_read_Done; rewrite Em; unfold MAX_CREDENTIALS_LEN; lia|].
    eapply wp_upd_client; [exact Hc|]. eapply (HQ (Some _) []); [done| |apply Hset].
    intros q [= <-]. unfold pop3_wf, MAX_CREDENTIALS_LEN. simpl p_user. simpl p_pass.
    rewrite !length_take_le by (rewrite length_drop, Em; lia). simpl. lia.
  - eapply wp_upd_client; [exact Hc|]. by eapply (HQ None []); [done| |apply Hset].
Qed.

Lemma wp_sniff_origin a c st w (Q : unit -> world E -> Prop) :
  relay_ok w a c st -> (b_read (client_buf c) < b_limit (client_buf c))%nat ->
  sniffed a c w Q -> wp (sniff_origin a) Q w.
Proof.
  intros [Hco _ Hp Hdest] Hlt HQ. apply wp_bind. eapply wp_get_client; [by apply Hco|].
  pose proof (co_client _ _ _ _ Hco) as Hc. pose proof (co_sel _ _ _ _ Hco) as Hs.
  destruct (co_cbuf _ _ _ _ Hco) as (_ & _ & Hlen).
  destruct (lookup_lt_is_Some_2 (b_data (client_buf c)) (b_read (client_buf c))) as [x Hx]; [lia|].
  apply wp_bind. eapply wp_lift; [unfold mem_get; rewrite Hx; reflexivity|].
  apply wp_when; intros _; [by apply (wp_new_pop3_parser _ c)|by eapply sniffed_skip].
Qed.

(** ** What the handlers keep *)

Lemma relay_ok_progress w w' a c c' st l e :
  relay_ok w a c st -> progress a c' l e w w' -> same_conn c c' ->
  buffer_wf (client_buf c') -> buffer_wf (origin_buf c') -> 0 <= active_ends c' < 16 ->
  socks_user c' = socks_user c -> (forall p, c_pop3 c' = Some p -> pop3_wf p) ->
  (forall u p, log_sniffer_info c' u p = log_sniffer_info c u p) -> relay_ok w' a c' st.
Proof.
  intros [Hco Hne Hp Hd] Hpg Hsame Hcb Hob He Hu Hp' Hd'. split.
  - eapply conn_ok_progress; try done. rewrite Hu. apply (co_user _ _ _ _ Hco).
  - by destruct Hsame as (-> & -> & _).
  - done.
  - intros u p Hst. rewrite Hd'. by apply Hd.
Qed.

Lemma relay_ok_same w w' a c st l e : relay_ok w a c st -> progress a c l e w w' -> relay_ok w' a c st.
Proof. intros Hr Hp. eapply relay_ok_progress; try done; apply Hr. Qed.

Lemma relay_ok_pop3 w w' a c st l e p :
  relay_ok w a c st -> progress a (set_pop3 p c) l e w w' -> (forall q, p = Some q -> pop3_wf q) ->
  relay_ok w' a (set_pop3 p c) st.
Proof. intros Hr Hp Hq. eapply relay_ok_progress; try done; apply Hr. Qed.

Lemma relay_ok_ends w w' a c st l e level :
  relay_ok w a c st -> 0 <= level < 16 ->
  progress a (set_active_ends (close_ends (active_ends c) level) c) l e w w' ->
  relay_ok w' a (set_active_ends (close_ends (active_ends c) level) c) st.
Proof.
  intros Hr Hl Hp. eapply relay_ok_progress; try done; try apply Hr.
  apply close_ends_range; [apply Hr|done].
Qed.

Definition direction (D : dir) : Prop := D = to_origin \/ D = to_client.

Lemma relay_ok_set D w w' a c st l e b :
  direction D -> relay_ok w a c st -> progress a (d_set D b c) l e w w' -> buffer_wf b ->
  relay_ok w' a (d_set D b c) st.
Proof. intros [->| ->] Hr Hp Hb; (eapply relay_ok_progress; try done; apply Hr). Qed.

Lemma dir_buf_wf D w a c st : direction D -> relay_ok w a c st -> buffer_wf (d_buf D c).
Proof. intros [->| ->] Hr; apply Hr. Qed.

Lemma d_buf_set D b c : direction D -> d_buf D (d_set D b c) = b.
Proof. by intros [->| ->]. Qed.
Lemma ends_set D b c : direction D -> active_ends (d_set D b c) = active_ends c.
Proof. by intros [->| ->]. Qed.
Lemma released_set D b c e : direction D -> released_fds (d_set D b c) e = released_fds c e.
Proof. by intros [->| ->]. Qed.

Lemma dir_ends D : direction D -> 0 <= d_rend D < 16 /\ 0 <= d_wend D < 16.
Proof. by intros [->| ->]. Qed.

Lemma wp_close_relay a level c st w (Q : nat -> world E -> Prop) :
  relay_ok w a c st -> 0 <= level < 16 ->
  (forall evs w', let e := close_ends (active_ends c) level in
     progress a (set_active_ends e c) (released_fds c e) evs w w' -> quiet evs ->
     relay_ok w' a (set_active_ends e c) st -> Q (close_next st e) w') ->
  wp (closeClient hclose a level) Q w.
Proof.
  intros Hr Hl HQ. eapply wp_close_conn; [exact Hsocks|apply Hr|done|]. intros evs w' e Hp Hev _.
  eapply HQ; [exact Hp|by apply quiet_close|]. by eapply relay_ok_ends.
Qed.

(** ** Reading *)

Definition pread_ok (D : dir) (a : Z) (c : client) (st : nat) w (next : nat) w' : Prop :=
  exists c' fds evs d, progress a c' fds evs w w' /\ relay_ok w' a c' st /\
    only_recv (d_in D c) d evs /\ pread_post D c st d evs next c' fds.

Lemma can_write_room b : buffer_can_write b = (0 <? room b)%nat.
Proof. unfold buffer_can_write, room. destruct (Nat.ltb_spec (b_write b) (b_limit b)); symmetry;
  [apply Nat.ltb_lt|apply Nat.ltb_ge]; lia. Qed.

Lemma wp_pread_branch D a c st w (sniff : Z -> M (world E) unit) :
  direction D -> relay_ok w a c st ->
  (forall b w' (Q : unit -> world E -> Prop), relay_ok w' a (d_set D b c) st ->
     (b_read b < b_limit b)%nat -> sniffed a (d_set D b c) w' Q -> wp (sniff a) Q w') ->
  wp (if negb (buffer_can_write (d_buf D c)) then
        sel_do (selector_mask_interest (d_in D c) OP_READ);; c_stm_state a
      else
        bytes_read ← recv_into (d_in D) (d_buf D) (d_set D) a;
        eof ← sys (checkEOF bytes_read);
        if (eof : bool) then closeClient hclose a (d_rend D)
        else
          sel_do (selector_unmask_interest (d_out D c) OP_WRITE);;
          sniff a;;
          c_stm_state a)
    (pread_ok D a c st w) w.
Proof.
  intros HD Hr Hsniff. pose proof (dir_buf_wf D _ _ _ _ HD Hr) as Hb.
  pose proof (co_client _ _ _ _ (ro_conn _ _ _ _ Hr)) as Hc.
  pose proof (co_sel _ _ _ _ (ro_conn _ _ _ _ Hr)) as Hs.
  rewrite can_write_room. destruct (Nat.ltb_spec 0 (room (d_buf D c))) as [Hroom|Hfull]; cbn [negb].
  2: { apply wp_bind. eapply wp_interest; [constructor|exact Hc|exact Hs|]. intros w1 Hp1.
    pose proof (relay_ok_same _ _ _ _ _ _ _ Hr Hp1) as Hr1.
    eapply wp_c_stm_state; [apply Hr1|]. exists c, [], [], []. split_and!; try done.
    - by apply only_recv_nil.
    - apply pr_full; [lia|done|done]. }
  apply wp_bind. eapply wp_recv_into; [exact Hc|exact Hs|exact Hb|]. intros n b evs w1 Hp1 Hpost.
  assert (Hlim : b_limit b = b_limit (d_buf D c)) by apply Hpost.
  apply recv_post_only in Hpost as (Hwf & Hrd & d & Hcb & Honly & Hn & Hne).
  pose proof (relay_ok_set D _ _ _ _ _ _ _ b HD Hr Hp1 Hwf) as Hr1.
  apply wp_bind, wp_checkEOF. match goal with |- context [if ?x then closeClient _ _ _ else _] =>
    destruct x eqn:Heof end.
  - assert (d = []) as -> by (apply Hn; apply orb_true_iff in Heof as [?|?]; tests; lia).
    eapply wp_close_relay; [exact Hr1|by apply dir_ends|]. cbv zeta. rewrite ends_set, released_set by done.
    intros evs2 w2 Hp2 Hq Hr2. eexists _, _, _, []. split_and!;
      [exact (progress_trans _ _ _ _ _ _ _ _ _ _ Hp1 Hp2)|exact Hr2|by apply only_recv_quiet|].
    apply pr_eof; [done|by rewrite Hcb, app_nil_r|done].
  - apply wp_bind. eapply wp_interest; [constructor|apply Hr1|apply Hr1|]. intros w2 Hp2.
    apply wp_bind. eapply (Hsniff b); [by eapply relay_ok_same| |].
    { unfold room in Hroom. destruct Hb as (? & ? & ?). lia. }
    intros p q w3 Hq Hpw Hp3. pose proof (progress_silent _ _ _ _ _ _ _ _ Hp1 Hp2) as Hp12.
    pose proof (progress_trans _ _ _ _ _ _ _ _ _ _ Hp12 Hp3) as Hp.
    pose proof (relay_ok_pop3 _ _ _ _ _ _ _ _ (relay_ok_same _ _ _ _ _ _ _ Hr1 Hp2) Hp3 Hpw) as Hr3.
    eapply wp_c_stm_state; [apply Hr3|]. eexists _, _, _, d. split_and!; [exact Hp|exact Hr3| |].
    + by apply only_recv_quiet.
    + apply pr_data; [done|]. apply no_eof_quiet; [done|]. apply Hne. by tests.
Qed.

Lemma wp_handle_proxy_read D a c w key :
  direction D -> relay_ok w a c PROXY -> key_data key = a -> key_fd key = d_in D c ->
  wp (handle_proxy_read hclose key) (pread_ok D a c PROXY w) w.
Proof.
  intros HD Hr <- Hfd. unfold handle_proxy_read.
  apply wp_bind. eapply wp_get_client; [apply Hr|]. rewrite Hfd. pose proof (ro_ne _ _ _ _ Hr) as Hne.
  destruct HD as [->| ->]; cbn [d_in to_origin to_client].
  - rewrite Z.eqb_refl. apply (wp_pread_branch to_origin); [by left|done|].
    intros b w' Q Hr' _. apply wp_sniff_client. exact Hr'.
  - rewrite (proj2 (Z.eqb_neq _ _) Hne), Z.eqb_refl.
    apply (wp_pread_branch to_client); [by right|done|].
    intros b w' Q Hr' Hlt. by apply (wp_sniff_origin _ _ PROXY).
Qed.

(** ** Writing *)

Lemma progress_state s a c l e w w' :
  progress a c l e w w' -> progress a c l e (lput state_lens s w) (lput state_lens s w').
Proof. intros [Hc (_ & Hr) Hs Hg Ht]. by split. Qed.

Lemma relay_ok_state s w a c st : relay_ok w a c st -> relay_ok (lput state_lens s w) a c st.
Proof. intros [[] Hne Hp Hd]. by split. Qed.

Definition pwrite_ok (D : dir) (a : Z) (c : client) (st : nat) w (next : nat) w' : Prop :=
  exists c' fds evs l s', progress a c' fds evs (lput state_lens s' w) w' /\ relay_ok w' a c' st /\
    only_sent (d_out D c) l evs /\ pwrite_post D c st l (w_state w) next c' fds s'.

(** The cases that leave the counters alone. *)
Lemma pwrite_ok_intro D a c st w next w' c' fds evs l :
  progress a c' fds evs w w' -> relay_ok w' a c' st -> only_sent (d_out D c) l evs ->
  pwrite_post D c st l (w_state w) next c' fds (w_state w) -> pwrite_ok D a c st w next w'.
Proof.
  intros Hp Hr Ho Hpost. exists c', fds, evs, l, (w_state w). split_and!; try done.
  replace (lput state_lens (w_state w) w) with w by (by destruct w). done.
Qed.

Lemma wp_count_bytes a c st w n m (Q : nat -> world E -> Prop) :
  relay_ok w a c st ->
  Q st (lput state_lens (if decide (st = PROXY) then add_bytes (u64 (Z.of_nat n - m)) (w_state w)
                         else w_state w) w) ->
  wp (count_bytes a n m) Q w.
Proof.
  intros Hr HQ. apply wp_bind. eapply wp_c_stm_state; [apply Hr|]. apply wp_bind.
  apply wp_when; intros Hst; tests; case_decide; try done.
  - apply wp_upd_state. eapply wp_c_stm_state; [by apply relay_ok_state|exact HQ].
  - eapply wp_c_stm_state; [apply Hr|].
    replace (lput state_lens (w_state w) w) with w in HQ by (by destruct w). exact HQ.
Qed.

(** The branch of an empty buffer. *)
Lemma wp_pwrite_empty D a c st w (stop : bool) fd :
  direction D -> relay_ok w a c st -> contents (d_buf D c) = [] ->
  (stop = true -> flag (active_ends c) (d_rend D) = false) ->
  (stop = false -> flag (active_ends c) (d_rend D) = true \/ (st < PROXY)%nat) ->
  wp (if stop then closeClient hclose a (d_wend D)
      else sel_do (selector_mask_interest fd OP_WRITE);; c_stm_state a)
    (pwrite_ok D a c st w) w.
Proof.
  intros HD Hr Hnil Hstop Hgo. destruct stop.
  - eapply wp_close_relay; [exact Hr|by apply dir_ends|]. intros evs w' e Hp Hq Hr'.
    eapply pwrite_ok_intro; [exact Hp|exact Hr'|by apply only_sent_nil|].
    apply pw_finish; [done|done|by apply Hstop|done].
  - apply wp_bind. eapply wp_interest; [constructor|apply Hr|apply Hr|]. intros w' Hp.
    pose proof (relay_ok_same _ _ _ _ _ _ _ Hr Hp) as Hr'. eapply wp_c_stm_state; [apply Hr'|].
    eapply pwrite_ok_intro; [exact Hp|exact Hr'|by apply only_sent_nil|].
    apply pw_idle; [done|done|by apply Hgo].
Qed.

(** The branch of a buffer with bytes. *)
Lemma wp_pwrite_send D a c st w :
  direction D -> relay_ok w a c st -> contents (d_buf D c) <> [] ->
  wp ('(bytes_to_write, _) ← lift (buffer_read_ptr (d_buf D c));
      bytes_left ← send_from (d_out D) (d_buf D) (d_set D) a;
      eof ← sys (checkEOF bytes_left);
      if negb (bytes_left =? 0) && eof then closeClient hclose a (d_wend D)
      else
        sel_do (selector_unmask_interest (d_in D c) OP_READ);;
        count_bytes a bytes_to_write bytes_left)
    (pwrite_ok D a c st w) w.
Proof.
  intros HD Hr Hne. pose proof (dir_buf_wf D _ _ _ _ HD Hr) as Hb.
  apply wp_bind. eapply wp_lift; [by apply read_ptr_wf|]. cbv beta iota.
  apply wp_bind. eapply wp_send_from; [apply Hr|apply Hr|exact Hb|]. intros n b evs w1 Hp1 Hpost.
  apply send_post_only in Hpost as (Hwf & l & Hcb & Honly & Hcase).
  pose proof (relay_ok_set D _ _ _ _ _ _ _ b HD Hr Hp1 Hwf) as Hr1.
  assert (Hst : w_state w1 = w_state w) by apply (pg_rest _ _ _ _ _ _ Hp1).
  apply wp_bind, wp_checkEOF. match goal with |- context [if ?x then closeClient _ _ _ else _] =>
    destruct x eqn:Heof end.
  - destruct Hcase as [(-> & -> & ->)| ->]; cycle 1.
    { exfalso. apply andb_true_iff in Heof as [Hz Heof]. tests.
      apply orb_true_iff in Heof as [?|?]; tests; lia. }
    eapply wp_close_relay; [exact Hr1|by apply dir_ends|]. cbv zeta. rewrite ends_set, released_set by done.
    intros evs2 w2 Hp2 Hq Hr2.
    eapply pwrite_ok_intro; [exact (progress_trans _ _ _ _ _ _ _ _ _ _ Hp1 Hp2)|exact Hr2| |].
    + by apply only_sent_quiet.
    + by apply pw_failed.
  - apply wp_bind. eapply wp_interest; [constructor|apply Hr1|apply Hr1|]. intros w2 Hp2.
    pose proof (relay_ok_same _ _ _ _ _ _ _ Hr1 Hp2) as Hr2.
    pose proof (progress_silent _ _ _ _ _ _ _ _ Hp1 Hp2) as Hp.
    assert (Hst2 : w_state w2 = w_state w) by apply (pg_rest _ _ _ _ _ _ Hp).
    eapply wp_count_bytes; [exact Hr2|]. rewrite Hst2.
    eexists _, _, _, l, _. split_and!; [apply progress_state; exact Hp|by apply relay_ok_state|done|].
    destruct Hcase as [(-> & -> & ->)| ->].
    + replace (Z.of_nat (length (contents (d_buf D c))) - -1)
        with (Z.of_nat (length (contents (d_buf D c))) + 1) by lia. by apply pw_again.
    + rewrite Hcb, length_app, Nat2Z.inj_add, Z.add_simpl_r. by apply pw_sent.
Qed.

Lemma wp_handle_proxy_write D a c st w key :
  direction D -> relay_ok w a c st -> key_data key = a -> key_fd key = d_out D c ->
  wp (handle_proxy_write hclose key) (pwrite_ok D a c st w) w.
Proof.
  intros HD Hr <- Hfd. unfold handle_proxy_write.
  apply wp_bind. eapply wp_get_client; [apply Hr|]. rewrite Hfd. pose proof (ro_ne _ _ _ _ Hr) as Hne.
  destruct HD as [->| ->]; cbn [d_out to_origin to_client].
  - rewrite (proj2 (Z.eqb_neq _ _) Hne), Z.eqb_refl, can_read_contents by apply Hr.
    case_bool_decide as Hnil; cbn [negb].
    + apply (wp_pwrite_send to_origin); [by left|done|done].
    + apply (wp_pwrite_empty to_origin); [by left|done|exact Hnil| |]; intros Hf; tests; auto.
  - rewrite Z.eqb_refl, can_read_contents by apply Hr.
    case_bool_decide as Hnil; cbn [negb].
    + apply (wp_pwrite_send to_client); [by right|done|done].
    + apply wp_bind. eapply wp_c_stm_state; [apply Hr|].
      apply (wp_pwrite_empty to_client); [by right|done|exact Hnil| |]; intros Hf; tests; auto.
      apply andb_false_iff in Hf as [?|?]; tests; auto.
Qed.

(** ** The streams *)

(** In direction [D], what was in the buffer and what arrived is what was sent
    and what is in the buffer now. *)
Definition carried_in (D : dir) (c c' : client) (evs : list event) : Prop :=
  contents (d_buf D c) ++ received (d_in D c) evs = sent (d_out D c) evs ++ contents (d_buf D c').
Definition carried (c c' : client) (evs : list event) : Prop :=
  carried_in to_origin c c' evs /\ carried_in to_client c c' evs.

Lemma carried_refl c : carried c c [].
Proof. split; unfold carried_in; simpl; by rewrite app_nil_r. Qed.

Lemma carried_trans c c1 c2 e1 e2 :
  same_conn c c1 -> carried c c1 e1 -> carried c1 c2 e2 -> carried c c2 (e2 ++ e1).
Proof.
  intros (Ec & Eo & _) [Ho1 Hc1] [Ho2 Hc2]. unfold carried, carried_in in *. simpl in *. rewrite Ec, Eo in *.
  split; rewrite received_app, sent_app, app_assoc;
    [rewrite Ho1, <- app_assoc, Ho2|rewrite Hc1, <- app_assoc, Hc2]; by rewrite app_assoc.
Qed.

(** Only the buffer of [D] changes in a step of direction [D]. *)
Definition other (D : dir) (c : client) : buffer :=
  if decide (d_rend D = CLIENT_READ) then client_buf c else origin_buf c.

Lemma carried_only D c c' d l evs :
  direction D -> client_sock c <> origin_sock c ->
  contents (d_buf D c) ++ d = l ++ contents (d_buf D c') -> other D c' = other D c ->
  received (d_in D c) evs = d -> received (d_out D c) evs = [] ->
  sent (d_out D c) evs = l -> sent (d_in D c) evs = [] -> carried c c' evs.
Proof.
  intros HD Hne Hbuf Hother Hr Hr' Hs Hs'. unfold carried, carried_in.
  destruct HD as [->| ->]; simpl in *; rewrite Hr, Hs, Hr', Hs', app_nil_r;
    unfold other in Hother; simpl in Hother; rewrite Hother; done.
Qed.

Lemma dir_socks D c :
  direction D -> client_sock c <> origin_sock c -> d_in D c <> d_out D c.
Proof. intros [->| ->]; simpl; congruence. Qed.

(** What either handler leaves, as far as the streams go. *)
Definition step_ok (a : Z) (c : client) (st : nat) w w' : Prop :=
  exists c' evs, io_trace (w_io w') = evs ++ io_trace (w_io w) /\ relay_ok w' a c' st /\
    same_conn c c' /\ carried c c' evs.

Lemma pread_step D a c st w next w' :
  direction D -> relay_ok w a c st -> pread_ok D a c st w next w' -> step_ok a c st w w'.
Proof.
  intros HD Hr (c' & fds & evs & d & Hp & Hr' & [Hrv Hsn] & Hpost).
  pose proof (dir_socks D c HD (ro_ne _ _ _ _ Hr)) as Hne.
  exists c', evs. split; [apply Hp|]. split; [done|].
  assert (Hsame : same_conn c c') by (destruct Hpost, HD as [->| ->]; done).
  split; [done|]. apply (carried_only D _ _ d []); try done; try apply Hr.
  - destruct Hpost as [Hfull _ Hd|b p Hc _|b e Hd Hc He]; rewrite ?Hd, ?app_nil_r;
      destruct HD as [->| ->]; done.
  - destruct Hpost; destruct HD as [->| ->]; done.
  - by rewrite Hrv, decide_True.
  - by rewrite Hrv, decide_False.
Qed.

Lemma pwrite_step D a c st w next w' :
  direction D -> relay_ok w a c st -> pwrite_ok D a c st w next w' -> step_ok a c st w w'.
Proof.
  intros HD Hr (c' & fds & evs & l & s' & Hp & Hr' & [Hsn Hrv] & Hpost).
  pose proof (dir_socks D c HD (ro_ne _ _ _ _ Hr)) as Hne.
  exists c', evs. split; [apply Hp|]. split; [done|].
  assert (Hsame : same_conn c c') by (destruct Hpost, HD as [->| ->]; done).
  split; [done|]. apply (carried_only D _ _ [] l); try done; try apply Hr.
  - rewrite app_nil_r. destruct Hpost as [Hn Hl _|e Hn Hl _ _|b _ Hc|_ Hl|e _ Hl _];
      rewrite ?Hl; destruct HD as [->| ->]; done.
  - destruct Hpost; destruct HD as [->| ->]; done.
  - by rewrite Hsn, decide_True.
  - by rewrite Hsn, decide_False.
Qed.

(** A readiness event of one of the sockets of the connection at [a], handled
    in the relaying state. *)
Inductive relay_step (a : Z) : world E -> world E -> Prop :=
| rs_read key next c w w' :
    key_data key = a -> w_clients w !! a = Some c ->
    key_fd key = client_sock c \/ key_fd key = origin_sock c ->
    handle_proxy_read hclose key w = Done (next, w') -> relay_step a w w'
| rs_write key next c w w' :
    key_data key = a -> w_clients w !! a = Some c ->
    key_fd key = client_sock c \/ key_fd key = origin_sock c ->
    handle_proxy_write hclose key w = Done (next, w') -> relay_step a w w'.

Lemma relay_step_ok a c w w' : relay_ok w a c PROXY -> relay_step a w w' -> step_ok a c PROXY w w'.
Proof.
  intros Hr Hstep. pose proof (co_client _ _ _ _ (ro_conn _ _ _ _ Hr)) as Hc.
  destruct Hstep as [key next c0 w w' Ha Hc0 Hfd E0|key next c0 w w' Ha Hc0 Hfd E0];
    rewrite Hc in Hc0; injection Hc0 as <-.
  - assert (HD : exists D, direction D /\ key_fd key = d_in D c)
      by (destruct Hfd; [exists to_origin|exists to_client]; split; try done; [by left|by right]).
    destruct HD as (D & HD & Hk). eapply (pread_step D); [done|done|].
    pose proof (wp_handle_proxy_read D a c w key HD Hr Ha Hk) as Hw. unfold wp in Hw.
    rewrite E0 in Hw. exact Hw.
  - assert (HD : exists D, direction D /\ key_fd key = d_out D c)
      by (destruct Hfd; [exists to_client|exists to_origin]; split; try done; [by right|by left]).
    destruct HD as (D & HD & Hk). eapply (pwrite_step D); [done|done|].
    pose proof (wp_handle_proxy_write D a c PROXY w key HD Hr Ha Hk) as Hw. unfold wp in Hw.
    rewrite E0 in Hw. exact Hw.
Qed.

(** C21. A read in the relaying state always returns: it appends to the buffer
    of its direction exactly the bytes the kernel delivered, leaves the other
    buffer alone, closes the reading end when the kernel reports the end of the
    stream, and in other cases only when nothing was delivered; a full buffer is
    not read into. *)
Theorem handle_proxy_read_correct (D : dir) (w : world E) (key : selector_key) (c : client) :
  direction D -> relay_ok w (key_data key) c PROXY -> key_fd key = d_in D c ->
  exists next w', handle_proxy_read hclose key w = Done (next, w') /\
    pread_ok D (key_data key) c PROXY w next w'.
Proof. intros HD Hr Hfd. by apply wp_inv, wp_handle_proxy_read. Qed.

(** C22. A write in the relaying state always returns: it removes from the
    buffer of its direction exactly the bytes the kernel took and counts them;
    it closes the writing end when the source has ended and the buffer is empty
    or when nothing could be sent, and in no other case. A call that would block is
    counted as one byte more than the buffer holds. *)
Theorem handle_proxy_write_correct (D : dir) (w : world E) (key : selector_key) (c : client) (st : nat) :
  direction D -> relay_ok w (key_data key) c st -> key_fd key = d_out D c ->
  exists next w', handle_proxy_write hclose key w = Done (next, w') /\
    pwrite_ok D (key_data key) c st w next w'.
Proof. intros HD Hr Hfd. by apply wp_inv, wp_handle_proxy_write. Qed.

(** C2. The relay carries both streams unchanged: along every sequence of
    readiness events of the two sockets, whatever the kernel answers, the bytes
    received from the client since the beginning are those sent to the origin
    followed by those waiting in the buffer, in order and without loss or
    duplication, and the same holds from the origin to the client. *)
Theorem relay_streams (a : Z) (c : client) (w w' : world E) :
  relay_ok w a c PROXY -> rtc (relay_step a) w w' ->
  exists c' evs, w_clients w' !! a = Some c' /\ io_trace (w_io w') = evs ++ io_trace (w_io w) /\
    contents (origin_buf c) ++ received (client_sock c) evs
      = sent (origin_sock c) evs ++ contents (origin_buf c') /\
    contents (client_buf c) ++ received (origin_sock c) evs
      = sent (client_sock c) evs ++ contents (client_buf c').
Proof.
  intros Hr Hrun.
  assert (Hok : step_ok a c PROXY w w').
  { revert c Hr. induction Hrun as [w|w w1 w2 Hstep _ IH]; intros c Hr.
    { exists c, []. split_and!; try done. apply carried_refl. }
    destruct (relay_step_ok _ _ _ _ Hr Hstep) as (c1 & e1 & Ht1 & Hr1 & Hsame1 & Hcar1).
    destruct (IH c1 Hr1) as (c2 & e2 & Ht2 & Hr2 & Hsame2 & Hcar2).
    exists c2, (e2 ++ e1). split_and!; [by rewrite Ht2, Ht1, app_assoc|done| |by eapply carried_trans].
    unfold same_conn in *. intuition congruence. }
  destruct Hok as (c' & evs & Ht & Hr' & _ & Ho & Hcl). exists c', evs.
  split_and!; [apply Hr'|done|exact Ho|exact Hcl].
Qed.
End Relay.

(** ** Witnesses *)

Definition sample_relay (cb ob : buffer) : client :=
  set_curr_addr [Addrinfo AF_INET (Sockaddr AF_INET (repeat NUL 4) 0)]
    (sample_client PROXY (Z.lor CLIENT ORIGIN) cb ob).

Lemma sample_relay_ok io cb ob :
  buffer_wf cb -> buffer_wf ob ->
  relay_ok (lput io_lens io (sample_world [] (sample_relay cb ob))) 1 (sample_relay cb ob) PROXY.
Proof.
  intros Hcb Hob. split; [split; try done| | |].
  - apply (sample_sel [] (sample_relay cb ob)).
  - done.
  - done.
  - intros u p _. eexists. reflexivity.
Qed.

Lemma handle_proxy_read_correct_witness :
  let b := buffer_init 16 (repeat NUL 16) in
  let c := sample_relay b b in
  let w := lput io_lens (Io (Script [lit "HELLO"] 8 9) 0 []) (sample_world [] c) in
  direction to_origin /\ relay_ok w 1 c PROXY /\
  exists next w', handle_proxy_read (fun _ => None) (SelectorKey 5 1) w = Done (next, w').
Proof.
  intros b c w. assert (Hb : buffer_wf b) by (split_and!; simpl; lia).
  assert (HD : direction to_origin) by (left; reflexivity).
  pose proof (sample_relay_ok (Io (Script [lit "HELLO"] 8 9) 0 []) b b Hb Hb) as Hr.
  split_and!; [exact HD|exact Hr|].
  destruct (handle_proxy_read_correct (fun _ => None) eq_refl to_origin w (SelectorKey 5 1) c
    HD Hr eq_refl) as (next & w' & Er & _).
  exists next, w'. exact Er.
Defined.

Lemma handle_proxy_write_correct_witness :
  let b := buffer_init 16 (repeat NUL 16) in
  let c := sample_relay b (Buffer (lit "HELLO") 5 0 5) in
  let w := lput io_lens (Io (Script [] 2 9) 0 []) (sample_world [] c) in
  direction to_origin /\ relay_ok w 1 c PROXY /\
  exists next w', handle_proxy_write (fun _ => None) (SelectorKey 7 1) w = Done (next, w').
Proof.
  intros b c w. assert (Hb : buffer_wf b) by (split_and!; simpl; lia).
  assert (Hob : buffer_wf (Buffer (lit "HELLO") 5 0 5)) by (split_and!; vm_compute; lia).
  assert (HD : direction to_origin) by (left; reflexivity).
  pose proof (sample_relay_ok (Io (Script [] 2 9) 0 []) b _ Hb Hob) as Hr.
  split_and!; [exact HD|exact Hr|].
  destruct (handle_proxy_write_correct (fun _ => None) eq_refl to_origin w (SelectorKey 7 1) c PROXY
    HD Hr eq_refl) as (next & w' & Er & _).
  exists next, w'. exact Er.
Defined.

(** A read from the client and a write to the origin. *)
Lemma relay_streams_witness :
  let b := buffer_init 16 (repeat NUL 16) in
  let c := sample_relay b b in
  let w := lput io_lens (Io (Script [lit "HELLO"] 2 9) 0 []) (sample_world [] c) in
  let after m w := match m w with Done (_, w') => w' | Fault _ => w end in
  let w1 := after (handle_proxy_read (fun _ => None) (SelectorKey 5 1)) w in
  let w2 := after (handle_proxy_write (fun _ => None) (SelectorKey 7 1)) w1 in
  relay_ok w 1 c PROXY /\ rtc (relay_step (fun _ => None) 1) w w2 /\
  received 5 (io_trace (w_io w2)) = lit "HELLO" /\ sent 7 (io_trace (w_io w2)) = lit "HE" /\
  exists c' evs, w_clients w2 !! 1 = Some c' /\ io_trace (w_io w2) = evs ++ [] /\
    contents b ++ received 5 evs = sent 7 evs ++ contents (origin_buf c').
Proof.
  intros b c w after w1 w2. assert (Hb : buffer_wf b) by (split_and!; simpl; lia).
  pose proof (sample_relay_ok (Io (Script [lit "HELLO"] 2 9) 0 []) b b Hb Hb) as Hr.
  assert (Hrun : rtc (relay_step (fun _ => None) 1) w w2).
  { eapply rtc_l; [eapply (rs_read _ 1 (SelectorKey 5 1) PROXY c w w1); [reflexivity|reflexivity|by left|]|].
    - vm_compute. reflexivity.
    - eapply rtc_l; [|apply rtc_refl].
      destruct (w_clients w1 !! 1) as [c1|] eqn:Ec1; [|vm_compute in Ec1; discriminate].
      eapply (rs_write _ 1 (SelectorKey 7 1) PROXY c1 w1 w2); [reflexivity|exact Ec1| |].
      + right. vm_compute in Ec1. injection Ec1 as <-. reflexivity.
      + vm_compute. reflexivity. }
  split; [exact Hr|]. split; [exact Hrun|].
  split; [vm_compute; reflexivity|]. split; [vm_compute; reflexivity|].
  destruct (relay_streams (fun _ => None) eq_refl 1 c w w2 Hr Hrun)
    as (c' & evs & Hc & Ht & Ho & _).
  exists c', evs. split; [exact Hc|]. split; [exact Ht|exact Ho].
Defined.
