(* ===== verification/Lifecycle.v ===== *)
(** * Lifecycle: a SOCKS connection through its state machine

    The events of a connection as the selector delivers them: the handler of its
    state runs, and the engine of Stm moves the machine and performs the arrival
    of the new state. A new connection starts consistent; the negotiation keeps
    it consistent; and with users in the table a connection reaches the request
    only by an event that accepted the name and password of one of them. *)

From S2P Require Import Prelude Buffer Os SocketsIO State Users Pop3Sniffer Selector SelectorSpec Stm World.
From S2P Require Import WorldLogic Util CloseClient Handshake HandshakeSpec RequestSpec Clients RelaySpec.
Import Registry.

Local Open Scope Z_scope.

Section Lifecycle.
Context {E : Type} `{OSLaws E}.
Context (hclose : handler_id -> option (selector_key -> M (world E) unit)).
Context (Hsocks : hclose H_socks5 = None).
Implicit Types (w : world E).

(** ** The machine *)

Definition at_state (st : nat) : state_machine := StateMachine AUTH_METHOD WRITE_REMAINING (Some st).

(** The machine is in [st], or has not been started and [st] is the first. *)
Definition machine_ok (c : client) (st : nat) : Prop :=
  (st <= WRITE_REMAINING)%nat /\
  (c_stm c = at_state st \/
   st = AUTH_METHOD /\ c_stm c = StateMachine AUTH_METHOD WRITE_REMAINING None).

Lemma state_id st : (st <= WRITE_REMAINING)%nat -> socks5_state_ids !! st = Some st.
Proof. unfold WRITE_REMAINING. intros Hst. do 8 (destruct st as [|st]; [done|]). lia. Qed.

Lemma conn_ok_stm w a c st m st' :
  conn_ok w a c st -> w_clients w !! a = Some (set_stm m c) ->
  stm_state socks5_state_ids m = Done st' -> conn_ok w a (set_stm m c) st'.
Proof. intros [] Hc Hst. by split. Qed.

(** The process with the machine of the connection moved. *)
Definition put_state (a : Z) (c : client) (st : nat) w : world E :=
  lput clients_lens (<[a := set_stm (at_state st) c]> (w_clients w)) w.

Lemma progress_put a c st w : sel_ok (w_sel w) -> progress a (set_stm (at_state st) c) [] [] w (put_state a c st w).
Proof. intros Hs. by apply progress_upd. Qed.

Lemma wp_goto_state a c w next (Q : unit -> world E -> Prop) :
  w_clients w !! a = Some c ->
  initial (c_stm c) = AUTH_METHOD -> max_state (c_stm c) = WRITE_REMAINING ->
  Q tt (put_state a c next w) -> wp (goto_state (client_stm a) next) Q w.
Proof.
  intros Hc Hi Hm HQ. apply wp_bind, wp_bind. eapply wp_get_client; [exact Hc|]. apply wp_ret.
  rewrite Hi, Hm. simpl. by eapply wp_upd_client; [exact Hc|].
Qed.

Lemma conn_ok_put w a c st : conn_ok w a c st -> (st <= WRITE_REMAINING)%nat ->
  conn_ok (put_state a c st w) a (set_stm (at_state st) c) st.
Proof.
  intros Hco Hlt. pose proof (progress_put a c st w (co_sel _ _ _ _ Hco)) as Hp. destruct Hco. split; try done.
  - by eapply progress_lookup.
  - change (of_option Undefined (socks5_state_ids !! st) = Done st). by rewrite state_id.
Qed.

(** The machine is started before the first handler runs. *)
Lemma wp_handle_first a c st key w (Q : unit -> world E -> Prop) :
  w_clients w !! a = Some c -> machine_ok c st -> Q tt (put_state a c st w) ->
  wp (handle_first (state_actions hclose) (client_stm a) key) Q w.
Proof.
  intros Hc [Hlt Hm] HQ. apply wp_bind, wp_bind. eapply wp_get_client; [exact Hc|]. apply wp_ret.
  destruct Hm as [Hm|[-> Hm]]; rewrite Hm.
  - apply wp_ret. replace (put_state a c st w) with w in HQ; [done|]. unfold put_state.
    replace (set_stm (at_state st) c) with c by (rewrite <- Hm; by destruct c).
    rewrite insert_id by done. by destruct w.
  - apply wp_bind. eapply wp_goto_state; [exact Hc|by rewrite Hm|by rewrite Hm|].
    apply wp_bind. eapply wp_lift; [reflexivity|]. by apply wp_ret.
Qed.

(** ** Transitions *)

(** What the arrival of a state does to the registrations: a connection that
    has its destination waits to be able to write, and one that can only be
    drained asks for writing on the ends that can. *)
Definition arrival_ops (c : client) (next : nat) : list (op handler_id) :=
  if (next =? CONNECTING)%nat then [AddInterest (client_sock c) OP_WRITE]
  else if (next =? WRITE_REMAINING)%nat then concat (map (act_ops c) (enable_acts (active_ends c)))
  else [].

(** What a transition of the connection [c] to [next] does to the process. *)
Inductive moved (a : Z) (c : client) (next : nat) w w' : Prop :=
| mv_stay : c_stm c = at_state next -> w' = w -> moved a c next w w'
| mv_go :
    c_stm c <> at_state next -> next <> DONE -> next <> RESOLVING ->
    progress a (set_stm (at_state next) c) [] [] w w' ->
    runs (w_sel w) (arrival_ops c next) (w_sel w') -> moved a c next w w'
| mv_resolve :
    c_stm c <> at_state next -> next = RESOLVING ->
    progress a (set_stm (at_state next) c) [] [] (lput threads_lens (a :: w_threads w) w) w' ->
    w_sel w' = w_sel w -> moved a c next w w'
| mv_done :
    c_stm c <> at_state next -> next = DONE -> w_clients w' = delete a (w_clients w) ->
    w_state w' = rm_proxy_client (w_state w) -> w_users w' = w_users w ->
    w_sel w' = w_sel w -> sel_ok (w_sel w') -> io_trace (w_io w') = io_trace (w_io w) ->
    moved a c next w w'.

(** No state has a departure. *)
Lemma no_departure st key w (Q : unit -> world E -> Prop) :
  (st <= WRITE_REMAINING)%nat -> Q tt w -> wp (fire (state_actions hclose) on_departure st key) Q w.
Proof.
  unfold WRITE_REMAINING. intros Hst HQ. do 8 (destruct st as [|st]; [exact HQ|]). lia.
Qed.

(** Asking for writing is silent. *)
Lemma enable_progress a c w w' :
  closing a c (enable_acts (active_ends c)) w w' -> progress a c [] [] w w'.
Proof.
  intros Hcl. assert (Hq : forall e fd, rev (concat (map (act_evs c) (enable_acts e))) = [] /\
    fd ∉ released_by c (enable_acts e)).
  { intros e fd. unfold enable_acts. destruct (flag e CLIENT_WRITE), (flag e ORIGIN_WRITE);
      (split; [done|]); rewrite elem_of_released_by; intros (x & Hx & _); set_solver. }
  rewrite <- (proj1 (Hq (active_ends c) 0)). apply closing_progress; [done|]. intros fd.
  pose proof (proj2 (Hq (active_ends c) fd)). set_solver.
Qed.

(** A transition without effect on the registrations. *)
Lemma mv_plain a c next w :
  c_stm c <> at_state next -> sel_ok (w_sel w) -> next <> DONE -> next <> RESOLVING -> arrival_ops c next = [] ->
  moved a c next w (put_state a c next w).
Proof. intros Hne Hs H1 H2 Ho. apply mv_go; try done. rewrite Ho. by apply runs_refl. Qed.

Lemma wp_arrival a c st key w (Q : unit -> world E -> Prop) :
  (st <= WRITE_REMAINING)%nat -> key_data key = a -> c_stm c <> at_state st -> sel_ok (w_sel w) ->
  (forall w', moved a c st w w' -> Q tt w') ->
  wp (fire (state_actions hclose) on_arrival st key) Q (put_state a c st w).
Proof.
  unfold WRITE_REMAINING. intros Hst Ha Hne Hs HQ. pose proof (progress_put a c st w Hs) as Hp.
  pose proof (progress_lookup _ _ _ _ _ _ Hp) as Hc. subst a.
  do 3 (destruct st as [|st]; [apply HQ; by apply mv_plain|]).
  destruct st as [|st]; [by apply HQ, mv_resolve|].
  destruct st as [|st].
  { apply wp_bind. eapply wp_lift; [reflexivity|]. apply wp_bind. eapply wp_get_client; [exact Hc|].
    apply (wp_sel_step _ (AddInterest (client_sock c) OP_WRITE)); [done|exact Hs|]. intros s' Hs'.
    apply HQ, mv_go; try done. split; simpl; try done; [by eapply runs_ok|].
    intros fd. by rewrite (runs_reg _ _ _ fd (Forall_cons_2 _ _ _ (I : no_register (AddInterest (client_sock c) OP_WRITE)) (Forall_nil_2 _)) Hs'). }
  destruct st as [|st]; [apply HQ; by apply mv_plain|].
  destruct st as [|st].
  { apply wp_bind. eapply wp_lift; [reflexivity|]. apply wp_bind, wp_upd_state.
    unfold wp, free_client. simpl. rewrite lookup_insert_eq. apply HQ. apply mv_done; simpl; try done.
    by rewrite delete_insert_eq. }
  destruct st as [|st]; [|lia].
  apply wp_bind. eapply wp_lift; [reflexivity|].
  eapply wp_enable_write; [exact Hc|exact Hs|]. intros w' Hcl. apply HQ, mv_go; try done; [|apply Hcl].
  eapply progress_silent; [exact Hp|]. exact (enable_progress _ _ _ _ Hcl).
Qed.

Lemma wp_jump a c st next key w (Q : unit -> world E -> Prop) :
  w_clients w !! a = Some c -> sel_ok (w_sel w) -> c_stm c = at_state st -> key_data key = a ->
  (st <= WRITE_REMAINING)%nat -> (next <= WRITE_REMAINING)%nat ->
  (forall w', moved a c next w w' -> Q tt w') ->
  wp (jump (state_actions hclose) (client_stm a) next key) Q w.
Proof.
  intros Hc Hs Hm Ha Hst Hn HQ. apply wp_bind, wp_bind. eapply wp_get_client; [exact Hc|]. apply wp_ret.
  rewrite Hm. cbn [max_state at_state current]. rewrite (proj2 (Nat.ltb_ge _ _) Hn).
  case_bool_decide as Hsame.
  - apply wp_ret, HQ, mv_stay; [|done]. rewrite Hm. by injection Hsame as ->.
  - apply wp_bind, no_departure; [done|]. apply wp_bind.
    eapply wp_goto_state; [exact Hc|by rewrite Hm|by rewrite Hm|].
    apply wp_arrival; try done. rewrite Hm. intros [= ->]. done.
Qed.

(** An event in state [st], when its handler does [R] and leaves a connection
    whose machine is where it was. *)
Lemma wpf_stm_event ev f a c st key w (Q : nat -> world E -> Prop) F :
  conn_ok w a c st -> machine_ok c st -> key_data key = a ->
  (exists d, state_actions hclose !! st = Some d /\ ev d = Some f) ->
  wpf (f key) (fun next w2 => exists c2, w_clients w2 !! a = Some c2 /\ sel_ok (w_sel w2) /\
    c_stm c2 = at_state st /\ (next <= WRITE_REMAINING)%nat /\
    forall w', moved a c2 next w2 w' -> Q next w') F (put_state a c st w) ->
  wpf (stm_handler (state_actions hclose) ev (client_stm a) key) Q F w.
Proof.
  intros Hco Hm Ha (d & Hd & Hf) HQ. apply wpf_bind. eapply wp_handle_first; [apply Hco|exact Hm|].
  apply wpf_bind, wp_bind. eapply wp_get_client; [by apply lookup_insert_eq|]. apply wp_ret.
  cbn [current at_state c_stm set_stm]. apply wpf_bind.
  eapply wp_lift; [unfold definition_at; by rewrite Hd|]. rewrite Hf.
  eapply wpf_bind_f. unfold wpf in HQ |- *.
  destruct (f key (put_state a c st w)) as [[next w2]|flt]; [|exact HQ].
  destruct HQ as (c2 & Hc2 & Hs2 & Hst2 & Hn & HQ).
  apply wpf_bind. eapply wp_jump; [exact Hc2|exact Hs2|exact Hst2|exact Ha|apply Hm|exact Hn|].
  intros w' Hmv. apply (wpf_wp (mret next)), wp_ret. by apply HQ.
Qed.

(** ** Reading during the negotiation *)

(** What the handler of each state of the negotiation does with the bytes [d],
    in the process [w]: the request depends on how its read ended. *)
Definition negotiated (a : Z) w (users : list user) (c : client) (st : nat) (d : list byte)
    (next : nat) (c' : client) : Prop :=
  st = AUTH_METHOD /\ hello_post (length users) c st d next c' \/
  st = PLAIN_AUTH /\ auth_post users c st d next c' \/
  st = REQUEST /\ exists n w1, read_step a c w n d w1 /\
    request_post c st (at_eof n w1) (io_os (w_io w1)) d next c'.

Lemma close_next_le st e : (st <= WRITE_REMAINING)%nat -> (close_next st e <= WRITE_REMAINING)%nat.
Proof. intros Hst. unfold close_next. repeat case_match; unfold DONE, WRITE_REMAINING in *; lia. Qed.

Lemma negotiated_keeps a w users c st d next c' :
  negotiated a w users c st d next c' ->
  c_stm c' = c_stm c /\ client_sock c' = client_sock c /\ origin_sock c' = origin_sock c /\
  c_pop3 c' = c_pop3 c /\ (next <= WRITE_REMAINING)%nat.
Proof.
  intros [[-> Hp]|[[-> Hp]|[-> (n & w1 & _ & Hp)]]]; destruct Hp; split_and!; try done;
    try (apply close_next_le); try case_decide;
    unfold AUTH_METHOD, PLAIN_AUTH, REQUEST, RESOLVING, CONNECTING, WRITE_REMAINING; lia.
Qed.

(** The faults of the handlers, with the bytes the read of this event delivers. *)
Definition nego_fault (a : Z) (c : client) (st : nat) w (f : fault) : Prop :=
  st = PLAIN_AUTH /\ no_space c f \/
  st = REQUEST /\ exists n d w1, read_step a c w n d w1 /\ request_fault c (at_eof n w1) (io_os (w_io w1)) d f.

(** After a read: the connection as its handler left it, and the transition. *)
Definition nego_read (a : Z) (c : client) (st : nat) w w' : Prop :=
  exists c1 next fds evs w1, progress a c1 fds evs w w1 /\ conn_ok w1 a c1 st /\
    negotiated a (put_state a c st w) (w_users w) (set_stm (at_state st) c) st
      (received (client_sock c) evs) next c1 /\
    moved a c1 next w1 w'.

Lemma wpf_negotiation_handler f a c st key w :
  conn_ok w a c st -> key_data key = a -> key_fd key = client_sock c -> users_wf (w_users w) ->
  dest_fqdn c = None ->
  st = AUTH_METHOD /\ f = read_auth_method hclose \/ st = PLAIN_AUTH /\ f = read_plain_auth hclose \/
    st = REQUEST /\ f = read_proxy_request hclose ->
  wpf (f key) (fun next w' => exists c' fds evs, progress a c' fds evs w w' /\ conn_ok w' a c' st /\
     negotiated a w (w_users w) c st (received (client_sock c) evs) next c') (nego_fault a c st w) w.
Proof.
  intros Hco Ha Hfd Hu Hd Hf. unfold wpf, negotiated. destruct Hf as [[-> ->]|[[-> ->]|[-> ->]]].
  - pose proof (wp_read_auth_method hclose Hsocks a c _ w key Hco Ha Hfd) as Hw. unfold wp in Hw.
    destruct (read_auth_method hclose key w) as [[next w']|]; [|done]. naive_solver.
  - pose proof (wpf_read_plain_auth hclose Hsocks a c _ w key Hco Ha Hfd Hu) as Hw. unfold wpf in Hw.
    destruct (read_plain_auth hclose key w) as [[next w']|]; [naive_solver|by left].
  - destruct (read_step_exists a c REQUEST w Hco) as (n & d & w1 & Hr).
    pose proof (wpf_read_proxy_request hclose Hsocks a c _ w key n d w1 Hco Ha Hfd Hd Hr) as Hw.
    unfold wpf in Hw. destruct (read_proxy_request hclose key w) as [[next w']|].
    + destruct Hw as (c' & fds & evs & Hp & Hco' & <- & Hpost). exists c', fds, evs.
      split_and!; [done|done|]. right; right. eauto.
    + right. split; [done|]. by exists n, d, w1.
Qed.

Lemma wpf_negotiation a c st key w :
  conn_ok w a c st -> machine_ok c st -> (st <= REQUEST)%nat ->
  key_data key = a -> key_fd key = client_sock c -> users_wf (w_users w) -> dest_fqdn c = None ->
  wpf (socksv5_read hclose key) (fun _ w' => nego_read a c st w w')
    (nego_fault a (set_stm (at_state st) c) st (put_state a c st w)) w.
Proof.
  intros Hco Hm Hst Ha Hfd Hu Hd. set (c0 := set_stm (at_state st) c).
  assert (Hf : exists f, (exists d, state_actions hclose !! st = Some d /\ on_read_ready d = Some f) /\
    (st = AUTH_METHOD /\ f = read_auth_method hclose \/ st = PLAIN_AUTH /\ f = read_plain_auth hclose \/
     st = REQUEST /\ f = read_proxy_request hclose)).
  { unfold REQUEST in Hst. destruct st as [|[|[|]]]; try lia; eexists; (split; [by eexists|]); tauto. }
  destruct Hf as (f & Hact & Hf). unfold socksv5_read. rewrite Ha. eapply wpf_bind_f.
  eapply (wpf_stm_event on_read_ready f); [exact Hco|exact Hm|exact Ha|exact Hact|].
  pose proof (conn_ok_put _ _ _ _ Hco (proj1 Hm)) as Hco1.
  pose proof (progress_put a c st w (co_sel _ _ _ _ Hco)) as Hp1.
  pose proof (wpf_negotiation_handler f a c0 st key _ Hco1 Ha Hfd Hu Hd Hf) as Hh.
  unfold wpf in Hh |- *. destruct (f key (put_state a c st w)) as [[next w2]|]; [|exact Hh].
  destruct Hh as (c2 & fds & evs & Hp2 & Hco2 & Hn). exists c2.
  destruct (negotiated_keeps _ _ _ _ _ _ _ _ Hn) as (Hs2 & _ & _ & _ & Hle).
  split_and!; [apply Hco2|apply Hco2|done|done|]. intros w' Hmv.
  exists c2, next, fds, evs, w2. split_and!; try done.
  pose proof (progress_trans _ _ _ _ _ _ _ _ _ _ Hp1 Hp2) as Hp. by rewrite app_nil_r in Hp.
Qed.

(** ** Writing during the negotiation *)

Definition nego_write (a : Z) (c : client) (st : nat) w w' : Prop :=
  exists c1 next fds evs l s w1, progress a c1 fds evs (lput state_lens s w) w1 /\ conn_ok w1 a c1 st /\
    pwrite_post to_client (set_stm (at_state st) c) st l (w_state w) next c1 fds s /\
    moved a c1 next w1 w'.

Lemma pwrite_keeps c st l s next c' fds s' :
  (st <= WRITE_REMAINING)%nat -> pwrite_post to_client c st l s next c' fds s' ->
  c_stm c' = c_stm c /\ client_sock c' = client_sock c /\ origin_sock c' = origin_sock c /\
  c_pop3 c' = c_pop3 c /\ dest_fqdn c' = dest_fqdn c /\ socks_user c' = socks_user c /\
  (next <= WRITE_REMAINING)%nat /\ (next = st \/ (DONE <= next)%nat).
Proof.
  intros Hst Hp.
  assert (Hcl : forall e, (close_next st e <= WRITE_REMAINING)%nat /\
                          (close_next st e = st \/ (DONE <= close_next st e)%nat)).
  { intros e. split; [by apply close_next_le|]. unfold close_next.
    repeat case_match; unfold DONE, WRITE_REMAINING; lia. }
  destruct Hp; split_and!; try done; try (by left); apply Hcl.
Qed.

Lemma wp_nego_write a c st key w :
  conn_ok w a c st -> machine_ok c st -> (PLAIN_AUTH <= st <= RESOLVING)%nat ->
  client_sock c <> origin_sock c -> c_pop3 c = None -> key_data key = a -> key_fd key = client_sock c ->
  wp (socksv5_write hclose key) (fun _ w' => nego_write a c st w w') w.
Proof.
  intros Hco Hm Hst Hne Hpop Ha Hfd. apply wp_wpf. unfold socksv5_write. rewrite Ha. eapply wpf_bind_f.
  assert (Hact : exists d, state_actions hclose !! st = Some d /\
    on_write_ready d = Some (handle_proxy_write hclose)).
  { unfold PLAIN_AUTH, RESOLVING in Hst. destruct st as [|[|[|[|]]]]; try lia; by eexists. }
  eapply (wpf_stm_event on_write_ready); [exact Hco|exact Hm|exact Ha|exact Hact|].
  pose proof (conn_ok_put _ _ _ _ Hco (proj1 Hm)) as Hco1.
  pose proof (progress_put a c st w (co_sel _ _ _ _ Hco)) as Hp1. set (w1 := put_state a c st w) in *.
  assert (Hr : relay_ok w1 a (set_stm (at_state st) c) st).
  { split; [done|done|intros p Hp; change (c_pop3 c = Some p) in Hp; congruence|]. intros u p ->. unfold RESOLVING, PROXY in Hst. lia. }
  eapply wpf_wp, wp_mono;
    [eapply (wp_handle_proxy_write hclose Hsocks to_client); [by right|exact Hr|exact Ha|exact Hfd]|].
  intros next w2 (c2 & fds & evs & l & s' & Hp2 & Hr2 & _ & Hpost).
  assert (Hs1 : w_state w1 = w_state w) by done.
  destruct (pwrite_keeps _ _ _ _ _ _ _ _ (proj1 Hm) Hpost) as (Hs2 & _ & _ & _ & _ & _ & Hle & _).
  exists c2. split_and!; [apply Hr2|apply Hr2|done|done|]. intros w' Hmv.
  exists c2, next, fds, evs, l, s', w2. rewrite Hs1 in Hpost. split_and!; try done; [|apply Hr2].
  pose proof (progress_trans _ _ _ _ _ _ _ _ _ _ (progress_state s' _ _ _ _ _ _ Hp1) Hp2) as Hp.
  by rewrite app_nil_r in Hp.
Qed.

(** ** Runs *)

(** Where a transition leads. *)
Lemma moved_conn a c st next w w' :
  conn_ok w a c st -> c_stm c = at_state st -> (next <= WRITE_REMAINING)%nat -> moved a c next w w' ->
  w_users w' = w_users w /\ io_trace (w_io w') = io_trace (w_io w) /\
  (w_clients w' !! a = None \/
   conn_ok w' a (set_stm (at_state next) c) next /\ machine_ok (set_stm (at_state next) c) next).
Proof.
  intros Hco Hm Hn Hmv.
  assert (Hst : stm_state socks5_state_ids (at_state next) = Done next)
    by (unfold stm_state; cbn [current at_state]; by rewrite state_id).
  assert (Hmo : machine_ok (set_stm (at_state next) c) next) by (split; [done|by left]).
  assert (Hgo : forall w0, conn_ok w0 a c st -> progress a (set_stm (at_state next) c) [] [] w0 w' ->
    conn_ok w' a (set_stm (at_state next) c) next).
  { intros w0 [] Hp. split; try done.
    - by eapply progress_lookup.
    - apply Hp.
    - by eapply socks_fd_progress.
    - by eapply socks_fd_progress. }
  destruct Hmv as [Hs ->|_ _ _ Hp _|_ -> Hp _|_ -> Hc _ Hu _ _ Ht].
  - split_and!; [done|done|right]. split; [|done].
    replace (set_stm (at_state next) c) with c by (rewrite <- Hs; by destruct c).
    rewrite Hm in Hs. by injection Hs as ->.
  - split_and!; [apply (pg_rest _ _ _ _ _ _ Hp)|apply (pg_trace _ _ _ _ _ _ Hp)|].
    right. split; [|done]. by eapply Hgo.
  - split_and!; [apply (pg_rest _ _ _ _ _ _ Hp)|apply (pg_trace _ _ _ _ _ _ Hp)|].
    right. split; [|done]. eapply Hgo; [|exact Hp]. by destruct Hco.
  - split_and!; [done|done|left]. by rewrite Hc, lookup_delete_eq.
Qed.

(** Events of a connection until it has a destination. *)
Inductive nego_event (a : Z) : world E -> world E -> Prop :=
| ne_read key c st w w' :
    w_clients w !! a = Some c -> machine_ok c st -> (st <= REQUEST)%nat ->
    key_data key = a -> key_fd key = client_sock c ->
    socksv5_read hclose key w = Done (tt, w') -> nego_event a w w'
| ne_write key c st w w' :
    w_clients w !! a = Some c -> machine_ok c st -> (PLAIN_AUTH <= st <= RESOLVING)%nat ->
    key_data key = a -> key_fd key = client_sock c ->
    socksv5_write hclose key w = Done (tt, w') -> nego_event a w w'.

(** The event from [w1] to [w2] accepts the name [user]: it takes the connection
    from the authentication to the request, and the bytes received up to then are
    a message of the authentication with that name and the password of a user of
    that name. *)
Definition accepts (a : Z) (users : list user) (user : list byte) w1 w2 : Prop :=
  exists c1 c2 evs pass,
    w_clients w1 !! a = Some c1 /\ machine_ok c1 PLAIN_AUTH /\
    w_clients w2 !! a = Some c2 /\ machine_ok c2 REQUEST /\
    io_trace (w_io w2) = evs ++ io_trace (w_io w1) /\
    parse_auth (contents (origin_buf c1) ++ received (client_sock c1) evs) =
      Some (plain_auth_version, user, pass, contents (origin_buf c2)) /\
    User (cstr user) (cstr pass) ∈ users.

(** In the events from [w0] to [w], one accepted the credentials of [c]. *)
Definition logged_in (a : Z) (users : list user) w0 w (c : client) : Prop :=
  exists w1 w2 user, rtc (nego_event a) w0 w1 /\ nego_event a w1 w2 /\ rtc (nego_event a) w2 w /\
    accepts a users user w1 w2 /\ cstr (socks_user c) = cstr user.

Lemma logged_in_step a users w0 w w' c c' :
  logged_in a users w0 w c -> nego_event a w w' -> socks_user c' = socks_user c ->
  logged_in a users w0 w' c'.
Proof.
  intros (w1 & w2 & user & H1 & H2 & H3 & Hacc & Hu) Hev Hs. exists w1, w2, user.
  split_and!; [done|done|by eapply rtc_r|done|by rewrite Hs].
Qed.

(** Authenticated as far as its state requires. *)
Definition authenticated (a : Z) (users : list user) w0 w (c : client) (st : nat) : Prop :=
  (st <= PLAIN_AUTH)%nat \/ (DONE <= st)%nat \/ users = [] \/ logged_in a users w0 w c.

Lemma cstr_stored_user area user : cstr (stored_user area user) = cstr user.
Proof. apply cstr_app_stop. Qed.

(** What a handler of the negotiation does to the authentication: it keeps the
    name and does not go back, it leaves for the end, or it accepts. *)
Lemma negotiated_auth a w users c st d next c' :
  negotiated a w users c st d next c' ->
  (next <= PLAIN_AUTH)%nat \/ (DONE <= next)%nat \/ users = [] \/
  st = REQUEST /\ socks_user c' = socks_user c \/
  st = PLAIN_AUTH /\ next = REQUEST /\ exists user pass,
    parse_auth (contents (origin_buf c) ++ d) = Some (plain_auth_version, user, pass, contents (origin_buf c')) /\
    User (cstr user) (cstr pass) ∈ users /\ cstr (socks_user c') = cstr user.
Proof.
  assert (Hcl : forall e, (st <= PLAIN_AUTH)%nat -> (close_next st e <= PLAIN_AUTH)%nat \/ (DONE <= close_next st e)%nat).
  { intros e Hst. unfold close_next. repeat case_match; unfold DONE, WRITE_REMAINING, PLAIN_AUTH in *; lia. }
  intros [[-> Hp]|[[-> Hp]|[-> (n & w1 & _ & Hp)]]].
  - specialize (fun e => Hcl e (Nat.le_0_l _)).
    destruct Hp as [b e _ _|b _ _|ms m b cb _ Hsel _|v ms b cb e _ _ _ _];
      [destruct (Hcl e); auto|left; unfold AUTH_METHOD, PLAIN_AUTH; lia| |destruct (Hcl e); auto].
    case_decide as Hm; [|left; unfold PLAIN_AUTH; lia]. right; right; left. subst m. unfold select_method in Hsel.
    destruct (Nat.eqb_spec (length users) 0) as [Hz|Hz]; [by apply length_zero_iff_nil|].
    by case_decide.
  - specialize (fun e => Hcl e (le_n _)).
    destruct Hp as [b e _ _|b _ _|v user pass b cb e _ _ _ _|user pass b cb Hpa Hin _|user pass b cb e _ _ _ _];
      [destruct (Hcl e); auto|auto|destruct (Hcl e); auto| |destruct (Hcl e); auto].
    do 4 right. split_and!; [done|done|]. exists user, pass. split_and!; [done|done|]. apply cstr_stored_user.
  - do 3 right. left. split; [done|]. by destruct Hp.
Qed.

(** The connection is released, or consistent and authenticated as its state
    requires. *)
Definition nego_inv (a : Z) (users : list user) w0 w : Prop :=
  rtc (nego_event a) w0 w /\ w_users w = users /\
  (w_clients w !! a = None \/
   exists c st, conn_ok w a c st /\ machine_ok c st /\ client_sock c <> origin_sock c /\
     c_pop3 c = None /\ ((st <= REQUEST)%nat -> dest_fqdn c = None) /\ authenticated a users w0 w c st).

Lemma machine_ok_fun c st st' : machine_ok c st -> machine_ok c st' -> st = st'.
Proof. unfold machine_ok, at_state. intros [_ [H1|[-> H1]]] [_ [H2|[-> H2]]]; congruence. Qed.

Lemma negotiated_dest a w users c st d next c' :
  negotiated a w users c st d next c' -> dest_fqdn c = None -> (next <= REQUEST)%nat -> dest_fqdn c' = None.
Proof.
  intros [[-> Hp]|[[-> Hp]|[-> (n & w1 & _ & Hp)]]] Hd Hn; destruct Hp; try done.
  unfold RESOLVING, REQUEST in Hn. lia.
Qed.

(** The connection of an event, when the invariant holds. *)
Lemma nego_inv_conn a users w0 w c st :
  nego_inv a users w0 w -> w_clients w !! a = Some c -> machine_ok c st ->
  conn_ok w a c st /\ client_sock c <> origin_sock c /\ c_pop3 c = None /\
  ((st <= REQUEST)%nat -> dest_fqdn c = None) /\ authenticated a users w0 w c st.
Proof.
  intros (_ & _ & [Hnone|(c1 & st1 & Hco & Hm & Hrest)]) Hc Hm0; [congruence|].
  rewrite (co_client _ _ _ _ Hco) in Hc. injection Hc as <-. by rewrite (machine_ok_fun _ _ _ Hm0 Hm).
Qed.

Lemma nego_read_inv a users w0 c st w w' :
  nego_inv a users w0 w -> w_clients w !! a = Some c -> machine_ok c st -> (st <= REQUEST)%nat ->
  nego_event a w w' -> nego_read a c st w w' -> nego_inv a users w0 w'.
Proof.
  intros Hinv Hc Hm Hst Hev (c1 & next & fds & evs & w1 & Hp & Hco1 & Hn & Hmv).
  destruct (nego_inv_conn _ _ _ _ _ _ Hinv Hc Hm) as (Hco & Hne & Hpop & Hdest & Hauth).
  destruct Hinv as (Hrun & Hu & _). rewrite Hu in Hn.
  destruct (negotiated_keeps _ _ _ _ _ _ _ _ Hn) as (Hs1 & Hcs & Hos & Hp1 & Hle).
  destruct (moved_conn a c1 st next w1 w' Hco1 Hs1 Hle Hmv) as (Hu' & Ht' & Hc').
  assert (Hu1 : w_users w1 = w_users w) by apply (pg_rest _ _ _ _ _ _ Hp).
  split_and!; [by eapply rtc_r|congruence|]. destruct Hc' as [Hnone|[Hco' Hm']]; [by left|right].
  exists (set_stm (at_state next) c1), next. split_and!; try done.
  - simpl. by rewrite Hcs, Hos.
  - simpl. by rewrite Hp1.
  - intros Hnr. by apply (negotiated_dest _ _ _ _ _ _ _ _ Hn (Hdest Hst)).
  - destruct (negotiated_auth _ _ _ _ _ _ _ _ Hn) as [Ha|[Ha|[Ha|[[-> Hsu]|(-> & -> & user & pass & Hpa & Hin & Hsu)]]]].
    + by left.
    + by right; left.
    + by right; right; left.
    + destruct Hauth as [Ha|[Ha|[Ha|Ha]]]; [unfold REQUEST, PLAIN_AUTH, DONE in Ha; lia..|by right; right; left|].
      right; right; right. by eapply logged_in_step.
    + right; right; right. exists w, w', user. split_and!; [done|done|apply rtc_refl| |exact Hsu].
      exists c, (set_stm (at_state REQUEST) c1), evs, pass. split_and!; try done; [apply Hco'|].
      rewrite Ht'. apply Hp.
Qed.

Lemma nego_write_inv a users w0 c st w w' :
  nego_inv a users w0 w -> w_clients w !! a = Some c -> machine_ok c st ->
  nego_event a w w' -> nego_write a c st w w' -> nego_inv a users w0 w'.
Proof.
  intros Hinv Hc Hm Hev (c1 & next & fds & evs & l & s & w1 & Hp & Hco1 & Hpost & Hmv).
  destruct (nego_inv_conn _ _ _ _ _ _ Hinv Hc Hm) as (Hco & Hne & Hpop & Hdest & Hauth).
  destruct Hinv as (Hrun & Hu & _).
  destruct (pwrite_keeps _ _ _ _ _ _ _ _ (proj1 Hm) Hpost) as (Hs1 & Hcs & Hos & Hp1 & Hd1 & Hsu & Hle & Hnext).
  destruct (moved_conn a c1 st next w1 w' Hco1 Hs1 Hle Hmv) as (Hu' & _ & Hc').
  assert (Hu1 : w_users w1 = w_users w) by apply (pg_rest _ _ _ _ _ _ Hp).
  split_and!; [by eapply rtc_r|congruence|]. destruct Hc' as [Hnone|[Hco' Hm']]; [by left|right].
  exists (set_stm (at_state next) c1), next. split_and!; try done.
  - simpl. by rewrite Hcs, Hos.
  - simpl. by rewrite Hp1.
  - intros Hnr. simpl. rewrite Hd1. destruct Hnext as [->|?]; [by apply Hdest|].
    unfold DONE, REQUEST in *. lia.
  - destruct Hnext as [->|?]; [|by right; left].
    destruct Hauth as [Ha|[Ha|[Ha|Ha]]]; [by left|by right; left|by right; right; left|].
    right; right; right. by eapply logged_in_step.
Qed.

Lemma nego_event_inv a users w0 w w' :
  users_wf users -> nego_inv a users w0 w -> nego_event a w w' -> nego_inv a users w0 w'.
Proof.
  intros Hwf Hinv Hev.
  inversion Hev as [key c st w1 w2 Hc Hm Hst Ha Hfd Er|key c st w1 w2 Hc Hm Hst Ha Hfd Er]; subst w1 w2;
    destruct (nego_inv_conn _ _ _ _ _ _ Hinv Hc Hm) as (Hco & Hne & Hpop & Hdest & _).
  - pose proof (wpf_negotiation a c st key _ Hco Hm Hst Ha Hfd) as Hw.
    rewrite (proj1 (proj2 Hinv)) in Hw. specialize (Hw Hwf (Hdest Hst)). unfold wpf in Hw. rewrite Er in Hw.
    by eapply nego_read_inv.
  - pose proof (wp_nego_write a c st key _ Hco Hm Hst Hne Hpop Ha Hfd) as Hw. unfold wp in Hw.
    rewrite Er in Hw. by eapply nego_write_inv.
Qed.

(** C16. One read of a connection in the negotiation, through the machine: the
    handler of its state runs, with the effect its own theorem states; the
    machine, started if it was not, is left in the state the handler returned,
    and the arrival of that state is performed when it is another one: the thread
    that resolves the name is started, or writing is asked for on the sockets the
    state writes to, or the struct is released. The faults are those of the
    handler of that state, for the bytes this read delivers: none in the
    selection of the method, the buffer too small for the message in the
    authentication, and those of [request_fault] in the request. *)
Theorem negotiation_step (a : Z) (c : client) (st : nat) (key : selector_key) (w : world E) :
  conn_ok w a c st -> machine_ok c st -> (st <= REQUEST)%nat ->
  key_data key = a -> key_fd key = client_sock c -> users_wf (w_users w) -> dest_fqdn c = None ->
  (exists w', socksv5_read hclose key w = Done (tt, w') /\ nego_read a c st w w') \/
  (exists f, socksv5_read hclose key w = Fault f /\
     nego_fault a (set_stm (at_state st) c) st (put_state a c st w) f).
Proof.
  intros Hco Hm Hst Ha Hfd Hu Hd. pose proof (wpf_negotiation a c st key w Hco Hm Hst Ha Hfd Hu Hd) as Hw.
  unfold wpf in Hw. destruct (socksv5_read hclose key w) as [[[] w']|f]; [left|right]; eauto.
Qed.

(** C7. Only users reach the request: along every sequence of events of a new
    connection, whatever it sends, if it comes to the request, to the resolution
    of a name or to connecting while the server has users, then one event of the
    sequence took it from the authentication to the request, the bytes received
    up to it are a message of the authentication whose name and password are
    those of one user of the table, and the name the connection has recorded is
    that name. *)
Theorem only_users_reach_request (a : Z) (c c' : client) (st' : nat) (w w' : world E) :
  conn_ok w a c AUTH_METHOD -> machine_ok c AUTH_METHOD -> client_sock c <> origin_sock c ->
  c_pop3 c = None -> dest_fqdn c = None -> users_wf (w_users w) ->
  rtc (nego_event a) w w' -> w_clients w' !! a = Some c' -> machine_ok c' st' ->
  (REQUEST <= st' <= PROXY)%nat ->
  w_users w = [] \/ logged_in a (w_users w) w w' c'.
Proof.
  intros Hco Hm Hne Hpop Hd Hu Hrun Hc' Hm' Hst'.
  assert (Hinv' : nego_inv a (w_users w) w w').
  { apply (rtc_ind_r (R := nego_event a) (nego_inv a (w_users w) w) w); [|intros w1 w2 _ Hev Hi; by eapply nego_event_inv|done].
    split_and!; [apply rtc_refl|done|right]. exists c, AUTH_METHOD. split_and!; try done.
    left. unfold AUTH_METHOD, PLAIN_AUTH. lia. }
  destruct (nego_inv_conn _ _ _ _ _ _ Hinv' Hc' Hm') as (_ & _ & _ & _ & Hauth).
  destruct Hauth as [?|[?|[?|?]]]; [..|by left|by right]; unfold REQUEST, PROXY, PLAIN_AUTH, DONE in *; lia.
Qed.

(** ** New connections *)

Lemma negative_unregistered (s : fdselector handler_id) fd : fd < 0 -> reg s fd = None.
Proof.
  intros Hfd. unfold reg, look. destruct (fds s); [|done]. by rewrite (proj2 (Z.ltb_lt _ _) Hfd).
Qed.

(** The struct of a new connection over [sock], with buffers of [n] bytes. *)
Definition fresh_conn (sock : Z) (n : nat) (c : client) : Prop :=
  machine_ok c AUTH_METHOD /\ client_sock c = sock /\ origin_sock c = -1 /\ active_ends c = CLIENT /\
  contents (client_buf c) = [] /\ room (client_buf c) = n /\
  contents (origin_buf c) = [] /\ room (origin_buf c) = n /\ b_read (origin_buf c) = 0%nat /\
  dest_fqdn c = None /\ c_pop3 c = None.

Definition created (sock : Z) w (r : option Z) w' : Prop :=
  w_state w' = w_state w /\ w_users w' = w_users w /\ w_sel w' = w_sel w /\
  io_trace (w_io w') = io_trace (w_io w) /\
  match r with
  | None => w_clients w' = w_clients w
  | Some a => a = w_next w /\ w_next w' = a + 1 /\ exists c,
      w_clients w' = <[a := c]> (w_clients w) /\ conn_ok w' a c AUTH_METHOD /\
      fresh_conn sock (Z.to_nat (get_buffsize (w_state w))) c
  end.

Lemma wp_create_client sock w :
  sel_ok (w_sel w) -> socks_fd w sock -> wp (create_client hclose sock) (created sock w) w.
Proof.
  intros Hs Hf. apply wp_bind, wp_bind, wp_malloc_any.
  intros [area|] i Hi _; [|apply wp_ret; cbv beta iota; by apply wp_ret].
  apply wp_bind, wp_gets, wp_bind, wp_modify, wp_ret. cbv beta iota. apply wp_bind, wp_malloc_any.
  intros [m|] i1 Hi1 _; [|apply wp_ret; simpl in *; unfold created; simpl; split_and!; congruence].
  apply wp_bind, wp_gets. cbn [w_state lput io_lens next_lens].
  set (n := Z.to_nat (get_buffsize (w_state w))).
  apply wp_bind, wp_malloc_any. intros cb i2 Hi2 Hcb. apply wp_bind, wp_malloc_any. intros ob i3 Hi3 Hob.
  assert (Ht : io_trace i3 = io_trace (w_io w)) by (simpl in *; congruence).
  destruct cb as [cb|]; [|by apply wp_ret]. destruct ob as [ob|]; [|by apply wp_ret].
  apply wp_bind. eapply wp_lift; [reflexivity|]. apply wp_bind, wp_modify, wp_ret.
  specialize (Hcb cb eq_refl). specialize (Hob ob eq_refl).
  split_and!; try done. eexists. split; [reflexivity|]. split.
  - split; cbn [client_sock origin_sock client_buf origin_buf active_ends socks_user]; try done;
      [apply lookup_insert_eq| |by apply buffer_init_wf|by apply buffer_init_wf].
    intros h d Hr. by rewrite negative_unregistered in Hr.
  - unfold fresh_conn, machine_ok. simpl. unfold room. simpl. rewrite !Nat.sub_0_r.
    split_and!; try done; [unfold WRITE_REMAINING, AUTH_METHOD; lia|by right].
Qed.

(** C17. A new connection starts consistent: [create_client] never faults or
    aborts on the table of states; when an allocation fails it leaves the
    connections as they were, and otherwise adds one, at a new address, in the
    state of method selection, with empty buffers of the configured size, only
    its two ends towards the client and no destination. *)
Theorem create_client_correct (sock : Z) (w : world E) :
  sel_ok (w_sel w) -> socks_fd w sock ->
  exists r w', create_client hclose sock w = Done (r, w') /\ created sock w r w'.
Proof. intros Hs Hf. by apply wp_inv, wp_create_client. Qed.
End Lifecycle.

(** ** Witnesses *)

Lemma create_client_correct_witness :
  let w := World (Io (Script [] 64 9) 0 []) selector0 state_init [] [] ∅ ∅ 1 [] in
  sel_ok (w_sel w) /\ socks_fd w 5 /\ exists r w', create_client (fun _ => None) 5 w = Done (r, w').
Proof.
  intros w.
  assert (H1 : sel_ok (w_sel w)) by (exists ∅; apply repr_selector0).
  assert (H2 : socks_fd w 5) by (intros h d Hr; vm_compute in Hr; discriminate Hr).
  split; [exact H1|]. split; [exact H2|].
  destruct (create_client_correct (fun _ => None) 5 w H1 H2) as (r & w' & Er & _).
  exists r, w'. exact Er.
Defined.

Lemma negotiation_step_witness :
  let b := buffer_init 600 (repeat NUL 600) in
  let c := sample_client AUTH_METHOD CLIENT b b in
  let w := sample_world [[Byte.x05; Byte.x01; Byte.x00]] c in
  conn_ok w 1 c AUTH_METHOD /\ machine_ok c AUTH_METHOD /\
  exists w', socksv5_read (fun _ => None) (SelectorKey 5 1) w = Done (tt, w').
Proof.
  intros b c w.
  assert (Hb : buffer_wf b) by apply buffer_init_wf, repeat_length.
  assert (H1 : conn_ok w 1 c AUTH_METHOD)
    by (apply sample_conn_ok; [unfold AUTH_METHOD; lia|vm_compute; split; congruence|done|done]).
  assert (H2 : machine_ok c AUTH_METHOD)
    by (split; [unfold AUTH_METHOD, WRITE_REMAINING; lia|left; reflexivity]).
  assert (H3 : users_wf (w_users w)) by (split_and!; [simpl; lia|constructor|constructor]).
  split; [exact H1|]. split; [exact H2|].
  destruct (negotiation_step (fun _ => None) eq_refl 1 c AUTH_METHOD
    (SelectorKey 5 1) w H1 H2 (Nat.le_0_l _) eq_refl eq_refl H3 eq_refl) as [(w' & Er & _)|(f & Er & _)].
  - exists w'. exact Er.
  - exfalso. vm_compute in Er. discriminate Er.
Defined.

(** A user authenticates and reaches the request. *)
Lemma only_users_reach_request_witness :
  let b := buffer_init 16 (repeat NUL 16) in
  let c := sample_client AUTH_METHOD CLIENT b b in
  let w := lput users_lens [User (lit "u") (lit "p")]
             (sample_world [[Byte.x05; Byte.x01; Byte.x02];
                            [Byte.x01; Byte.x01] ++ lit "u" ++ [Byte.x01] ++ lit "p"] c) in
  let after w := match socksv5_read (fun _ => None) (SelectorKey 5 1) w with
                 | Done (_, w') => w' | Fault _ => w end in
  let w2 := after (after w) in
  rtc (nego_event (fun _ => None) 1) w w2 /\
  exists c', w_clients w2 !! 1 = Some c' /\ machine_ok c' REQUEST /\
    logged_in (fun _ => None) 1 [User (lit "u") (lit "p")] w w2 c'.
Proof.
  intros b c w after w2.
  assert (Hb : buffer_wf b) by apply buffer_init_wf, repeat_length.
  assert (H0 : conn_ok (sample_world [[Byte.x05; Byte.x01; Byte.x02];
                            [Byte.x01; Byte.x01] ++ lit "u" ++ [Byte.x01] ++ lit "p"] c) 1 c AUTH_METHOD)
    by (apply sample_conn_ok; [unfold AUTH_METHOD; lia|vm_compute; split; congruence|done|done]).
  assert (H1 : conn_ok w 1 c AUTH_METHOD) by (destruct H0; split; assumption).
  assert (H2 : machine_ok c AUTH_METHOD)
    by (split; [unfold AUTH_METHOD, WRITE_REMAINING; lia|left; reflexivity]).
  assert (H3 : users_wf (w_users w)).
  { split_and!; [simpl; unfold MAX_USERS; lia|apply NoDup_singleton|].
    constructor; [split; reflexivity|constructor]. }
  destruct (w_clients (after w) !! 1) as [c1|] eqn:Hc1; [|vm_compute in Hc1; discriminate Hc1].
  assert (Hm1 : machine_ok c1 PLAIN_AUTH /\ client_sock c1 = 5).
  { vm_compute in Hc1. injection Hc1 as <-. split; [|reflexivity].
    split; [unfold PLAIN_AUTH, WRITE_REMAINING; lia|left; reflexivity]. }
  destruct Hm1 as [Hm1 Hs1].
  destruct (w_clients w2 !! 1) as [c2|] eqn:Hc2; [|vm_compute in Hc2; discriminate Hc2].
  assert (Hm2 : machine_ok c2 REQUEST).
  { vm_compute in Hc2. injection Hc2 as <-.
    split; [unfold REQUEST, WRITE_REMAINING; lia|left; reflexivity]. }
  assert (Hrun : rtc (nego_event (fun _ => None) 1) w w2).
  { apply (rtc_l _ w (after w)); [|apply rtc_once].
    - apply (ne_read _ 1 (SelectorKey 5 1) c AUTH_METHOD);
        [reflexivity|exact H2|unfold AUTH_METHOD; lia|reflexivity|reflexivity|vm_compute; reflexivity].
    - apply (ne_read _ 1 (SelectorKey 5 1) c1 PLAIN_AUTH);
        [exact Hc1|exact Hm1|unfold PLAIN_AUTH, REQUEST; lia|reflexivity|by rewrite Hs1
        |vm_compute; reflexivity]. }
  split; [exact Hrun|]. exists c2. split; [reflexivity|]. split; [exact Hm2|].
  destruct (only_users_reach_request (fun _ => None) eq_refl 1 c c2 REQUEST w w2 H1 H2)
    as [Hnil|Hp]; [vm_compute; congruence|reflexivity|reflexivity|exact H3|exact Hrun|exact Hc2|exact Hm2
    |unfold REQUEST, PROXY; lia|discriminate Hnil|exact Hp].
Defined.
