(* ===== verification/MgmtSpec.v ===== *)
(** * MgmtSpec: the management protocol

    What a request does, without the memory of the connection: [perform] maps
    the settings, users and authentication to the new ones and the answer.
    [processMgmtClient] is shown to terminate without a fault and to perform
    the requests of its input in order; and a connection that has not presented
    a token changes nothing. *)

From S2P Require Import Prelude Buffer Os SocketsIO State Users Tokens Selector SelectorSpec MgmtProtocol.
From S2P Require Import LexerCode Lexer Regex LexerRules LexerCheck LexerSpec MgmtInput World WorldLogic Mgmt.

(** ** The specification *)

(** What requests read and change: the condition of the scanner, which is
    whether the connection is authenticated, whether it asked to quit, the
    users and the settings. *)
Record control := Control {
  ct_cond : Z;
  ct_quit : bool;
  ct_users : list user;
  ct_state : server_state
}.

Definition ok_line (text : list byte) : list byte := success_status ++ text ++ line_delimiter.
Definition err_line (text : list byte) : list byte := error_status ++ text ++ line_delimiter.
Definition ok_value (text : list byte) : list byte :=
  success_status ++ lit " " ++ line_delimiter ++ text ++ line_delimiter ++
  multiline_delimiter ++ line_delimiter.

(** An argument at its first colon. *)
Fixpoint split_colon (s : list byte) : option (list byte * list byte) :=
  match s with
  | [] => None
  | c :: s' =>
      if decide (c = COLON) then Some ([], s')
      else (fun '(n, p) => (c :: n, p)) <$> split_colon s'
  end.

Definition add_credentials (arg : list byte) (us : list user) : bool * list user * list byte :=
  match split_colon arg with
  | None => (false, us, arg)
  | Some (name, pass) =>
      let ok := acceptable name pass us in
      (ok, if ok then us ++ [User name pass] else us, name)
  end.

Definition new_buffsize (arg : list byte) : option Z :=
  let n := u64 (atoi arg) in
  if ((MIN_SOCKS_BUFFSIZE <? n) && (n <? MAX_SOCKS_BUFFSIZE))%Z then Some n else None.

Definition switch_value (arg : list byte) : option bool :=
  let s := tolower <$> arg in
  if decide (s = lit "on") then Some true
  else if decide (s = lit "off") then Some false else None.

(** The new control, the answer and the length it is taken to have. *)
Definition answer (k : control) (text : list byte) : control * list byte * nat :=
  (k, (respond text).1, (respond text).2).

Definition perform (tokens : list (list byte)) (cmd : MgmtCommand) (arg : list byte) (k : control)
    : control * list byte * nat :=
  let '(Control cond q us st) := k in
  match cmd with
  | MGMT_INCOMPLETE => (k, [], 0)
  | MGMT_INVALID_CMD => answer k (err_line (lit " Invalid command for this stage "))
  | MGMT_INVALID_ARGS => answer k (err_line (lit " Invalid arguments for command"))
  | MGMT_CAPA => answer k capa_message
  | MGMT_TOKEN =>
      if decide (arg ∈ tokens)
      then answer (Control yyctrns q us st) (ok_line (lit " Welcome!"))
      else answer k (err_line (lit " Incorrect password - try again"))
  | MGMT_STATS =>
      answer k (success_status ++
        lit " Showing stats (B)yte (H)istorical connections (C)urrent connections..." ++
        line_delimiter ++ lit "B" ++ dec (get_transferred_bytes st) ++ line_delimiter ++
        lit "H" ++ dec (get_all_connections st) ++ line_delimiter ++
        lit "C" ++ dec (get_current_clients st) ++ line_delimiter ++
        multiline_delimiter ++ line_delimiter)
  | MGMT_USERS =>
      let header := success_status ++ lit " Listing users... " ++ CRLF in
      (k, header ++ mjoin ((fun u => username u ++ CRLF) <$> us) ++ lit "." ++ CRLF, length header)
  | MGMT_GET_BUFFSIZE => answer k (ok_value (dec (get_buffsize st)))
  | MGMT_SET_BUFFSIZE =>
      match new_buffsize arg with
      | Some n => answer (Control cond q us (set_buffsize n st)) (ok_line (lit " Buffsize updated "))
      | None => answer k (err_line (lit " Error updating buffsize "))
      end
  | MGMT_GET_DISSECTOR_STATUS =>
      answer k (ok_value (if get_dissector_state st then lit "on" else lit "off"))
  | MGMT_SET_DISSECTOR_STATUS =>
      match switch_value arg with
      | Some b => answer (Control cond q us (set_dissector_state b st))
                    (ok_line (lit " Dissector status updated "))
      | None => answer k (err_line (lit " Error updating dissector status "))
      end
  | MGMT_ADD_USER =>
      let '(ok, us', name) := add_credentials arg us in
      answer (Control cond q us' st)
        (if ok then ok_line (lit " Added user " ++ name) else err_line (lit " Error adding user " ++ name))
  | MGMT_QUIT => answer (Control cond true us st) (ok_line (lit " Quitting..."))
  end.

(** ** The argument in memory *)

(** The bytes of the argument, the byte after it, and the rest. *)
Lemma text_split (mem : list byte) p (u : list byte) :
  u <> [] -> (forall j c, u !! j = Some c -> mem !! (p + j) = Some c) ->
  exists X Y, mem = X ++ u ++ Y /\ length X = p.
Proof.
  intros Hne Ht. exists (take p mem), (drop (p + length u) mem).
  assert (Hp : p < length mem).
  { destruct u as [|c u]; [done|]. specialize (Ht 0 c eq_refl). apply lookup_lt_Some in Ht. lia. }
  split; [|rewrite length_take; lia]. rewrite <- (take_drop p mem) at 1. f_equal.
  rewrite <- drop_drop. rewrite <- (take_drop (length u) (drop p mem)) at 1. f_equal.
  apply list_eq. intros j. destruct (u !! j) as [c|] eqn:Ej.
  - rewrite lookup_take_lt, lookup_drop by (by eapply lookup_lt_Some). by apply Ht.
  - apply lookup_ge_None in Ej. apply lookup_ge_None. rewrite length_take. lia.
Qed.

(** The bytes from [p] on are the same. *)
Definition same_from (p : nat) (m m' : list byte) : Prop :=
  length m' = length m /\ forall q, p <= q -> m' !! q = m !! q.

Lemma same_from_splice (X a x Y : list byte) d d' p :
  length x = length a -> length X + length a < p ->
  same_from p (X ++ a ++ d :: Y) (X ++ x ++ d' :: Y).
Proof.
  intros Hl Hp. split; [rewrite !length_app; simpl; lia|]. intros q Hq.
  rewrite !(lookup_app_r X), (lookup_app_r a), (lookup_app_r x) by lia. rewrite Hl.
  destruct (q - length X - length a) as [|j] eqn:Ej; [lia|done].
Qed.

Lemma same_from_refl p m : same_from p m m.
Proof. done. Qed.

Lemma holds_same_from p m m' t : same_from p m m' -> holds m p t -> holds m' p t.
Proof. intros [_ Hs] Hh j c Hj. rewrite Hs by lia. by apply Hh. Qed.

(** ** Users *)

Lemma split_colon_Some s n p : split_colon s = Some (n, p) -> s = n ++ COLON :: p /\ COLON ∉ n.
Proof.
  revert n. induction s as [|c s IH]; intros n; simpl; [done|]. case_decide as Hc.
  - intros [= <- <-]. subst. split; [done|apply not_elem_of_nil].
  - destruct (split_colon s) as [[n' p']|]; simpl; [|done]. intros [= <- <-].
    destruct (IH n' eq_refl) as [-> Hn]. split; [done|]. set_solver.
Qed.

Lemma split_colon_None s : split_colon s = None -> COLON ∉ s.
Proof.
  induction s as [|c s IH]; simpl; [intros _; apply not_elem_of_nil|]. case_decide as Hc; [done|].
  destruct (split_colon s) as [[]|]; [done|]. intros _. specialize (IH eq_refl). set_solver.
Qed.

(** [add_user] on an argument in memory: the table, and the argument rewritten
    in place. *)
Lemma add_user_area arg Y us :
  users_wf us -> Forall (fun c => c <> NUL) arg ->
  let '(ok, us', name) := add_credentials arg us in
  users_wf us' /\ exists x, length x = length arg /\ cstr (x ++ NUL :: Y) = name /\
    add_user (arg ++ NUL :: Y) us = Done (ok, us', x ++ NUL :: Y).
Proof.
  intros Hwf Ha. unfold add_credentials. destruct (split_colon arg) as [[name pass]|] eqn:Es.
  - apply split_colon_Some in Es as [-> Hn]. apply Forall_app in Ha as [Hna Hp].
    apply Forall_cons in Hp as [_ Hp]. split.
    + destruct (acceptable name pass us) eqn:Eok; [by apply acceptable_wf|done].
    + exists (name ++ NUL :: pass). rewrite <- !app_assoc. split_and!.
      * rewrite !length_app. done.
      * by apply cstr_app_NUL.
      * by apply add_user_split.
  - apply split_colon_None in Es. split; [done|]. exists arg. split_and!; [done|by apply cstr_app_NUL|].
    unfold add_user. rewrite (strchr_absent _ arg); [done|by exists Y|done|done].
Qed.

Lemma listing_length us :
  Forall (fun u => field_ok (username u) MAX_USER_LEN = true /\
                   field_ok (password u) MAX_PASS_LEN = true) us ->
  length (mjoin ((fun u => username u ++ CRLF) <$> us)) <= 12 * length us.
Proof.
  induction 1 as [|u us [Hu _] _ IH]; [done|]. unfold field_ok in Hu. tests.
  rewrite fmap_cons. cbn [mjoin list_join length]. rewrite !length_app.
  etrans; [apply Nat.add_le_mono_l, IH|]. change (length CRLF) with 2. unfold MAX_USER_LEN in *. lia.
Qed.

(** The array of the answer holds every listing. *)
Lemma list_users_spec us :
  users_wf us ->
  let header := success_status ++ lit " Listing users... " ++ CRLF in
  let text := header ++ mjoin ((fun u => username u ++ CRLF) <$> us) ++ lit "." ++ CRLF in
  list_users header us = Done text /\ length text < MGMT_BUFFSIZE.
Proof.
  intros (Hlen & _ & Hall) header text.
  assert (Hl : length text < MGMT_BUFFSIZE).
  { pose proof (listing_length us Hall). unfold text, header. rewrite !length_app.
    unfold MAX_USERS in Hlen. change (length success_status) with 3. change (length CRLF) with 2.
    change (length (lit " Listing users... ")) with 18. change (length (lit ".")) with 1.
    change MGMT_BUFFSIZE with (400 + 1648). lia. }
  split; [|done]. unfold list_users.
  replace ((fun u => cstr (username u) ++ line_delimiter) <$> us)
    with ((fun u => username u ++ CRLF) <$> us); [by rewrite decide_True|].
  clear -Hall. induction Hall as [|u us [Hu _] _ IH]; [done|]. rewrite !fmap_cons. f_equal; [|exact IH].
  by rewrite (cstr_id (username u)) by (by eapply field_ok_no_NUL).
Qed.

(** ** One request *)

Section Requests.
Context {E : Type} `{OS E}.
Implicit Types (w : world E).

(** The connection at [a] becomes [c'], and what requests change becomes [k];
    the rest of the process is the same. *)
Record mstep (a : Z) (c' : mgmt_client) (k : control) w w' : Prop := {
  ms_mgmt : w_mgmt w' = <[a := c']> (w_mgmt w);
  ms_users : w_users w' = ct_users k;
  ms_state : w_state w' = ct_state k;
  ms_cond : in_cond (m_input c') = ct_cond k;
  ms_quit : quitted c' = ct_quit k;
  ms_rest : w_io w' = w_io w /\ w_sel w' = w_sel w /\ w_tokens w' = w_tokens w /\
            w_clients w' = w_clients w /\ w_next w' = w_next w /\ w_threads w' = w_threads w
}.

Definition control_of w (c : mgmt_client) : control :=
  Control (in_cond (m_input c)) (quitted c) (w_users w) (w_state w).

(** The parts of a connection a request leaves alone; its memory changes only
    before the next request. *)
Record same_mgmt (c c' : mgmt_client) : Prop := {
  sm_fd : m_fd c' = m_fd c;
  sm_write : write_buf c' = write_buf c;
  sm_pending : pending_buf c' = pending_buf c;
  sm_mem : same_from (in_tok (m_input c)) (in_mem (m_input c)) (in_mem (m_input c'));
  sm_input : m_input c' = set_cond (in_cond (m_input c')) (set_mem (in_mem (m_input c')) (m_input c))
}.

Lemma wp_get_mgmt a c (Q : mgmt_client -> world E -> Prop) w :
  w_mgmt w !! a = Some c -> Q c w -> wp (get_mgmt a) Q w.
Proof. unfold wp, get_mgmt. by intros ->. Qed.

Lemma wp_upd_mgmt a c f (Q : unit -> world E -> Prop) w :
  w_mgmt w !! a = Some c ->
  Q tt (lput mgmt_lens (<[a := f c]> (w_mgmt w)) w) -> wp (upd_mgmt a f) Q w.
Proof.
  intros Hc HQ. apply wp_bind. eapply wp_get_mgmt; [done|]. unfold wp, put_mgmt. by rewrite Hc.
Qed.

Definition executed (a : Z) (c : mgmt_client) (cmd : MgmtCommand) (arg : list byte) w
    (r : list byte * nat) w' : Prop :=
  let '(k, text, len) := perform (w_tokens w) cmd arg (control_of w c) in
  r = (text, len) /\ exists c', mstep a c' k w w' /\ same_mgmt c c'.

Lemma same_mgmt_refl c : same_mgmt c c.
Proof. split; try done. by destruct (m_input c). Qed.

Lemma mstep_refl a c w : w_mgmt w !! a = Some c -> mstep a c (control_of w c) w w.
Proof. intros Hc. split; try done. by rewrite insert_id. Qed.

Lemma executed_same a c cmd arg w text len :
  w_mgmt w !! a = Some c ->
  perform (w_tokens w) cmd arg (control_of w c) = (control_of w c, text, len) ->
  executed a c cmd arg w (text, len) w.
Proof.
  intros Hc Hp. unfold executed. rewrite Hp. split; [done|]. exists c.
  split; [by apply mstep_refl|apply same_mgmt_refl].
Qed.

(** ** Commands with an argument *)

(** The argument [arg] is in the memory of [c] at the offset the request gives,
    before the next request. *)
Definition arg_at (c : mgmt_client) (rq : request) (arg : list byte) (X Y : list byte) : Prop :=
  (exists d, in_mem (m_input c) = X ++ arg ++ d :: Y) /\
  rq_arg rq = Some (length X) /\ rq_argLen rq = Z.of_nat (length arg) /\
  length X + length arg < in_tok (m_input c).

(** The memory with the argument replaced by [x] and terminated. *)
Definition put_arg (X x Y : list byte) (c : mgmt_client) : mgmt_client :=
  set_input (set_mem (X ++ x ++ NUL :: Y) (m_input c)) c.

Lemma wp_terminate_arg a c rq arg X Y w (Q : nat -> world E -> Prop) :
  w_mgmt w !! a = Some c -> arg_at c rq arg X Y ->
  Q (length X) (lput mgmt_lens (<[a := put_arg X arg Y c]> (w_mgmt w)) w) ->
  wp (terminate_arg a rq) Q w.
Proof.
  intros Hc ((d & Hm) & Ha & Hl & _) HQ. unfold terminate_arg. rewrite Ha, Hl.
  rewrite (proj2 (Z.ltb_ge _ _)) by lia. rewrite Nat2Z.id.
  apply wp_bind. eapply wp_get_mgmt; [done|]. apply wp_bind. eapply wp_lift.
  { rewrite Hm, app_assoc, mem_write_Done by (rewrite !length_app; simpl; lia).
    rewrite <- length_app, take_app_length, drop_app_ge by (simpl; lia).
    replace (length (X ++ arg) + length [NUL] - length (X ++ arg)) with 1 by (simpl; lia).
    reflexivity. }
  apply wp_bind. eapply wp_upd_mgmt; [done|]. apply wp_ret. unfold put_arg in HQ.
  rewrite <- app_assoc. exact HQ.
Qed.

Lemma wp_arg_area a c X x Y w (Q : list byte -> world E -> Prop) :
  w_mgmt w !! a = Some (put_arg X x Y c) -> Q (x ++ NUL :: Y) w -> wp (arg_area a (length X)) Q w.
Proof.
  intros Hc HQ. apply wp_bind. eapply wp_get_mgmt; [exact Hc|]. apply wp_ret. simpl.
  by rewrite drop_app_length.
Qed.

Lemma wp_put_arg_area a c X x y Y w (Q : unit -> world E -> Prop) :
  w_mgmt w !! a = Some (put_arg X x Y c) ->
  Q tt (lput mgmt_lens (<[a := put_arg X y Y c]> (w_mgmt w)) w) ->
  wp (put_arg_area a (length X) (y ++ NUL :: Y)) Q w.
Proof.
  intros Hc HQ. apply wp_bind. eapply wp_get_mgmt; [exact Hc|]. eapply wp_upd_mgmt; [exact Hc|].
  simpl. rewrite take_app_length. exact HQ.
Qed.

Lemma same_mgmt_put c rq arg X Y x :
  arg_at c rq arg X Y -> length x = length arg -> same_mgmt c (put_arg X x Y c).
Proof.
  intros ((d & Hm) & _ & _ & Hlt) Hx. split; try done.
  simpl. rewrite Hm. by apply same_from_splice.
Qed.

Lemma insert_mgmt_eq a (c : mgmt_client) w : w_mgmt (lput mgmt_lens (<[a := c]> (w_mgmt w)) w) !! a = Some c.
Proof. apply lookup_insert_eq. Qed.

(** [streq] of an argument in memory with a literal. *)
Lemma streq_area x Y s :
  Forall (fun c => c <> NUL) x -> cstr s = s -> streq (x ++ NUL :: Y) s = bool_decide (x = s).
Proof. intros Hx Hs. unfold streq. by rewrite Hs, cstr_app_NUL. Qed.

Lemma tolower_not_NUL c : c <> NUL -> tolower c <> NUL.
Proof.
  intros Hc Ht. apply Hc. apply Zb_inj. unfold tolower in Ht. case_match; [|by rewrite Ht].
  tests. apply (f_equal Zb) in Ht. rewrite Zb_byte_of in Ht by lia. change (Zb NUL) with 0%Z in Ht. lia.
Qed.

Lemma tolower_area x Y :
  Forall (fun c => c <> NUL) x -> tolower_str (x ++ NUL :: Y) = Done ((tolower <$> x) ++ NUL :: Y).
Proof.
  intros Hx. unfold tolower_str. rewrite decide_True by set_solver.
  by rewrite cstr_app_NUL, drop_app_length.
Qed.

Section Execute.
Context (a : Z) (c : mgmt_client) (rq : request) (arg X Y : list byte) (w : world E).
Context (Hc : w_mgmt w !! a = Some c) (Harg : arg_at c rq arg X Y).
Context (Hnul : Forall (fun ch => ch <> NUL) arg).

(** The connection after an argument has been read, and rewritten as [x]. *)
Lemma executed_put cmd x k text len st' us' cond' :
  perform (w_tokens w) cmd arg (control_of w c) = (k, text, len) ->
  k = Control cond' (quitted c) us' st' -> length x = length arg ->
  forall w', w_mgmt w' = <[a := set_input (set_cond cond' (m_input (put_arg X x Y c))) c]> (w_mgmt w) ->
  w_users w' = us' -> w_state w' = st' ->
  w_io w' = w_io w /\ w_sel w' = w_sel w /\ w_tokens w' = w_tokens w /\
    w_clients w' = w_clients w /\ w_next w' = w_next w /\ w_threads w' = w_threads w ->
  executed a c cmd arg w (text, len) w'.
Proof.
  intros Hp -> Hx w' Hm Hu Hs Hr. unfold executed. rewrite Hp. split; [done|].
  eexists. split; [by split|]. pose proof (same_mgmt_put c rq arg X Y x Harg Hx) as [].
  by split.
Qed.

Lemma wp_execute_token : tokens_wf (w_tokens w) ->
  wp (execute a MGMT_TOKEN rq) (executed a c MGMT_TOKEN arg w) w.
Proof.
  intros Ht. apply wp_bind. eapply wp_terminate_arg; [exact Hc|exact Harg|].
  set (w1 := lput mgmt_lens _ w). pose proof (insert_mgmt_eq a (put_arg X arg Y c) w) as Hc1. fold w1 in Hc1.
  apply wp_bind. eapply wp_arg_area; [exact Hc1|]. apply wp_bind, wp_gets.
  change (w_tokens w1) with (w_tokens w).
  rewrite check_token_spec by done. rewrite cstr_app_NUL by done. case_bool_decide as Hin.
  - apply wp_bind. eapply wp_upd_mgmt; [exact Hc1|]. apply wp_ret.
    eapply (executed_put MGMT_TOKEN arg);
      [simpl; rewrite decide_True by done; reflexivity|reflexivity|done|..|done]; try done.
    simpl. by rewrite insert_insert_eq.
  - apply wp_ret. eapply (executed_put MGMT_TOKEN arg);
      [simpl; rewrite decide_False by done; reflexivity|reflexivity|done|..|done]; done.
Qed.

Lemma wp_execute_set_buffsize :
  wp (execute a MGMT_SET_BUFFSIZE rq) (executed a c MGMT_SET_BUFFSIZE arg w) w.
Proof.
  apply wp_bind. eapply wp_terminate_arg; [exact Hc|exact Harg|].
  set (w1 := lput mgmt_lens _ w). pose proof (insert_mgmt_eq a (put_arg X arg Y c) w) as Hc1. fold w1 in Hc1.
  apply wp_bind. eapply wp_arg_area; [exact Hc1|]. rewrite cstr_app_NUL by done.
  assert (Hp : perform (w_tokens w) MGMT_SET_BUFFSIZE arg (control_of w c) =
    match new_buffsize arg with
    | Some n => answer (Control (in_cond (m_input c)) (quitted c) (w_users w) (set_buffsize n (w_state w)))
                  (ok_line (lit " Buffsize updated "))
    | None => answer (control_of w c) (err_line (lit " Error updating buffsize ")) end) by done.
  unfold new_buffsize in Hp. cbv zeta in Hp |- *.
  match goal with |- context [if ?b then _ else _] => destruct b end.
  - apply wp_bind, wp_upd_state, wp_ret.
    by eapply (executed_put MGMT_SET_BUFFSIZE arg); [exact Hp|reflexivity|done|..].
  - apply wp_ret. by eapply (executed_put MGMT_SET_BUFFSIZE arg); [exact Hp|reflexivity|done|..].
Qed.

Lemma wp_execute_set_dissector :
  wp (execute a MGMT_SET_DISSECTOR_STATUS rq) (executed a c MGMT_SET_DISSECTOR_STATUS arg w) w.
Proof.
  apply wp_bind. eapply wp_terminate_arg; [exact Hc|exact Harg|].
  set (w1 := lput mgmt_lens _ w). pose proof (insert_mgmt_eq a (put_arg X arg Y c) w) as Hc1. fold w1 in Hc1.
  apply wp_bind. eapply wp_arg_area; [exact Hc1|].
  apply wp_bind. eapply wp_lift; [by apply tolower_area|].
  apply wp_bind. eapply wp_put_arg_area; [exact Hc1|].
  assert (Hl : length (tolower <$> arg) = length arg) by apply length_fmap.
  assert (Hm : forall s, w_mgmt (lput mgmt_lens (<[a:=put_arg X (tolower <$> arg) Y c]> (w_mgmt w1)) w1) = s ->
    s = <[a:=put_arg X (tolower <$> arg) Y c]> (w_mgmt w)) by (intros s <-; apply insert_insert_eq).
  assert (Hx : Forall (fun ch => ch <> NUL) (tolower <$> arg))
    by (apply Forall_fmap; eapply Forall_impl; [exact Hnul|]; intros ch; apply tolower_not_NUL).
  rewrite !streq_area by done.
  assert (Hp : perform (w_tokens w) MGMT_SET_DISSECTOR_STATUS arg (control_of w c) =
    match switch_value arg with
    | Some b => answer (Control (in_cond (m_input c)) (quitted c) (w_users w) (set_dissector_state b (w_state w)))
                  (ok_line (lit " Dissector status updated "))
    | None => answer (control_of w c) (err_line (lit " Error updating dissector status ")) end) by done.
  unfold switch_value in Hp. cbv zeta in Hp.
  destruct (decide (tolower <$> arg = lit "on")) as [Hon|Hon];
    [rewrite bool_decide_eq_true_2 by done|rewrite bool_decide_eq_false_2 by done].
  { apply wp_bind, wp_upd_state, wp_ret.
    by eapply (executed_put _ (tolower <$> arg)); [exact Hp|reflexivity|done|by apply Hm|..]. }
  destruct (decide (tolower <$> arg = lit "off")) as [Hoff|Hoff];
    [rewrite bool_decide_eq_true_2 by done|rewrite bool_decide_eq_false_2 by done].
  - apply wp_bind, wp_upd_state, wp_ret.
    by eapply (executed_put _ (tolower <$> arg)); [exact Hp|reflexivity|done|by apply Hm|..].
  - apply wp_ret. by eapply (executed_put _ (tolower <$> arg)); [exact Hp|reflexivity|done|by apply Hm|..].
Qed.

Lemma wp_execute_add_user : users_wf (w_users w) ->
  wp (execute a MGMT_ADD_USER rq) (executed a c MGMT_ADD_USER arg w) w.
Proof.
  intros Hu. apply wp_bind. eapply wp_terminate_arg; [exact Hc|exact Harg|].
  set (w1 := lput mgmt_lens _ w). pose proof (insert_mgmt_eq a (put_arg X arg Y c) w) as Hc1. fold w1 in Hc1.
  apply wp_bind. eapply wp_arg_area; [exact Hc1|]. apply wp_bind, wp_gets.
  change (w_users w1) with (w_users w).
  assert (Hp : perform (w_tokens w) MGMT_ADD_USER arg (control_of w c) =
    let '(ok, us', name) := add_credentials arg (w_users w) in
    answer (Control (in_cond (m_input c)) (quitted c) us' (w_state w))
      (if ok then ok_line (lit " Added user " ++ name) else err_line (lit " Error adding user " ++ name)))
    by done.
  pose proof (add_user_area arg Y (w_users w) Hu Hnul) as Hadd.
  destruct (add_credentials arg (w_users w)) as [[ok us'] name].
  destruct Hadd as (_ & x & Hx & Hname & Eadd).
  apply wp_bind. eapply wp_lift; [exact Eadd|]. cbv beta iota. apply wp_bind, wp_modify.
  apply wp_bind. eapply wp_put_arg_area; [exact Hc1|]. rewrite Hname.
  destruct ok; apply wp_ret;
    (eapply (executed_put _ x); [exact Hp|reflexivity|done|..|done]; try done; apply insert_insert_eq).
Qed.
End Execute.

(** Every command, on an argument in memory when it has one. *)
Lemma wp_execute a c cmd rq arg w :
  w_mgmt w !! a = Some c -> users_wf (w_users w) -> tokens_wf (w_tokens w) ->
  cmd <> MGMT_INCOMPLETE ->
  (has_arg cmd = true -> Forall (fun ch => ch <> NUL) arg /\ exists X Y, arg_at c rq arg X Y) ->
  wp (execute a cmd rq) (executed a c cmd arg w) w.
Proof.
  intros Hc Hu Ht Hi Harg.
  destruct (has_arg cmd) eqn:Eh.
  - destruct (Harg eq_refl) as (Hn & X & Y & HX).
    destruct cmd; try discriminate Eh.
    + by eapply wp_execute_token.
    + by eapply wp_execute_set_buffsize.
    + by eapply wp_execute_set_dissector.
    + by eapply wp_execute_add_user.
  - clear Harg. destruct cmd; try discriminate Eh; clear Eh.
    + apply wp_ret, executed_same; [exact Hc|reflexivity].
    + by destruct Hi.
    + apply wp_bind, wp_gets, wp_ret, executed_same; [exact Hc|reflexivity].
    + apply wp_ret, executed_same; [exact Hc|reflexivity].
    + destruct (list_users_spec (w_users w) Hu) as [El _]. apply wp_bind, wp_gets.
      apply wp_bind. eapply wp_lift; [exact El|]. apply wp_ret, executed_same; [exact Hc|reflexivity].
    + apply wp_bind, wp_gets, wp_ret, executed_same; [exact Hc|reflexivity].
    + apply wp_bind, wp_gets, wp_ret, executed_same; [exact Hc|reflexivity].
    + apply wp_bind. eapply wp_upd_mgmt; [exact Hc|]. apply wp_ret. split; [reflexivity|].
      eexists. split; [by split|]. pose proof (same_mgmt_refl c) as []. by split.
    + apply wp_ret, executed_same; [exact Hc|reflexivity].
Qed.

(** ** The loop *)

(** The next request of the text [t]: its length, command and argument. *)
Inductive next_request (cond : Z) (t : list byte) : nat -> MgmtCommand -> list byte -> Prop :=
| nr_match n cmd arg off :
    n <= length t -> first_match (rules cond) (take n t) cmd ->
    (if has_arg cmd then argument (take n t) arg off else arg = []) ->
    next_request cond t n cmd arg
| nr_default :
    t <> [] -> ~ viable (rules cond) t ->
    (forall n, n <= length t -> ~ matched (rules cond) (take n t)) ->
    next_request cond t 1 MGMT_INVALID_CMD [].

(** An answer that does not fit is not written. *)
Definition written (room : nat) (text : list byte) : list byte :=
  if room <? length text then [] else text.

(** [serves tokens room k t out pend k' t']: with [room] bytes for answers, the
    requests of [t] are performed in order, leaving [t']; [out] is answered, and
    [pend] is the answer for which there is no room, after which no request is
    looked at. *)
Inductive serves (tokens : list (list byte)) : nat -> control -> list byte ->
    list byte -> list byte -> control -> list byte -> Prop :=
| sv_wait room k t :
    open_prefix (ct_cond k) t -> serves tokens room k t [] [] k t
| sv_stop room k t n cmd arg k' text len :
    next_request (ct_cond k) t n cmd arg -> perform tokens cmd arg k = (k', text, len) ->
    room < len -> serves tokens room k t [] text k' (drop n t)
| sv_next room k t n cmd arg k' text len out pend k'' t'' :
    next_request (ct_cond k) t n cmd arg -> perform tokens cmd arg k = (k', text, len) ->
    len <= room ->
    serves tokens (room - length (written room text)) k' (drop n t) out pend k'' t'' ->
    serves tokens room k t (written room text ++ out) pend k'' t''.

Lemma perform_length tokens cmd arg k k' text len :
  users_wf (ct_users k) -> perform tokens cmd arg k = (k', text, len) -> length text < MGMT_BUFFSIZE.
Proof.
  intros Hu Hp.
  assert (Ht : forall t, length (respond t).1 < MGMT_BUFFSIZE)
    by (intros t; unfold respond; simpl fst; rewrite length_take; unfold MGMT_BUFFSIZE; lia).
  destruct k as [cond q us st]. unfold perform, answer in Hp.
  repeat case_match; simplify_eq; try apply Ht; try (unfold MGMT_BUFFSIZE; simpl; lia).
  apply (list_users_spec us Hu).
Qed.

Lemma perform_users tokens cmd arg k k' text len :
  users_wf (ct_users k) -> Forall (fun ch => ch <> NUL) arg ->
  perform tokens cmd arg k = (k', text, len) -> users_wf (ct_users k').
Proof.
  intros Hu Ha Hp. destruct k as [cond q us st]. pose proof (add_user_area arg [] us Hu Ha) as Hadd.
  unfold perform, answer in Hp. destruct (add_credentials arg us) as [[ok us'] name].
  destruct Hadd as [Hadd _]. repeat case_match; simplify_eq; done.
Qed.

Lemma parse_keeps i cmd rq i' :
  parseMgmtRequest i = Done (cmd, rq, i') ->
  in_mem i' = in_mem i /\ in_lim i' = in_lim i /\ in_bufSize i' = in_bufSize i /\
  (rq <> None -> in_state i' = (-1)%Z).
Proof.
  unfold parseMgmtRequest. intros Hp. repeat (apply outcome_bind_Done in Hp as (? & _ & Hp)).
  case_match; monads; done.
Qed.

(** The argument of a request just scanned, in the memory of the scanner. *)
Lemma arg_in_memory mem tok t n arg off :
  holds mem tok t -> n <= length t -> argument (take n t) arg off ->
  exists X d Y, mem = X ++ arg ++ d :: Y /\ length X = tok + off /\ off + length arg < n.
Proof.
  intros Ht Hn (kw & sp & d & rest & Eu & -> & _ & _ & _ & _).
  assert (Hlen : length (kw ++ sp ++ arg ++ d :: rest) = n) by (rewrite <- Eu; by apply length_take_le).
  destruct (text_split mem (tok + length (kw ++ sp)) (arg ++ [d])) as (X & Y & -> & HX).
  - by destruct arg.
  - intros j c Hj. rewrite <- Nat.add_assoc. apply Ht. rewrite <- (take_drop n t), Eu, <- !app_assoc.
    rewrite app_assoc, lookup_app_r, Nat.add_comm, Nat.add_sub by lia.
    apply (lookup_app_l_Some _ (rest ++ drop n t ++ [NUL])) in Hj. by rewrite <- app_assoc in Hj.
  - exists X, d, Y. rewrite <- app_assoc. split_and!; [done|done|].
    rewrite !length_app in *. simpl in Hlen. lia.
Qed.

(** What a call of the scanner gives to the loop. *)
Lemma scan_request i u t :
  scanning i u t -> input_wf i -> fallback (in_state i) = None \/ t <> [] ->
  exists cmd rq i', parseMgmtRequest i = Done (cmd, rq, i') /\ input_wf i' /\ in_cond i' = in_cond i /\
    (cmd = MGMT_INCOMPLETE /\ open_prefix (in_cond i) (u ++ t) /\ scanning i' (u ++ t) [] \/
     cmd <> MGMT_INCOMPLETE /\ exists q arg, rq = Some q /\ 1 <= rq_len q <= length (u ++ t) /\
       next_request (in_cond i) (u ++ t) (rq_len q) cmd arg /\
       scanning i' [] (drop (rq_len q) (u ++ t)) /\ fallback (in_state i') = None /\
       (has_arg cmd = true -> Forall (fun ch => ch <> NUL) arg /\
          exists X Y, (exists d, in_mem i' = X ++ arg ++ d :: Y) /\ rq_arg q = Some (length X) /\
            rq_argLen q = Z.of_nat (length arg) /\ length X + length arg < in_tok i')).
Proof.
  intros Hs Hwf Hfb. destruct (parseMgmtRequest_spec i u t Hs Hfb) as (cmd & rq & i' & Ep & Hpr & Hc & Hsc).
  destruct (parse_keeps _ _ _ _ Ep) as (Hm & Hl & Hb & Hst).
  exists cmd, rq, i'. split; [done|]. split; [unfold input_wf in *; by rewrite Hm, Hl, Hb|].
  split; [done|].
  assert (Hnext : forall n, n <= length (u ++ t) -> scanning i' [] (drop n (u ++ t)) ->
    in_tok i' = in_tok i + n).
  { intros n Hn Hsc'. pose proof (sc_lim _ _ _ Hs). pose proof (sc_lim _ _ _ Hsc') as Hl'. simpl in Hl'.
    rewrite length_drop in Hl'. lia. }
  destruct Hpr as [n cmd a Hn Hfm Ha|Ho|Hne Hv Hnm]; [right|by left|right].
  - assert (1 <= n).
    { pose proof (matched_nonempty _ _ (first_match_matched _ _ _ Hfm)). destruct n; [done|lia]. }
    split; [by eapply first_match_complete|]. simpl in Hsc.
    assert (Hf : fallback (in_state i') = None) by (by rewrite Hst).
    unfold arg_report in Ha. destruct (has_arg cmd) eqn:Eh.
    + destruct Ha as (arg & off & Harg & ->).
      destruct (arg_in_memory _ _ _ _ _ _ (sc_text _ _ _ Hs) Hn Harg) as (X & d & Y & Em & HX & Hlt).
      assert (Hnul : NUL ∉ take n (u ++ t)).
      { eapply arg_command_no_NUL; [exact Hfm|]. destruct cmd; try discriminate Eh; auto. }
      eexists _, arg. split; [reflexivity|]. split_and!; try done.
      { eapply nr_match; [done|done|]. by rewrite Eh. }
      intros _. split.
      { apply Forall_forall. intros ch Hch ->. apply Hnul.
        destruct Harg as (kw & sp & d' & rest & -> & _). set_solver. }
      exists X, Y. split_and!; [exists d; by rewrite Hm|simpl; by rewrite HX|simpl; lia|].
      rewrite (Hnext n Hn Hsc). lia.
    + subst a. eexists _, []. split; [reflexivity|]. split_and!; try done.
      eapply (nr_match _ _ _ _ _ 0); [done|done|]. by rewrite Eh.
  - split; [done|]. eexists _, []. split; [reflexivity|]. simpl in Hsc |- *. split_and!; try done.
    + destruct (u ++ t); simpl; [done|lia].
    + by apply nr_default.
    + by rewrite Hst.
Qed.

Lemma write_response_spec b text :
  buffer_wf b ->
  exists n b', write_response b text = Done (n, b') /\ buffer_wf b' /\
    contents b' = contents b ++ written (room b) text /\
    room b' = room b - length (written (room b) text).
Proof.
  intros Hb. unfold write_response. rewrite write_ptr_wf by done. simpl. unfold written.
  destruct (Nat.ltb_spec (room b) (length text)) as [Hlt|Hge].
  - eexists _, b. split; [reflexivity|]. simpl. rewrite app_nil_r. split_and!; try done. lia.
  - destruct (buffer_store_spec b text Hb Hge) as (b' & -> & Hb' & Hc & Hr & _).
    by eexists _, b'.
Qed.

Lemma mstep_trans a c1 c2 k1 k2 w w1 w2 :
  mstep a c1 k1 w w1 -> mstep a c2 k2 w1 w2 -> mstep a c2 k2 w w2.
Proof.
  intros [Hm1 _ _ _ _ Hr1] [Hm2 Hu2 Hs2 Hc2 Hq2 Hr2]. split; try done.
  - by rewrite Hm2, Hm1, insert_insert_eq.
  - intuition congruence.
Qed.

Lemma mstep_upd a c w : mstep a c (control_of w c) w (lput mgmt_lens (<[a := c]> (w_mgmt w)) w).
Proof. by split. Qed.

Lemma mstep_control a c k w w' : mstep a c k w w' -> control_of w' c = k.
Proof. intros [_ Hu Hs Hc Hq _]. unfold control_of. destruct k. simpl in *. congruence. Qed.

(** A connection between two calls: the scanner has seen [u] and not yet [t]. *)
Record mgmt_ok w (a : Z) (c : mgmt_client) (u t : list byte) : Prop := {
  mo_client : w_mgmt w !! a = Some c;
  mo_write : buffer_wf (write_buf c);
  mo_pending : buffer_wf (pending_buf c);
  mo_empty : contents (pending_buf c) = [] /\ MGMT_BUFFSIZE <= room (pending_buf c);
  mo_input : input_wf (m_input c);
  mo_scan : scanning (m_input c) u t;
  mo_users : users_wf (w_users w);
  mo_tokens : tokens_wf (w_tokens w)
}.

(** The loop of [processMgmtClient] implements [serves]. *)
Definition served (a : Z) (c : mgmt_client) (t : list byte) w (r : bool) w' : Prop :=
  r = true /\ exists c' k out pend t',
    serves (w_tokens w) (room (write_buf c)) (control_of w c) t out pend k t' /\
    mstep a c' k w w' /\
    buffer_wf (write_buf c') /\ contents (write_buf c') = contents (write_buf c) ++ out /\
    buffer_wf (pending_buf c') /\ contents (pending_buf c') = pend /\
    users_wf (ct_users k) /\ input_wf (m_input c') /\
    exists u' v', t' = u' ++ v' /\ scanning (m_input c') u' v'.

Lemma scanning_same i i' t :
  scanning i [] t -> fallback (in_state i) = None ->
  same_from (in_tok i) (in_mem i) (in_mem i') ->
  i' = set_cond (in_cond i') (set_mem (in_mem i') i) -> scanning i' [] t.
Proof.
  intros [Ht Hl Hc _] Hf Hs ->. split; simpl; try done.
  - by eapply holds_same_from.
  - by left.
Qed.

Lemma next_request_no_NUL cond t n cmd arg :
  next_request cond t n cmd arg -> Forall (fun ch => ch <> NUL) arg.
Proof.
  intros [n' cmd' arg' off Hn Hfm Ha|]; [|constructor]. destruct (has_arg cmd') eqn:Eh; [|subst; constructor].
  assert (Hnul : NUL ∉ take n' t)
    by (eapply arg_command_no_NUL; [exact Hfm|]; destruct cmd'; try discriminate Eh; auto).
  apply Forall_forall. intros ch Hch ->. apply Hnul.
  destruct Ha as (kw & sp & d & rest & -> & _). set_solver.
Qed.

(** One iteration: the scanner waits, or a request is performed and consumed. *)
Definition request_served (a : Z) (c : mgmt_client) (t : list byte) w
    (r : option (nat * list byte * nat)) w' : Prop :=
  exists c' k, mstep a c' k w w' /\ write_buf c' = write_buf c /\ pending_buf c' = pending_buf c /\
    input_wf (m_input c') /\
    match r with
    | None => k = control_of w c /\ open_prefix (ct_cond k) t /\ scanning (m_input c') t []
    | Some (space, text, len) =>
        space = room (write_buf c) /\ users_wf (ct_users k) /\
        fallback (in_state (m_input c')) = None /\
        exists n cmd arg, 1 <= n <= length t /\ next_request (in_cond (m_input c)) t n cmd arg /\
          perform (w_tokens w) cmd arg (control_of w c) = (k, text, len) /\
          scanning (m_input c') [] (drop n t)
    end.

Lemma wp_serve_request a c u t w :
  mgmt_ok w a c u t -> fallback (in_state (m_input c)) = None \/ t <> [] ->
  wp (serve_request a) (request_served a c (u ++ t) w) w.
Proof.
  intros [Hc Hwb _ _ Hwf Hsc Hu Htk] Hfb. apply wp_bind. eapply wp_get_mgmt; [exact Hc|].
  destruct (scan_request _ u t Hsc Hwf Hfb) as (cmd & rq & i' & Ep & Hwf' & Hcond & Hcase).
  apply wp_bind. eapply wp_lift; [exact Ep|]. cbv beta iota.
  apply wp_bind. eapply wp_upd_mgmt; [exact Hc|]. set (c1 := set_input i' c).
  set (w1 := lput mgmt_lens _ w). pose proof (insert_mgmt_eq a c1 w) as Hc1. fold w1 in Hc1.
  assert (Hk1 : control_of w1 c1 = control_of w c) by (unfold control_of; simpl; by rewrite Hcond).
  pose proof (mstep_upd a c1 w) as Hm1. fold w1 in Hm1. change (control_of w c1) with (control_of w1 c1) in Hm1.
  rewrite Hk1 in Hm1.
  destruct Hcase as [(-> & Ho & Hs')|(Hcmd & q & arg & -> & Hq & Hnr & Hs' & Hf' & Harg)].
  { apply wp_ret. by exists c1, (control_of w c). }
  rewrite bool_decide_eq_false_2 by done.
  apply wp_bind. eapply wp_lift; [by apply write_ptr_wf|]. cbv beta iota.
  apply wp_bind. eapply wp_mono; [by apply (wp_execute a c1 cmd q arg w1 Hc1)|].
  intros [text len] w2 Hex. unfold executed in Hex. rewrite Hk1 in Hex.
  destruct (perform (w_tokens w1) cmd arg (control_of w c)) as [[k text'] len'] eqn:Eperf.
  destruct Hex as ([= <- <-] & c2 & Hm2 & [_ Hw2 Hp2 Hmem2 Hin2]).
  apply wp_ret. exists c2, k. split; [exact (mstep_trans _ _ _ _ _ _ _ _ Hm1 Hm2)|].
  assert (Hst2 : in_state (m_input c2) = in_state i') by (by rewrite Hin2).
  split_and!; try done.
  - rewrite Hin2. destruct Hmem2 as [Hml _]. destruct Hwf'. split; simpl in *; lia.
  - eapply perform_users; [|by eapply next_request_no_NUL|exact Eperf]. done.
  - by rewrite Hst2.
  - exists (rq_len q), cmd, arg. split_and!; try done; [lia|lia|]. by eapply (scanning_same i').
Qed.

Lemma wp_process_requests fuel a c u t w :
  mgmt_ok w a c u t -> fallback (in_state (m_input c)) = None \/ t <> [] ->
  length (u ++ t) < fuel ->
  wp (process_requests fuel a) (served a c (u ++ t) w) w.
Proof.
  revert c u t w. induction fuel as [|fuel IH]; [lia|]. intros c u t w Hok Hfb Hfuel.
  cbn [process_requests]. apply wp_bind. eapply wp_mono; [by apply wp_serve_request|].
  intros r w1 (c1 & k & Hm1 & Ew1 & Ep1 & Hi1 & Hr). pose proof Hok as [_ Hwb Hpb [Hpe Hpr] _ _ Hu Htk].
  destruct r as [[[space text] len]|].
  2: { destruct Hr as (-> & Ho & Hsc). apply wp_ret. split; [done|].
    exists c1, (control_of w c), [], [], (u ++ t).
    rewrite Ew1, Ep1, app_nil_r. split_and!; try done; [by apply sv_wait|].
    exists (u ++ t), []. by rewrite app_nil_r. }
  destruct Hr as (-> & Hu1 & Hf1 & n & cmd & arg & Hn & Hnr & Eperf & Hsc1).
  assert (Hc1 : w_mgmt w1 !! a = Some c1) by (by rewrite (ms_mgmt _ _ _ _ _ Hm1), lookup_insert_eq).
  apply wp_bind. eapply wp_get_mgmt; [exact Hc1|].
  destruct (Nat.ltb_spec (room (write_buf c)) len) as [Hlt|Hge].
  - rewrite Ep1. destruct (write_response_spec (pending_buf c) text Hpb) as (m & b & Eb & Hb & Hcb & _).
    assert (Hfit : written (room (pending_buf c)) text = text).
    { unfold written. rewrite (proj2 (Nat.ltb_ge _ _)); [done|].
      pose proof (perform_length _ _ _ (control_of w c) _ _ _ Hu Eperf). lia. }
    apply wp_bind. eapply wp_lift; [exact Eb|]. cbv beta iota.
    apply wp_bind. eapply wp_upd_mgmt; [exact Hc1|]. apply wp_ret. split; [done|].
    exists (set_pending_buf b c1), k, [], text, (drop n (u ++ t)). split_and!; try done.
    + by eapply sv_stop.
    + rewrite <- (mstep_control _ _ _ _ _ Hm1) at 1. eapply mstep_trans; [exact Hm1|].
      apply (mstep_upd a (set_pending_buf b c1)).
    + simpl. by rewrite Ew1.
    + simpl. by rewrite Ew1, app_nil_r.
    + simpl. by rewrite Hcb, Hpe, Hfit.
    + by exists [], (drop n (u ++ t)).
  - rewrite Ew1. destruct (write_response_spec (write_buf c) text Hwb) as (m & b & Eb & Hb & Hcb & Hrb).
    apply wp_bind. eapply wp_lift; [exact Eb|]. cbv beta iota.
    apply wp_bind. eapply wp_upd_mgmt; [exact Hc1|]. set (c2 := set_write_buf b c1).
    set (w2 := lput mgmt_lens _ w1).
    assert (Hm2 : mstep a c2 k w w2).
    { rewrite <- (mstep_control _ _ _ _ _ Hm1) at 1. eapply mstep_trans; [exact Hm1|]. apply (mstep_upd a c2). }
    assert (Htk2 : w_tokens w2 = w_tokens w) by apply (ms_rest _ _ _ _ _ Hm2).
    eapply wp_mono; [apply (IH c2 [] (drop n (u ++ t)) w2)|].
    + assert (Ep2 : pending_buf c2 = pending_buf c) by done.
      split; [apply insert_mgmt_eq|exact Hb|by rewrite Ep2|by rewrite Ep2|exact Hi1|exact Hsc1| |].
      * by rewrite (ms_users _ _ _ _ _ Hm2).
      * by rewrite Htk2.
    + by left.
    + simpl. rewrite length_drop. lia.
    + intros r w3 (-> & c3 & k3 & out & pend & t' & Hsv & Hm3 & Hwb3 & Hcw & Hpb3 & Hcp & Hu3 & Hi3 & Hs3).
      rewrite (mstep_control _ _ _ _ _ Hm2), Htk2 in Hsv. change (write_buf c2) with b in Hsv, Hcw.
      rewrite Hrb in Hsv. split; [done|].
      exists c3, k3, (written (room (write_buf c)) text ++ out), pend, t'. split_and!; try done.
      * by eapply sv_next.
      * exact (mstep_trans _ _ _ _ _ _ _ _ Hm2 Hm3).
      * by rewrite Hcw, Hcb, app_assoc.
Qed.

Lemma wp_processMgmtClient a c u t w :
  mgmt_ok w a c u t -> fallback (in_state (m_input c)) = None \/ t <> [] ->
  wp (processMgmtClient a) (served a c (u ++ t) w) w.
Proof.
  intros Hok Hfb. apply wp_bind. eapply wp_get_mgmt; [apply Hok|].
  apply wp_process_requests; [done|done|]. rewrite (sc_lim _ _ _ (mo_scan _ _ _ _ _ Hok)). lia.
Qed.

(** C3. The management loop, on every input: [processMgmtClient] terminates
    without a fault, and performs the requests of its input in order, each as
    [perform] says, until the text left is the beginning of a request or an
    answer has no room; it writes exactly their answers, stores the one that has
    no room, changes nothing else of the process, and leaves the scanner where
    the next call continues. *)
Theorem processMgmtClient_serves (a : Z) (c : mgmt_client) (u t : list byte) (w : world E) :
  mgmt_ok w a c u t -> fallback (in_state (m_input c)) = None \/ t <> [] ->
  exists r w', processMgmtClient a w = Done (r, w') /\ served a c (u ++ t) w r w'.
Proof.
  intros Hok Hfb. by apply wp_inv, wp_processMgmtClient.
Qed.

(** ** Authentication *)

(** What may change before a token has been presented. *)
Lemma perform_unauthenticated tokens cmd arg k k' text len t n :
  ct_cond k = yycpass -> next_request (ct_cond k) t n cmd arg ->
  perform tokens cmd arg k = (k', text, len) ->
  (ct_cond k' = yycpass /\ ct_users k' = ct_users k /\ ct_state k' = ct_state k) \/
  (cmd = MGMT_TOKEN /\ arg ∈ tokens).
Proof.
  intros Hk Hnr Hp. destruct k as [cond q us st]. simpl in Hk. subst cond.
  assert (Hcmd : cmd = MGMT_TOKEN \/ cmd = MGMT_QUIT \/ cmd = MGMT_CAPA \/ cmd = MGMT_INVALID_ARGS \/
                 cmd = MGMT_INVALID_CMD).
  { destruct Hnr as [n' cmd' arg' off _ Hfm _|]; [|tauto]. unfold rules in Hfm. simpl in Hfm. tauto. }
  unfold perform, answer in Hp.
  destruct Hcmd as [->|[->|[->|[->| ->]]]]; [case_decide; [by right; split|]|..];
    injection Hp as <- <- <-; by left.
Qed.

(** A request with a valid token occurs in [t]. *)
Definition presents_token (tokens : list (list byte)) (t : list byte) : Prop :=
  exists x u y arg off, t = x ++ u ++ y /\ first_match pass_rules u MGMT_TOKEN /\
    argument u arg off /\ arg ∈ tokens.

Lemma presents_token_drop tokens n t : presents_token tokens (drop n t) -> presents_token tokens t.
Proof.
  intros (x & u & y & arg & off & Ht & Hr). exists (take n t ++ x), u, y, arg, off.
  by rewrite <- app_assoc, <- Ht, take_drop.
Qed.

Lemma serves_unauthenticated tokens room k t out pend k' t' :
  serves tokens room k t out pend k' t' -> ct_cond k = yycpass ->
  (ct_cond k' = yycpass /\ ct_users k' = ct_users k /\ ct_state k' = ct_state k) \/
  presents_token tokens t.
Proof.
  assert (Hreq : forall k t n cmd arg k' text len, ct_cond k = yycpass ->
    next_request (ct_cond k) t n cmd arg -> perform tokens cmd arg k = (k', text, len) ->
    (ct_cond k' = yycpass /\ ct_users k' = ct_users k /\ ct_state k' = ct_state k) \/
    presents_token tokens t).
  { clear. intros k t n cmd arg k' text len Hk Hnr Hp.
    destruct (perform_unauthenticated _ _ _ _ _ _ _ _ _ Hk Hnr Hp) as [?|[-> Hin]]; [by left|right].
    inversion Hnr as [n' cmd' arg' off Hn Hfm Harg|]; subst. rewrite Hk in Hfm. simpl in Harg.
    exists [], (take n t), (drop n t), arg, off. rewrite take_drop. done. }
  induction 1 as [room k t _|room k t n cmd arg k' text len Hnr Hp _
                 |room k t n cmd arg k' text len out pend k'' t'' Hnr Hp _ _ IH]; intros Hk.
  - by left.
  - by eapply Hreq.
  - destruct (Hreq _ _ _ _ _ _ _ _ Hk Hnr Hp) as [(Hc1 & Hu1 & Hs1)|?]; [|by right].
    destruct (IH Hc1) as [(Hc2 & Hu2 & Hs2)|Htok]; [left; split_and!; congruence|right].
    by eapply presents_token_drop.
Qed.

(** C4. Only who presents a token manages the server: whatever a connection
    sends before it is authenticated, processing it leaves the users, the
    settings and the counters as they were and the connection unauthenticated,
    unless the input has a TOKEN request with one of the server's tokens. *)
Theorem unauthenticated_changes_nothing (a : Z) (c : mgmt_client) (u t : list byte) (w w' : world E) (r : bool) :
  mgmt_ok w a c u t -> fallback (in_state (m_input c)) = None \/ t <> [] ->
  in_cond (m_input c) = yycpass -> ~ presents_token (w_tokens w) (u ++ t) ->
  processMgmtClient a w = Done (r, w') ->
  w_users w' = w_users w /\ w_state w' = w_state w /\ w_tokens w' = w_tokens w /\
  exists c', w_mgmt w' = <[a := c']> (w_mgmt w) /\ in_cond (m_input c') = yycpass.
Proof.
  intros Hok Hfb Hcond Hno Er.
  pose proof (wp_processMgmtClient a c u t w Hok Hfb) as Hw. unfold wp in Hw. rewrite Er in Hw. destruct Hw as (_ & c' & k & out & pend & t' & Hsv & Hm & _).
  destruct (serves_unauthenticated _ _ _ _ _ _ _ _ Hsv Hcond) as [(Hk & Hu & Hs)|?]; [|done].
  destruct Hm as [Hmg Hus Hst Hcd _ Hrest]. split_and!.
  - by rewrite Hus, Hu.
  - by rewrite Hst, Hs.
  - apply Hrest.
  - exists c'. by rewrite Hcd.
Qed.
End Requests.

(** ** Witnesses *)

(** A management connection at address 1 whose input holds [t]. *)
Definition sample_mgmt (cond : Z) (t : list byte) : mgmt_client :=
  MgmtClient 5 (buffer_init 256 (repeat NUL 256)) (buffer_init MGMT_BUFFSIZE (repeat NUL MGMT_BUFFSIZE))
    (fresh_input cond t) false.

Definition sample_control (tokens : list (list byte)) (c : mgmt_client) : world script :=
  World (Io (Script [] 64 9) 0%Z []) selector0 state_init [] tokens ∅ {[1%Z := c]} 2 [].

Lemma sample_mgmt_ok tokens cond t :
  tokens_wf tokens -> mgmt_ok (sample_control tokens (sample_mgmt cond t)) 1 (sample_mgmt cond t) [] t.
Proof.
  intros Ht. split.
  - done.
  - apply buffer_init_wf, repeat_length.
  - apply buffer_init_wf, repeat_length.
  - split; [apply buffer_init_contents|]. apply Nat.eq_le_incl. symmetry. apply Nat.sub_0_r.
  - split; cbn [sample_mgmt m_input fresh_input in_lim in_bufSize in_mem]; [lia|].
    rewrite length_app. simpl. lia.
  - apply fresh_scanning.
  - split_and!; [unfold MAX_USERS; simpl; lia|constructor|constructor].
  - done.
Qed.

Lemma one_token : tokens_wf [lit "abc"].
Proof. split; [unfold MAX_TOKENS; simpl; lia|repeat constructor]. Qed.

Lemma processMgmtClient_serves_witness :
  let c := sample_mgmt yycpass (lit "token abc" ++ CRLF ++ lit "add-user ana:1" ++ CRLF) in
  let w := sample_control [lit "abc"] c in
  mgmt_ok w 1 c [] (lit "token abc" ++ CRLF ++ lit "add-user ana:1" ++ CRLF) /\
  fallback (in_state (m_input c)) = None /\
  exists r w', processMgmtClient 1 w = Done (r, w') /\ w_users w' = [User (lit "ana") (lit "1")].
Proof.
  intros c w. pose proof (sample_mgmt_ok _ yycpass (lit "token abc" ++ CRLF ++ lit "add-user ana:1" ++ CRLF)
    one_token) as H1.
  split; [exact H1|]. split; [reflexivity|].
  destruct (processMgmtClient_serves 1 c [] _ w H1 (or_introl eq_refl)) as (r & w' & Er & _).
  exists r, w'. split; [exact Er|].
  assert (Hu : match processMgmtClient 1 w with Done (_, w') => w_users w' | Fault _ => [] end
               = [User (lit "ana") (lit "1")]) by (vm_compute; reflexivity).
  rewrite Er in Hu. exact Hu.
Defined.

Lemma unauthenticated_changes_nothing_witness :
  let t := lit "set-dissector-status off" ++ CRLF ++ lit "capa" ++ CRLF in
  let c := sample_mgmt yycpass t in
  let w := sample_control [lit "qwx"] c in
  exists r w', processMgmtClient 1 w = Done (r, w') /\ ~ presents_token [lit "qwx"] t /\
    w_users w' = [] /\ w_state w' = state_init.
Proof.
  intros t c w.
  assert (Ht : tokens_wf [lit "qwx"]) by (split; [unfold MAX_TOKENS; simpl; lia|repeat constructor]).
  pose proof (sample_mgmt_ok _ yycpass t Ht) as H1.
  assert (Hno : ~ presents_token [lit "qwx"] t).
  { intros (x & u & y & arg & off & Et & _ & (kw & sp & d & rest & -> & _) & ->%list_elem_of_singleton).
    assert (Hin : Byte.x71 ∈ t) by (rewrite Et, !elem_of_app; right; left; right; right; left;
      apply list_elem_of_here).
    revert Hin. apply (bool_decide_unpack (~ Byte.x71 ∈ t)). vm_compute. exact I. }
  assert (Er : exists w', processMgmtClient 1 w = Done (true, w')) by (eexists; vm_compute; reflexivity).
  destruct Er as (w' & Er). exists true, w'.
  destruct (unauthenticated_changes_nothing 1 c [] t w w' true H1 (or_introl eq_refl) eq_refl Hno Er)
    as (Hu & Hs & _).
  split; [exact Er|]. split; [exact Hno|]. split; [exact Hu|exact Hs].
Defined.
