(* ===== verification/MgmtAccept.v ===== *)
(** * MgmtAccept: accepting a management connection

    Every branch of [mgmt_master_read_handler]: the admission test, the accept,
    the struct, the greeting and the registration, with the counter of clients
    after each. When the struct cannot be allocated or the descriptor cannot be
    registered, the client is counted out twice, which locks a server without
    other clients. *)

From S2P Require Import Prelude Buffer Os State Users Tokens Selector SelectorSpec MgmtProtocol LexerCode LexerSpec.
From S2P Require Import MgmtInput World TcpServer WorldLogic Mgmt MgmtSpec.
Import Registry.

Section Accept.
Context {E : Type} `{OSLaws E}.
Implicit Types (w : world E).

Definition CLIENT_SIZE : nat := 6320.

(** The struct of a new connection: not authenticated, nothing read, the
    greeting to be sent. *)
Definition greeted (fd : Z) (c : mgmt_client) : Prop :=
  m_fd c = fd /\ quitted c = false /\
  buffer_wf (write_buf c) /\ contents (write_buf c) = hello /\
  buffer_wf (pending_buf c) /\ contents (pending_buf c) = [] /\ MGMT_BUFFSIZE <= room (pending_buf c) /\
  input_wf (m_input c) /\ scanning (m_input c) [] [] /\ in_cond (m_input c) = yycpass.

Lemma wp_create_mgmt_client sock w (Q : option Z -> world E -> Prop) :
  (forall i, (os_malloc CLIENT_SIZE (io_os (w_io w))).1 = None -> io_trace i = io_trace (w_io w) ->
     Q None (lput io_lens i w)) ->
  (forall i b1 b2 inp, is_Some (os_malloc CLIENT_SIZE (io_os (w_io w))).1 -> io_trace i = io_trace (w_io w) ->
     length b1 = MGMT_BUFFSIZE -> length b2 = MGMT_BUFFSIZE ->
     input_wf inp -> scanning inp [] [] -> in_cond inp = yycpass ->
     Q (Some (w_next w)) (lput mgmt_lens
       (<[w_next w := MgmtClient sock (buffer_init MGMT_BUFFSIZE b1) (buffer_init MGMT_BUFFSIZE b2) inp false]> (w_mgmt w))
       (lput next_lens (w_next w + 1)%Z (lput io_lens i w)))) ->
  wp (create_mgmt_client sock) Q w.
Proof.
  intros HN HS. unfold create_mgmt_client. apply wp_bind, wp_malloc. fold CLIENT_SIZE.
  intros [m|] e i Em _ Ht Hl; [|apply wp_ret, HN; [by rewrite Em|done]]. specialize (Hl m eq_refl).
  change (length m = CLIENT_SIZE) in Hl.
  assert (Hread : forall off len, off + len <= CLIENT_SIZE -> mem_read m off len = Done (take len (drop off m)))
    by (intros off len Hol; apply mem_read_Done; lia).
  assert (Hlen : forall off len, off + len <= CLIENT_SIZE -> length (take len (drop off m)) = len)
    by (intros off len Hol; rewrite length_take, length_drop; lia).
  apply wp_bind. eapply wp_lift; [apply Hread, Nat.leb_le; vm_compute; reflexivity|].
  apply wp_bind. eapply wp_lift; [apply Hread, Nat.leb_le; vm_compute; reflexivity|].
  apply wp_bind. eapply wp_lift; [apply Hread, Nat.leb_le; vm_compute; reflexivity|].
  destruct (initState_scanning (MkInput (take (MGMT_BUFFSIZE + PADDING) (drop 4100 m)) MGMT_BUFFSIZE 0 0 0 0 0 0 0 0))
    as (inp & Ei & Hwf & Hs & Hc).
  { cbn [in_mem in_bufSize]. rewrite Hlen by (apply Nat.leb_le; vm_compute; reflexivity). unfold MGMT_BUFFSIZE, PADDING. lia. }
  apply wp_bind. eapply wp_lift; [exact Ei|]. apply wp_bind, wp_gets, wp_bind, wp_modify, wp_bind, wp_modify, wp_ret.
  apply HS; try done; [by rewrite Em|..]; apply Hlen, Nat.leb_le; vm_compute; reflexivity.
Qed.

(** What no branch changes. *)
Definition tables_same w w' : Prop :=
  w_users w' = w_users w /\ w_tokens w' = w_tokens w /\ w_clients w' = w_clients w.

(** A server that admits no client of either kind. *)
Definition locked (s : server_state) : Prop :=
  (add_proxy_client s).1 = false /\ (add_mgmt_client s).1 = false.

(** The branches, with the answers of the kernel that lead to each. *)
Inductive mgmt_accept (key : selector_key) w w' : Prop :=
| ma_full :
    (add_mgmt_client (w_state w)).1 = false -> w' = w -> mgmt_accept key w w'
| ma_failed fd i1 :
    (add_mgmt_client (w_state w)).1 = true -> acceptTCPConnection (key_fd key) (w_io w) = Done (fd, i1) ->
    (fd < 0)%Z ->
    w' = lput state_lens (rm_mgmt_client (add_mgmt_client (w_state w)).2) (lput io_lens i1 w) ->
    mgmt_accept key w w'
| ma_lost fd i1 r i2 :
    (add_mgmt_client (w_state w)).1 = true -> acceptTCPConnection (key_fd key) (w_io w) = Done (fd, i1) ->
    (0 <= fd)%Z -> selector_fd_set_nio fd i1 = Done (r, i2) ->
    (os_malloc CLIENT_SIZE (io_os i2)).1 = None \/ (FD_SETSIZE <= fd)%Z \/ reg (w_sel w) fd <> None ->
    w_state w' = rm_mgmt_client (rm_mgmt_client (add_mgmt_client (w_state w)).2) ->
    w_mgmt w' = w_mgmt w -> runs (w_sel w) [] (w_sel w') -> tables_same w w' ->
    io_trace (w_io w') = EvClose fd :: io_trace i2 -> mgmt_accept key w w'
| ma_served fd i1 r i2 c :
    (add_mgmt_client (w_state w)).1 = true -> acceptTCPConnection (key_fd key) (w_io w) = Done (fd, i1) ->
    (0 <= fd < FD_SETSIZE)%Z -> selector_fd_set_nio fd i1 = Done (r, i2) ->
    is_Some (os_malloc CLIENT_SIZE (io_os i2)).1 -> reg (w_sel w) fd = None ->
    w_state w' = (add_mgmt_client (w_state w)).2 ->
    w_mgmt w' = <[w_next w := c]> (w_mgmt w) -> greeted fd c ->
    runs (w_sel w) [Register fd (Some H_mgmt) (Z.lor OP_WRITE OP_READ) (w_next w)] (w_sel w') ->
    tables_same w w' -> io_trace (w_io w') = io_trace i2 -> mgmt_accept key w w'.

(** A registration that is refused changes nothing. *)
Lemma register_outcome (g : gmap Z (entry handler_id)) fd h i d :
  (0 <= fd)%Z ->
  let o := Register fd (Some h) i d in
  (rstep g o).1 = SELECTOR_SUCCESS /\ (fd < FD_SETSIZE)%Z /\ g !! fd = None \/
  (rstep g o).1 <> SELECTOR_SUCCESS /\ (rstep g o).2 = g /\ ((FD_SETSIZE <= fd)%Z \/ g !! fd <> None).
Proof.
  intros Hfd o. unfold o, rstep. destruct (INVALID_FD fd) eqn:Ei.
  - right. split_and!; [done|done|left]. apply Z.nlt_ge. intros Hlt.
    assert (Hi : INVALID_FD fd = false) by (apply INVALID_FD_spec; lia). congruence.
  - apply INVALID_FD_spec in Ei. destruct (g !! fd) eqn:Eg; [right; split_and!; [done|done|by right]|].
    left. split_and!; [done|lia|done].
Qed.

Lemma reg_none (s : fdselector handler_id) g fd : repr s g -> (reg s fd = None <-> g !! fd = None).
Proof. intros Hg. rewrite (reg_repr _ _ fd Hg). by destruct (g !! fd). Qed.

(** Closing a connection that was counted in, and counting it out again. *)
Lemma wp_discard fd a w (Q : unit -> world E -> Prop) :
  (a = 0%Z \/ a <> 0%Z /\ is_Some (w_mgmt w !! a)) ->
  (forall i, io_trace i = EvClose fd :: io_trace (w_io w) ->
     Q tt (lput state_lens (rm_mgmt_client (rm_mgmt_client (w_state w)))
       (lput mgmt_lens (if (a =? 0)%Z then w_mgmt w else delete a (w_mgmt w)) (lput io_lens i w)))) ->
  wp (handle_mgmt_close (SelectorKey fd a);; upd_state rm_mgmt_client) Q w.
Proof.
  intros Ha HQ. apply wp_bind, wp_bind, wp_close. intros i Hi. cbn [key_data]. apply wp_bind.
  unfold wp at 1, free_mgmt. specialize (HQ i Hi). destruct (Z.eqb_spec a 0) as [->|Hne].
  - apply wp_upd_state, wp_upd_state. by destruct w.
  - destruct Ha as [?|[_ [c Hc]]]; [done|]. cbn [w_mgmt lput io_lens]. rewrite Hc.
    apply wp_upd_state, wp_upd_state. exact HQ.
Qed.

Lemma wp_mgmt_master_read_handler key w :
  sel_ok (w_sel w) -> (0 < w_next w)%Z -> w_mgmt w !! w_next w = None ->
  wp (mgmt_master_read_handler key) (fun _ w' => mgmt_accept key w w') w.
Proof.
  intros [g Hg] Hnext Hfresh. unfold mgmt_master_read_handler. apply wp_bind, wp_zoom.
  destruct (add_mgmt_client (w_state w)) as [ok s1] eqn:Eadd.
  assert (Hs1 : s1 = (add_mgmt_client (w_state w)).2) by (by rewrite Eadd).
  assert (Hok : (add_mgmt_client (w_state w)).1 = ok) by (by rewrite Eadd).
  eapply wp_Done; [cbn; by rewrite Eadd|]. destruct ok; cbn [negb].
  2: { apply wp_ret. apply ma_full; [done|]. 
       assert (Es : s1 = w_state w) by (clear Hs1 Hok; unfold add_mgmt_client in Eadd; case_match; by simplify_eq).
       rewrite Es. by destruct w. }
  destruct (acceptTCPConnection (key_fd key) (w_io w)) as [[fd i1]|] eqn:Eacc.
  2: { exfalso. revert Eacc. unfold acceptTCPConnection, sys_accept, call, mbind, M_bind.
       destruct (os_accept (key_fd key) (io_os (w_io w))) as [[[n ad]|e] e']; done. }
  apply wp_bind, wp_sys. eapply wp_Done; [exact Eacc|]. destruct (Z.ltb_spec fd 0) as [Hneg|Hpos].
  { apply wp_upd_state. eapply ma_failed; [done|exact Eacc|done|]. by rewrite <- Hs1. }
  destruct (selector_fd_set_nio_spec fd i1) as (r & i2 & E2 & Ht2 & _).
  apply wp_bind, wp_sys. eapply wp_Done; [exact E2|].
  apply wp_bind, wp_create_mgmt_client; cbn [w_io w_next w_mgmt lput io_lens state_lens].
  - intros i3 Hmem Hi3. apply wp_discard; [by left|]. intros i4 Hi4.
    eapply ma_lost; [done|exact Eacc|done|exact E2|by left|by rewrite <- Hs1|done|by exists g|done|].
    cbn in *. congruence.
  - intros i3 b1 b2 inp Hmem Hi3 Hb1 Hb2 Hin Hsc Hco. set (a := w_next w) in *.
    apply wp_bind. eapply wp_get_mgmt; [apply lookup_insert_eq|]. cbn [write_buf].
    destruct (buffer_store_spec (buffer_init MGMT_BUFFSIZE b1) (respond hello).1) as (b & Eb & Hbw & Hbc & _);
      [by apply buffer_init_wf|vm_compute; lia|].
    apply wp_bind. eapply wp_lift; [exact Eb|]. apply wp_bind. eapply wp_upd_mgmt; [apply lookup_insert_eq|].
    apply wp_bind. eapply wp_do_register; [exact Hg|]. intros i5 s5 Hi5 Hg5.
    destruct (register_outcome g fd H_mgmt (Z.lor OP_WRITE OP_READ) a Hpos) as [(Hst & Hlt & Hfree)|(Hst & Hsame & Hwhy)].
    + rewrite Hst, bool_decide_eq_false_2 by (by intros ?). apply wp_ret. eapply ma_served;
        [done|exact Eacc|done|exact E2|exact Hmem|by apply (reg_none _ g)|done|cbn; by rewrite insert_insert_eq| | |done|].
      * assert (Hh : contents b = hello) by (rewrite Hbc; vm_compute; reflexivity).
        unfold greeted. cbn [m_fd quitted write_buf pending_buf m_input set_write_buf].
        split_and!; try done; try (by apply buffer_init_wf).
      * exists g. split; [done|]. cbn [rrun]. by destruct (rstep g _).
      * cbn in *. congruence.
    + rewrite bool_decide_eq_true_2 by done. apply wp_discard.
      { right. split; [lia|]. cbn. by rewrite insert_insert_eq, lookup_insert_eq. }
      intros i6 Hi6. assert (Ha0 : (a =? 0)%Z = false) by (apply Z.eqb_neq; lia). rewrite Ha0.
      eapply ma_lost; [done|exact Eacc|done|exact E2| |by rewrite <- Hs1| |..].
      * right. destruct Hwhy as [?|Hwhy]; [by left|right]. by rewrite (reg_none _ g).
      * cbn. rewrite !insert_insert_eq. by apply delete_insert_id.
      * exists g. split; [done|]. by rewrite <- Hsame.
      * done.
      * cbn in *. congruence.
Qed.

(** C36. Accepting a management connection, on every answer of the kernel: the
    handler never faults. Without room the server is left as it was; when the
    accept fails the client is counted in and out again; when the struct can be
    allocated and the descriptor registered, the client is counted, its
    connection is at a new address, not authenticated, with the greeting to be
    sent, and its socket is registered for reading and writing; otherwise the
    socket is closed, no connection or registration is left, and the client is
    counted out twice. *)
Theorem mgmt_master_read_handler_correct (key : selector_key) (w : world E) :
  sel_ok (w_sel w) -> (0 < w_next w)%Z -> w_mgmt w !! w_next w = None ->
  exists w', mgmt_master_read_handler key w = Done (tt, w') /\ mgmt_accept key w w'.
Proof.
  intros Hs Hn Hf. destruct (wp_inv _ _ _ (wp_mgmt_master_read_handler key w Hs Hn Hf)) as ([] & w' & Er & Hw).
  by exists w'.
Qed.

(** One removal too many, from no clients. *)
Lemma overrun_locks s :
  proxy_client_count s = 0%Z -> mgmt_client_count s = 0%Z ->
  let s' := rm_mgmt_client (rm_mgmt_client (add_mgmt_client s).2) in
  mgmt_client_count s' = (2 ^ 32 - 1)%Z /\ locked s'.
Proof.
  destruct s as [ac tb bs ds p m]. simpl. intros -> ->.
  change (fd_load (ServerState ac tb bs ds 0 0)) with 0%Z. split; [reflexivity|]. split; reflexivity.
Qed.

(** C35. A management connection that cannot be kept locks the server: whatever
    the process, when no client of either kind is connected and the one accepted
    finds no memory for its struct or its descriptor cannot be registered, it is
    counted out twice, the counter wraps to its maximum, and from then on the
    server admits no client of either kind. *)
Theorem failed_registration_locks_server (key : selector_key) (w w' : world E) (fd : Z) (i1 i2 : io E) (r : Z) :
  sel_ok (w_sel w) -> (0 < w_next w)%Z -> w_mgmt w !! w_next w = None ->
  proxy_client_count (w_state w) = 0%Z -> mgmt_client_count (w_state w) = 0%Z ->
  acceptTCPConnection (key_fd key) (w_io w) = Done (fd, i1) -> (0 <= fd)%Z ->
  selector_fd_set_nio fd i1 = Done (r, i2) ->
  (os_malloc CLIENT_SIZE (io_os i2)).1 = None \/ (FD_SETSIZE <= fd)%Z \/ reg (w_sel w) fd <> None ->
  mgmt_master_read_handler key w = Done (tt, w') ->
  mgmt_client_count (w_state w') = (2 ^ 32 - 1)%Z /\ w_mgmt w' = w_mgmt w /\ locked (w_state w').
Proof.
  intros Hs Hn Hf Hp Hm Eacc Hfd E2 Hwhy Er.
  pose proof (wp_mgmt_master_read_handler key w Hs Hn Hf) as Hw. unfold wp in Hw. rewrite Er in Hw.
  destruct Hw as [Hfull _|fd' i1' _ Eacc' Hneg _|fd' i1' r' i2' _ _ _ _ _ Hst Hmg _ _ _
    |fd' i1' r' i2' c _ Eacc' Hlt E2' Hmem Hreg _ _ _ _ _ _].
  - exfalso. revert Hfull. unfold add_mgmt_client, fd_load. rewrite Hp, Hm. done.
  - rewrite Eacc in Eacc'. simplify_eq. lia.
  - rewrite Hst. destruct (overrun_locks _ Hp Hm). by split_and!.
  - rewrite Eacc in Eacc'. simplify_eq. rewrite E2 in E2'. simplify_eq.
    destruct Hwhy as [Hnm|[?|?]]; [|lia|done]. rewrite Hnm in Hmem. by destruct Hmem.
Qed.
End Accept.

(** ** Examples *)

(** A server without clients whose next descriptor is [fd]. *)
Definition idle_server (fd : Z) : world script :=
  World (Io (Script [] 64 fd) 0%Z []) selector0 state_init [] [] ∅ ∅ 1 [].

Lemma mgmt_master_read_handler_correct_witness :
  let w := idle_server 9 in
  sel_ok (w_sel w) /\ w_mgmt w !! w_next w = None /\
  exists w', mgmt_master_read_handler (SelectorKey 4 0) w = Done (tt, w') /\
    mgmt_accept (SelectorKey 4 0) w w' /\ mgmt_client_count (w_state w') = 1%Z.
Proof.
  intros w. assert (H1 : sel_ok (w_sel w)) by (exists ∅; apply repr_selector0).
  split; [exact H1|]. split; [reflexivity|].
  destruct (mgmt_master_read_handler_correct (SelectorKey 4 0) w H1 eq_refl eq_refl) as (w' & Er & Ha).
  exists w'. split; [exact Er|]. split; [exact Ha|].
  destruct Ha as [Hf|fd i1 _ Ea Hn _|fd i1 r i2 _ Ea _ En Hw Hst|fd i1 r i2 c _ _ _ _ _ _ Hst].
  - discriminate Hf.
  - vm_compute in Ea. injection Ea as <- <-. discriminate Hn.
  - vm_compute in Ea. injection Ea as <- <-. vm_compute in En. injection En as <- <-.
    destruct Hw as [Hw|[Hw|Hw]]; [discriminate Hw|vm_compute in Hw; destruct Hw; reflexivity|].
    destruct Hw. exact (sample_reg [] (sample_client 0 0 (buffer_init 0 []) (buffer_init 0 [])) 9).
  - rewrite Hst. reflexivity.
Defined.

(** The next descriptor is beyond those the selector can hold. *)
Lemma failed_registration_locks_server_witness :
  let w := idle_server 2000 in
  exists w', mgmt_master_read_handler (SelectorKey 4 0) w = Done (tt, w') /\ locked (w_state w').
Proof.
  intros w. assert (H1 : sel_ok (w_sel w)) by (exists ∅; apply repr_selector0).
  destruct (mgmt_master_read_handler (SelectorKey 4 0) w) as [[[] w']|f] eqn:Er; [|vm_compute in Er; discriminate Er].
  exists w'. split; [reflexivity|].
  destruct (acceptTCPConnection 4 (w_io w)) as [[fd i1]|] eqn:Ea; [|vm_compute in Ea; discriminate Ea].
  destruct (selector_fd_set_nio fd i1) as [[r i2]|] eqn:En; [|vm_compute in Ea; injection Ea as <- <-; vm_compute in En; discriminate En].
  assert (Hfd : fd = 2000%Z) by (vm_compute in Ea; injection Ea as <- _; reflexivity).
  destruct (failed_registration_locks_server (SelectorKey 4 0) w w' fd i1 i2 r H1 eq_refl eq_refl eq_refl eq_refl Ea)
    as (_ & _ & Hl); [rewrite Hfd; lia|exact En|right; left; rewrite Hfd; unfold FD_SETSIZE; lia|exact Er|exact Hl].
Defined.
