(* ===== verification/CLib.v ===== *)
(** * CLib: the C library on strings and command lines

    The routines of the C library that the command line of the server and the
    management client rely on: [strtol] and [strtoull], [strstr], [strtok] and
    [getopt]/[getopt_long]. Strings are lists of bytes without their
    terminator; [strtok], which writes into its argument, works on the memory
    area. *)

From S2P Require Import Prelude.

Local Open Scope Z_scope.

(** ** Characters *)

Definition isdigit (c : byte) : bool := (48 <=? Zb c) && (Zb c <=? 57).
Definition isspace (c : byte) : bool := (Zb c =? 32) || ((9 <=? Zb c) && (Zb c <=? 13)).

(** The longest prefix of characters that satisfy [p], and what follows it. *)
Fixpoint span (p : byte -> bool) (s : list byte) : list byte * list byte :=
  match s with
  | [] => ([], [])
  | c :: s' => if p c then let '(a, b) := span p s' in (c :: a, b) else ([], s)
  end.

(** ** Numbers *)

Definition LONG_MIN : Z := - 2 ^ 63.
Definition LONG_MAX : Z := 2 ^ 63 - 1.
Definition ULLONG_MAX : Z := 2 ^ 64 - 1.
Definition ERANGE : Z := 34.

Definition number (ds : list byte) : Z := foldl (fun a c => a * 10 + (Zb c - 48)) 0 ds.

(** The blanks, sign and digits both conversions read. *)
Definition scan_number (s : list byte) : option (bool * list byte * list byte) :=
  let t := (span isspace s).2 in
  let '(neg, t) :=
    match t with
    | c :: t' => if Zb c =? 45 then (true, t') else if Zb c =? 43 then (false, t') else (false, t)
    | [] => (false, [])
    end in
  match span isdigit t with
  | ([], _) => None
  | (ds, rest) => Some (neg, ds, rest)
  end.

(** [strtol(s, &end, 10)]: the value, whether it was out of range, and the text
    at [end]; [None] when nothing was converted and [end] is [s]. *)
Definition strtol (s : list byte) : option (Z * bool * list byte) :=
  match scan_number s with
  | None => None
  | Some (neg, ds, rest) =>
      let v := if neg then - number ds else number ds in
      Some (if v <? LONG_MIN then (LONG_MIN, true, rest)
            else if LONG_MAX <? v then (LONG_MAX, true, rest)
            else (v, false, rest))
  end.

(** [strtoull(s, NULL, 10)] *)
Definition strtoull (s : list byte) : Z :=
  match scan_number s with
  | None => 0
  | Some (neg, ds, _) =>
      if ULLONG_MAX <? number ds then ULLONG_MAX
      else if neg then u64 (- number ds) else number ds
  end.

(** ** Searching and splitting *)

Fixpoint is_prefix (p s : list byte) : bool :=
  match p, s with
  | [], _ => true
  | a :: p', b :: s' => bool_decide (a = b) && is_prefix p' s'
  | _ :: _, [] => false
  end.

(** [strstr(s, p) != NULL] *)
Fixpoint strstr (s p : list byte) : bool :=
  is_prefix p s || match s with [] => false | _ :: s' => strstr s' p end.

(** [strtok] from position [p] of the area [m]: the position of the token, the
    area with its end overwritten, and the position the next call starts at. *)
Definition strtok (delims : list byte) (m : list byte) (p : nat)
    : outcome (option nat * list byte * nat) :=
  let is_delim c := bool_decide (c ∈ delims) in
  let q := (p + length (span is_delim (drop p m)).1)%nat in
  c ← mem_get m q;
  if bool_decide (c = NUL) then mret (None, m, q)
  else
    let e := (q + length (span (fun c => negb (is_delim c) && bool_decide (c <> NUL))
                            (drop q m)).1)%nat in
    c ← mem_get m e;
    if bool_decide (c = NUL) then mret (Some q, m, e)
    else m' ← mem_write m e [NUL]; mret (Some q, m', S e).

(** ** Command lines

    GNU [getopt] and [getopt_long]: options and operands may be mixed, [--]
    ends the options, options without argument can share a word, an argument
    is the rest of the word or the next one. [getopt_long] accepts a long name
    or an unambiguous beginning of one. The result is the sequence of values
    the successive calls return, each with [optarg], and the operands that are
    left from [optind] on. *)

Definition opt : Type := Z * option (list byte).

Definition QUESTION : Z := 63.
Definition DASH : byte := Byte.x2d.

(** Whether [c] is an option of [optstring], and takes an argument. *)
Fixpoint short_option (optstring : list byte) (c : byte) : option bool :=
  if (Zb c =? 58) || (Zb c =? 59) then None
  else
    match optstring with
    | [] => None
    | d :: o =>
        if bool_decide (c = d)
        then Some (match o with e :: _ => Zb e =? 58 | [] => false end)
        else short_option o c
    end.

(** The value for a missing argument. *)
Definition missing (optstring : list byte) : Z :=
  match optstring with c :: _ => if Zb c =? 58 then 58 else QUESTION | [] => QUESTION end.

(** The options of a word after its dash; [next] is the next word, and the
    boolean says whether it was taken. *)
Fixpoint short_options (optstring : list byte) (w : list byte) (next : option (list byte))
    : list opt * bool :=
  match w with
  | [] => ([], false)
  | c :: w' =>
      match short_option optstring c with
      | None => let '(os, b) := short_options optstring w' next in ((QUESTION, None) :: os, b)
      | Some false => let '(os, b) := short_options optstring w' next in ((Zb c, None) :: os, b)
      | Some true =>
          match w', next with
          | _ :: _, _ => ([(Zb c, Some w')], false)
          | [], Some a => ([(Zb c, Some a)], true)
          | [], None => ([(missing optstring, None)], false)
          end
      end
  end.

(** A long option: its name, whether it takes an argument, and its value. *)
Record long_opt := LongOpt { lo_name : list byte; lo_arg : bool; lo_val : Z }.

Definition find_long (longs : list long_opt) (name : list byte) : option long_opt :=
  match filter (fun o => lo_name o = name) longs with
  | o :: _ => Some o
  | [] => match filter (fun o => is_prefix name (lo_name o) = true) longs with
          | [o] => Some o
          | _ => None
          end
  end.

Definition long_option (optstring : list byte) (longs : list long_opt) (w : list byte)
    (next : option (list byte)) : opt * bool :=
  let '(name, value) := span (fun c => negb (Zb c =? 61)) w in
  match find_long longs name with
  | None => ((QUESTION, None), false)
  | Some o =>
      match value with
      | _ :: v => if lo_arg o then ((lo_val o, Some v), false) else ((QUESTION, None), false)
      | [] =>
          if lo_arg o then
            match next with
            | Some a => ((lo_val o, Some a), true)
            | None => ((missing optstring, None), false)
            end
          else ((lo_val o, None), false)
      end
  end.

(** [longs] is [None] for [getopt]. *)
Fixpoint getopt_all (optstring : list byte) (longs : option (list long_opt))
    (args : list (list byte)) : list opt * list (list byte) :=
  match args with
  | [] => ([], [])
  | w :: args' =>
      let next := head args' in
      let continue (os : list opt) (used : bool) :=
        let '(os', ops) :=
          if used then match args' with [] => ([], []) | _ :: args'' => getopt_all optstring longs args'' end
          else getopt_all optstring longs args' in
        (os ++ os', ops) in
      match w with
      | a :: (b :: w2) as w1 =>
          if bool_decide (a = DASH) then
            if bool_decide (b = DASH) then
              match w2 with
              | [] => ([], args')
              | _ =>
                  match longs with
                  | Some ls => let '(o, used) := long_option optstring ls w2 next in continue [o] used
                  | None => let '(os, used) := short_options optstring w1 next in continue os used
                  end
              end
            else let '(os, used) := short_options optstring w1 next in continue os used
          else let '(os, ops) := getopt_all optstring longs args' in (os, w :: ops)
      | _ => let '(os, ops) := getopt_all optstring longs args' in (os, w :: ops)
      end
  end.

(** ** Lemmas *)

Lemma span_spec p s a b :
  span p s = (a, b) ->
  s = a ++ b /\ Forall (fun c => p c = true) a /\
  match b with [] => True | c :: _ => p c = false end.
Proof.
  revert a b. induction s as [|c s IH]; intros a b; simpl; [by intros [= <- <-]|].
  destruct (p c) eqn:Ec; [|by intros [= <- <-]].
  destruct (span p s) as [a' b'] eqn:Es. intros [= <- <-].
  destruct (IH a' b' eq_refl) as (-> & ? & ?). auto.
Qed.

Lemma span_app p a b :
  Forall (fun c => p c = true) a -> match b with [] => True | c :: _ => p c = false end ->
  span p (a ++ b) = (a, b).
Proof.
  intros Ha Hb. induction Ha as [|c a Hc _ IH]; simpl.
  - destruct b as [|c b]; simpl; [done|]. by rewrite Hb.
  - by rewrite Hc, IH.
Qed.

Lemma number_snoc ds c : number (ds ++ [c]) = number ds * 10 + (Zb c - 48).
Proof. unfold number. by rewrite foldl_app. Qed.

Lemma number_nonneg ds : Forall (fun c => isdigit c = true) ds -> 0 <= number ds.
Proof.
  induction ds as [|c ds IH] using rev_ind; [done|]. rewrite Forall_app, number_snoc.
  intros [Hds Hc]. apply Forall_inv in Hc. unfold isdigit in Hc. tests.
  specialize (IH Hds). lia.
Qed.

(** A decimal digit and its character. *)
Lemma digit_char n : 0 <= n < 10 -> isdigit (byte_of (48 + n)) = true /\ Zb (byte_of (48 + n)) = 48 + n.
Proof.
  intros Hn. unfold isdigit. rewrite Zb_byte_of by lia. split; [|done].
  apply andb_true_iff. split; apply Z.leb_le; lia.
Qed.

(** The digits of [n], with enough fuel, followed by [acc]. *)
Lemma digits_aux_spec fuel n acc :
  0 <= n < 10 ^ Z.of_nat fuel -> (0 < fuel)%nat ->
  exists ds, digits_aux fuel n acc = ds ++ acc /\ ds <> [] /\
    Forall (fun c => isdigit c = true) ds /\ number ds = n.
Proof.
  revert n acc. induction fuel as [|fuel IH]; intros n acc Hn Hf; [lia|].
  cbn [digits_aux]. pose proof (Z.mod_pos_bound n 10 ltac:(lia)) as Hm.
  destruct (digit_char (n mod 10) Hm) as [Hd Hz].
  destruct (Z.ltb_spec n 10) as [Hlt|Hge].
  - rewrite Z.mod_small in * by lia. exists [byte_of (48 + n)]. split_and!; [done|done|by repeat constructor|].
    cbn [number foldl]. unfold number. simpl. lia.
  - assert (Hfuel : (0 < fuel)%nat) by (destruct fuel; [simpl in Hn; lia|lia]).
    rewrite Nat2Z.inj_succ, Z.pow_succ_r in Hn by lia.
    pose proof (Z.div_mod n 10 ltac:(lia)) as Hdm.
    destruct (IH (n / 10) (byte_of (48 + n mod 10) :: acc)) as (ds & -> & Hne & Hds & Hv); [|done|].
    { split; [apply Z.div_pos; lia|]. apply Z.div_lt_upper_bound; lia. }
    exists (ds ++ [byte_of (48 + n mod 10)]). rewrite <- app_assoc. split_and!; [done|by destruct ds| |].
    + apply Forall_app. split; [done|by repeat constructor].
    + rewrite number_snoc, Hz, Hv. lia.
Qed.

(** What [%d] and [%lu] print is read back. *)
Lemma dec_spec n :
  0 <= n < 10 ^ 20 ->
  dec n <> [] /\ Forall (fun c => isdigit c = true) (dec n) /\ number (dec n) = n.
Proof.
  intros Hn. destruct (digits_aux_spec 20 n []) as (ds & E & H); [done|lia|].
  unfold dec. rewrite E, app_nil_r. exact H.
Qed.

Lemma digit_not_sign c : isdigit c = true -> Zb c <> 45 /\ Zb c <> 43 /\ isspace c = false.
Proof.
  unfold isdigit, isspace. intros H. tests. split_and!; lia.
Qed.

(** A text that starts with digits. *)
Lemma scan_digits ds rest :
  ds <> [] -> Forall (fun c => isdigit c = true) ds ->
  match rest with [] => True | c :: _ => isdigit c = false end ->
  scan_number (ds ++ rest) = Some (false, ds, rest).
Proof.
  intros Hne Hds Hr. unfold scan_number. destruct ds as [|c ds]; [done|].
  pose proof (Forall_inv Hds) as Hc. destruct (digit_not_sign c Hc) as (H1 & H2 & H3).
  cbn [app span]. rewrite H3. cbn [snd]. apply Z.eqb_neq in H1, H2. rewrite H1, H2.
  change (c :: ds ++ rest) with ((c :: ds) ++ rest). by rewrite span_app.
Qed.

Lemma strtoull_dec n rest :
  0 <= n < 2 ^ 64 -> match rest with [] => True | c :: _ => isdigit c = false end ->
  strtoull (dec n ++ rest) = n.
Proof.
  intros Hn Hr. destruct (dec_spec n ltac:(lia)) as (Hne & Hds & Hv).
  unfold strtoull. rewrite scan_digits by done. rewrite Hv.
  by rewrite (proj2 (Z.ltb_ge _ _)) by (unfold ULLONG_MAX; lia).
Qed.

Lemma isspace_not_sign c : isspace c = true -> Zb c <> 45 /\ Zb c <> 43 /\ isdigit c = false.
Proof.
  unfold isdigit, isspace. intros H. split_and!; lia.
Qed.

(** The texts [scan_number] reads: blanks, an optional sign, digits. *)
Definition sign_text (neg : bool) (sg : list byte) : Prop :=
  neg = false /\ sg = [] \/ neg = false /\ sg = lit "+" \/ neg = true /\ sg = lit "-".

Lemma scan_number_spec s neg ds rest :
  scan_number s = Some (neg, ds, rest) <->
  exists ws sg, s = ws ++ sg ++ ds ++ rest /\ Forall (fun c => isspace c = true) ws /\
    sign_text neg sg /\ ds <> [] /\ Forall (fun c => isdigit c = true) ds /\
    match rest with [] => True | c :: _ => isdigit c = false end.
Proof.
  split.
  - unfold scan_number. destruct (span isspace s) as [ws t] eqn:Ew.
    apply span_spec in Ew as (-> & Hws & Ht). cbn [snd].
    set (d := match t with
              | c :: t' => if Zb c =? 45 then (true, t') else if Zb c =? 43 then (false, t') else (false, t)
              | [] => (false, []) end).
    assert (Hd : exists sg, t = sg ++ d.2 /\ sign_text d.1 sg).
    { unfold d. destruct t as [|c t]; [exists []; split; [done|by left]|].
      destruct (Z.eqb_spec (Zb c) 45) as [E|E].
      { exists (lit "-"). split; [|by right; right]. by rewrite <- (byte_of_Zb c), E. }
      destruct (Z.eqb_spec (Zb c) 43) as [E'|E'].
      { exists (lit "+"). split; [|by right; left]. by rewrite <- (byte_of_Zb c), E'. }
      exists []. split; [done|by left]. }
    destruct d as [n u]. cbn [fst snd] in Hd. destruct Hd as (sg & -> & Hsg).
    destruct (span isdigit u) as [[|c ds'] rest'] eqn:Ed; [done|]. intros [= <- <- <-].
    apply span_spec in Ed as (-> & Hds & Hr). exists ws, sg. by split_and!.
  - intros (ws & sg & -> & Hws & Hsg & Hne & Hds & Hr). unfold scan_number.
    assert (Hlead : match sg ++ ds ++ rest with [] => True | c :: _ => isspace c = false end).
    { destruct Hsg as [[_ ->]|[[_ ->]|[_ ->]]]; [|done|done]. destruct ds as [|c ds]; [done|].
      simpl. by apply digit_not_sign, (Forall_inv Hds). }
    rewrite (span_app isspace ws) by done. cbn [snd].
    destruct Hsg as [[-> ->]|[[-> ->]|[-> ->]]].
    + pose proof (scan_digits ds rest Hne Hds Hr) as E. unfold scan_number in E.
      pose proof (span_app isspace [] (ds ++ rest) (Forall_nil_2 _) Hlead) as Ew.
      rewrite app_nil_l in Ew. by rewrite Ew in E.
    + cbn [app lit]. simpl. rewrite span_app by done. by destruct ds.
    + cbn [app lit]. simpl. rewrite span_app by done. by destruct ds.
Qed.
