(* ===== verification/Args.v ===== *)
(** * Args: src/args.c

    The command line of the server. [parse_args] walks the options
    [getopt_long] finds, fills [socks5args] and adds the users and tokens it is
    given to the tables of the process; it ends the process on a malformed
    line. A computation that may call [exit] is a [Prog]. The texts printed on
    the standard error are not modelled. *)

From S2P Require Import Prelude Os State Users Tokens World CLib.

Local Open Scope Z_scope.

(** ** Computations that may end the process *)

Inductive ctl (A : Type) := Exit (code : Z) | Go (a : A).
Arguments Exit {A} _.
Arguments Go {A} _.

Definition Prog (S A : Type) : Type := S -> outcome (ctl A * S).

#[global] Instance Prog_ret S : MRet (Prog S) := fun A a s => Done (Go a, s).
#[global] Instance Prog_bind S : MBind (Prog S) := fun A B k m s =>
  match m s with
  | Done (Go a, s') => k a s'
  | Done (Exit code, s') => Done (Exit code, s')
  | Fault f => Fault f
  end.

Definition exit_with {S A} (code : Z) : Prog S A := fun s => Done (Exit code, s).
Definition call_M {S A} (m : M S A) : Prog S A := fun s =>
  match m s with Done (a, s') => Done (Go a, s') | Fault f => Fault f end.

(** ** Settings *)

Record doh := Doh {
  d_host : list byte; d_ip : list byte; d_port : Z; d_path : list byte; d_query : list byte
}.

(** A null pointer is [None]. *)
Record socks5args := Socks5Args {
  socks_addr : option (list byte);
  socks_port : Z;
  mng_addr : option (list byte);
  mng_port : Z;
  dissectors_enabled : bool;
  a_doh : doh
}.

Definition default_args : socks5args :=
  Socks5Args None 1080 None 8080 true
    (Doh (lit "localhost") (lit "127.0.0.1") 8053 (lit "/getnsrecord") (lit "?dns=")).

Definition USHRT_MAX : Z := 65535.

(** [None] is the exit with status 1; [errno] is its value before the call,
    which [strtol] changes only when the number is out of range. *)
Definition port (errno : Z) (s : list byte) : option Z :=
  match strtol s with
  | None => None
  | Some (sl, range, rest) =>
      let errno := if range : bool then ERANGE else errno in
      if negb (bool_decide (rest = []))
         || (((LONG_MIN =? sl) || (LONG_MAX =? sl)) && (ERANGE =? errno))
         || (sl <? 0) || (USHRT_MAX <? sl)
      then None else Some (u16 sl)
  end.

Definition long_options : list long_opt :=
  [LongOpt (lit "doh-ip") true 0xD001; LongOpt (lit "doh-port") true 0xD002;
   LongOpt (lit "doh-host") true 0xD003; LongOpt (lit "doh-path") true 0xD004;
   LongOpt (lit "doh-query") true 0xD005].

Definition optstring : list byte := lit "hl:L:Np:P:u:t:v".

Definition set_doh (d : doh) (a : socks5args) : socks5args :=
  Socks5Args (socks_addr a) (socks_port a) (mng_addr a) (mng_port a) (dissectors_enabled a) d.

Section Args.
Context {E : Type} `{OS E}.

(** [optarg] of an option that has an argument. *)
Definition need_arg (o : opt) : Prog (world E) (list byte) :=
  call_M (lift (of_option Undefined o.2)).

Definition need_port (o : opt) : Prog (world E) Z :=
  s ← need_arg o;
  errno ← call_M (gets (fun w => io_errno (w_io w)));
  match port errno s with Some p => mret p | None => exit_with 1 end.

(** [add_user(optarg)] and [add_token(optarg)] on the word itself. *)
Definition add_user_arg (s : list byte) : M (world E) bool :=
  us ← gets w_users;
  '(ok, us, _) ← lift (add_user (s ++ [NUL]) us);
  modify (lput users_lens us);;
  mret ok.

Definition add_token_arg (s : list byte) : M (world E) bool :=
  ts ← gets w_tokens;
  '(ok, ts) ← lift (add_token (s ++ [NUL]) ts);
  modify (lput tokens_lens ts);;
  mret ok.

(** The [switch] on one option. *)
Definition handle_option (o : opt) (a : socks5args) (nusers : nat)
    : Prog (world E) (socks5args * nat) :=
  let c := o.1 in
  let d := a_doh a in
  if c =? 104 (* h *) then exit_with 1
  else if c =? 108 (* l *) then
    s ← need_arg o;
    mret (Socks5Args (Some s) (socks_port a) (mng_addr a) (mng_port a) (dissectors_enabled a) d, nusers)
  else if c =? 76 (* L *) then
    s ← need_arg o;
    mret (Socks5Args (socks_addr a) (socks_port a) (Some s) (mng_port a) (dissectors_enabled a) d, nusers)
  else if c =? 78 (* N *) then
    call_M (upd_state (set_dissector_state false));;
    mret (Socks5Args (socks_addr a) (socks_port a) (mng_addr a) (mng_port a) false d, nusers)
  else if c =? 112 (* p *) then
    p ← need_port o;
    mret (Socks5Args (socks_addr a) p (mng_addr a) (mng_port a) (dissectors_enabled a) d, nusers)
  else if c =? 80 (* P *) then
    p ← need_port o;
    mret (Socks5Args (socks_addr a) (socks_port a) (mng_addr a) p (dissectors_enabled a) d, nusers)
  else if c =? 117 (* u *) then
    if (MAX_USERS <=? nusers)%nat then exit_with 1
    else
      s ← need_arg o;
      call_M (add_user_arg s);;
      mret (a, S nusers)
  else if c =? 118 (* v *) then exit_with 0
  else if c =? 116 (* t *) then
    s ← need_arg o;
    call_M (add_token_arg s);;
    mret (a, nusers)
  else if c =? 0xD001 then
    s ← need_arg o; mret (set_doh (Doh (d_host d) s (d_port d) (d_path d) (d_query d)) a, nusers)
  else if c =? 0xD002 then
    p ← need_port o; mret (set_doh (Doh (d_host d) (d_ip d) p (d_path d) (d_query d)) a, nusers)
  else if c =? 0xD003 then
    s ← need_arg o; mret (set_doh (Doh s (d_ip d) (d_port d) (d_path d) (d_query d)) a, nusers)
  else if c =? 0xD004 then
    s ← need_arg o; mret (set_doh (Doh (d_host d) (d_ip d) (d_port d) s (d_query d)) a, nusers)
  else if c =? 0xD005 then
    s ← need_arg o; mret (set_doh (Doh (d_host d) (d_ip d) (d_port d) (d_path d) s) a, nusers)
  else exit_with 1.

Fixpoint handle_options (os : list opt) (a : socks5args) (nusers : nat)
    : Prog (world E) socks5args :=
  match os with
  | [] => mret a
  | o :: os' => '(a, nusers) ← handle_option o a nusers; handle_options os' a nusers
  end.

(** [args] are the words after the name of the program. *)
Definition parse_args (args : list (list byte)) : Prog (world E) socks5args :=
  let '(os, operands) := getopt_all optstring (Some long_options) args in
  a ← handle_options os default_args 0;
  match operands with
  | [] => mret a
  | _ :: _ => exit_with 1
  end.
End Args.
