(* ===== verification/ArgsSpec.v ===== *)
(** * ArgsSpec: what a command line means

    [port] accepts exactly the decimal numbers of 16 bits. A command line is
    described by the options on it: the first offending one decides the exit
    status, and without one each setting is the last value given for it and the
    tables hold the acceptable users and tokens in the order given. *)

From S2P Require Import Prelude Os State Users Tokens World CLib Args MgmtSpec.

Local Open Scope Z_scope.

(** ** Ports *)

(** A numeral of [strtol] with value [v]. *)
Definition numeral (s : list byte) (v : Z) : Prop :=
  exists neg ws sg ds, s = ws ++ sg ++ ds /\ Forall (fun c => isspace c = true) ws /\
    sign_text neg sg /\ ds <> [] /\ Forall (fun c => isdigit c = true) ds /\
    v = (if neg then - number ds else number ds).

Lemma port_Some errno s p :
  port errno s = Some p <-> exists neg ds, scan_number s = Some (neg, ds, []) /\
    p = (if neg then - number ds else number ds) /\ 0 <= p <= USHRT_MAX.
Proof.
  unfold port, strtol. destruct (scan_number s) as [[[neg ds] rest]|];
    [|split; [done|by intros (? & ? & ? & _)]].
  set (v := if neg then - number ds else number ds).
  assert (Hv : forall v' r, (if v <? LONG_MIN then (LONG_MIN, true, rest)
              else if LONG_MAX <? v then (LONG_MAX, true, rest) else (v, false, rest)) = (v', r, rest) ->
            (0 <= v <= USHRT_MAX -> v' = v /\ r = false) /\ (v' = v \/ v' < 0 \/ USHRT_MAX < v')).
  { intros v' r. unfold LONG_MIN, LONG_MAX, USHRT_MAX.
    destruct (Z.ltb_spec v (- 2 ^ 63)); [intros [= <- <-]; split; [lia|right; left; lia]|].
    destruct (Z.ltb_spec (2 ^ 63 - 1) v); [intros [= <- <-]; split; [lia|right; right; lia]|].
    intros [= <- <-]. split; [auto|by left]. }
  destruct (if v <? LONG_MIN then _ else _) as [[v' r] rest'] eqn:E.
  assert (rest' = rest) as -> by (revert E; repeat case_match; congruence).
  destruct (Hv v' r eq_refl) as [H1 H2]. split.
  - match goal with |- (if ?b then _ else _) = _ -> _ => destruct b eqn:Eb end; [done|]. intros [= <-].
    apply orb_false_iff in Eb as [Eb Eu]. apply orb_false_iff in Eb as [Eb El].
    apply orb_false_iff in Eb as [Er _]. tests. destruct H2 as [->|[?|?]]; [|lia|lia].
    exists neg, ds. fold v. subst rest. unfold wrap, USHRT_MAX in *. rewrite Z.mod_small by lia. split_and!; try lia; done.
  - intros (neg' & ds' & [= <- <- ->] & -> & Hp). fold v in Hp |- *.
    destruct (H1 Hp) as [-> ->]. cbn [negb bool_decide].
    rewrite bool_decide_eq_true_2 by done. cbn [negb orb].
    assert (E1 : (LONG_MIN =? v) || (LONG_MAX =? v) = false)
      by (unfold LONG_MIN, LONG_MAX, USHRT_MAX in *; lia).
    rewrite E1. cbn [andb orb]. rewrite !(proj2 (Z.ltb_ge _ _)) by lia. cbn [orb].
    unfold wrap, USHRT_MAX in *. by rewrite Z.mod_small by lia.
Qed.

Lemma port_errno e e' s : port e s = port e' s.
Proof.
  apply option_eq. intros p. by rewrite !port_Some.
Qed.

(** C28. [port] accepts exactly the numerals (blanks, a sign, decimal digits and
    nothing after them) whose value is between 0 and 65535, and returns that
    value; the decimal rendering of a port is read back as that port; and the
    [errno] left by an earlier call never matters. *)
Theorem port_accepts_16_bits (errno : Z) (s : list byte) (n : Z) :
  (forall p, port errno s = Some p <-> numeral s p /\ 0 <= p <= USHRT_MAX) /\
  (0 <= n <= USHRT_MAX -> port errno (dec n) = Some n).
Proof.
  split.
  - intros p. rewrite port_Some. split.
    + intros (neg & ds & Hs & -> & Hp). apply scan_number_spec in Hs as (ws & sg & -> & Hws & Hsg & Hne & Hds & _).
      split; [|done]. exists neg, ws, sg, ds. by rewrite app_nil_r.
    + intros [(neg & ws & sg & ds & -> & Hws & Hsg & Hne & Hds & ->) Hp]. exists neg, ds.
      split; [|done]. apply scan_number_spec. exists ws, sg. by rewrite app_nil_r.
  - intros Hn. unfold USHRT_MAX in Hn. destruct (dec_spec n ltac:(lia)) as (Hne & Hds & Hv). apply port_Some.
    exists false, (dec n). split; [|split; [done|done]].
    pose proof (scan_digits (dec n) [] Hne Hds I) as Es. by rewrite app_nil_r in Es.
Qed.

Lemma port_accepts_16_bits_witness :
  (0 <= 8080 <= USHRT_MAX) /\ port 0 (dec 8080) = Some 8080.
Proof.
  assert (H : 0 <= 8080 <= USHRT_MAX) by (unfold USHRT_MAX; lia).
  split; [exact H|]. exact (proj2 (port_accepts_16_bits 0 (dec 8080) 8080) H).
Defined.

(** ** Command lines *)

Definition no_NUL (s : list byte) : Prop := Forall (fun c => c <> NUL) s.

(** The arguments given to the option [c], in order, and the last of them. *)
Definition args_of (c : Z) (os : list opt) : list (list byte) :=
  omap (fun o => if o.1 =? c then o.2 else None) os.
Definition last_arg (c : Z) (os : list opt) : option (list byte) := last (args_of c os).

Definition given_port (dflt c : Z) (os : list opt) : Z :=
  default dflt (last (omap (port 0) (args_of c os))).
Definition given (dflt : list byte) (c : Z) (os : list opt) : list byte :=
  default dflt (last_arg c os).
Definition given_ptr (dflt : option (list byte)) (c : Z) (os : list opt) : option (list byte) :=
  match last_arg c os with Some s => Some s | None => dflt end.
Definition asked (c : Z) (os : list opt) : bool := existsb (fun o => o.1 =? c) os.

(** The settings [a] changed as a line without an offending option asks. *)
Definition settings (a : socks5args) (os : list opt) : socks5args :=
  let d := a_doh a in
  Socks5Args (given_ptr (socks_addr a) 108 os) (given_port (socks_port a) 112 os)
    (given_ptr (mng_addr a) 76 os) (given_port (mng_port a) 80 os)
    (dissectors_enabled a && negb (asked 78 os))
    (Doh (given (d_host d) 0xD003 os) (given (d_ip d) 0xD001 os) (given_port (d_port d) 0xD002 os)
       (given (d_path d) 0xD004 os) (given (d_query d) 0xD005 os)).

Definition accept_user (us : list user) (s : list byte) : list user := (add_credentials s us).1.2.
Definition accept_token (ts : list (list byte)) (s : list byte) : list (list byte) :=
  if (length ts <? MAX_TOKENS)%nat && token_ok s then ts ++ [s] else ts.

(** The status an option ends the process with, after [nusers] options [-u]. *)
Definition option_exit (nusers : nat) (o : opt) : option Z :=
  let c := o.1 in
  if (c =? 112) || (c =? 80) || (c =? 0xD002) then
    match o.2 ≫= port 0 with Some _ => None | None => Some 1 end
  else if c =? 117 then if (MAX_USERS <=? nusers)%nat then Some 1 else None
  else if c =? 118 then Some 0
  else if existsb (Z.eqb c) [108; 76; 78; 116; 0xD001; 0xD003; 0xD004; 0xD005] then None
  else Some 1.

(** The options before the one that ends the process, and its status. *)
Fixpoint until_exit (nusers : nat) (os : list opt) : list opt * option Z :=
  match os with
  | [] => ([], None)
  | o :: os' =>
      match option_exit nusers o with
      | Some k => ([], Some k)
      | None =>
          let '(before, r) := until_exit (if o.1 =? 117 then S nusers else nusers) os' in
          (o :: before, r)
      end
  end.

(** The process after the options [os]. *)
Definition configured {E} (os : list opt) (w : world E) : world E :=
  World (w_io w) (w_sel w)
    (if asked 78 os then set_dissector_state false (w_state w) else w_state w)
    (foldl accept_user (w_users w) (args_of 117 os))
    (foldl accept_token (w_tokens w) (args_of 116 os))
    (w_clients w) (w_mgmt w) (w_next w) (w_threads w).

(** ** What [getopt_long] finds is in the words *)

(** The options that take an argument have one. *)
Definition takes_arg (c : Z) : bool :=
  bool_decide (c ∈ [108; 76; 112; 80; 117; 116; 0xD001; 0xD002; 0xD003; 0xD004; 0xD005]).
Definition opt_ok (o : opt) : Prop :=
  (takes_arg o.1 = true -> is_Some o.2) /\ forall s, o.2 = Some s -> no_NUL s.

Lemma opt_ok_plain c : takes_arg c = false -> opt_ok (c, None).
Proof. intros H. split; simpl; [congruence|done]. Qed.

(** The short options, by the 256 values of a character. *)
Lemma short_option_args c b :
  short_option optstring c = Some b -> b = takes_arg (Zb c).
Proof.
  pose proof (forall_bytes (fun c => match short_option optstring c with
     | Some b => Bool.eqb b (takes_arg (Zb c)) | None => true end) ltac:(vm_compute; reflexivity) c) as H.
  cbv beta in H. intros E. rewrite E in H. by apply Bool.eqb_prop in H.
Qed.

Lemma short_options_ok w next os used :
  short_options optstring w next = (os, used) -> no_NUL w -> (forall s, next = Some s -> no_NUL s) ->
  Forall opt_ok os /\ (used = true -> is_Some next).
Proof.
  revert os used. induction w as [|c w IH]; intros os used E Hw Hn;
    cbn [short_options] in E; [by simplify_eq|].
  inversion Hw as [|? ? Hc Hw']; subst.
  destruct (short_option optstring c) as [[]|] eqn:Ec.
  - destruct w as [|d w]; [destruct next as [a|]|]; injection E as <- <-.
    + split; [|by eauto]. constructor; [|constructor]. split; simpl; [by eauto|].
      intros s [= <-]. by apply Hn.
    + split; [|done]. constructor; [|constructor]. by apply opt_ok_plain.
    + split; [|done]. constructor; [|constructor]. split; simpl; [by eauto|]. by intros s [= <-].
  - destruct (short_options optstring w next) as [os' used'] eqn:Es. injection E as <- <-.
    destruct (IH _ _ eq_refl Hw' Hn) as [? ?]. split; [|done]. constructor; [|done].
    apply opt_ok_plain. by rewrite <- (short_option_args c false).
  - destruct (short_options optstring w next) as [os' used'] eqn:Es. injection E as <- <-.
    destruct (IH _ _ eq_refl Hw' Hn) as [? ?]. split; [|done]. constructor; [|done]. by apply opt_ok_plain.
Qed.

Lemma find_long_in longs name o : find_long longs name = Some o -> o ∈ longs.
Proof.
  unfold find_long. destruct (filter _ longs) as [|o' l] eqn:E1.
  - destruct (filter (fun o => is_prefix name (lo_name o) = true) longs) as [|o' [|]] eqn:E2; try done.
    intros [= <-]. assert (H : o' ∈ [o']) by apply list_elem_of_here.
    rewrite <- E2 in H. by apply list_elem_of_filter in H as [_ ?].
  - intros [= <-]. assert (H : o' ∈ o' :: l) by apply list_elem_of_here.
    rewrite <- E1 in H. by apply list_elem_of_filter in H as [_ ?].
Qed.

Lemma long_options_args o : o ∈ long_options -> lo_arg o = true /\ takes_arg (lo_val o) = true.
Proof.
  intros H. assert (Hall : Forall (fun o => lo_arg o = true /\ takes_arg (lo_val o) = true) long_options)
    by (repeat constructor).
  rewrite Forall_forall in Hall. by apply Hall.
Qed.

Lemma long_option_ok w next o used :
  long_option optstring long_options w next = (o, used) -> no_NUL w ->
  (forall s, next = Some s -> no_NUL s) -> opt_ok o /\ (used = true -> is_Some next).
Proof.
  unfold long_option. destruct (span _ w) as [name value] eqn:Es. intros E Hw Hn.
  apply span_spec in Es as (-> & _ & _). apply Forall_app in Hw as [_ Hv].
  destruct (find_long long_options name) as [lo|] eqn:Ef; [|injection E as <- <-; split; [by apply opt_ok_plain|done]].
  apply find_long_in in Ef. destruct (long_options_args lo Ef) as [Ha Ht]. rewrite Ha in E.
  destruct value as [|e v]; [destruct next as [a|]|]; injection E as <- <-.
  - split; [|by eauto]. split; simpl; [by eauto|]. intros s [= <-]. by apply Hn.
  - split; [by apply opt_ok_plain|done].
  - inversion Hv; subst. split; [|done]. split; simpl; [by eauto|]. by intros s [= <-].
Qed.

Lemma getopt_all_ok args os ops :
  getopt_all optstring (Some long_options) args = (os, ops) -> Forall no_NUL args -> Forall opt_ok os.
Proof.
  remember (length args) as n eqn:Hn. revert args os ops Hn.
  induction n as [n IH] using lt_wf_ind. intros [|w args] os ops -> E Hall; [injection E as <- <-; constructor|].
  inversion Hall as [|? ? Hw Hargs]; subst. cbn [getopt_all] in E.
  assert (Hhd : forall s, head args = Some s -> no_NUL s).
  { intros s Hs. destruct args; simplify_eq/=. by inversion Hargs. }
  set (rest := fun used : bool => if used
    then match args with [] => ([], []) | _ :: args'' => getopt_all optstring (Some long_options) args'' end
    else getopt_all optstring (Some long_options) args) in E.
  assert (Hrest : forall used os' ops', rest used = (os', ops') -> Forall opt_ok os').
  { intros used os' ops' Er. unfold rest in Er. destruct used; [destruct args as [|x args]; [injection Er as <- <-; constructor|]|].
    - inversion Hargs; subst. eapply (IH (length args)); [simpl; lia|reflexivity|exact Er|done].
    - eapply (IH (length args)); [simpl; lia|reflexivity|exact Er|done]. }
  assert (Hskip : forall os' ops', (let '(os, ops) := getopt_all optstring (Some long_options) args in (os, w :: ops)) = (os', ops') -> Forall opt_ok os').
  { intros os' ops'. destruct (getopt_all _ _ args) as [o1 o2] eqn:Er. intros [= <- <-]. by apply (Hrest false _ o2). }
  destruct w as [|a w1]; [by eapply Hskip|]. destruct w1 as [|b w2]; [by eapply Hskip|].
  pose proof (Forall_inv_tail Hw) as Hw1. pose proof (Forall_inv_tail Hw1) as Hw2.
  destruct (bool_decide (a = DASH)); [|by eapply Hskip].
  destruct (bool_decide (b = DASH)).
  - destruct w2 as [|c w2]; [injection E as <- <-; constructor|].
    destruct (long_option optstring long_options (c :: w2) (head args)) as [o used] eqn:El.
    change (if used then _ else _) with (rest used) in E.
    destruct (rest used) as [os' ops'] eqn:Er. injection E as <- <-.
    destruct (long_option_ok _ _ _ _ El Hw2 Hhd) as [Ho _]. constructor; [done|].
    by eapply Hrest.
  - destruct (short_options optstring (b :: w2) (head args)) as [os1 used] eqn:El.
    change (if used then _ else _) with (rest used) in E.
    destruct (rest used) as [os' ops'] eqn:Er. injection E as <- <-.
    destruct (short_options_ok _ _ _ _ El Hw1 Hhd) as [Ho _]. apply Forall_app. split; [done|].
    by eapply Hrest.
Qed.

(** ** The options in order *)

Lemma last_arg_cons c o os :
  last_arg c (o :: os) = match last_arg c os with
                         | Some s => Some s
                         | None => if o.1 =? c then o.2 else None
                         end.
Proof.
  unfold last_arg, args_of. cbn [omap list_omap]. destruct (if o.1 =? c then o.2 else None) as [s|].
  - rewrite last_cons. by destruct (last _).
  - by destruct (last _).
Qed.

Lemma given_cons d c o os : given d c (o :: os) = given (given d c [o]) c os.
Proof. unfold given. rewrite !last_arg_cons. by destruct (last_arg c os). Qed.

Lemma given_ptr_cons d c o os : given_ptr d c (o :: os) = given_ptr (given_ptr d c [o]) c os.
Proof. unfold given_ptr. rewrite !last_arg_cons. by destruct (last_arg c os). Qed.

Lemma given_port_cons d c o os : given_port d c (o :: os) = given_port (given_port d c [o]) c os.
Proof.
  unfold given_port, args_of. cbn [omap list_omap].
  destruct (if o.1 =? c then o.2 else None) as [s|]; [|done]. cbn [omap list_omap].
  destruct (port 0 s) as [p|]; [|done]. rewrite last_cons. by destruct (last _).
Qed.

Lemma asked_cons c o os : asked c (o :: os) = asked c [o] || asked c os.
Proof. unfold asked. cbn [existsb]. by rewrite orb_false_r. Qed.

Lemma settings_cons a o os : settings a (o :: os) = settings (settings a [o]) os.
Proof.
  unfold settings. rewrite !(given_cons _ _ o os), !(given_ptr_cons _ _ o os), !(given_port_cons _ _ o os),
    (asked_cons _ o os), negb_orb, andb_assoc. reflexivity.
Qed.

Lemma args_of_cons c o os : args_of c (o :: os) = args_of c [o] ++ args_of c os.
Proof. unfold args_of. cbn [omap list_omap]. by destruct (if o.1 =? c then o.2 else None). Qed.

Lemma configured_cons {E} o os (w : world E) :
  configured (o :: os) w = configured os (configured [o] w).
Proof.
  unfold configured. rewrite (asked_cons _ o os), !(args_of_cons _ o os), !foldl_app. cbn [w_io w_sel w_state
    w_users w_tokens w_clients w_mgmt w_next w_threads]. f_equal.
  destruct (asked 78 [o]), (asked 78 os); reflexivity.
Qed.

Section Options.
Context {E : Type} `{OS E}.
Implicit Types (w : world E).

Lemma accept_user_wf us s : users_wf us -> no_NUL s -> users_wf (accept_user us s).
Proof.
  intros Hu Hs. pose proof (add_user_area s [] us Hu Hs) as Ha. unfold accept_user.
  destruct (add_credentials s us) as [[ok us'] name]. by destruct Ha.
Qed.

Lemma add_user_arg_spec s w :
  users_wf (w_users w) -> no_NUL s ->
  exists ok, add_user_arg s w = Done (ok, lput users_lens (accept_user (w_users w) s) w).
Proof.
  intros Hu Hs. pose proof (add_user_area s [] _ Hu Hs) as Ha. unfold accept_user.
  destruct (add_credentials s (w_users w)) as [[ok us'] name]. destruct Ha as (_ & x & _ & _ & Ea).
  exists ok. unfold add_user_arg. rewrite (bind_Done _ _ w (w_users w) w) by done.
  rewrite (bind_lift _ _ _ _ Ea). reflexivity.
Qed.

Lemma add_token_arg_spec s w :
  no_NUL s -> exists ok, add_token_arg s w = Done (ok, lput tokens_lens (accept_token (w_tokens w) s) w).
Proof.
  intros Hs. eexists. unfold add_token_arg. rewrite (bind_Done _ _ w (w_tokens w) w) by done.
  rewrite (bind_lift _ _ _ _ (add_token_done (s ++ [NUL]) s (w_tokens w) (ex_intro _ [] (conj eq_refl Hs)))).
  reflexivity.
Qed.

(** The argument of an option that takes one. *)
Lemma opt_arg (o : opt) : opt_ok o -> takes_arg o.1 = true -> exists s, o = (o.1, Some s) /\ no_NUL s.
Proof.
  intros [H1 H2] Ht. destruct (H1 Ht) as [s Hs]. exists s. split; [|by apply H2].
  destruct o as [c a]. simpl in *. by subst.
Qed.

Definition step_result (o : opt) (a : socks5args) (nusers : nat) w : outcome (ctl (socks5args * nat) * world E) :=
  match option_exit nusers o with
  | Some k => Done (Exit k, w)
  | None => Done (Go (settings a [o], if o.1 =? 117 then S nusers else nusers), configured [o] w)
  end.

(** An option whose argument is a port. *)
Lemma need_port_spec c s w :
  need_port (c, Some s) w = Done (match port 0 s with Some p => Go p | None => Exit 1 end, w).
Proof.
  change (need_port (c, Some s) w) with
    (match port (io_errno (w_io w)) s with Some p => mret p | None => exit_with 1 end w : outcome (ctl Z * world E)).
  rewrite (port_errno _ 0). by destruct (port 0 s).
Qed.

Ltac same_args a w := destruct a as [? ? ? ? [] []], w; reflexivity.
Ltac port_case a w s :=
  unfold handle_option; cbn [fst Z.eqb Pos.eqb]; unfold mbind, Prog_bind; rewrite need_port_spec;
  unfold step_result, option_exit, settings, given_port; cbn -[port];
  destruct (port 0 s) as [p|] eqn:Ep; cbn -[port]; rewrite ?Ep; same_args a w.

Lemma handle_option_spec o a nusers w :
  opt_ok o -> users_wf (w_users w) ->
  handle_option o a nusers w = step_result o a nusers w.
Proof.
  intros Ho Hu. destruct (takes_arg o.1) eqn:Ht.
  - destruct (opt_arg o Ho Ht) as (s & E' & Hs). destruct o as [c x]. cbn [fst] in *. injection E' as ->.
    unfold takes_arg in Ht. tests. clear Ho.
    repeat (apply elem_of_cons in Ht as [->|Ht]); [..|by apply not_elem_of_nil in Ht].
    + same_args a w.
    + same_args a w.
    + port_case a w s.
    + port_case a w s.
    + unfold step_result, option_exit, handle_option. cbn [fst Z.eqb Pos.eqb orb].
      destruct (MAX_USERS <=? nusers)%nat; [done|].
      destruct (add_user_arg_spec s w Hu Hs) as (ok & Ea). unfold mbind, Prog_bind, call_M.
      cbn [need_arg call_M lift of_option snd]. rewrite Ea. same_args a w.
    + destruct (add_token_arg_spec s w Hs) as (ok & Ea). unfold handle_option. cbn [fst Z.eqb Pos.eqb].
      unfold mbind, Prog_bind, call_M. cbn [need_arg call_M lift of_option snd]. rewrite Ea. same_args a w.
    + same_args a w.
    + port_case a w s.
    + same_args a w.
    + same_args a w.
    + same_args a w.
  - destruct o as [c x]. cbn [fst] in *. unfold takes_arg in Ht. tests.
    unfold step_result, option_exit, handle_option. cbn [fst snd existsb].
    destruct (Z.eqb_spec c 104) as [->|]; [done|]. destruct (Z.eqb_spec c 78) as [->|]; [same_args a w|].
    destruct (Z.eqb_spec c 118) as [->|]; [done|].
    repeat match goal with |- context [c =? ?k] =>
      rewrite (proj2 (Z.eqb_neq c k)) by (intros ->; apply Ht; set_solver) end.
    reflexivity.
Qed.

Lemma configured_wf os w :
  Forall opt_ok os -> users_wf (w_users w) -> tokens_wf (w_tokens w) ->
  users_wf (w_users (configured os w)) /\ tokens_wf (w_tokens (configured os w)).
Proof.
  intros Ho. revert w. induction Ho as [|o os Ho _ IH]; intros w Hu Ht; [done|].
  rewrite configured_cons. apply IH; destruct o as [c x]; cbn [configured w_users w_tokens].
  - unfold args_of. cbn. destruct (c =? 117), x as [s|]; try done. apply accept_user_wf; [done|]. by apply Ho.
  - unfold args_of. cbn. destruct (c =? 116), x as [s|]; try done. by apply tokens_wf_snoc.
Qed.

Lemma handle_options_spec os a nusers w :
  Forall opt_ok os -> users_wf (w_users w) -> tokens_wf (w_tokens w) ->
  let '(before, ex) := until_exit nusers os in
  handle_options os a nusers w =
    Done (match ex with Some k => Exit k | None => Go (settings a os) end, configured before w).
Proof.
  intros Ho. revert a nusers w. induction Ho as [|o os Ho Hos IH]; intros a nusers w Hu Ht.
  - same_args a w.
  - cbn [until_exit handle_options].
    pose proof (handle_option_spec o a nusers w Ho Hu) as Es. unfold step_result in Es.
    destruct (option_exit nusers o) as [k|].
    + unfold mbind, Prog_bind. rewrite Es. by destruct w.
    + pose proof (configured_wf [o] w (Forall_cons_2 _ _ _ Ho (Forall_nil_2 _)) Hu Ht) as [Hu' Ht'].
      specialize (IH (settings a [o]) (if o.1 =? 117 then S nusers else nusers) _ Hu' Ht').
      destruct (until_exit (if o.1 =? 117 then S nusers else nusers) os) as [before ex].
      rewrite configured_cons, settings_cons. unfold mbind, Prog_bind. by rewrite Es.
Qed.
End Options.

Lemma parse_args_spec {E} `{OS E} (args : list (list byte)) (w : world E) :
  Forall no_NUL args -> users_wf (w_users w) -> tokens_wf (w_tokens w) ->
  let '(os, operands) := getopt_all optstring (Some long_options) args in
  let '(before, ex) := until_exit 0 os in
  parse_args args w =
    Done (match ex, operands with
          | Some k, _ => Exit k
          | None, _ :: _ => Exit 1
          | None, [] => Go (settings default_args os)
          end, configured before w) /\
  users_wf (w_users (configured before w)) /\ tokens_wf (w_tokens (configured before w)).
Proof.
  intros Hargs Hu Ht. destruct (getopt_all optstring (Some long_options) args) as [os operands] eqn:Eg.
  pose proof (getopt_all_ok _ _ _ Eg Hargs) as Ho.
  pose proof (handle_options_spec os default_args 0 w Ho Hu Ht) as Es.
  destruct (until_exit 0 os) as [before ex] eqn:Eu. split.
  - unfold parse_args. rewrite Eg. unfold mbind, Prog_bind. rewrite Es.
    destruct ex; [done|]. by destruct operands.
  - apply configured_wf; [|done|done]. clear -Ho Eu. revert before ex Eu. generalize 0%nat.
    induction Ho as [|o os Ho _ IH]; intros n before ex; cbn [until_exit]; [by intros [= <- <-]|].
    destruct (option_exit n o); [by intros [= <- <-]|].
    destruct (until_exit _ os) as [b r] eqn:Eu'. intros [= <- <-]. constructor; [done|]. by eapply IH.
Qed.

(** C13. Every command line: [parse_args] returns or ends the process, and never
    faults. The options before the first offending one (help, version, an
    unknown option, a bad port, a user beyond the twentieth [-u]) take effect in
    order: the acceptable users and tokens are added to the tables, which stay
    well formed, and [-N] switches the dissector off. The offending option gives
    the exit status (0 for the version, else 1), and so do operands (1);
    otherwise every setting is the last value given for it, or its default. *)
Theorem parse_args_correct {E} `{OS E} (args : list (list byte)) (w : world E) :
  Forall no_NUL args -> users_wf (w_users w) -> tokens_wf (w_tokens w) ->
  let '(os, operands) := getopt_all optstring (Some long_options) args in
  let '(before, ex) := until_exit 0 os in
  parse_args args w =
    Done (match ex, operands with
          | Some k, _ => Exit k
          | None, _ :: _ => Exit 1
          | None, [] => Go (settings default_args os)
          end, configured before w) /\
  users_wf (w_users (configured before w)) /\ tokens_wf (w_tokens (configured before w)).
Proof. apply parse_args_spec. Qed.

(** A line with a user, a token, a port and the dissector off. *)
Lemma parse_args_correct_witness :
  let args := [lit "-p"; lit "9090"; lit "-uana:1"; lit "-Nt"; lit "secret"; lit "--doh-h"; lit "x"] in
  let w := World (Io (Script [] 64 9) 0 []) (Selector.FdSelector None 0 0 ∅ ∅ ∅ ∅ []) state_init [] [] ∅ ∅ 1 [] in
  Forall no_NUL args /\ users_wf (w_users w) /\ tokens_wf (w_tokens w) /\
  exists a w', parse_args args w = Done (Go a, w') /\ socks_port a = 9090 /\
    w_users w' = [User (lit "ana") (lit "1")] /\ w_tokens w' = [lit "secret"].
Proof.
  intros args w.
  assert (H1 : Forall no_NUL args) by (repeat constructor; discriminate).
  assert (H2 : users_wf (w_users w)) by (split_and!; [unfold MAX_USERS; simpl; lia|constructor|constructor]).
  assert (H3 : tokens_wf (w_tokens w)) by (split; [unfold MAX_TOKENS; simpl; lia|constructor]).
  split; [exact H1|]. split; [exact H2|]. split; [exact H3|].
  pose proof (parse_args_correct args w H1 H2 H3) as Hp.
  destruct (parse_args args w) as [[[k|a] w']|f] eqn:Ep; [vm_compute in Ep; discriminate| |vm_compute in Ep; discriminate].
  exists a, w'. split; [reflexivity|].
  vm_compute in Ep. injection Ep as <- <-. split_and!; reflexivity.
Defined.
