(* ===== verification/Logger.v ===== *)
(** * Logger: src/logger.c

    The messages of the server, on its two output streams. The broken-down
    local time comes from the C library and is an argument; the text is the
    message after [vfprintf]. A [LOG_LEVEL] is an unsigned integer in the code
    and a [Z] here. *)

From S2P Require Import Prelude Args.

Local Open Scope Z_scope.

Definition DEBUG : Z := 0.
Definition INFO : Z := 1.
Definition ERROR : Z := 2.
Definition FATAL : Z := 3.

Record tm := Tm { tm_year : Z; tm_mon : Z; tm_mday : Z; tm_hour : Z; tm_min : Z; tm_sec : Z }.

Record logging := Logging { current_level : Z; lg_stdout : list byte; lg_stderr : list byte }.

Definition logging0 : logging := Logging DEBUG [] [].

Definition setLogLevel (newLevel : Z) (s : logging) : logging :=
  if (DEBUG <=? newLevel) && (newLevel <=? FATAL)
  then Logging newLevel (lg_stdout s) (lg_stderr s) else s.

Definition levelDescription (level : Z) : list byte :=
  if (level <? DEBUG) || (FATAL <? level) then []
  else default [] ([lit "DEBUG"; lit "INFO"; lit "ERROR"; lit "FATAL"] !! Z.to_nat level).

(** [%02d], for the fields of a date. *)
Definition pad2 (z : Z) : list byte := if z <? 10 then lit "0" ++ dec z else dec z.

Definition timestamp (t : tm) : list byte :=
  dec (tm_year t + 1900) ++ lit "-" ++ pad2 (tm_mon t) ++ lit "-" ++ pad2 (tm_mday t) ++ lit "T" ++
  pad2 (tm_hour t) ++ lit ":" ++ pad2 (tm_min t) ++ lit ":" ++ pad2 (tm_sec t) ++ lit "Z" ++ [Byte.x09].

Definition log_line (t : tm) (text : list byte) : list byte := timestamp t ++ text ++ [Byte.x0a].

Definition logger (now : tm) (level : Z) (text : list byte) : Prog logging unit := fun s =>
  let s' :=
    if current_level s <=? level then
      if ERROR <=? level
      then Logging (current_level s) (lg_stdout s) (lg_stderr s ++ log_line now text)
      else Logging (current_level s) (lg_stdout s ++ log_line now text) (lg_stderr s)
    else s in
  if level =? FATAL then Done (Exit 1, s') else Done (Go tt, s').

(** ** What is written *)

(** A call of the program to the logger. *)
Definition log_call : Type := tm * Z * list byte.

Fixpoint log_all (cs : list log_call) : Prog logging unit :=
  match cs with
  | [] => mret tt
  | (now, level, text) :: cs' => logger now level text;; log_all cs'
  end.

(** The lines of the calls whose level passes [p]. *)
Fixpoint lines_of (p : Z -> bool) (cs : list log_call) : list byte :=
  match cs with
  | [] => []
  | (now, level, text) :: cs' =>
      (if p level then log_line now text else []) ++ lines_of p cs'
  end.

(** The calls up to the first fatal one, and whether there is one. *)
Fixpoint until_fatal (cs : list log_call) : list log_call * bool :=
  match cs with
  | [] => ([], false)
  | (now, level, text) :: cs' =>
      if level =? FATAL then ([(now, level, text)], true)
      else let '(l, b) := until_fatal cs' in ((now, level, text) :: l, b)
  end.

(** Any sequence of calls writes, in order, the lines of the current level or
    above, those below [ERROR] on the standard output and the others on the
    standard error; it ends the process exactly at the first fatal one. *)
Lemma log_all_correct cs s :
  let '(run, fatal) := until_fatal cs in
  let shown level := current_level s <=? level in
  log_all cs s =
    Done (if fatal then Exit 1 else Go tt,
          Logging (current_level s)
            (lg_stdout s ++ lines_of (fun l => shown l && negb (ERROR <=? l)) run)
            (lg_stderr s ++ lines_of (fun l => shown l && (ERROR <=? l)) run)).
Proof.
  revert s. induction cs as [|[[now level] text] cs IH]; intros s; cbn [until_fatal].
  { cbn. rewrite !app_nil_r. by destruct s. }
  destruct (level =? FATAL) eqn:Ef; [|destruct (until_fatal cs) as [run fatal]];
    unfold log_all; fold log_all; unfold mbind, Prog_bind, logger; rewrite Ef;
    cbn [lines_of]; destruct (current_level s <=? level), (ERROR <=? level);
    cbn [andb negb app]; rewrite ?IH; cbn [current_level lg_stdout lg_stderr];
    rewrite <- ?app_assoc, ?app_nil_r; try done; by destruct s.
Qed.

(** Changing the level never leaves the four levels, so that every level that
    is current has a description. *)
Lemma setLogLevel_described l s :
  levelDescription (current_level s) <> [] -> levelDescription (current_level (setLogLevel l s)) <> [].
Proof.
  intros Hs. unfold setLogLevel. destruct ((DEBUG <=? l) && (l <=? FATAL)) eqn:E; [|done].
  apply andb_true_iff in E as [?%Z.leb_le ?%Z.leb_le]. unfold DEBUG, FATAL in *. cbn [current_level].
  assert (l = 0 \/ l = 1 \/ l = 2 \/ l = 3) as [-> | [-> | [-> | ->]]] by lia; discriminate.
Qed.
