(* ===== verification/Netutils.v ===== *)
(** * Netutils: src/netutils.c

    The textual form of an address, and the two blocking transfers: the
    contents of a buffer to a socket, and everything a socket delivers to
    another one. *)

From S2P Require Import Prelude Buffer Os SocketsIO Util CLib.

Local Open Scope Z_scope.

(** ** [sockaddr_to_human] *)

(** [strncpy(buff, s, n)]: the string, cut or padded with NULs to [n] bytes. *)
Definition strncpy_at (m s : list byte) (n : nat) : outcome (list byte) :=
  mem_write m 0 (take n (s ++ repeat NUL n)).

(** [strlen] of an area. *)
Definition strlen (m : list byte) : outcome nat :=
  if decide (NUL ∈ m) then mret (length (cstr m)) else Fault Undefined.

(** [strncat(buff, s, n)]: at most [n] characters and a terminator, after the
    string the area holds. *)
Definition strncat_at (m s : list byte) (n : nat) : outcome (list byte) :=
  len ← strlen m;
  mem_write m len (take n s ++ [NUL]).

(** [snprintf(buff + off, size, ...)] of a text. *)
Definition snprintf_at (m : list byte) (off size : nat) (text : list byte) : outcome (list byte) :=
  match size with
  | O => mret m
  | S k => mem_write m off (take k text ++ [NUL])
  end.

(** [buff[size - 1] = 0] *)
Definition terminate_last (m : list byte) (size : nat) : outcome (list byte) :=
  match size with O => Fault Undefined | S k => mem_write m k [NUL] end.

Section Human.
Context {E : Type} `{OS E}.

(** [inet_ntop] into [size] bytes: it fails when the text does not fit. *)
Definition inet_ntop_at (f : family) (ip m : list byte) (size : nat) : outcome (option (list byte)) :=
  match os_inet_ntop f ip with
  | Some t => if (length t <? size)%nat then m' ← mem_write m 0 (t ++ [NUL]); mret (Some m') else mret None
  | None => mret None
  end.

(** [m] is the area at [buff]. *)
Definition sockaddr_to_human (m : list byte) (buffsize : nat) (addr : option sockaddr)
    : outcome (list byte) :=
  match addr with
  | None => strncpy_at m (lit "null") buffsize
  | Some a =>
      let handled := bool_decide (sa_family a <> AF_OTHER) in
      m ← (if handled then
             r ← inet_ntop_at (sa_family a) (sa_ip a) m buffsize;
             match r with
             | Some m => mret m
             | None =>
                 m ← strncpy_at m (lit "unknown ip") buffsize;
                 terminate_last m buffsize
             end
           else strncpy_at m (lit "unknown") buffsize);
      m ← strncat_at m (lit ":") buffsize;
      m ← terminate_last m buffsize;
      len ← strlen m;
      m ← (if handled then snprintf_at m len (buffsize - len) (dec (ntohs (sa_port a))) else mret m);
      terminate_last m buffsize
  end.

(** ** Blocking transfers *)

(** Every round sends at least a byte: one more than the contents are enough
    (see [sock_blocking_write_spec]). *)
Fixpoint blocking_write (fuel : nat) (fd : Z) (b : buffer) : M (io E) (Z * buffer) :=
  match fuel with
  | O => mfault Diverge
  | S fuel' =>
      '(n, ptr) ← lift (buffer_read_ptr b);
      l ← lift (mem_read (b_data b) ptr n);
      nwritten ← sys_send fd l;
      match nwritten with
      | Some (S k) =>
          b ← lift (buffer_read_adv b (Z.of_nat (S k)));
          if buffer_can_read b then blocking_write fuel' fd b else mret (0, b)
      | Some O | None => ret ← gets io_errno; mret (ret, b)
      end
  end.

Definition sock_blocking_write (fd : Z) (b : buffer) : M (io E) (Z * buffer) :=
  blocking_write (b_write b - b_read b + 1) fd b.

(** The inner loop of [sock_blocking_copy]: [l] is what is left of the chunk.
    The result is the [errno] it stops with. *)
Fixpoint copy_chunk (fuel : nat) (dest : Z) (l : list byte) : M (io E) (option Z) :=
  match fuel with
  | O => mfault Diverge
  | S fuel' =>
      nwritten ← sys_send dest l;
      match nwritten with
      | Some (S k) =>
          let l := drop (S k) l in
          if (0 <? length l)%nat then copy_chunk fuel' dest l else mret None
      | Some O | None => ret ← gets io_errno; mret (Some ret)
      end
  end.

Definition COPY_SIZE : nat := 4096.

(** [fuel] bounds the number of chunks read. *)
Fixpoint sock_blocking_copy (fuel : nat) (source dest : Z) : M (io E) Z :=
  match fuel with
  | O => mfault Diverge
  | S fuel' =>
      nread ← sys_read source COPY_SIZE;
      match nread with
      | Some ((_ :: _) as buf) =>
          r ← copy_chunk (length buf) dest buf;
          match r with
          | Some ret => mret ret
          | None => sock_blocking_copy fuel' source dest
          end
      | Some [] | None => mret 0
      end
  end.
End Human.

(** ** Lemmas *)

Section Specs.
Context {E : Type} `{OSLaws E}.

(** In the states [ok] the kernel takes at least one byte of whatever it is
    offered, and sending and reading keep it in them: no connection is lost and
    no send would block. *)
Record accepting (ok : E -> Prop) : Prop := {
  acc_send fd l e : ok e -> l <> [] -> exists n e', os_send fd l e = (Ok (S n), e') /\ ok e';
  acc_read fd n e : ok e -> ok (os_read fd n e).2
}.

Lemma sys_send_accepting ok fd l (s : io E) :
  accepting ok -> ok (io_os s) -> l <> [] ->
  exists k s', sys_send fd l s = Done (Some (S k), s') /\ ok (io_os s').
Proof.
  intros Ha Hs Hl. destruct (acc_send _ Ha fd l (io_os s) Hs Hl) as (n & e' & Es & Hok).
  exists n. eexists. unfold sys_send, call, mbind, M_bind. rewrite Es. split; [reflexivity|done].
Qed.

(** The outcome of a send that was seen, in such a state. *)
Lemma send_accepted ok fd l (s : io E) r s' :
  accepting ok -> ok (io_os s) -> l <> [] -> sys_send fd l s = Done (r, s') ->
  (exists k, r = Some (S k)) /\ ok (io_os s').
Proof.
  intros Ha Hs Hl Es. destruct (sys_send_accepting ok fd l s Ha Hs Hl) as (k & s1 & E' & Hok).
  rewrite Es in E'. injection E' as -> ->. split; [by exists k|done].
Qed.

Lemma read_accepted ok fd n (s : io E) r s' :
  accepting ok -> ok (io_os s) -> sys_read fd n s = Done (r, s') -> ok (io_os s').
Proof.
  intros Ha Hs. pose proof (acc_read _ Ha fd n (io_os s) Hs) as Hok. unfold sys_read, call, mbind, M_bind.
  destruct (os_read fd n (io_os s)) as [[m|e] os']; intros [= <- <-]; exact Hok.
Qed.

(** What a transfer of [l] bytes to [fd] leaves in the trace. *)
Definition sends (fd : Z) (l : list byte) (s s' : io E) : Prop :=
  sent fd (io_trace s') = sent fd (io_trace s) ++ l /\
  forall fd', received fd' (io_trace s') = received fd' (io_trace s).

Lemma sends_trans fd l1 l2 s1 s2 s3 : sends fd l1 s1 s2 -> sends fd l2 s2 s3 -> sends fd (l1 ++ l2) s1 s3.
Proof.
  intros [E1 R1] [E2 R2]. split; [by rewrite E2, E1, app_assoc|]. intros fd'. by rewrite R2.
Qed.

Lemma sends_event fd l s s' : io_trace s' = EvSend fd l :: io_trace s -> sends fd l s s'.
Proof. intros Ht. unfold sends. rewrite Ht. split; [simpl; by rewrite decide_True|done]. Qed.

Lemma sends_none fd s s' : io_trace s' = io_trace s -> sends fd [] s s'.
Proof. intros Ht. unfold sends. rewrite Ht. split; [by rewrite app_nil_r|done]. Qed.

Lemma blocking_write_spec fuel fd b (s : io E) :
  buffer_wf b -> (length (contents b) < fuel)%nat ->
  exists r b' s' l, blocking_write fuel fd b s = Done ((r, b'), s') /\ buffer_wf b' /\
    contents b = l ++ contents b' /\ sends fd l s s' /\
    (r = 0 /\ contents b' = [] \/ r = io_errno s') /\
    (forall ok, accepting ok -> ok (io_os s) -> contents b <> [] -> r = 0 /\ contents b' = []).
Proof.
  revert b s. induction fuel as [|fuel IH]; intros b s Hwf Hf; [lia|].
  cbn [blocking_write]. mstep (read_ptr_wf b Hwf). mstep (mem_read_contents b Hwf).
  destruct (sys_send_spec fd (contents b) s) as (r & s1 & Es & Hr). mstep Es.
  destruct r as [[|k]|].
  - exists (io_errno s1), b, s1, []. split; [reflexivity|]. destruct Hr as [_ Ht].
    split_and!; auto; [by apply (sends_event _ (take 0 (contents b)))|].
    intros ok Ha Hok Hne. by destruct (send_accepted ok _ _ _ _ _ Ha Hok Hne Es) as [[k ?] _].
  - destruct Hr as [Hk Ht].
    destruct (buffer_read_adv_spec b (S k) Hwf Hk) as (b1 & Eb & Hwf1 & Hc & _).
    mstep Eb. rewrite (can_read_contents b1 Hwf1).
    assert (Hsplit : contents b = take (S k) (contents b) ++ contents b1) by (by rewrite Hc, take_drop).
    apply sends_event in Ht. case_bool_decide as Hne1.
    + assert (Hl1 : (length (contents b1) < fuel)%nat) by (rewrite Hc, length_drop; lia).
      destruct (IH b1 s1 Hwf1 Hl1) as (r & b2 & s2 & l & Er & Hwf2 & Hc2 & Hs2 & Hr2 & Ha2).
      exists r, b2, s2, (take (S k) (contents b) ++ l). split; [exact Er|].
      split_and!; auto; [by rewrite <- app_assoc, <- Hc2|by eapply sends_trans|].
      intros ok Ha Hok Hne. apply (Ha2 ok Ha); [by eapply send_accepted|done].
    + exists 0, b1, s1, (take (S k) (contents b)). split; [reflexivity|].
      assert (contents b1 = []) by (by destruct (contents b1); [|destruct Hne1]). split_and!; auto.
  - exists (io_errno s1), b, s1, []. split; [reflexivity|].
    split_and!; auto; [by apply sends_none|].
    intros ok Ha Hok Hne. by destruct (send_accepted ok _ _ _ _ _ Ha Hok Hne Es) as [[k ?] _].
Qed.

(** C26. [sock_blocking_write] terminates on every buffer and kernel without a
    fault: what it sent followed by what is left is what the buffer held; it
    returns 0 with nothing left, or the [errno] it stopped with; and from a state
    of the kernel from which every send takes some bytes ([accepting]), a
    non-empty buffer is sent whole and 0 returned. *)
Theorem sock_blocking_write_sends (fd : Z) (b : buffer) (s : io E) :
  buffer_wf b ->
  exists r b' s' l, sock_blocking_write fd b s = Done ((r, b'), s') /\ buffer_wf b' /\
    contents b = l ++ contents b' /\ sends fd l s s' /\
    (r = 0 /\ contents b' = [] \/ r = io_errno s') /\
    (forall ok, accepting ok -> ok (io_os s) -> contents b <> [] -> r = 0 /\ contents b' = []).
Proof.
  intros Hwf. apply blocking_write_spec; [done|]. rewrite contents_length by done. lia.
Qed.

Lemma copy_chunk_spec fuel dest l (s : io E) :
  l <> [] -> (length l <= fuel)%nat ->
  exists r s' x, copy_chunk fuel dest l s = Done (r, s') /\ sends dest x s s' /\
    match r with
    | None => x = l
    | Some e => e = io_errno s' /\ x `prefix_of` l /\ x <> l
    end /\
    (forall ok, accepting ok -> ok (io_os s) -> r = None /\ ok (io_os s')).
Proof.
  revert l s. induction fuel as [|fuel IH]; intros l s Hne Hf; [by destruct l; simpl in *; [|lia]|].
  cbn [copy_chunk]. destruct (sys_send_spec dest l s) as (r & s1 & Es & Hr). mstep Es.
  destruct r as [[|k]|].
  - exists (Some (io_errno s1)), s1, []. split; [reflexivity|]. destruct Hr as [_ Ht].
    split; [by apply (sends_event _ (take 0 l))|]. split; [split_and!; [done|apply prefix_nil|done]|].
    intros ok Ha Hok. by destruct (send_accepted ok _ _ _ _ _ Ha Hok Hne Es) as [[k ?] _].
  - destruct Hr as [Hk Ht]. apply sends_event in Ht. destruct (Nat.ltb_spec 0 (length (drop (S k) l))) as [Hd|Hd].
    + destruct (IH (drop (S k) l) s1) as (r & s2 & x & Er & Hs2 & Hr2 & Ha2).
      { intros E0. rewrite E0 in Hd. simpl in Hd. lia. }
      { rewrite length_drop in *. lia. }
      exists r, s2, (take (S k) l ++ x). split; [exact Er|]. split; [by eapply sends_trans|]. split.
      * destruct r as [e|]; [|by rewrite Hr2, take_drop]. destruct Hr2 as (-> & Hp & Hna).
        split_and!; [done| |]; rewrite <- (take_drop (S k) l) at 2; [by apply prefix_app|].
        by intros ?%app_inv_head.
      * intros ok Ha Hok. apply (Ha2 ok Ha). by eapply send_accepted.
    + exists None, s1, (take (S k) l). split; [reflexivity|]. split; [done|]. split.
      * apply take_ge. rewrite length_drop in Hd. lia.
      * intros ok Ha Hok. split; [done|]. by eapply send_accepted.
  - exists (Some (io_errno s1)), s1, []. split; [reflexivity|]. split; [by apply sends_none|].
    split; [split_and!; [done|apply prefix_nil|done]|].
    intros ok Ha Hok. by destruct (send_accepted ok _ _ _ _ _ Ha Hok Hne Es) as [[k ?] _].
Qed.

(** A source that ends: every chunk read brings the kernel closer to it, and
    sending does not bring it back. *)
Class FiniteSource (ahead : E -> nat) : Prop := {
  ahead_read fd n e l e' : os_read fd n e = (Ok l, e') -> l <> [] -> (ahead e' < ahead e)%nat;
  ahead_send fd l e : (ahead (os_send fd l e).2 <= ahead e)%nat
}.

Lemma sys_send_left `{FiniteSource ahead} fd l s r s' :
  sys_send fd l s = Done (r, s') -> (ahead (io_os s') <= ahead (io_os s))%nat.
Proof.
  pose proof (ahead_send fd l (io_os s)) as Hl. unfold sys_send, call, mbind, M_bind.
  destruct (os_send fd l (io_os s)) as [[n|e] os']; intros [= <- <-]; exact Hl.
Qed.

Lemma copy_chunk_left `{FiniteSource ahead} fuel dest l s r s' :
  copy_chunk fuel dest l s = Done (r, s') -> (ahead (io_os s') <= ahead (io_os s))%nat.
Proof.
  revert l s. induction fuel as [|fuel IH]; intros l s; cbn [copy_chunk]; [done|].
  unfold mbind at 1, M_bind at 1. destruct (sys_send dest l s) as [[[[|k]|] s1]|] eqn:Es; [..|done].
  all: pose proof (sys_send_left _ _ _ _ _ Es) as Hl.
  - by intros [= <- <-].
  - case_match; [intros E'%IH; lia|by intros [= <- <-]].
  - by intros [= <- <-].
Qed.

Lemma sys_read_left `{FiniteSource ahead} fd n s c l s' :
  sys_read fd n s = Done (Some (c :: l), s') -> (ahead (io_os s') < ahead (io_os s))%nat.
Proof.
  unfold sys_read, call, mbind, M_bind.
  destruct (os_read fd n (io_os s)) as [[m|e] os'] eqn:Er; intros Ed; [|discriminate].
  injection Ed as -> <-. by apply (ahead_read _ _ _ _ _ Er).
Qed.

(** How a copy stops: the bytes [y] were received and [x] of them sent, and it
    returned [r]. Either a read brought nothing, because the source ended or
    because it failed, and then all was sent and the result is 0; or a send
    brought nothing, and the result is its [errno]. *)
Definition copy_ends (source : Z) (x y : list byte) (r : Z) (s' : io E) : Prop :=
  r = 0 /\ x = y /\ (exists s0 nread, sys_read source COPY_SIZE s0 = Done (nread, s') /\
    (nread = Some [] \/ nread = None)) \/
  r = io_errno s' /\ x `prefix_of` y /\ x <> y.

Lemma sock_blocking_copy_spec `{FiniteSource ahead} fuel source dest (s : io E) :
  (ahead (io_os s) < fuel)%nat ->
  exists r s' x y, sock_blocking_copy fuel source dest s = Done (r, s') /\
    received source (io_trace s') = received source (io_trace s) ++ y /\
    sent dest (io_trace s') = sent dest (io_trace s) ++ x /\ copy_ends source x y r s' /\
    (forall ok, accepting ok -> ok (io_os s) -> r = 0 /\ x = y).
Proof.
  revert s. induction fuel as [|fuel IH]; intros s Hf; [lia|]. cbn [sock_blocking_copy].
  destruct (sys_read_spec source COPY_SIZE s) as (r & s1 & Er & Hr). mstep Er.
  destruct r as [[|c buf]|].
  - exists 0, s1, [], []. split; [reflexivity|]. destruct Hr as [_ ->]. simpl.
    rewrite decide_True, !app_nil_r by done. split_and!; try done. left. split_and!; [done|done|]. exists s, (Some []). auto.
  - destruct Hr as [_ Ht]. pose proof (sys_read_left _ _ _ _ _ _ Er) as Hl1.
    destruct (copy_chunk_spec (length (c :: buf)) dest (c :: buf) s1 ltac:(done) ltac:(lia))
      as (r & s2 & x & Ec & [Hx Hrec] & Hr2 & Ha2).
    pose proof (copy_chunk_left _ _ _ _ _ _ Ec) as Hl2. rewrite (bind_Done _ _ _ _ _ Ec). cbv beta iota.
    assert (Hrec2 : received source (io_trace s2) = received source (io_trace s) ++ c :: buf).
    { rewrite Hrec, Ht. simpl. by rewrite decide_True. }
    assert (Hx2 : sent dest (io_trace s2) = sent dest (io_trace s) ++ x) by (by rewrite Hx, Ht).
    assert (Ha : forall ok, accepting ok -> ok (io_os s) -> r = None /\ ok (io_os s2)).
    { intros ok Ha Hok. apply (Ha2 ok Ha). by eapply read_accepted. }
    destruct r as [e|].
    + destruct Hr2 as (-> & Hp & Hna). exists (io_errno s2), s2, x, (c :: buf). split_and!; try done; [by right|].
      intros ok Hok Hs. by destruct (Ha ok Hok Hs).
    + subst x. destruct (IH s2 ltac:(lia)) as (r & s3 & x & y & Er3 & Hy3 & Hx3 & Hend & Ha3).
      exists r, s3, ((c :: buf) ++ x), ((c :: buf) ++ y). split; [exact Er3|].
      rewrite Hy3, Hx3, Hrec2, Hx2, <- !app_assoc. split_and!; try done.
      * destruct Hend as [(-> & -> & Hrd)|(-> & Hp & Hne)]; [by left|right].
        split_and!; [done|by apply prefix_app|by intros ?%app_inv_head].
      * intros ok Hok Hs. destruct (Ha ok Hok Hs) as [_ Hs2]. by destruct (Ha3 ok Hok Hs2) as [-> ->].
  - exists 0, s1, [], []. split; [reflexivity|]. rewrite Hr, !app_nil_r. split_and!; try done.
    left. split_and!; [done|done|]. exists s, None. auto.
Qed.

(** C27. [sock_blocking_copy] from a source that ends terminates without a fault,
    in one of two ways. A read brought nothing: all that was received was sent,
    and the result is 0, also when that read failed (netutils.h promises its
    [errno] there). Or a send brought nothing: what was sent is a proper prefix
    of what was received, and the result is the [errno] of the send. From a state
    of the kernel from which every send takes some bytes ([accepting]) it is
    always the first. *)
Theorem sock_blocking_copy_relays `{FiniteSource ahead} (fuel : nat) (source dest : Z) (s : io E) :
  (ahead (io_os s) < fuel)%nat ->
  exists r s' x y, sock_blocking_copy fuel source dest s = Done (r, s') /\
    received source (io_trace s') = received source (io_trace s) ++ y /\
    sent dest (io_trace s') = sent dest (io_trace s) ++ x /\ copy_ends source x y r s' /\
    (forall ok, accepting ok -> ok (io_os s) -> r = 0 /\ x = y).
Proof. apply sock_blocking_copy_spec. Qed.
End Specs.

(** ** The textual form *)

(** Appending to the string an area holds. *)
Lemma mem_write_append m s x :
  holds_str m s -> Forall (fun c => c <> NUL) x -> (length s + length x < length m)%nat ->
  exists m', mem_write m (length s) (x ++ [NUL]) = Done m' /\ holds_str m' (s ++ x) /\ length m' = length m.
Proof.
  intros (t & -> & Hs) Hx Hl.
  destruct (mem_write_fits (s ++ NUL :: t) (length s) (x ++ [NUL])) as (m' & Em & Hm).
  { rewrite (length_app x). simpl. lia. }
  exists m'. split; [done|]. split; [|done]. apply mem_write_inv in Em as [_ ->].
  rewrite take_app_length. eexists. split; [by rewrite <- !app_assoc|]. by apply Forall_app.
Qed.

(** A terminator written after the end of the string. *)
Lemma terminate_last_keeps m s n :
  holds_str m s -> (length s < n <= length m)%nat ->
  exists m', terminate_last m n = Done m' /\ holds_str m' s /\ length m' = length m.
Proof.
  intros (t & -> & Hs) Hn. destruct n as [|n]; [lia|]. cbn [terminate_last].
  destruct (mem_write_fits (s ++ NUL :: t) n [NUL]) as (m' & Em & Hm); [simpl; lia|].
  exists m'. split; [done|]. split; [|done]. apply mem_write_inv in Em as [_ ->].
  rewrite take_app_ge by lia. rewrite <- app_assoc.
  destruct (n - length s)%nat as [|k] eqn:Ek; cbn [take app]; eexists; by split.
Qed.

Lemma strlen_holds m s : holds_str m s -> strlen m = Done (length s).
Proof.
  intros Hm. unfold strlen. rewrite (holds_str_cstr m s Hm), decide_True; [done|].
  destruct Hm as (t & -> & _). set_solver.
Qed.

Lemma digits_aux_length fuel k n acc :
  0 <= n < 10 ^ Z.of_nat (S k) -> (length (digits_aux fuel n acc) <= S k + length acc)%nat.
Proof.
  revert k n acc. induction fuel as [|fuel IH]; intros k n acc Hn; cbn [digits_aux]; [lia|].
  destruct (Z.ltb_spec n 10); [simpl; lia|].
  destruct k as [|k]; [simpl in Hn; lia|].
  etrans; [apply (IH k)|simpl; lia].
  rewrite Nat2Z.inj_succ, Z.pow_succ_r in Hn by lia. split; [apply Z.div_pos; lia|].
  apply Z.div_lt_upper_bound; lia.
Qed.

Lemma digit_not_NUL c : isdigit c = true -> c <> NUL.
Proof. intros H ->. discriminate H. Qed.

Definition SOCKADDR_TO_HUMAN_MIN : nat := 52.

(** With the size netutils.h asks for, the text of an address (at most 45
    characters, as [INET6_ADDRSTRLEN] promises) and its port always fit. *)
Lemma sockaddr_to_human_fits {E} `{OS E} m n a t :
  (SOCKADDR_TO_HUMAN_MIN <= n <= length m)%nat -> sa_family a <> AF_OTHER ->
  os_inet_ntop (sa_family a) (sa_ip a) = Some t -> (length t <= 45)%nat -> Forall (fun c => c <> NUL) t ->
  exists m', sockaddr_to_human m n (Some a) = Done m' /\
    holds_str m' (t ++ lit ":" ++ dec (ntohs (sa_port a))).
Proof.
  unfold SOCKADDR_TO_HUMAN_MIN. intros Hn Hf Ht Hl Hnul.
  assert (Hp : 0 <= ntohs (sa_port a) < 10 ^ Z.of_nat 5).
  { unfold ntohs. pose proof (Z.mod_pos_bound (sa_port a) 256 ltac:(lia)).
    pose proof (Z.mod_pos_bound (sa_port a / 256) 256 ltac:(lia)). simpl Z.of_nat. lia. }
  pose proof (digits_aux_length 20 4 _ [] Hp) as Hd. fold (dec (ntohs (sa_port a))) in Hd. simpl in Hd.
  destruct (dec_spec (ntohs (sa_port a)) ltac:(simpl in Hp; lia)) as (_ & Hds & _).
  assert (Hdn : Forall (fun c => c <> NUL) (dec (ntohs (sa_port a))))
    by (eapply Forall_impl; [exact Hds|apply digit_not_NUL]).
  unfold sockaddr_to_human, inet_ntop_at. rewrite bool_decide_eq_true_2 by done. cbv zeta. rewrite Ht.
  rewrite (proj2 (Nat.ltb_lt _ _)) by lia.
  destruct (mem_write_fits m 0 (t ++ [NUL])) as (m1 & E1 & L1); [rewrite length_app; simpl; lia|].
  assert (H1 : holds_str m1 t).
  { apply mem_write_inv in E1 as [_ ->]. simpl. eexists. by rewrite <- app_assoc. }
  rewrite E1. cbn [mbind outcome_bind mret outcome_ret]. unfold strncat_at. rewrite (strlen_holds _ _ H1).
  cbn [mbind outcome_bind]. rewrite take_ge by (simpl; lia).
  destruct (mem_write_append m1 t (lit ":") H1) as (m2 & E2 & H2 & L2);
    [repeat constructor; discriminate|simpl; lia|].
  rewrite E2. cbn [mbind outcome_bind].
  destruct (terminate_last_keeps m2 _ n H2) as (m3 & E3 & H3 & L3); [rewrite length_app; simpl; lia|].
  rewrite E3. cbn [mbind outcome_bind]. rewrite (strlen_holds _ _ H3). cbn [mbind outcome_bind].
  rewrite (length_app t). change (length (lit ":")) with 1%nat.
  unfold snprintf_at. destruct (n - (length t + 1))%nat as [|k] eqn:Ek; [lia|].
  rewrite (take_ge (dec _)) by lia.
  destruct (mem_write_append m3 (t ++ lit ":") (dec (ntohs (sa_port a))) H3 Hdn) as (m4 & E4 & H4 & L4);
    [rewrite length_app; simpl; lia|].
  rewrite length_app in E4. change (length (lit ":")) with 1%nat in E4. rewrite E4. cbn [mbind outcome_bind].
  destruct (terminate_last_keeps m4 _ n H4) as (m5 & E5 & H5 & _); [rewrite !length_app; simpl; lia|].
  exists m5. split; [exact E5|]. by rewrite app_assoc.
Qed.

(** ** Examples *)

#[global] Instance script_finite : FiniteSource (fun e : script => length (sc_reads e)).
Proof.
  split; simpl.
  - intros fd n [[|c cs] k m] l e'; simpl; intros; simplify_eq. simpl. lia.
  - intros fd l [r [|k] m]; simpl; lia.
Qed.

(** The scripted kernel takes bytes while its limit is not 0. *)
Lemma script_accepting : accepting (fun e : script => sc_accepts e <> 0%nat).
Proof.
  split.
  - intros fd l [r [|k] m] Hk Hl; simpl in *; [done|]. destruct l as [|c l]; [done|]. simpl. eauto.
  - intros fd n [[|c cs] k m] Hk; done.
Qed.

Lemma sock_blocking_write_sends_witness :
  let b := Buffer (lit "HOLAxx") 6 1 4 in
  let s := Io (Script [] 2 3) 0 [] in
  buffer_wf b /\ accepting (fun e : script => sc_accepts e <> 0%nat) /\
  exists b' s', sock_blocking_write 7 b s = Done ((0, b'), s') /\ contents b' = [].
Proof.
  intros b s. assert (Hb : buffer_wf b) by (unfold buffer_wf; simpl; lia). split; [exact Hb|].
  split; [exact script_accepting|].
  destruct (@sock_blocking_write_sends script script_os script_laws 7 b s Hb)
    as (r & b' & s' & l & E & _ & _ & _ & _ & Ha).
  destruct (Ha _ script_accepting) as [-> Hb']; [discriminate|discriminate|].
  exists b', s'. split; [exact E|exact Hb'].
Defined.

Lemma sock_blocking_copy_relays_witness :
  let s := Io (Script [lit "HOLA"; lit "MUNDO"; []] 2 3) 0 [] in
  (length (sc_reads (io_os s)) < 4)%nat /\ accepting (fun e : script => sc_accepts e <> 0%nat) /\
  exists s', sock_blocking_copy 4 3 5 s = Done (0, s') /\
    sent 5 (io_trace s') = received 3 (io_trace s').
Proof.
  intros s. assert (Hf : (length (sc_reads (io_os s)) < 4)%nat) by (simpl; lia). split; [exact Hf|].
  split; [exact script_accepting|].
  destruct (@sock_blocking_copy_relays script script_os script_laws _ script_finite 4 3 5 s Hf)
    as (r & s' & x & y & E & Hr & Hs & _ & Ha).
  destruct (Ha _ script_accepting) as [-> ->]; [discriminate|].
  exists s'. split; [exact E|]. rewrite Hs, Hr. reflexivity.
Defined.

(** A failed [recv] ends the copy with 0, the value documented for success. *)
Example copy_hides_read_error :
  exists s', sock_blocking_copy 2 3 5 (Io (Script [] 2 3) 0 []) = Done (0, s') /\ io_errno s' = EAGAIN.
Proof. eexists. split; reflexivity. Qed.

(** Sending an empty buffer returns the [errno] of an earlier call. *)
Example empty_write_stale_errno :
  exists b s', sock_blocking_write 7 (buffer_init 4 (repeat NUL 4)) (Io (Script [] 2 3) EAGAIN []) =
    Done ((EAGAIN, b), s').
Proof. eexists _, _. vm_compute. reflexivity. Qed.
