(* ===== verification/Proxy.v ===== *)
(** * Proxy: src/proxy.c, and [selector_init] and [selector_close] of
    src/selector.c

    [main] of the server: the command line, the passive sockets, the selector
    and the loop that serves events until SIGTERM. [handlers] is the table of
    the four [fd_handler] structs, so that the loop runs the whole program. The
    calls about signals, the environment and [pselect] are the operations of
    [ProcOS]; the variable [done] that the signal handler sets is
    [os_terminated] of the kernel's state. *)

From S2P Require Import Prelude Buffer Os State Users Tokens Selector Stm World Util TcpServer Mgmt.
From S2P Require Import CloseClient Handshake Clients CLib Args.

Local Open Scope Z_scope.

Definition SIGTERM : Z := 15.
Definition SIGALRM : Z := 14.

Class ProcOS (E : Type) := {
  (** whether the handler could be installed *)
  os_signal : Z -> E -> bool * E;
  os_getenv : list byte -> E -> option (list byte);
  os_sigprocmask : Z -> E -> sysres unit * E;
  os_sigaction : Z -> E -> sysres unit * E;
  os_pselect : Z -> gset Z -> gset Z -> E -> sysres (gset Z * gset Z) * E;
  (** SIGTERM has been handled *)
  os_terminated : E -> bool
}.

Definition SOCKS_ADDR4 : list byte := lit "0.0.0.0".
Definition SOCKS_ADDR6 : list byte := lit "::".
Definition MGMT_ADDR4 : list byte := lit "127.0.0.1".
Definition MGMT_ADDR6 : list byte := lit "::1".
Definition TOKEN_VAR : list byte := lit "TOKEN".
Definition SELECTOR_ELEMENTS : Z := 1024.

Section Proxy.
Context {E : Type} `{OS E} `{NetOS E} `{ProcOS E}.

(** ** The selector library *)

Definition selector_init (signal : Z) : M (io E) selector_status :=
  r ← call (os_sigprocmask signal);
  match r with
  | None => mret SELECTOR_IO
  | Some _ =>
      r ← call (os_sigaction signal);
      match r with None => mret SELECTOR_IO | Some _ => mret SELECTOR_SUCCESS end
  end.

Definition selector_close : selector_status := SELECTOR_SUCCESS.

(** The global [selector], allocated in two steps: the struct, the table. *)
Definition new_selector (initial_elements : Z) : M (world E) bool :=
  r1 ← sys (sys_malloc 1);
  r2 ← (if bool_decide (is_Some r1) then sys (sys_malloc 1) else mret None);
  s ← lift (selector_new (bool_decide (is_Some r1)) (bool_decide (is_Some r2)) initial_elements);
  match s with
  | Some s => modify (lput sel_lens s);; mret true
  | None => mret false
  end.

(** [pselect] as the dispatcher calls it. *)
Definition pselect (n : Z) (r w : gset Z) : M (world E) (sysres (gset Z * gset Z)) :=
  sys (fun s => let '(x, e) := os_pselect n r w (io_os s) in
    Done (x, Io e (match x with Err k => k | Ok _ => io_errno s end) (io_trace s))).

(** One descriptor of the search after [EBADF], and its report. *)
Definition check_fd (fd : Z) : M (world E) unit :=
  r ← sys (call (os_fcntl fd F_GETFD));
  match r with
  | None => sys (emit (EvLog (lit "Bad descriptor detected: " ++ dec fd ++ [LF])))
  | Some _ => mret tt
  end.

(** ** The handlers *)

Definition handlers (h : handler_id) : fd_handler (world E) :=
  match h with
  | H_master => FdHandler (Some (master_read_handler hclose)) None None None
  | H_monitor => FdHandler (Some mgmt_master_read_handler) None None None
  | H_socks5 => socks5_handler hclose
  | H_mgmt => mgmt_handler
  end.

(** ** Passive sockets *)

(** The sockets of a service: one for each of the default addresses, or one for
    the address given, which is an IPv6 one when it has a colon. *)
Definition endpoints (addr : option (list byte)) (addr4 addr6 : list byte) : list (list byte * bool) :=
  match addr with
  | None => [(addr4, false); (addr6, true)]
  | Some a => [(a, bool_decide (COLON ∈ a))]
  end.

(** The descriptors that were set up, in order. *)
Fixpoint set_up_sockets (eps : list (list byte * bool)) (port : Z) : M (world E) (list Z) :=
  match eps with
  | [] => mret []
  | (ip, ipv6) :: eps' =>
      fd ← sys (setUpMasterSocket ip port ipv6);
      fds ← set_up_sockets eps' port;
      mret (if 0 <=? fd then fd :: fds else fds)
  end.

Fixpoint register_masters (fds : list Z) : M (world E) unit :=
  match fds with
  | [] => mret tt
  | fd :: fds' =>
      sys (selector_fd_set_nio fd);;
      do_register fd (Some H_master) OP_READ 0;;
      register_masters fds'
  end.

Fixpoint register_monitors (fds : list Z) : M (world E) unit :=
  match fds with
  | [] => mret tt
  | fd :: fds' =>
      r ← sys (sys_listen fd MAX_PENDING_CONNECTIONS);
      match r with
      | None => mret tt
      | Some _ =>
          sys (selector_fd_set_nio fd);;
          do_register fd (Some H_monitor) OP_READ 0;;
          mret tt
      end;;
      register_monitors fds'
  end.

(** ** main *)

(** The part of [main] that opens the services, up to the loop. *)
Definition open_services (a : socks5args) : Prog (world E) unit :=
  master ← call_M (set_up_sockets (endpoints (socks_addr a) SOCKS_ADDR4 SOCKS_ADDR6) (socks_port a));
  count ← call_M (gets (fun w => get_token_count (w_tokens w)));
  monitor ← call_M (if (count =? 0)%nat then mret []
                    else set_up_sockets (endpoints (mng_addr a) MGMT_ADDR4 MGMT_ADDR6) (mng_port a));
  if (length master =? 0)%nat then exit_with 2
  else
    call_M (sys (selector_init SIGALRM));;
    ok ← call_M (new_selector SELECTOR_ELEMENTS);
    if negb ok then exit_with 3
    else
      call_M (register_masters master);;
      call_M (register_monitors monitor).

(** [main] up to the loop. *)
Definition start_up (args : list (list byte)) : Prog (world E) unit :=
  call_M (sys (sys_close 0));;
  ok ← call_M (sys (fun s => let '(b, e) := os_signal SIGTERM (io_os s) in
                             Done (b, Io e (io_errno s) (io_trace s))));
  if negb ok then exit_with 1
  else
    a ← parse_args args;
    token ← call_M (gets (fun w => os_getenv TOKEN_VAR (io_os (w_io w))));
    call_M (match token with
            | Some t => add_token_arg t;; mret tt
            | None => mret tt
            end);;
    open_services a.

(** [while (!done)]; [fuel] bounds the iterations. *)
Fixpoint main_loop (fuel : nat) : Prog (world E) unit :=
  match fuel with
  | O => call_M (mfault Diverge)
  | S fuel' =>
      stop ← call_M (gets (fun w => os_terminated (io_os (w_io w))));
      if (stop : bool) then mret tt
      else
        ss ← call_M (selector_select handlers pselect check_fd);
        if bool_decide (ss <> SELECTOR_SUCCESS) then exit_with 1
        else main_loop fuel'
  end.

Definition main (fuel : nat) (args : list (list byte)) : Prog (world E) Z :=
  start_up args;;
  main_loop fuel;;
  call_M (selector_destroy hclose);;
  mret selector_close;;
  mret 0.

(** The process before [main]: nothing is registered and no table has entries. *)
Definition process0 (s : io E) : world E :=
  World s (FdSelector None 0 0 ∅ ∅ ∅ ∅ []) state_init [] [] ∅ ∅ 1 [].
End Proxy.
