(* ===== verification/ProxySpec.v ===== *)
(** * ProxySpec: what the server's start-up establishes

    Whatever fails on the way, [start_up] reaches the loop or ends the process
    with the status of what stopped it. When the loop is reached, the selector
    holds exactly the passive sockets, and no socket was ever bound to an address
    the command line did not ask for; in particular the management service exists
    exactly when there is a token. *)

From S2P Require Import Prelude Os State Users Tokens Selector SelectorSpec Stm World WorldLogic Util TcpServer.
From S2P Require Import RequestSpec Lifecycle CLib Args ArgsSpec Proxy.
Import Registry.

Local Open Scope Z_scope.

(** ** A rule for programs that may exit *)

Section Pwp.
Context {S : Type}.

Definition pwp {A} (m : Prog S A) (Q : A -> S -> Prop) (X : Z -> S -> Prop) (s : S) : Prop :=
  match m s with
  | Done (Go a, s') => Q a s'
  | Done (Exit k, s') => X k s'
  | Fault _ => False
  end.

Lemma pwp_bind {A B} (m : Prog S A) (k : A -> Prog S B) Q X s :
  pwp m (fun a s' => pwp (k a) Q X s') X s -> pwp (m ≫= k) Q X s.
Proof. unfold pwp, mbind, Prog_bind. by destruct (m s) as [[[?|a] s']|]. Qed.

Lemma pwp_call {A} (m : M S A) (Q : A -> S -> Prop) X s : wp m Q s -> pwp (call_M m) Q X s.
Proof. unfold pwp, wp, call_M. by destruct (m s) as [[a s']|]. Qed.

Lemma pwp_ret {A} (a : A) (Q : A -> S -> Prop) X s : Q a s -> pwp (mret a) Q X s.
Proof. done. Qed.

Lemma pwp_exit {A} k (Q : A -> S -> Prop) (X : Z -> S -> Prop) s : X k s -> pwp (exit_with k) Q X s.
Proof. done. Qed.

Lemma pwp_inv {A} (m : Prog S A) Q X s :
  pwp m Q X s -> exists r s', m s = Done (r, s') /\ match r with Go a => Q a s' | Exit k => X k s' end.
Proof. unfold pwp. destruct (m s) as [[r s']|]; [|done]. intros Hr. exists r, s'. split; [done|]. by destruct r. Qed.
End Pwp.

Section Sockets.
Context {E : Type} `{OSLaws E} `{NetOS E}.
Implicit Types (w : world E).

(** Every socket bound in [evs] is at one of the end points. *)
Definition bound_within (eps : list (list byte * bool)) (port : Z) (evs : list event) : Prop :=
  forall fd a, EvBind fd a ∈ evs -> exists ip ipv6, (ip, ipv6) ∈ eps /\ denotes ip port ipv6 a.

(** The end points are tried in order, each with [setUpMasterSocket]; [fds] are
    the sockets that were set up. *)
Inductive opened (port : Z) : list (list byte * bool) -> io E -> list Z -> io E -> Prop :=
| op_nil s : opened port [] s [] s
| op_cons ip ipv6 eps s fd s1 fds s2 :
    setUpMasterSocket ip port ipv6 s = Done (fd, s1) -> opened port eps s1 fds s2 ->
    opened port ((ip, ipv6) :: eps) s (if 0 <=? fd then fd :: fds else fds) s2.

Lemma wp_set_up_sockets eps port w :
  wp (set_up_sockets eps port) (fun fds w' => exists i, w' = lput io_lens i w /\ opened port eps (w_io w) fds i) w.
Proof.
  revert w. induction eps as [|[ip ipv6] eps IH]; intros w; cbn [set_up_sockets].
  - apply wp_ret. exists (w_io w). split; [by destruct w|constructor].
  - apply wp_bind, wp_sys. destruct (setUpMasterSocket_spec ip port ipv6 (w_io w)) as (r & s1 & E1 & _).
    eapply wp_Done; [exact E1|]. apply wp_bind. eapply wp_mono; [apply IH|].
    intros fds w2 (i & -> & Ho). apply wp_ret. exists i. split; [done|]. by econstructor.
Qed.

(** What the kernel saw of it. *)
Lemma opened_trace eps port s fds s' :
  opened port eps s fds s' -> exists evs, io_trace s' = evs ++ io_trace s /\
    bound_within eps port evs /\ Forall (fun fd => EvListen fd ∈ evs) fds.
Proof.
  induction 1 as [s|ip ipv6 eps s fd s1 fds s2 E1 _ (evs2 & Ht2 & Hb2 & Hl2)].
  - exists []. split_and!; [done| |constructor]. intros fd a Hin. by apply not_elem_of_nil in Hin.
  - destruct (setUpMasterSocket_spec ip port ipv6 s) as (r & s1' & E1' & evs & Ht & Hb & Hr).
    rewrite E1 in E1'. injection E1' as <- <-.
    exists (evs2 ++ evs). split_and!; [by rewrite Ht2, Ht, app_assoc| |].
    + intros fd' a [Hin|Hin]%elem_of_app.
      * destruct (Hb2 fd' a Hin) as (ip' & v' & Hep & Hd). exists ip', v'. split; [by right|done].
      * exists ip, ipv6. split; [by left|]. by eapply Hb.
    + assert (Hl : Forall (fun fd => EvListen fd ∈ evs2 ++ evs) fds)
        by (eapply Forall_impl; [exact Hl2|]; intros x ?; apply elem_of_app; by left).
      case_match; tests; [|done]. constructor; [|done]. destruct Hr as [[-> _]|[_ (a & _ & ->)]]; [lia|].
      apply elem_of_app. right. apply list_elem_of_here.
Qed.

(** ** Registration *)

(** The registration of a passive socket. *)
Definition listener (h : handler_id) : entry handler_id := Entry OP_READ (2 ^ 32 - 1) h 0.

(** The registry after registering [fds] with [h], in order. *)
Definition register_all (h : handler_id) (fds : list Z) (g : gmap Z (entry handler_id)) : gmap Z (entry handler_id) :=
  foldl (fun g fd => (rstep g (Register fd (Some h) OP_READ 0)).2) g fds.

Lemma register_all_lookup h fds g fd :
  0 <= fd < FD_SETSIZE ->
  register_all h fds g !! fd =
    match g !! fd with
    | Some e => Some e
    | None => if decide (fd ∈ fds) then Some (listener h) else None
    end.
Proof.
  intros Hfd. revert g. induction fds as [|x fds IH]; intros g; cbn [register_all foldl].
  - rewrite decide_False by apply not_elem_of_nil. by destruct (g !! fd).
  - fold (register_all h fds (rstep g (Register x (Some h) OP_READ 0)).2). rewrite IH.
    assert (Hx : (rstep g (Register x (Some h) OP_READ 0)).2 !! fd =
                 match g !! fd with Some e => Some e
                 | None => if decide (fd = x) then Some (listener h) else None end).
    { unfold rstep. destruct (INVALID_FD x) eqn:Ex; cbn [snd].
      - destruct (g !! fd) eqn:Eg; [done|]. rewrite decide_False; [done|]. intros ->.
        apply INVALID_FD_spec in Hfd. congruence.
      - destruct (g !! x) as [e|] eqn:Egx; cbn [snd].
        + destruct (g !! fd) eqn:Eg; [done|]. rewrite decide_False; [done|]. congruence.
        + destruct (decide (fd = x)) as [->|Hne]; [by rewrite lookup_insert_eq, Egx|].
          rewrite lookup_insert_ne by done. by destruct (g !! fd). }
    rewrite Hx. destruct (g !! fd); [done|].
    destruct (decide (fd = x)) as [->|Hne]; [by rewrite decide_True by (by left)|].
    apply option_eq. intros e. repeat case_decide; set_solver.
Qed.

(** The new registry; only the kernel and the selector changed, without an
    event. *)
Definition registered (g : gmap Z (entry handler_id)) w w' : Prop :=
  exists i s', w' = lput sel_lens s' (lput io_lens i w) /\ repr s' g /\ io_trace i = io_trace (w_io w).

Lemma registered_trans g1 g2 w w1 w2 : registered g1 w w1 -> registered g2 w1 w2 -> registered g2 w w2.
Proof.
  intros (i & s1 & -> & _ & Ht1) (i2 & s2 & -> & Hg & Ht2). exists i2, s2. simpl in *. by rewrite Ht2.
Qed.

Lemma registered_refl g w : repr (w_sel w) g -> registered g w w.
Proof. intros Hg. exists (w_io w), (w_sel w). split_and!; [by destruct w|done|done]. Qed.

Lemma registered_repr g w w' : registered g w w' -> repr (w_sel w') g.
Proof. by intros (i & s' & -> & Hg & _). Qed.

(** Preparing and registering one socket. *)
Lemma wp_register_one {A} fd h (k : M (world E) A) g w (Q : A -> world E -> Prop) :
  repr (w_sel w) g ->
  (forall w', registered (register_all h [fd] g) w w' -> wp k Q w') ->
  wp (sys (selector_fd_set_nio fd);; do_register fd (Some h) OP_READ 0;; k) Q w.
Proof.
  intros Hg HQ. apply wp_bind, wp_sys.
  destruct (selector_fd_set_nio_spec fd (w_io w)) as (r & s1 & E1 & Ht & _). eapply wp_Done; [exact E1|].
  apply wp_bind. eapply wp_do_register; [exact Hg|].
  intros i s' Hi Hg'. apply HQ. exists i, s'. split_and!; [by destruct w|done|by rewrite Hi; cbn; rewrite Ht].
Qed.

Lemma wp_register_masters fds g w :
  repr (w_sel w) g -> wp (register_masters fds) (fun _ => registered (register_all H_master fds g) w) w.
Proof.
  revert g w. induction fds as [|fd fds IH]; intros g w Hg; cbn [register_masters]; [by apply registered_refl|].
  apply (wp_register_one fd H_master _ g w); [done|]. intros w1 Hw1.
  eapply wp_mono; [by apply (IH (register_all H_master [fd] g)), (registered_repr _ w)|]. intros [] w2 Hw2. by eapply registered_trans.
Qed.

(** [listen] is called again on each of [fds]; [kept] are those it succeeds for,
    which are then prepared and registered without an event. *)
Inductive relistened : list Z -> io E -> list Z -> io E -> Prop :=
| rl_nil s : relistened [] s [] s
| rl_fail fd fds s s1 kept s2 :
    sys_listen fd MAX_PENDING_CONNECTIONS s = Done (None, s1) ->
    relistened fds s1 kept s2 -> relistened (fd :: fds) s kept s2
| rl_keep fd fds s u s1 s2 kept s3 :
    sys_listen fd MAX_PENDING_CONNECTIONS s = Done (Some u, s1) -> io_trace s2 = io_trace s1 ->
    relistened fds s2 kept s3 -> relistened (fd :: fds) s (fd :: kept) s3.

Lemma relistened_trace fds s kept s' :
  relistened fds s kept s' -> kept `sublist_of` fds /\
  exists evs, io_trace s' = evs ++ io_trace s /\ forall fd a, EvBind fd a ∉ evs.
Proof.
  induction 1 as [s|fd fds s s1 kept s2 E1 _ (Hk & evs & Ht & Hb)|fd fds s u s1 s2 kept s3 E1 H2 _ (Hk & evs & Ht & Hb)].
  - split; [done|]. exists []. split; [done|]. intros fd a. apply not_elem_of_nil.
  - split; [by constructor|]. destruct (sys_listen_trace fd MAX_PENDING_CONNECTIONS s) as (r & s' & E' & Ht').
    rewrite E1 in E'. injection E' as <- <-. exists evs. split; [by rewrite Ht, Ht'|done].
  - split; [by constructor|]. destruct (sys_listen_trace fd MAX_PENDING_CONNECTIONS s) as (r & s' & E' & Ht').
    rewrite E1 in E'. injection E' as <- <-. exists (evs ++ [EvListen fd]).
    split; [by rewrite Ht, H2, Ht', <- app_assoc|].
    intros fd' a [Hin|Hin]%elem_of_app; [by eapply Hb|by apply list_elem_of_singleton in Hin].
Qed.

(** The monitors whose second [listen] fails are left out, and only those. *)
Lemma wp_register_monitors fds g w :
  repr (w_sel w) g ->
  wp (register_monitors fds)
     (fun _ w' => exists kept i s', w' = lput sel_lens s' (lput io_lens i w) /\
        relistened fds (w_io w) kept i /\ repr s' (register_all H_monitor kept g)) w.
Proof.
  revert g w. induction fds as [|fd fds IH]; intros g w Hg; cbn [register_monitors].
  { exists [], (w_io w), (w_sel w). split_and!; [by destruct w|constructor|done]. }
  apply wp_bind, wp_sys. destruct (sys_listen_trace fd MAX_PENDING_CONNECTIONS (w_io w)) as (r & s1 & E1 & Ht).
  eapply wp_Done; [exact E1|]. destruct r as [u|].
  - apply wp_bind, (wp_register_one fd H_monitor _ g (lput io_lens s1 w)); [done|].
    intros w2 (i2 & s2 & -> & Hg2 & Hi2). apply wp_ret.
    eapply wp_mono; [by apply (IH (register_all H_monitor [fd] g))|].
    intros [] w3 (kept & i3 & s3 & -> & Hk & Hg3). exists (fd :: kept), i3, s3.
    split_and!; [done|by econstructor|done].
  - apply wp_bind, wp_ret. eapply wp_mono; [by apply (IH g)|]. intros [] w3 (kept & i3 & s3 & -> & Hk & Hg3).
    exists kept, i3, s3. split_and!; [done|by econstructor|done].
Qed.
End Sockets.

(** ** Start-up *)

Section StartUp.
Context {E : Type} `{OSLaws E} `{NetOS E} `{ProcOS E}.
Implicit Types (w : world E).

Lemma selector_init_trace signal (i : io E) :
  exists st i', selector_init signal i = Done (st, i') /\ io_trace i' = io_trace i.
Proof.
  apply (wp_inv (selector_init signal) (fun _ i' => io_trace i' = io_trace i)). unfold selector_init. apply wp_bind.
  destruct (call_trace (os_sigprocmask signal) i) as (r & s1 & E1 & Ht1). eapply wp_Done; [exact E1|].
  destruct r as [u|]; [|by apply wp_ret]. apply wp_bind.
  destruct (call_trace (os_sigaction signal) s1) as (r & s2 & E2 & Ht2). eapply wp_Done; [exact E2|].
  destruct r; apply wp_ret; congruence.
Qed.

(** One of the two allocations of the selector fails. *)
Definition no_memory (e : E) : Prop :=
  (os_malloc 1 e).1 = None \/ (os_malloc 1 (os_malloc 1 e).2).1 = None.

Lemma wp_new_selector w (Q : bool -> world E -> Prop) :
  (forall i, io_trace i = io_trace (w_io w) -> Q true (lput sel_lens selector0 (lput io_lens i w))) ->
  (forall i, no_memory (io_os (w_io w)) -> Q false (lput io_lens i w)) ->
  wp (new_selector SELECTOR_ELEMENTS) Q w.
Proof.
  intros Ht Hf. unfold new_selector, SELECTOR_ELEMENTS. apply wp_bind, wp_malloc. intros [m1|] e1 i1 Em1 He1 Hi1 _.
  - rewrite bool_decide_eq_true_2 by (by eexists). apply wp_bind, wp_malloc. intros [m2|] e2 i2 Em2 _ Hi2 _.
    + rewrite bool_decide_eq_true_2 by (by eexists). apply wp_bind.
      eapply wp_lift; [apply selector_new_1024|]. apply wp_bind, wp_modify, wp_ret, Ht. simpl in *. congruence.
    + rewrite bool_decide_eq_false_2 by (by intros []). apply wp_bind.
      eapply wp_lift; [reflexivity|]. apply wp_ret, Hf. right. rewrite Em1. simpl in *. by rewrite <- He1, Em2.
  - rewrite bool_decide_eq_false_2 by (by intros []). apply wp_bind, wp_ret, wp_bind.
    eapply wp_lift; [reflexivity|]. apply wp_ret, Hf. left. by rewrite Em1.
Qed.

(** The sockets of the two services: those of the proxy, then, only with a token
    in the table, those of the management. *)
Definition sockets_of (a : socks5args) w (master monitor : list Z) (i : io E) : Prop :=
  exists i1, opened (socks_port a) (endpoints (socks_addr a) SOCKS_ADDR4 SOCKS_ADDR6) (w_io w) master i1 /\
    (w_tokens w = [] /\ monitor = [] /\ i = i1 \/
     w_tokens w <> [] /\ opened (mng_port a) (endpoints (mng_addr a) MGMT_ADDR4 MGMT_ADDR6) i1 monitor i).

(** Where the services may listen. *)
Definition service (a : socks5args) (tokens : list (list byte)) (x : sockaddr) : Prop :=
  (exists ip ipv6, (ip, ipv6) ∈ endpoints (socks_addr a) SOCKS_ADDR4 SOCKS_ADDR6 /\
     denotes ip (socks_port a) ipv6 x) \/
  tokens <> [] /\
  (exists ip ipv6, (ip, ipv6) ∈ endpoints (mng_addr a) MGMT_ADDR4 MGMT_ADDR6 /\
     denotes ip (mng_port a) ipv6 x).

Lemma sockets_of_trace a w master monitor i :
  sockets_of a w master monitor i -> exists evs, io_trace i = evs ++ io_trace (w_io w) /\
    (forall fd x, EvBind fd x ∈ evs -> service a (w_tokens w) x) /\
    Forall (fun fd => EvListen fd ∈ evs) (master ++ monitor).
Proof.
  intros (i1 & Hm & Hn). destruct (opened_trace _ _ _ _ _ Hm) as (evs1 & Ht1 & Hb1 & Hl1).
  destruct Hn as [(_ & -> & ->)|[Hk Hn]].
  - exists evs1. split_and!; [done|intros fd x Hin; left; by eapply Hb1|by rewrite app_nil_r].
  - destruct (opened_trace _ _ _ _ _ Hn) as (evs2 & Ht2 & Hb2 & Hl2). exists (evs2 ++ evs1).
    split_and!; [by rewrite Ht2, Ht1, app_assoc| |].
    + intros fd x [Hin|Hin]%elem_of_app; [right; split; [done|by eapply Hb2]|left; by eapply Hb1].
    + apply Forall_app. split; (eapply Forall_impl; [done|]); intros fd Hin; apply elem_of_app; auto.
Qed.

(** The loop can start, from the process [w] with its tables filled: the sockets
    of the services were opened; the selector holds all those of the proxy, and
    all those of the management for which [listen] succeeds once more; nothing
    else is registered and the tables are as they were. *)
Record serving (a : socks5args) w w' : Prop := {
  sv_tables : w_state w' = w_state w /\ w_users w' = w_users w /\ w_tokens w' = w_tokens w /\
    w_clients w' = w_clients w /\ w_mgmt w' = w_mgmt w;
  sv_bound : exists evs, io_trace (w_io w') = evs ++ io_trace (w_io w) /\
    forall fd x, EvBind fd x ∈ evs -> service a (w_tokens w) x;
  sv_registered : exists master monitor i1 i2 kept g,
    sockets_of a w master monitor i1 /\ master <> [] /\
    io_trace i2 = io_trace i1 /\ relistened monitor i2 kept (w_io w') /\
    repr (w_sel w') g /\ forall fd, 0 <= fd < FD_SETSIZE ->
      g !! fd = if decide (fd ∈ master) then Some (listener H_master)
                else if decide (fd ∈ kept) then Some (listener H_monitor) else None
}.

(** The ways in which opening the services ends the process. *)
Inductive not_serving (a : socks5args) w : Z -> Prop :=
| ns_sockets monitor i : sockets_of a w [] monitor i -> not_serving a w 2
| ns_memory master monitor i st i2 :
    sockets_of a w master monitor i -> master <> [] ->
    selector_init SIGALRM i = Done (st, i2) -> no_memory (io_os i2) -> not_serving a w 3.

Lemma pwp_open_services a w :
  pwp (open_services a) (fun _ w' => serving a w w')
    (fun k w' => not_serving a w k /\ w_users w' = w_users w /\ w_tokens w' = w_tokens w) w.
Proof.
  unfold open_services. apply pwp_bind, pwp_call. eapply wp_mono; [apply wp_set_up_sockets|].
  intros master w1 (i1 & -> & Ho1). apply pwp_bind, pwp_call, wp_gets. apply pwp_bind, pwp_call.
  assert (Hmon : wp (if (get_token_count (w_tokens w) =? 0)%nat then mret []
      else set_up_sockets (endpoints (mng_addr a) MGMT_ADDR4 MGMT_ADDR6) (mng_port a))
      (fun monitor w2 => exists i, w2 = lput io_lens i w /\ sockets_of a w master monitor i) (lput io_lens i1 w)).
  { unfold get_token_count. destruct (Nat.eqb_spec (length (w_tokens w)) 0) as [Hz|Hz].
    - apply wp_ret. exists i1. split; [done|]. exists i1. split; [done|]. left. by apply length_zero_iff_nil in Hz.
    - eapply wp_mono; [apply wp_set_up_sockets|]. intros monitor w2 (i2 & -> & Ho2).
      exists i2. split; [done|]. exists i1. split; [done|]. right. split; [intros E0; by rewrite E0 in Hz|done]. }
  change (w_tokens (lput io_lens i1 w)) with (w_tokens w).
  eapply wp_mono; [exact Hmon|]. clear Hmon Ho1. intros monitor w2 (i2 & -> & Ho).
  destruct (Nat.eqb_spec (length master) 0) as [Hm|Hm].
  { apply length_zero_iff_nil in Hm as ->. apply pwp_exit. split_and!; [by econstructor|done|done]. }
  assert (Hne : master <> []) by (by intros ->). clear Hm.
  destruct (selector_init_trace SIGALRM i2) as (st & i3 & E3 & Hi3).
  apply pwp_bind, pwp_call, wp_sys. eapply wp_Done; [exact E3|].
  apply pwp_bind, pwp_call, wp_new_selector; intros i4 Hi4;
    [|apply pwp_exit; split_and!; [by eapply ns_memory|done|done]].
  cbn [negb]. apply pwp_bind, pwp_call. eapply wp_mono; [apply (wp_register_masters _ ∅), repr_selector0|].
  intros [] w5 (i5 & s5 & -> & Hg5 & Ht5). apply pwp_call. eapply wp_mono; [eapply wp_register_monitors, Hg5|].
  intros [] w6 (kept & i6 & s6 & -> & Hk & Hg6). simpl in *.
  destruct (sockets_of_trace _ _ _ _ _ Ho) as (evs & Ht & Hb & _).
  destruct (relistened_trace _ _ _ _ Hk) as (_ & evs6 & Ht6 & Hb6). split; [done| |].
  - exists (evs6 ++ evs). split; [by simpl; rewrite Ht6, Ht5, Hi4, Hi3, Ht, app_assoc|].
    intros fd x [Hin|Hin]%elem_of_app; [by apply Hb6 in Hin|by eapply Hb].
  - exists master, monitor, i2, i5, kept. eexists. split_and!; [exact Ho|done|congruence|exact Hk|exact Hg6|].
    intros fd Hfd. rewrite !register_all_lookup, lookup_empty by done. by case_decide.
Qed.

Lemma until_exit_None n os b : until_exit n os = (b, None) -> b = os.
Proof.
  revert n b. induction os as [|o os IH]; intros n b; cbn [until_exit]; [by intros [= <-]|].
  destruct (option_exit n o); [done|]. destruct (until_exit _ os) as [b' r] eqn:Eu.
  intros [= <- ->]. f_equal. by eapply IH.
Qed.

(** [main] before the command line: the standard input closed, and the handler
    of SIGTERM, which may be refused. *)
Definition signal_handler (s : io E) : bool * E := os_signal SIGTERM (os_close 0 (io_os s)).
Definition process1 (s : io E) : world E :=
  process0 (Io (signal_handler s).2 (io_errno s) (EvClose 0 :: io_trace s)).

(** The process with the tables of the command line and the token of the
    environment. *)
Definition configuration (os : list opt) (s : io E) : world E :=
  let w := configured os (process1 s) in
  match os_getenv TOKEN_VAR (io_os (w_io w)) with
  | Some t => lput tokens_lens (accept_token (w_tokens w) t) w
  | None => w
  end.

(** What the start of the server results in: the status of the first thing that
    fails, or the loop. *)
Inductive started (args : list (list byte)) (s : io E) : ctl unit -> world E -> Prop :=
| st_signal w' : (signal_handler s).1 = false -> started args s (Exit 1) w'
| st_option os operands before k w' :
    (signal_handler s).1 = true -> getopt_all optstring (Some long_options) args = (os, operands) ->
    until_exit 0 os = (before, Some k) -> started args s (Exit k) w'
| st_operands os operands w' :
    (signal_handler s).1 = true -> getopt_all optstring (Some long_options) args = (os, operands) ->
    until_exit 0 os = (os, None) -> operands <> [] -> started args s (Exit 1) w'
| st_not_serving os k w' :
    (signal_handler s).1 = true -> getopt_all optstring (Some long_options) args = (os, []) ->
    until_exit 0 os = (os, None) ->
    not_serving (settings default_args os) (configuration os s) k -> started args s (Exit k) w'
| st_serving os w' :
    (signal_handler s).1 = true -> getopt_all optstring (Some long_options) args = (os, []) ->
    until_exit 0 os = (os, None) ->
    serving (settings default_args os) (configuration os s) w' -> started args s (Go tt) w'.

Definition tables_wf w : Prop := users_wf (w_users w) /\ tokens_wf (w_tokens w).

Lemma start_up_spec args (s : io E) :
  Forall no_NUL args -> (forall e t, os_getenv TOKEN_VAR e = Some t -> no_NUL t) ->
  pwp (start_up args) (fun u w' => started args s (Go u) w' /\ tables_wf w')
    (fun k w' => started args s (Exit k) w' /\ tables_wf w') (process0 s).
Proof.
  intros Ha Henv.
  assert (Hu0 : users_wf []) by (split_and!; [unfold MAX_USERS; simpl; lia|constructor|constructor]).
  assert (Ht0 : tokens_wf []) by (split; [unfold MAX_TOKENS; simpl; lia|constructor]).
  unfold start_up. apply pwp_bind, pwp_call. eapply wp_Done; [reflexivity|].
  apply pwp_bind, pwp_call, wp_sys. unfold wp.
  change (os_signal SIGTERM (io_os (w_io _))) with (signal_handler s).
  destruct (signal_handler s) as [ok e2] eqn:Es.
  assert (Hok : (signal_handler s).1 = ok) by (by rewrite Es). assert (He : (signal_handler s).2 = e2) by (by rewrite Es).
  destruct ok; cbn [negb]; [|apply pwp_exit; split; [by apply st_signal|done]].
  set (w2 := lput io_lens _ _). assert (E2 : w2 = process1 s) by (unfold process1; by rewrite He). rewrite E2.
  clear w2 E2 Es He. apply pwp_bind.
  pose proof (parse_args_spec args (process1 s) Ha Hu0 Ht0) as Hp.
  destruct (getopt_all optstring (Some long_options) args) as [os operands] eqn:Eg.
  destruct (until_exit 0 os) as [b [k|]] eqn:Eu; unfold pwp at 1; destruct Hp as (-> & Hu3 & Ht3).
  { split; [by eapply st_option|done]. }
  pose proof (until_exit_None _ _ _ Eu) as ->. destruct operands as [|x operands].
  2: { split; [by eapply st_operands|done]. }
  set (w3 := configured os (process1 s)) in *. apply pwp_bind, pwp_call, wp_gets, pwp_bind, pwp_call.
  assert (Htok : wp (match os_getenv TOKEN_VAR (io_os (w_io w3)) with
      | Some t => add_token_arg t;; mret tt | None => mret tt end)
      (fun _ w4 => w4 = configuration os s /\ tables_wf w4) w3).
  { unfold configuration. fold w3. destruct (os_getenv TOKEN_VAR _) as [t|] eqn:Et; [|by apply wp_ret].
    apply Henv in Et. destruct (add_token_arg_spec t w3 Et) as (ok & Ea). apply wp_bind. eapply wp_Done; [exact Ea|].
    apply wp_ret. split_and!; [done|]. split; [done|]. by apply tokens_wf_snoc. }
  eapply wp_mono; [exact Htok|]. intros [] w4 (-> & Hu4 & Hk4).
  pose proof (pwp_open_services (settings default_args os) (configuration os s)) as Ho. unfold pwp in Ho |- *.
  destruct (open_services _ _) as [[[k|[]] w5]|]; [| |done].
  - destruct Ho as (Hn & E1 & E2). split; [by eapply st_not_serving|]. split; by rewrite ?E1, ?E2.
  - split; [by eapply st_serving|]. destruct (sv_tables _ _ _ Ho) as (_ & E1 & E2 & _). split; by rewrite ?E1, ?E2.
Qed.

(** C8. The start of the server on every kernel and command line never faults.
    It ends the process with the status of what stopped it: 1 when the handler of
    SIGTERM is refused, the status of the option or operand that
    [parse_args_correct] describes, 2 when no socket of the proxy could be set
    up, 3 when there is no memory for the selector. Otherwise it reaches the loop
    with the tables of the command line and the token of the environment; every
    end point of the proxy was tried, and, exactly when a token was accepted,
    every one of the management service; every socket bound is at an address and
    port of those; at least one is the proxy's; and the selector holds, each for
    reading with the handler of its service, all the sockets of the proxy that
    were set up, all those of the management for which the second [listen]
    succeeds, and nothing else. *)
Theorem start_up_correct (args : list (list byte)) (s : io E) :
  Forall no_NUL args -> (forall e t, os_getenv TOKEN_VAR e = Some t -> no_NUL t) ->
  exists r w', start_up args (process0 s) = Done (r, w') /\ started args s r w' /\ tables_wf w'.
Proof.
  intros Ha Henv. destruct (pwp_inv _ _ _ _ (start_up_spec args s Ha Henv)) as (r & w' & Er & Hr).
  exists r, w'. split; [done|]. by destruct r as [k|u].
Qed.
End StartUp.

(** ** A scripted start *)

#[global] Instance script_proc : ProcOS script := {|
  os_signal n e := (true, e);
  os_getenv v e := None;
  os_sigprocmask n e := (Ok tt, e);
  os_sigaction n e := (Ok tt, e);
  os_pselect n r w e := (Err EINTR, e);
  os_terminated e := true
|}.

Lemma start_up_correct_witness :
  let args := [lit "-p"; lit "9090"; lit "-t"; lit "secret"] in
  let s := Io (Script [] 64 3) 0 [] in
  Forall no_NUL args /\
  exists w', start_up args (process0 s) = Done (Go tt, w') /\ w_tokens w' = [lit "secret"] /\
    look (w_sel w') 3 = Some (to_item 3 (listener H_master)) /\
    look (w_sel w') 6 = Some (to_item 6 (listener H_monitor)).
Proof.
  intros args s. assert (H1 : Forall no_NUL args) by (repeat constructor; discriminate).
  assert (H2 : forall (e : script) t, os_getenv TOKEN_VAR e = Some t -> no_NUL t) by (intros e t; discriminate).
  split; [exact H1|].
  destruct (@start_up_correct script script_os script_laws script_net script_proc args s H1 H2)
    as (r & w' & Er & _). exists w'.
  assert (Hc : match start_up args (process0 s) with
               | Done (Go _, w') => Some (w_tokens w', look (w_sel w') 3, look (w_sel w') 6)
               | _ => None end
             = Some ([lit "secret"], Some (to_item 3 (listener H_master)), Some (to_item 6 (listener H_monitor))))
    by (vm_compute; reflexivity).
  rewrite Er in Hc |- *. destruct r as [k|[]]; [discriminate|].
  injection Hc as Ht Hl3 Hl6. split; [reflexivity|]. split; [exact Ht|]. split; [exact Hl3|exact Hl6].
Defined.
