(* ===== verification/Admin.v ===== *)
(** * Admin: the management client, client/src/mgmt_client_util.c, conf.c and
    mgmt_client.c

    A separate program: it connects to the management port, presents the token
    and runs the commands its options ask for. Its state is the kernel, the
    static array [response_buf] and what it has printed on the standard output;
    [request_buf] is only read by the call that follows its [snprintf], and what
    goes to the standard error is not modelled. *)

From S2P Require Import Prelude Os SocketsIO CLib Args.

Local Open Scope Z_scope.

Definition MAX_RESPONSE_LEN : nat := 512.
Definition EOL : list byte := CRLF.
Definition EOM : list byte := EOL ++ lit "." ++ EOL.

(** [enum MgmtCommands] *)
Inductive MgmtCommands :=
| CMD_CAPA | CMD_TOKEN | CMD_STATS | CMD_USERS | CMD_BUFFSIZE | CMD_DISSECTOR_STATUS
| CMD_SET_BUFFSIZE | CMD_SET_DISSECTOR_STATUS | CMD_ADD_USER.

(** [commands_format], with [arg] printed for the [%s] of those that have it. *)
Definition commands_format (c : MgmtCommands) (arg : list byte) : list byte :=
  match c with
  | CMD_CAPA => lit "CAPA" ++ EOL
  | CMD_TOKEN => lit "TOKEN " ++ arg ++ EOL
  | CMD_STATS => lit "STATS" ++ EOL
  | CMD_USERS => lit "USERS" ++ EOL
  | CMD_BUFFSIZE => lit "BUFFSIZE" ++ EOL
  | CMD_DISSECTOR_STATUS => lit "DISSECTOR-STATUS" ++ EOL
  | CMD_SET_BUFFSIZE => lit "SET-BUFFSIZE " ++ arg ++ EOL
  | CMD_SET_DISSECTOR_STATUS => lit "SET-DISSECTOR-STATUS " ++ arg ++ EOL
  | CMD_ADD_USER => lit "ADD-USER " ++ arg ++ EOL
  end.

(** What [snprintf] leaves in [request_buf]. *)
Definition request_text (c : MgmtCommands) (arg : list byte) : list byte :=
  take (MAX_RESPONSE_LEN - 1) (commands_format c arg).

(** [buff] holds a string. *)
Definition finished (buff : list byte) (multiline : bool) : outcome bool :=
  c ← mem_get buff 0;
  let multiline := if bool_decide (c = DASH) then false else multiline in
  if decide (NUL ∈ buff) then mret (strstr (cstr buff) (if multiline then EOM else EOL))
  else Fault Undefined.

(** The resolver by service name. *)
Class ResolverOS (E : Type) := {
  os_lookup : list byte -> list byte -> E -> option (list sockaddr) * E;
  os_env : list byte -> E -> option (list byte)
}.

Record console (E : Type) := Console {
  co_io : io E;
  response_buf : list byte;     (** char [MAX_RESPONSE_LEN] *)
  co_out : list byte            (** the standard output *)
}.
Arguments Console {E} _ _ _.
Arguments co_io {E} _.
Arguments response_buf {E} _.
Arguments co_out {E} _.

(** [putchar('\n')] and the ends of [printf]. *)
Definition NL : list byte := [LF].
Definition rule_line : list byte := lit "----------------------------" ++ NL.

Section Admin.
Context {E : Type} `{OS E} `{ResolverOS E}.

Definition con_io : lens (console E) (io E) :=
  Lens co_io (fun v s => Console v (response_buf s) (co_out s)).
Definition sysc {A} (m : M (io E) A) : M (console E) A := zoom con_io m.

Definition say (text : list byte) : M (console E) unit :=
  modify (fun s => Console (co_io s) (response_buf s) (co_out s ++ text)).
Definition set_response (m : list byte) : M (console E) unit :=
  modify (fun s => Console (co_io s) m (co_out s)).

(** ** Requests and responses *)

(** The loop of [get_response] with [write_ptr] at [off]. The count of [read]
    is stored in a [uint8_t]: it is taken modulo 256, a failure becomes 255. *)
Fixpoint get_response_from (fuel : nat) (sock : Z) (off len : nat) (multiline : bool)
    : M (console E) bool :=
  match fuel with
  | O => mfault Diverge
  | S fuel' =>
      r ← sysc (sys_read sock (len - off));
      buff ← gets response_buf;
      '(bytes_read, buff) ←
        lift match r with
             | Some l => m ← mem_write buff off l; mret (wrap 8 (Z.of_nat (length l)), m)
             | None => mret (wrap 8 (-1), buff)
             end;
      set_response buff;;
      if bytes_read <=? 0 then mret false
      else
        let off := (off + Z.to_nat bytes_read)%nat in
        buff ← lift (mem_write buff off [NUL]);
        set_response buff;;
        fin ← lift (finished buff multiline);
        if (fin : bool) then mret true else get_response_from fuel' sock off len multiline
  end.

(** Every round moves [write_ptr], which stays inside the array. *)
Definition get_response (sock : Z) (multiline : bool) : M (console E) bool :=
  get_response_from MAX_RESPONSE_LEN sock 0 MAX_RESPONSE_LEN multiline.

(** [text] is the string sent, whole or in part. *)
Definition send_text (sock : Z) (text : list byte) : M (console E) bool :=
  r ← sysc (sys_send sock text);
  mret (bool_decide (is_Some r)).

(** Sending a request and reading its answer; [None] when either fails, else
    whether the answer is positive. *)
Definition is_error : M (console E) bool :=
  buff ← gets response_buf;
  c ← lift (mem_get buff 0);
  mret (bool_decide (c = DASH)).

Definition transact (sock : Z) (text : list byte) (multiline : bool) : M (console E) bool :=
  ok ← send_text sock text;
  if negb ok then mret false
  else
    ok ← get_response sock multiline;
    if negb ok then mret false
    else
      err ← is_error;
      mret (negb err).

(** ** Connecting *)

Fixpoint try_addresses (addrs : list sockaddr) : M (console E) Z :=
  match addrs with
  | [] => mret (-1)
  | addr :: addrs' =>
      sock ← sysc (sys_socket (sa_family addr));
      match sock with
      | None => try_addresses addrs'
      | Some sock =>
          r ← sysc (sys_connect sock addr);
          match r with
          | Some _ => mret sock
          | None => sysc (sys_close sock);; try_addresses addrs'
          end
      end
  end.

Definition tcpClientSocket (host service : list byte) : M (console E) Z :=
  r ← sysc (fun s => let '(r, e) := os_lookup host service (io_os s) in
                     Done (r, Io e (io_errno s) (io_trace s)));
  match r with
  | None => mret (-1)
  | Some addrs => try_addresses addrs
  end.

Definition read_hello (sock : Z) : M (console E) bool :=
  ok ← get_response sock false;
  if negb ok then mret false
  else
    err ← is_error;
    if (err : bool) then mret false
    else say (lit "Connection successful! Server is ready." ++ NL);; mret true.

(** ** Printing the answers *)

(** [strtok(NULL, EOL)], or the first call with [p] = 0: the token's position
    and the position of the next call. *)
Definition next_token (p : nat) : M (console E) (option nat * nat) :=
  buff ← gets response_buf;
  '(tok, buff, p) ← lift (strtok EOL buff p);
  set_response buff;;
  mret (tok, p).

(** The string at a position of [response_buf]. *)
Definition string_at (q : nat) : M (console E) (list byte) :=
  buff ← gets response_buf;
  if decide (NUL ∈ drop q buff) then mret (cstr (drop q buff)) else mfault Undefined.

(** [tok != NULL && tok[0] != '.'] *)
Definition more_lines (tok : option nat) : M (console E) bool :=
  match tok with
  | None => mret false
  | Some q =>
      buff ← gets response_buf;
      c ← lift (mem_get buff q);
      mret (negb (bool_decide (c = Byte.x2e)))
  end.

(** The loop over the lines after the first; [show] prints one of them. *)
Fixpoint each_line (fuel : nat) (show : Z -> list byte -> list byte) (i : Z) (tok : option nat) (p : nat)
    : M (console E) unit :=
  match fuel with
  | O => mfault Diverge
  | S fuel' =>
      more ← more_lines tok;
      match more, tok with
      | true, Some q =>
          line ← string_at q;
          say (show i line);;
          '(tok, p) ← next_token p;
          each_line fuel' show (i + 1) tok p
      | _, _ => mret tt
      end
  end.

(** Two calls of [strtok] and the loop; a token takes at least two bytes. *)
Definition all_lines (show : Z -> list byte -> list byte) : M (console E) unit :=
  '(_, p) ← next_token 0;
  '(tok, p) ← next_token p;
  each_line MAX_RESPONSE_LEN show 0 tok p.

Definition simple_line (line_header : list byte) (i : Z) (tok : list byte) : list byte :=
  line_header ++ lit " #" ++ dec i ++ lit ": " ++ tok ++ NL.

Definition simple_iteration (line_header : list byte) : M (console E) unit :=
  all_lines (simple_line line_header).

Definition stat_line (_ : Z) (tok : list byte) : list byte :=
  let stat := dec (strtoull (tail tok)) in
  match tok with
  | c :: _ =>
      if Zb c =? 66 (* B *) then lit "Bytes transferred: " ++ stat ++ NL
      else if Zb c =? 72 (* H *) then lit "Historical connections: " ++ stat ++ NL
      else if Zb c =? 67 (* C *) then lit "Concurrent connections: " ++ stat ++ NL
      else []
  | [] => []
  end.

(** The second line of an answer; a missing one is read through a null
    pointer. *)
Definition second_line : M (console E) (list byte) :=
  '(_, p) ← next_token 0;
  '(tok, _) ← next_token p;
  match tok with
  | None => mfault Undefined
  | Some q => string_at q
  end.

(** ** Commands *)

Definition capa (sock : Z) : M (console E) bool :=
  ok ← transact sock (commands_format CMD_CAPA []) true;
  if negb ok then mret false
  else
    say (rule_line ++ lit "List of capabilities:" ++ NL);;
    simple_iteration (lit "CAPA");;
    say (rule_line ++ NL);;
    mret true.

Definition authenticate (sock : Z) (token : list byte) : M (console E) bool :=
  ok ← transact sock (request_text CMD_TOKEN token) false;
  if negb ok then mret false
  else
    say (lit "Authentication with token: " ++ [Byte.x22] ++ token ++ [Byte.x22] ++ lit " successful!" ++ NL);;
    mret true.

Definition stats (sock : Z) : M (console E) bool :=
  ok ← transact sock (commands_format CMD_STATS []) true;
  if negb ok then mret false
  else
    say (rule_line ++ lit "List of statistics:" ++ NL);;
    all_lines stat_line;;
    say (rule_line ++ NL);;
    mret true.

Definition users (sock : Z) : M (console E) bool :=
  ok ← transact sock (commands_format CMD_USERS []) true;
  if negb ok then mret false
  else
    say (rule_line ++ lit "List of users:" ++ NL);;
    simple_iteration (lit "USER");;
    say (rule_line ++ NL);;
    mret true.

Definition buffsize (sock : Z) : M (console E) bool :=
  ok ← transact sock (commands_format CMD_BUFFSIZE []) true;
  if negb ok then mret false
  else
    say rule_line;;
    tok ← second_line;
    say (lit "Current size of the buffer: " ++ dec (strtoull tok) ++ NL);;
    say (rule_line ++ NL);;
    mret true.

Definition dissector_status (sock : Z) : M (console E) bool :=
  ok ← transact sock (commands_format CMD_DISSECTOR_STATUS []) true;
  if negb ok then mret false
  else
    say rule_line;;
    tok ← second_line;
    say (lit "We are " ++ (if streq tok (lit "off") then lit "not " else []) ++ lit "sniffing" ++ NL);;
    say (rule_line ++ NL);;
    mret true.

Definition set_buffsize (sock : Z) (size : list byte) : M (console E) bool :=
  ok ← transact sock (request_text CMD_SET_BUFFSIZE size) false;
  if negb ok then mret false
  else
    say (rule_line ++ lit "Buffer size updated to " ++ size ++ NL ++ rule_line ++ NL);;
    mret true.

Definition set_dissector_status (sock : Z) (status : list byte) : M (console E) bool :=
  ok ← transact sock (request_text CMD_SET_DISSECTOR_STATUS status) false;
  if negb ok then mret false
  else
    say (rule_line ++ lit "Dissector is now " ++ status ++ NL ++ rule_line ++ NL);;
    mret true.

Definition add_user (sock : Z) (username_password : list byte) : M (console E) bool :=
  ok ← transact sock (request_text CMD_ADD_USER username_password) false;
  if negb ok then mret false
  else
    say (rule_line ++ lit "Successfully added user to the list of users." ++ NL ++ rule_line ++ NL);;
    mret true.

(** ** Command line *)

Definition ARGUMENTS : list byte := lit ":hvL:P:012345:6:7:".
Definition TOKEN_ENV_VAR : list byte := lit "TOKEN".

Record mnmt_conf := MnmtConf { conf_addr : list byte; conf_port : list byte; conf_token : option (list byte) }.

(** [*optarg == '-'] *)
Definition dashed (s : list byte) : bool :=
  match s with c :: _ => bool_decide (c = DASH) | [] => false end.

(** The [switch] of [parse_conf]; [None] is [return false]. *)
Definition conf_option (o : opt) (conf : mnmt_conf) : Prog (console E) (option mnmt_conf) :=
  let c := o.1 in
  if (c =? 104) || (c =? 118) (* h, v *) then exit_with 0
  else if c =? 76 (* L *) then
    s ← call_M (lift (of_option Undefined o.2));
    mret (if dashed s then None else Some (MnmtConf s (conf_port conf) (conf_token conf)))
  else if c =? 80 (* P *) then
    s ← call_M (lift (of_option Undefined o.2));
    mret (if dashed s then None else Some (MnmtConf (conf_addr conf) s (conf_token conf)))
  else if (48 <=? c) && (c <=? 55) (* 0 .. 7 *) then mret (Some conf)
  else mret None.

Fixpoint conf_options (os : list opt) (conf : mnmt_conf) : Prog (console E) (option mnmt_conf) :=
  match os with
  | [] => mret (Some conf)
  | o :: os' =>
      r ← conf_option o conf;
      match r with None => mret None | Some conf => conf_options os' conf end
  end.

Definition parse_conf (args : list (list byte)) (conf : mnmt_conf) : Prog (console E) (option mnmt_conf) :=
  let '(os, operands) := getopt_all ARGUMENTS None args in
  r ← conf_options os conf;
  match r with
  | None => mret None
  | Some conf =>
      env_token ← call_M (gets (fun s => os_env TOKEN_ENV_VAR (io_os (co_io s))));
      mret (match env_token, operands with
            | Some t, _ => Some (MnmtConf (conf_addr conf) (conf_port conf) (Some t))
            | None, t :: _ => Some (MnmtConf (conf_addr conf) (conf_port conf) (Some t))
            | None, [] => None
            end)
  end.

(** ** main *)

(** An option that takes an argument; [false] ends the loop with status 1. *)
Definition with_argument (o : opt) (f : list byte -> M (console E) bool) : M (console E) bool :=
  s ← lift (of_option Undefined o.2);
  if dashed s then mret false else f s;; mret true.

Definition run_option (sock : Z) (o : opt) : M (console E) bool :=
  let c := o.1 in
  if c =? 48 then capa sock;; mret true
  else if c =? 49 then stats sock;; mret true
  else if c =? 50 then users sock;; mret true
  else if c =? 51 then buffsize sock;; mret true
  else if c =? 52 then dissector_status sock;; mret true
  else if c =? 53 then with_argument o (set_buffsize sock)
  else if c =? 54 then with_argument o (set_dissector_status sock)
  else if c =? 55 then with_argument o (add_user sock)
  else mret true.

Fixpoint run_options (sock : Z) (os : list opt) : M (console E) bool :=
  match os with
  | [] => mret true
  | o :: os' =>
      ok ← run_option sock o;
      if (ok : bool) then run_options sock os' else mret false
  end.

(** The label [finally]. *)
Definition finally (sock : Z) (exit_status : Z) : M (console E) Z :=
  sysc (sys_close sock);; mret exit_status.

(** The first [getopt] loop moves the operands after the options, which does
    not change what the second one finds. *)
Definition client_main (args : list (list byte)) : Prog (console E) Z :=
  conf ← parse_conf args (MnmtConf (lit "127.0.0.1") (lit "8080") None);
  match conf with
  | None => call_M (finally 0 1)
  | Some conf =>
      call_M (
        sock ← tcpClientSocket (conf_addr conf) (conf_port conf);
        if sock <? 0 then finally sock 1
        else
          say (rule_line ++ lit "CONNECTING TO SERVER" ++ NL);;
          ok ← read_hello sock;
          if negb ok then finally sock 1
          else
            say (rule_line ++ NL ++ rule_line ++ lit "AUTHENTICATING WITH TOKEN" ++ NL);;
            ok ← match conf_token conf with
                 | Some t => authenticate sock t
                 | None => mfault Undefined
                 end;
            if negb ok then finally sock 1
            else
              say (rule_line ++ NL);;
              ok ← run_options sock (getopt_all ARGUMENTS None args).1;
              if (ok : bool) then say (lit "OK!" ++ NL ++ NL);; finally sock 0
              else finally sock 1)
  end.
End Admin.
