(* ===== verification/AdminSpec.v ===== *)
(** * AdminSpec: the management client against the server

    The requests the client writes are the requests the server's grammar reads,
    with the command and argument meant, apart from the query of the dissector
    and from tokens with blanks; AdminReplies has the way back. [perform] of MgmtSpec stands for the server: the loop of
    [processMgmtClient] is shown there to answer as it says. *)

From S2P Require Import Prelude Os SocketsIO State Users Tokens MgmtProtocol LexerCode Lexer Regex LexerRules.
From S2P Require Import LexerCheck LexerSpec World Mgmt MgmtSpec CLib Args Admin.

(** ** Requests *)

Definition visible (c : byte) : Prop := (33 <= Zb c <= 127)%Z.

(** The arguments a command can carry: a token or the credentials of a user are
    not empty and have no blank or control character, a size is a number, a
    switch is one of two words, and the other commands take none. *)
Definition carries (c : MgmtCommands) (arg : list byte) : Prop :=
  match c with
  | CMD_TOKEN | CMD_ADD_USER => arg <> [] /\ Forall visible arg
  | CMD_SET_BUFFSIZE => arg <> [] /\ Forall (fun d => isdigit d = true) arg
  | CMD_SET_DISSECTOR_STATUS => arg = lit "on" \/ arg = lit "off"
  | CMD_CAPA | CMD_STATS | CMD_USERS | CMD_BUFFSIZE | CMD_DISSECTOR_STATUS => arg = []
  end.

(** What the server's grammar takes each of them for. The rule for the state of
    the dissector asks for a blank that the client does not send. *)
Definition server_command (c : MgmtCommands) : MgmtCommand :=
  match c with
  | CMD_CAPA => MGMT_CAPA
  | CMD_TOKEN => MGMT_TOKEN
  | CMD_STATS => MGMT_STATS
  | CMD_USERS => MGMT_USERS
  | CMD_BUFFSIZE => MGMT_GET_BUFFSIZE
  | CMD_DISSECTOR_STATUS => MGMT_INVALID_CMD
  | CMD_SET_BUFFSIZE => MGMT_SET_BUFFSIZE
  | CMD_SET_DISSECTOR_STATUS => MGMT_SET_DISSECTOR_STATUS
  | CMD_ADD_USER => MGMT_ADD_USER
  end.

(** The stage of the connection in which the client sends a command: the token
    first, the others once authenticated. *)
Definition stage (c : MgmtCommands) : Z := match c with CMD_TOKEN => yycpass | _ => yyctrns end.

Definition fits (c : MgmtCommands) (arg : list byte) : Prop :=
  length (commands_format c arg) < MAX_RESPONSE_LEN.

Lemma request_whole c arg : fits c arg -> request_text c arg = commands_format c arg.
Proof. intros Hf. apply take_ge. unfold fits in Hf. lia. Qed.

(** *** Matching *)

Lemma matches_run r u :
  nullable (fold_left (fun r c => deriv (Zb c) r) u r) = true -> matches r u.
Proof.
  revert r. induction u as [|c u IH]; intros r Hn; [by apply nullable_spec|].
  apply deriv_spec. by apply IH.
Qed.

Lemma matches_plus rs l :
  l <> [] -> Forall (fun c => in_ranges (Zb c) rs = true) l -> matches (Plus (Chr rs)) l.
Proof.
  intros Hne Hall. destruct l as [|c l]; [done|]. inversion Hall as [|? ? Hc Hl]; subst.
  change (c :: l) with ([c] ++ l). apply m_seq; [by constructor|]. clear -Hl.
  induction Hl as [|c l Hc _ IH]; [constructor|]. change (c :: l) with ([c] ++ l).
  apply m_star_app; [by constructor|done].
Qed.

(** The first rule whose predecessors are ruled out by the beginning of the
    text. *)
Lemma first_match_split rs1 r c rs2 pre v :
  run_rules rs1 pre = [] -> matches r (pre ++ v) -> first_match (rs1 ++ (r, c) :: rs2) (pre ++ v) c.
Proof.
  intros Hrun Hm.
  assert (Hno : ~ matched rs1 (pre ++ v)) by (intros Hv; by apply viable_run in Hv). clear Hrun.
  induction rs1 as [|[r' c'] rs1 IH]; cbn [app first_match]; [by left|]. right. split.
  - intros Hr. apply Hno. by apply Exists_cons_hd.
  - apply IH. intros Hex. apply Hno. by apply Exists_cons_tl.
Qed.

Lemma matches_with_arg name kw a arg cmd :
  nullable (fold_left (fun r c => deriv (Zb c) r) kw (iword name)) = true -> matches a arg ->
  matches (with_arg name a cmd).1 (kw ++ lit " " ++ arg ++ CRLF).
Proof.
  intros Hk Ha. unfold with_arg. cbn [fst].
  replace (kw ++ lit " " ++ arg ++ CRLF) with ((kw ++ lit " " ++ arg ++ []) ++ CRLF)
    by (by rewrite app_nil_r, <- !app_assoc).
  apply m_seq; [|by apply matches_run]. apply m_seq; [by apply matches_run|].
  apply m_seq; [by apply matches_run|]. apply m_seq; [done|constructor].
Qed.

Lemma first_match_with_arg cond rs1 name a cmd rs2 kw arg :
  rules cond = rs1 ++ with_arg name a cmd :: rs2 -> run_rules rs1 kw = [] ->
  nullable (fold_left (fun r c => deriv (Zb c) r) kw (iword name)) = true -> matches a arg ->
  first_match (rules cond) (kw ++ lit " " ++ arg ++ CRLF) cmd.
Proof. intros -> Hrun Hk Ha. apply first_match_split; [done|]. by apply (matches_with_arg name kw a arg cmd). Qed.

Lemma visible_arg arg : arg <> [] -> Forall visible arg -> matches LexerRules.arg arg.
Proof.
  intros Hne Hall. apply matches_plus; [done|]. eapply Forall_impl; [exact Hall|].
  intros c Hc. unfold visible in Hc. unfold in_ranges. cbn [existsb].
  rewrite orb_false_r. apply andb_true_iff. split; apply Z.leb_le; lia.
Qed.

Lemma digits_arg arg : arg <> [] -> Forall (fun d => isdigit d = true) arg -> matches numarg arg.
Proof.
  intros Hne Hall. apply matches_plus; [done|]. eapply Forall_impl; [exact Hall|].
  intros c Hc. unfold in_ranges. cbn [existsb]. by rewrite orb_false_r.
Qed.

Lemma digit_visible c : isdigit c = true -> visible c.
Proof. unfold isdigit, visible. intros H. tests. lia. Qed.

(** The argument between the blank and the end of the line. *)
Lemma argument_here kw arg :
  BLANK ∉ kw -> arg <> [] -> Forall visible arg ->
  argument (kw ++ lit " " ++ arg ++ CRLF) arg (length (kw ++ lit " ")).
Proof.
  intros Hk Hne Hall. exists kw, (lit " "), CR, [LF]. split_and!; try done.
  - by repeat constructor.
  - eapply Forall_impl; [exact Hall|]. intros c Hc [->| ->]; unfold visible in Hc;
      [change (Zb BLANK) with 32%Z in Hc | change (Zb CR) with 13%Z in Hc]; lia.
  - by right.
Qed.

Lemma next_request_arg cond kw arg cmd rest :
  has_arg cmd = true -> BLANK ∉ kw -> arg <> [] -> Forall visible arg ->
  first_match (rules cond) (kw ++ lit " " ++ arg ++ CRLF) cmd ->
  next_request cond ((kw ++ lit " " ++ arg ++ CRLF) ++ rest) (length (kw ++ lit " " ++ arg ++ CRLF)) cmd arg.
Proof.
  intros Hh Hk Hne Hall Hm.
  apply (nr_match cond _ _ cmd arg (length (kw ++ lit " "))); [rewrite (length_app _ rest); lia|..]; rewrite take_app_length; [done|].
  rewrite Hh. by apply argument_here.
Qed.

Lemma next_request_plain cond u cmd rest :
  has_arg cmd = false -> accepted (run_rules (rules cond) u) = Some cmd ->
  next_request cond (u ++ rest) (length u) cmd [].
Proof.
  intros Hh Hm. apply accepted_run in Hm.
  apply (nr_match cond _ _ cmd [] 0); [rewrite (length_app _ rest); lia|..]; rewrite take_app_length; [done|].
  by rewrite Hh.
Qed.

Lemma request_understood c arg rest :
  carries c arg ->
  next_request (stage c) (commands_format c arg ++ rest) (length (commands_format c arg)) (server_command c) arg.
Proof.
  destruct c; cbn [carries commands_format stage server_command]; unfold EOL.
  - intros ->. apply next_request_plain; vm_compute; reflexivity.
  - intros [Hne Hv]. change (lit "TOKEN " ++ arg ++ CRLF) with (lit "TOKEN" ++ lit " " ++ arg ++ CRLF).
    apply next_request_arg; [done|vm_compute; set_solver|done|done|].
    apply (first_match_with_arg yycpass [] (lit "token") LexerRules.arg _ common_rules);
      [reflexivity|vm_compute; reflexivity|vm_compute; reflexivity|by apply visible_arg].
  - intros ->. apply next_request_plain; vm_compute; reflexivity.
  - intros ->. apply next_request_plain; vm_compute; reflexivity.
  - intros ->. apply next_request_plain; vm_compute; reflexivity.
  - intros ->. apply next_request_plain; vm_compute; reflexivity.
  - intros [Hne Hd].
    change (lit "SET-BUFFSIZE " ++ arg ++ CRLF) with (lit "SET-BUFFSIZE" ++ lit " " ++ arg ++ CRLF).
    apply next_request_arg; [done|vm_compute; set_solver|done|eapply Forall_impl; [exact Hd|apply digit_visible]|].
    apply (first_match_with_arg yyctrns (take 3 trns_rules) (lit "set-buffsize") numarg _ (drop 4 trns_rules));
      [reflexivity|vm_compute; reflexivity|vm_compute; reflexivity|by apply digits_arg].
  - intros Ho. change (lit "SET-DISSECTOR-STATUS " ++ arg ++ CRLF)
      with (lit "SET-DISSECTOR-STATUS" ++ lit " " ++ arg ++ CRLF).
    apply next_request_arg; [done|vm_compute; set_solver|by destruct Ho as [->| ->]| |].
    + destruct Ho as [->| ->]; repeat constructor; vm_compute; done.
    + destruct Ho as [->| ->]; apply accepted_run; vm_compute; reflexivity.
  - intros [Hne Hv]. change (lit "ADD-USER " ++ arg ++ CRLF) with (lit "ADD-USER" ++ lit " " ++ arg ++ CRLF).
    apply next_request_arg; [done|vm_compute; set_solver|done|done|].
    apply (first_match_with_arg yyctrns (take 6 trns_rules) (lit "add-user") LexerRules.arg _ (drop 7 trns_rules));
      [reflexivity|vm_compute; reflexivity|vm_compute; reflexivity|by apply visible_arg].
Qed.

(** *** Tokens with blanks *)

(** A blank between two other characters, and no control character. *)
Definition spaced (token : list byte) : Prop :=
  exists x z v y, token = x ++ (BLANK :: z) ++ v :: y /\ x <> [] /\ Forall visible x /\
    Forall (fun c => c = BLANK) z /\ visible v /\ Forall (fun c => (32 <= Zb c <= 127)%Z) y.

(** The rules still alive in the word, in the blanks after it, and once a second
    word begins: only those of an invalid command. *)
Definition in_word : list rule := run_rules pass_rules (lit "TOKEN A").
Definition after_word : list rule := run_rules pass_rules (lit "TOKEN A ").
Definition second_word : list rule := run_rules pass_rules (lit "TOKEN A B").

Definition keeps (lo : Z) (rs rs' : list rule) (c : byte) : bool :=
  negb ((lo <=? Zb c) && (Zb c <=? 127))%Z || bool_decide (step_rules (Zb c) rs = rs').

Lemma keeps_step lo rs rs' c :
  forallb (keeps lo rs rs') all_bytes = true -> (lo <= Zb c <= 127)%Z -> step_rules (Zb c) rs = rs'.
Proof.
  intros Hall Hc. pose proof (forall_bytes _ Hall c) as Hk. unfold keeps in Hk.
  rewrite (proj2 (Z.leb_le lo (Zb c))), (proj2 (Z.leb_le (Zb c) 127)) in Hk by lia. by apply bool_decide_eq_true in Hk.
Qed.

Lemma run_keeps lo rs l :
  forallb (keeps lo rs rs) all_bytes = true -> Forall (fun c => (lo <= Zb c <= 127)%Z) l -> run_rules rs l = rs.
Proof.
  intros Hall. induction 1 as [|c l Hc _ IH]; [done|]. unfold run_rules. cbn [fold_left].
  by rewrite (keeps_step _ _ _ _ Hall Hc).
Qed.

(** The line of such a token is an invalid command. *)
Lemma spaced_token_line token :
  spaced token -> first_match (rules yycpass) (commands_format CMD_TOKEN token) MGMT_INVALID_CMD.
Proof.
  intros (x & z & v & y & -> & Hx & Hvx & Hz & Hv & Hy). apply accepted_run. cbn [commands_format].
  destruct x as [|c x]; [done|]. inversion Hvx as [|? ? Hc Hvx']; subst. unfold visible in *.
  replace (lit "TOKEN " ++ ((c :: x) ++ (BLANK :: z) ++ v :: y) ++ EOL)
    with (lit "TOKEN " ++ [c] ++ x ++ [BLANK] ++ z ++ [v] ++ y ++ EOL)
    by (simpl; rewrite <- ?app_assoc; simpl; by rewrite <- ?app_assoc).
  rewrite !run_rules_app. change (run_rules (rules yycpass) (lit "TOKEN ")) with (run_rules pass_rules (lit "TOKEN ")).
  assert (E1 : run_rules (run_rules pass_rules (lit "TOKEN ")) [c] = in_word)
    by (apply (keeps_step 33); [vm_compute; reflexivity|done]).
  rewrite E1, (run_keeps 33 in_word) by (done || vm_compute; reflexivity).
  change (run_rules in_word [BLANK]) with after_word.
  assert (E2 : run_rules after_word z = after_word).
  { clear -Hz. induction Hz as [|b z -> _ IH]; [done|]. unfold run_rules. cbn [fold_left].
    replace (step_rules (Zb BLANK) after_word) with after_word; [exact IH|vm_compute; reflexivity]. }
  assert (E3 : run_rules after_word [v] = second_word) by (apply (keeps_step 33); [vm_compute; reflexivity|done]).
  rewrite E2, E3, (run_keeps 32 second_word) by (done || vm_compute; reflexivity). vm_compute. reflexivity.
Qed.

(** *** A text has one next request *)

Lemma argument_fun u a off a' off' : argument u a off -> argument u a' off' -> a = a'.
Proof.
  intros (kw & sp & d & rest & -> & _ & Hk & Hs & Hb & Ha & Hf & Hd)
         (kw' & sp' & d' & rest' & E & _ & Hk' & Hs' & Hb' & Ha' & Hf' & Hd').
  set (nb c := negb (bool_decide (c = BLANK))). set (bl c := bool_decide (c = BLANK)).
  set (nd c := negb (bool_decide (c = BLANK)) && negb (bool_decide (c = CR))).
  assert (S1 : forall kw sp a d rest, BLANK ∉ kw -> sp <> [] -> Forall (fun c => c = BLANK) sp -> a <> [] ->
    Forall (fun c => ~ delimiter c) a -> delimiter d ->
    span nd (span bl (span nb (kw ++ sp ++ a ++ d :: rest)).2).2 = (a, d :: rest)).
  { clear. intros kw sp a d rest Hk Hs Hb Ha Hf Hd. rewrite (span_app nb kw).
    - cbn [snd]. rewrite (span_app bl sp); cbn [snd].
      + apply span_app.
        * eapply Forall_impl; [exact Hf|]. intros c Hc. unfold nd, delimiter in *.
          rewrite !bool_decide_eq_false_2 by tauto. done.
        * unfold nd. destruct Hd as [->| ->]; done.
      + eapply Forall_impl; [exact Hb|]. intros c ->. done.
      + destruct a as [|c a]; [done|]. simpl. inversion Hf as [|? ? Hc _]; subst. unfold bl, delimiter in *.
        by apply bool_decide_eq_false_2; tauto.
    - apply Forall_forall. intros c Hc. unfold nb. rewrite bool_decide_eq_false_2; [done|]. by intros ->.
    - destruct sp as [|c sp]; [done|]. simpl. inversion Hb; subst. done. }
  pose proof (S1 kw sp a d rest Hk Hs Hb Ha Hf Hd) as E1.
  rewrite E, (S1 kw' sp' a' d' rest' Hk' Hs' Hb' Ha' Hf' Hd') in E1. congruence.
Qed.

Lemma next_request_fun cond t n cmd arg n' cmd' arg' :
  next_request cond t n cmd arg -> next_request cond t n' cmd' arg' -> n = n' /\ cmd = cmd' /\ arg = arg'.
Proof.
  intros H1 H2. destruct H1 as [n cmd arg off Hn Hm Ha|Hne Hv Hno], H2 as [n' cmd' arg' off' Hn' Hm' Ha'|Hne' Hv' Hno'].
  - assert (n = n') as <-.
    { pose proof (first_match_matched _ _ _ Hm) as M1. pose proof (first_match_matched _ _ _ Hm') as M2.
      destruct (Nat.le_ge_cases n n') as [Hle|Hle].
      - rewrite <- (take_drop n (take n' t)), take_take, Nat.min_l in M2 by done.
        pose proof (matched_prefix_free _ _ _ M1 M2) as E. apply (f_equal length) in E.
        rewrite length_drop, length_take in E. simpl in E. lia.
      - rewrite <- (take_drop n' (take n t)), take_take, Nat.min_l in M1 by done.
        pose proof (matched_prefix_free _ _ _ M2 M1) as E. apply (f_equal length) in E.
        rewrite length_drop, length_take in E. simpl in E. lia. }
    pose proof (first_match_fun _ _ _ _ Hm Hm') as <-. split_and!; [done|done|].
    destruct (has_arg cmd); [by eapply argument_fun|congruence].
  - destruct (Hno' n Hn). by eapply first_match_matched.
  - destruct (Hno n' Hn'). by eapply first_match_matched.
  - done.
Qed.

(** C6. What the client writes is what the server reads, for each of the nine
    commands with an argument it can carry ([carries]) and that fits in the
    client's array ([fits]): the request is sent whole, and whatever bytes follow
    it, the next request the server's grammar finds in them (in the stage of the
    connection in which the client sends it) ends where the text of the client
    ends, has exactly that argument, and is exactly that command, except that the
    query of the dissector's state is taken for an invalid command. *)
Theorem requests_understood (c : MgmtCommands) (arg rest : list byte) :
  carries c arg -> fits c arg ->
  next_request (stage c) (request_text c arg ++ rest) (length (request_text c arg)) (server_command c) arg /\
  forall n cmd arg', next_request (stage c) (request_text c arg ++ rest) n cmd arg' ->
    n = length (request_text c arg) /\ cmd = server_command c /\ arg' = arg.
Proof.
  intros Hc Hf. rewrite (request_whole _ _ Hf). pose proof (request_understood c arg rest Hc) as Hn.
  split; [exact Hn|]. intros n cmd arg' Hn'. by eapply next_request_fun.
Qed.

Lemma requests_understood_witness :
  carries CMD_ADD_USER (lit "ana:1") /\ fits CMD_ADD_USER (lit "ana:1") /\
  next_request yyctrns (lit "ADD-USER ana:1" ++ CRLF ++ lit "STATS") 16 MGMT_ADD_USER (lit "ana:1").
Proof.
  assert (H1 : carries CMD_ADD_USER (lit "ana:1")) by (split; [discriminate|repeat constructor; discriminate]).
  assert (H2 : fits CMD_ADD_USER (lit "ana:1")) by (apply Nat.ltb_lt; reflexivity).
  split; [exact H1|]. split; [exact H2|].
  exact (proj1 (requests_understood CMD_ADD_USER (lit "ana:1") (lit "STATS") H1 H2)).
Defined.
