(* ===== verification/AdminReplies.v ===== *)
(** * AdminReplies: how the client reads the server's answers

    [get_response] puts an answer together from the pieces in which the network
    delivers it, and [strtok] takes it apart into lines. The theorems connect
    the two programs: the text the server answers a request with, cut into
    pieces in any way, is what the client prints. *)

From S2P Require Import Prelude Os SocketsIO State Users Tokens MgmtProtocol LexerCode Lexer LexerRules LexerSpec.
From S2P Require Import Buffer World Mgmt MgmtInput MgmtSpec Netutils CLib Args Admin AdminSpec.

(** ** Where an answer ends *)

Lemma is_prefix_app p q r : is_prefix p q = true -> is_prefix p (q ++ r) = true.
Proof.
  revert q. induction p as [|a p IH]; intros q; simpl; [done|]. destruct q as [|b q]; simpl; [done|].
  intros H. apply andb_true_iff in H as [H1 H2]. by rewrite H1, IH.
Qed.

Lemma strstr_app s p r : strstr s p = true -> strstr (s ++ r) p = true.
Proof.
  induction s as [|c s IH]; cbn [strstr app]; rewrite orb_true_iff.
  - intros [H|H]; [|done]. assert (E : is_prefix p r = true) by (by destruct p).
    destruct r; cbn [strstr]; rewrite E; reflexivity.
  - intros [H|H]; apply orb_true_iff; [left; by apply (is_prefix_app p (c :: s))|right; auto].
Qed.

(** A character other than CR starts neither mark. *)
Lemma strstr_skip c s p : head p = Some CR -> c <> CR -> strstr (c :: s) p = strstr s p.
Proof.
  intros Hp Hc. cbn [strstr]. destruct p as [|d p]; [done|]. injection Hp as ->. simpl.
  by rewrite bool_decide_eq_false_2 by congruence.
Qed.

Lemma strstr_skip_line l s p : head p = Some CR -> CR ∉ l -> strstr (l ++ s) p = strstr s p.
Proof.
  intros Hp. induction l as [|c l IH]; intros Hl; [done|]. cbn [app].
  rewrite strstr_skip by set_solver. apply IH. set_solver.
Qed.

(** A line and what follows it. *)
Lemma strstr_EOM_line l s :
  CR ∉ l -> strstr (l ++ CRLF ++ s) EOM = is_prefix (lit "." ++ CRLF) s || strstr s EOM.
Proof.
  intros Hl. rewrite (strstr_skip_line l) by done. unfold CRLF at 1. cbn [app].
  change (strstr (CR :: LF :: s) EOM) with (is_prefix (lit "." ++ CRLF) s || strstr (LF :: s) EOM).
  by rewrite (strstr_skip LF) by done.
Qed.

Lemma strstr_EOL_line l s : CR ∉ l -> strstr (l ++ CRLF ++ s) EOL = true.
Proof. intros Hl. by rewrite (strstr_skip_line l) by done. Qed.

Lemma strstr_EOL_open l : CR ∉ l -> strstr (l ++ [CR]) EOL = false.
Proof. intros Hl. by rewrite (strstr_skip_line l) by done. Qed.

(** The text of an answer of several lines: the lines, then a dot. *)
Definition lines_text (ls : list (list byte)) : list byte := mjoin ((fun l => l ++ CRLF) <$> ls).
Definition multiline_text (ls : list (list byte)) : list byte := lines_text ls ++ lit "." ++ CRLF.

Lemma mjoin_cons {A} (c : list A) (cs : list (list A)) : mjoin (c :: cs) = c ++ mjoin cs.
Proof. done. Qed.

Lemma lines_text_cons l ls : lines_text (l :: ls) = l ++ CRLF ++ lines_text ls.
Proof. unfold lines_text. by rewrite fmap_cons, mjoin_cons, <- app_assoc. Qed.

Lemma multiline_text_cons l ls : multiline_text (l :: ls) = l ++ CRLF ++ multiline_text ls.
Proof. unfold multiline_text. by rewrite lines_text_cons, <- !app_assoc. Qed.

(** The beginning of a text of lines is a lone dot only when the first line is. *)
Lemma dot_line l s : CR ∉ l -> is_prefix (lit "." ++ CRLF) (l ++ CRLF ++ s) = bool_decide (l = lit ".").
Proof.
  intros Hl. destruct l as [|c [|d l]]; [done| |].
  - simpl. rewrite andb_true_r. apply bool_decide_ext. split; [by intros <-|by intros [= ->]].
  - simpl. rewrite (bool_decide_eq_false_2 (CR = d)) by set_solver. simpl. rewrite andb_false_r. symmetry.
    by apply bool_decide_eq_false_2.
Qed.

Lemma multiline_ends l ls : Forall (fun l => CR ∉ l) (l :: ls) -> strstr (multiline_text (l :: ls)) EOM = true.
Proof.
  intros Hall. induction ls as [|l2 ls IH] in l, Hall |- *; inversion Hall as [|? ? Hl Hls]; subst;
    rewrite multiline_text_cons, strstr_EOM_line by done.
  - done.
  - rewrite (IH l2) by done. apply orb_true_r.
Qed.

(** Before its last byte an answer is not complete, unless a line is a dot. *)
Definition open_text (ls : list (list byte)) : list byte := lines_text ls ++ lit "." ++ [CR].

Lemma open_text_cons l ls : open_text (l :: ls) = l ++ CRLF ++ open_text ls.
Proof. unfold open_text. by rewrite lines_text_cons, <- !app_assoc. Qed.

Lemma multiline_open ls l :
  CR ∉ l -> Forall (fun l => CR ∉ l /\ l <> lit ".") ls -> strstr (open_text (l :: ls)) EOM = false.
Proof.
  intros Hl Hall. induction Hall as [|l2 ls [H2 Hd] _ IH] in l, Hl |- *;
    rewrite open_text_cons, strstr_EOM_line by done; [done|].
  rewrite (IH l2) by done. rewrite open_text_cons, dot_line by done.
  by rewrite bool_decide_eq_false_2.
Qed.

Lemma multiline_snoc ls : multiline_text ls = open_text ls ++ [LF].
Proof. unfold multiline_text, open_text. by rewrite <- !app_assoc. Qed.

(** ** Reading an answer in pieces *)

(** [text] is a complete answer whose last byte completes it. *)
Record answer_text (multiline : bool) (text : list byte) : Prop := {
  at_nul : Forall (fun c => c <> NUL) text;
  at_len : length text < 256;
  at_end : exists open, text = open ++ [LF] /\ open <> [] /\
    let mark := if (if dashed text then false else multiline) then EOM else EOL in
    strstr text mark = true /\ strstr open mark = false
}.

Lemma finished_prefix multiline p m :
  p <> [] -> Forall (fun c => c <> NUL) p ->
  finished (p ++ NUL :: m) multiline =
    Done (strstr p (if (if dashed p then false else multiline) then EOM else EOL)).
Proof.
  intros Hne Hp. destruct p as [|c p]; [done|]. unfold finished. cbn [app mem_get lookup list_lookup of_option mbind outcome_bind dashed].
  rewrite decide_True by set_solver.
  change (c :: p ++ NUL :: m) with ((c :: p) ++ NUL :: m). by rewrite cstr_app_NUL.
Qed.

(** The array after a piece [l] and its terminator. *)
Lemma store_piece m p l :
  take (length p) m = p -> length p + length l < length m ->
  exists m1 rest, mem_write m (length p) l = Done m1 /\
    mem_write m1 (length p + length l) [NUL] = Done (p ++ l ++ NUL :: rest) /\
    length (p ++ l ++ NUL :: rest) = length m.
Proof.
  intros Hp Hl. destruct (mem_write_fits m (length p) l) as (m1 & E1 & L1); [lia|].
  destruct (mem_write_fits m1 (length p + length l) [NUL]) as (m2 & E2 & L2); [simpl; lia|].
  exists m1. apply mem_write_inv in E1 as [H1 ->]. pose proof E2 as E2'. apply mem_write_inv in E2 as [H2 Em2].
  rewrite Hp in *. set (D := drop (length p + length l) m) in *.
  assert (Et : take (length p + length l) (p ++ l ++ D) = p ++ l) by (by rewrite app_assoc, <- length_app, take_app_length).
  rewrite Et, <- app_assoc in Em2. subst m2.
  eexists. split; [rewrite mem_write_Done by lia; by rewrite Hp|].
  split; [exact E2'|exact (eq_trans L2 L1)].
Qed.

Section Pieces.
Context (sock : Z) (multiline : bool) (text : list byte) (Htext : answer_text multiline text).

Lemma dashed_prefix p q : p <> [] -> dashed (p ++ q) = dashed p.
Proof. by destruct p. Qed.

Lemma get_response_from_pieces fuel cs p more k nx e t m out :
  p ++ mjoin cs = text -> cs <> [] -> Forall (fun c => c <> []) cs -> length cs <= fuel ->
  take (length p) m = p -> length m = MAX_RESPONSE_LEN ->
  exists evs m', get_response_from fuel sock (length p) MAX_RESPONSE_LEN multiline
      (Console (Io (Script (cs ++ more) k nx) e t) m out) =
    Done (true, Console (Io (Script more k nx) e (evs ++ t)) m' out) /\
    holds_str m' text /\ length m' = MAX_RESPONSE_LEN /\ Forall (fun ev => exists l, ev = EvRecv sock l) evs.
Proof.
  destruct Htext as [Hnul Hlen (open & Eopen & Hone & Hend)].
  revert cs p t m. induction fuel as [|fuel IH]; intros [|c cs] p t m Hp Hcs Hne Hf Hm Hlm; try done; [simpl in Hf; lia|].
  pose proof (Forall_inv Hne) as Hc. pose proof (Forall_inv_tail Hne) as Hne'.
  rewrite mjoin_cons in Hp. cbn [get_response_from].
  assert (Hpc : p ++ c ++ mjoin cs = text) by done.
  assert (Hlpc : length p + length c + length (mjoin cs) = length text)
    by (rewrite <- Hpc, !length_app; lia).
  assert (Hlc : 1 <= length c) by (destruct c; simpl; [done|lia]).
  set (s1 := Console (Io (Script (cs ++ more) k nx) e (EvRecv sock c :: t)) m out).
  assert (Er : sysc (sys_read sock (MAX_RESPONSE_LEN - length p))
      (Console (Io (Script ((c :: cs) ++ more) k nx) e t) m out) = Done (Some c, s1)).
  { unfold sysc, zoom, sys_read, call, mbind, M_bind. cbn [lget con_io co_io io_os os_read script_os sc_reads app].
    rewrite take_ge by (unfold MAX_RESPONSE_LEN; lia). reflexivity. }
  mstep Er. rewrite (bind_Done _ _ s1 m s1) by done.
  destruct (store_piece m p c Hm) as (m1 & rest & E1 & E2 & L2); [unfold MAX_RESPONSE_LEN in Hlm; lia|].
  rewrite (bind_lift _ _ _ (wrap 8 (Z.of_nat (length c)), m1)) by (by rewrite E1). cbv beta iota.
  assert (Hw : wrap 8 (Z.of_nat (length c)) = Z.of_nat (length c)) by (unfold wrap; rewrite Z.mod_small; lia).
  rewrite Hw. rewrite (bind_Done _ _ s1 tt (Console (co_io s1) m1 out)) by done. cbv beta.
  rewrite (proj2 (Z.leb_gt _ _)) by lia. cbv zeta. rewrite Nat2Z.id.
  mstep E2. set (m2 := p ++ c ++ NUL :: rest). set (s2 := Console (co_io s1) m2 out).
  rewrite (bind_Done _ _ _ tt s2) by done.
  assert (Hnpc : Forall (fun ch => ch <> NUL) (p ++ c)).
  { rewrite app_assoc in Hpc. rewrite <- Hpc in Hnul. by apply Forall_app in Hnul as [? _]. }
  assert (Hpc0 : p ++ c <> []) by (destruct p; [simpl; done|done]).
  assert (Ef : finished m2 multiline = Done (strstr (p ++ c) (if (if dashed text then false else multiline) then EOM else EOL))).
  { unfold m2. rewrite app_assoc, finished_prefix by done. rewrite <- Hpc, app_assoc, (dashed_prefix (p ++ c)) by done. done. }
  mstep Ef. destruct cs as [|c2 cs].
  - rewrite app_nil_r in Hpc. rewrite Hpc, (proj1 Hend).
    exists [EvRecv sock c], m2. split; [reflexivity|]. split; [|split; [exact (eq_trans L2 Hlm)|repeat constructor; by eexists]].
    exists rest. split; [unfold m2; by rewrite app_assoc, Hpc|done].
  - assert (Hop : strstr (p ++ c) (if (if dashed text then false else multiline) then EOM else EOL) = false).
    { apply not_true_iff_false. intros Ht. destruct Hend as [_ Hopen]. apply not_true_iff_false in Hopen. apply Hopen.
      pose proof (Forall_inv Hne') as Hc2. rewrite mjoin_cons in Hpc.
      assert (Hl : length (p ++ c) <= length open).
      { apply (f_equal length) in Hpc. rewrite Eopen, !length_app in Hpc. rewrite length_app.
        destruct c2; [done|]. simpl in Hpc. lia. }
      assert (Eo : open = (p ++ c) ++ drop (length (p ++ c)) open).
      { rewrite <- (take_drop (length (p ++ c)) open) at 1. f_equal.
        apply (f_equal (take (length (p ++ c)))) in Hpc. rewrite app_assoc, take_app_length in Hpc.
        rewrite Eopen, take_app_le in Hpc by done. by symmetry. }
      rewrite Eo. by apply strstr_app. }
    rewrite Hop.
    destruct (IH (c2 :: cs) (p ++ c) (EvRecv sock c :: t) m2) as (evs & m' & E' & Hh & Hl' & Hev);
      [by rewrite <- app_assoc|done|done|simpl in *; lia| |exact (eq_trans L2 Hlm)|].
    { unfold m2. by rewrite app_assoc, take_app_length. }
    exists (evs ++ [EvRecv sock c]), m'. rewrite <- length_app. rewrite <- app_assoc. split; [exact E'|].
    split_and!; [done|done|]. apply Forall_app. split; [done|]. repeat constructor. by eexists.
Qed.

Lemma pieces_length cs : Forall (fun c : list byte => c <> []) cs -> length cs <= length (mjoin cs).
Proof.
  induction 1 as [|c cs Hc _ IH]; [done|]. rewrite mjoin_cons, length_app.
  destruct c as [|x c]; [done|]. cbn [length]. lia.
Qed.

Lemma get_response_pieces cs more k nx e t m out :
  mjoin cs = text -> Forall (fun c => c <> []) cs -> length m = MAX_RESPONSE_LEN ->
  exists evs m', get_response sock multiline (Console (Io (Script (cs ++ more) k nx) e t) m out) =
    Done (true, Console (Io (Script more k nx) e (evs ++ t)) m' out) /\
    holds_str m' text /\ length m' = MAX_RESPONSE_LEN /\ Forall (fun ev => exists l, ev = EvRecv sock l) evs.
Proof.
  intros Hcs Hne Hm. apply (get_response_from_pieces MAX_RESPONSE_LEN cs []); [done| |done| |done|done].
  - intros ->. destruct Htext as [_ _ (open & -> & _)]. by destruct open.
  - pose proof (pieces_length cs Hne) as Hl. rewrite Hcs in Hl. destruct Htext as [_ Hlt _].
    unfold MAX_RESPONSE_LEN. lia.
Qed.
End Pieces.

(** ** A request and its answer *)

(** The network delivers [text] in the pieces [cs], and takes requests of up to
    [k] bytes whole. *)
Definition delivering (cs more : list (list byte)) (k : nat) (s : console script) (text : list byte) : Prop :=
  sc_reads (io_os (co_io s)) = cs ++ more /\ sc_accepts (io_os (co_io s)) = k /\
  mjoin cs = text /\ Forall (fun c => c <> []) cs /\ length (response_buf s) = MAX_RESPONSE_LEN.

(** The state after an exchange: the request was sent, the pieces consumed, and
    the array holds the answer. *)
Definition exchanged (sock : Z) (rq : list byte) (more : list (list byte)) (text : list byte)
    (s s' : console script) : Prop :=
  sc_reads (io_os (co_io s')) = more /\ sc_accepts (io_os (co_io s')) = sc_accepts (io_os (co_io s)) /\
  (exists evs, io_trace (co_io s') = evs ++ EvSend sock rq :: io_trace (co_io s) /\
               Forall (fun ev => exists l, ev = EvRecv sock l) evs) /\
  holds_str (response_buf s') text /\ length (response_buf s') = MAX_RESPONSE_LEN /\ co_out s' = co_out s.

Lemma send_text_whole sock rq (s : console script) :
  rq <> [] -> length rq <= sc_accepts (io_os (co_io s)) ->
  exists s', send_text sock rq s = Done (true, s') /\ io_os (co_io s') = io_os (co_io s) /\
    io_errno (co_io s') = io_errno (co_io s) /\ io_trace (co_io s') = EvSend sock rq :: io_trace (co_io s) /\
    response_buf s' = response_buf s /\ co_out s' = co_out s.
Proof.
  intros Hne Hk. destruct s as [[[rs k nx] e t] m out]. simpl in Hk.
  destruct k as [|k]; [destruct rq; [done|simpl in Hk; lia]|].
  eexists. split.
  - unfold send_text, sysc, zoom, sys_send, call, mbind, M_bind.
    cbn [lget con_io co_io io_os os_send script_os sc_accepts]. rewrite Nat.min_r by done. reflexivity.
  - cbn [co_io io_os io_errno io_trace response_buf co_out lput con_io]. by rewrite take_ge.
Qed.

Lemma holds_head m text c rest : holds_str m text -> text = c :: rest -> mem_get m 0 = Done c.
Proof. by intros (t & -> & _) ->. Qed.

Lemma is_error_spec (s : console script) c rest :
  holds_str (response_buf s) (c :: rest) -> is_error s = Done (dashed (c :: rest), s).
Proof.
  intros Hh. unfold is_error. rewrite (bind_Done _ _ s (response_buf s) s) by done.
  by rewrite (bind_lift _ _ _ _ (holds_head _ _ c rest Hh eq_refl)).
Qed.

Lemma transact_pieces sock rq multiline text cs more k s :
  answer_text multiline text -> delivering cs more k s text -> rq <> [] -> length rq <= k ->
  exists s', transact sock rq multiline s = Done (negb (dashed text), s') /\ exchanged sock rq more text s s'.
Proof.
  intros Ha (Hrs & Hk & Hcs & Hne & Hm) Hrq Hlen. unfold transact.
  destruct (send_text_whole sock rq s Hrq ltac:(lia)) as (s1 & E1 & Hos & He & Ht & Hb & Ho). mstep E1.
  destruct s1 as [[[rs1 k1 nx1] e1 t1] m1 out1]. cbn [co_io io_os io_errno io_trace response_buf co_out] in *.
  destruct s as [[[rs0 k0 nx0] e0 t0] m0 out0]. cbn [co_io io_os io_errno io_trace response_buf co_out sc_reads sc_accepts] in *.
  injection Hos as -> -> ->. subst rs0 k0 e1 t1 m1 out1.
  destruct (get_response_pieces sock multiline text Ha cs more k nx0 e0 (EvSend sock rq :: t0) m0 out0 Hcs Hne Hm)
    as (evs & m' & E2 & Hh & Hl & Hev). cbn [negb]. mstep E2. cbn [negb].
  destruct (at_end _ _ Ha) as (open & Eo & Hone & _). destruct text as [|c rest]; [by destruct open|].
  rewrite (bind_Done _ _ _ _ _ (is_error_spec (Console _ m' out0) c rest Hh)).
  eexists. split; [reflexivity|]. split_and!; try done. by exists evs.
Qed.

(** ** Taking an answer apart *)

(** A line [strtok] returns whole. *)
Definition plain_line (l : list byte) : Prop :=
  l <> [] /\ Forall (fun c => c ∉ EOL /\ c <> NUL) l.

Lemma strtok_line m p sp l rest :
  drop p m = sp ++ l ++ CR :: rest -> Forall (fun c => c ∈ EOL) sp -> plain_line l ->
  exists m', strtok EOL m p = Done (Some (p + length sp), m', p + length sp + length l + 1) /\
    drop (p + length sp) m' = l ++ NUL :: rest.
Proof.
  intros Hd Hsp [Hne Hl]. set (q := p + length sp).
  assert (Hq : drop q m = l ++ CR :: rest) by (unfold q; by rewrite <- drop_drop, Hd, drop_app_length).
  assert (Hql : q < length m).
  { apply (f_equal length) in Hq. rewrite length_drop, length_app in Hq. simpl in Hq. lia. }
  assert (He : drop (q + length l) m = CR :: rest) by (by rewrite <- drop_drop, Hq, drop_app_length).
  assert (Hel : q + length l < length m).
  { apply (f_equal length) in He. rewrite length_drop in He. simpl in He. lia. }
  unfold strtok. cbv zeta. rewrite Hd, (span_app _ sp); [|by eapply Forall_impl; [exact Hsp|]; intros c Hc; by apply bool_decide_eq_true_2|].
  2:{ destruct l as [|c l]; [done|]. simpl. apply bool_decide_eq_false_2. by apply (Forall_inv Hl). }
  cbn [fst]. fold q.
  destruct l as [|c0 l0] eqn:El; [done|]. rewrite <- El in *.
  assert (Eg : mem_get m q = Done c0).
  { unfold mem_get. rewrite <- (Nat.add_0_r q), <- lookup_drop, Hq, El. done. }
  rewrite Eg. cbn [mbind outcome_bind]. rewrite bool_decide_eq_false_2
    by (rewrite El in Hl; apply (Forall_inv Hl)).
  rewrite Hq, (span_app _ l); cbn [fst].
  2:{ eapply Forall_impl; [exact Hl|]. intros c [H1 H2]. rewrite bool_decide_eq_false_2, bool_decide_eq_true_2 by done. done. }
  2:{ done. }
  assert (Ec : mem_get m (q + length l) = Done CR).
  { unfold mem_get. rewrite <- (Nat.add_0_r (q + length l)), <- lookup_drop, He. done. }
  rewrite Ec. cbn [mbind outcome_bind]. rewrite bool_decide_eq_false_2 by done.
  rewrite mem_write_Done by (simpl; lia). cbn [mbind outcome_bind length].
  eexists. split; [by replace (q + length l + 1) with (S (q + length l)) by lia|].
  rewrite drop_app_le by (rewrite length_take; lia).
  assert (Hr : drop (S (q + length l)) m = rest).
  { replace (S (q + length l)) with (q + length l + 1) by lia. by rewrite <- drop_drop, He. }
  rewrite Hr. f_equal. rewrite <- take_drop_commute, Hq. by rewrite take_app_length.
Qed.

(** The array from the token at [q], the line [l]; the lines [ls] and the final
    dot follow from [p] on. *)
Definition at_line (m : list byte) (q p : nat) (l : list byte) (ls : list (list byte)) : Prop :=
  p = q + length l + 1 /\
  exists junk, drop q m = l ++ NUL :: LF :: multiline_text ls ++ NUL :: junk.

Lemma at_line_next m q p l ls :
  at_line m q p l ls -> exists junk, drop p m = LF :: multiline_text ls ++ NUL :: junk.
Proof.
  intros (-> & junk & Hd). exists junk. replace (q + length l + 1) with (q + S (length l)) by lia.
  rewrite <- drop_drop, Hd. rewrite drop_app_ge by lia. by replace (S (length l) - length l) with 1 by lia.
Qed.

Section Lines.
Implicit Types (s : console script).

Lemma next_token_spec p s sp l rest :
  drop p (response_buf s) = sp ++ l ++ CR :: rest -> Forall (fun c => c ∈ EOL) sp -> plain_line l ->
  exists m', next_token p s = Done ((Some (p + length sp), p + length sp + length l + 1), Console (co_io s) m' (co_out s)) /\
    drop (p + length sp) m' = l ++ NUL :: rest.
Proof.
  intros Hd Hsp Hl. destruct (strtok_line _ _ _ _ _ Hd Hsp Hl) as (m' & Es & Hm'). exists m'. split; [|done].
  unfold next_token. rewrite (bind_Done _ _ s (response_buf s) s) by done.
  by rewrite (bind_lift _ _ _ _ Es).
Qed.

(** The token after a line. *)
Lemma next_line_token q p l ls s :
  at_line (response_buf s) q p l ls -> Forall plain_line ls ->
  exists q' p' m', next_token p s = Done ((Some q', p'), Console (co_io s) m' (co_out s)) /\
    match ls with
    | [] => exists rest, drop q' m' = lit "." ++ NUL :: rest
    | l2 :: ls' => at_line m' q' p' l2 ls'
    end.
Proof.
  intros Hat Hls. destruct (at_line_next _ _ _ _ _ Hat) as (junk & Hd).
  assert (HLF : Forall (fun c => c ∈ EOL) [LF]) by (constructor; [set_solver|constructor]).
  destruct ls as [|l2 ls].
  - destruct (next_token_spec p s [LF] (lit ".") (LF :: NUL :: junk)) as (m' & E & Hm'); [by rewrite Hd|done| |].
    { split; [done|]. constructor; [|constructor]. split; [vm_compute; set_solver|done]. }
    eexists _, _, m'. split; [exact E|]. eexists. exact Hm'.
  - inversion Hls as [|? ? Hl2 _]; subst.
    destruct (next_token_spec p s [LF] l2 (LF :: multiline_text ls ++ NUL :: junk)) as (m' & E & Hm'); [|done|done|].
    { rewrite Hd, multiline_text_cons. by rewrite <- !app_assoc. }
    eexists _, _, m'. split; [exact E|]. split; [done|]. by exists junk.
Qed.

(** What the loop prints for the lines [ls], numbered from [i]. *)
Fixpoint shown (show : Z -> list byte -> list byte) (i : Z) (ls : list (list byte)) : list byte :=
  match ls with
  | [] => []
  | l :: ls' => show i l ++ shown show (i + 1) ls'
  end.

(** A line of an answer: it does not start with the final dot. *)
Definition listed (l : list byte) : Prop := plain_line l /\ head l <> Some Byte.x2e.

Lemma more_lines_spec q s c rest :
  drop q (response_buf s) = c :: rest -> more_lines (Some q) s = Done (negb (bool_decide (c = Byte.x2e)), s).
Proof.
  intros Hd. unfold more_lines. rewrite (bind_Done _ _ s (response_buf s) s) by done.
  rewrite (bind_lift _ _ _ c); [done|]. unfold mem_get. by rewrite <- (Nat.add_0_r q), <- lookup_drop, Hd.
Qed.

Lemma string_at_spec q s l rest :
  drop q (response_buf s) = l ++ NUL :: rest -> Forall (fun c => c <> NUL) l -> string_at q s = Done (l, s).
Proof.
  intros Hd Hl. unfold string_at. rewrite (bind_Done _ _ s (response_buf s) s) by done.
  rewrite Hd, decide_True by set_solver. by rewrite cstr_app_NUL.
Qed.

Lemma plain_no_NUL l : plain_line l -> Forall (fun c => c <> NUL) l.
Proof. intros [_ Hl]. eapply Forall_impl; [exact Hl|]. by intros c [_ ?]. Qed.

Lemma each_line_spec fuel show i q p l ls s :
  at_line (response_buf s) q p l ls -> listed l -> Forall listed ls -> length ls + 1 < fuel ->
  exists m', each_line fuel show i (Some q) p s =
    Done (tt, Console (co_io s) m' (co_out s ++ shown show i (l :: ls))).
Proof.
  revert i q p l ls s. induction fuel as [|fuel IH]; intros i q p l ls s Hat [Hl Hdot] Hls Hf; [lia|].
  pose proof Hat as (_ & junk & Hd). pose proof (plain_no_NUL l Hl) as Hnul. cbn [each_line].
  destruct l as [|c l0] eqn:El; [by destruct Hl|].
  rewrite (bind_Done _ _ _ _ _ (more_lines_spec q s c _ Hd)). rewrite bool_decide_eq_false_2 by (by intros ->).
  cbn [negb]. rewrite <- El in *. rewrite (bind_Done _ _ _ _ _ (string_at_spec q s l _ Hd Hnul)). cbv beta.
  set (s1 := Console (co_io s) (response_buf s) (co_out s ++ show i l)).
  rewrite (bind_Done _ _ s tt s1) by done. cbv beta.
  assert (Hpl : Forall plain_line ls) by (eapply Forall_impl; [exact Hls|]; by intros x [? _]).
  destruct (next_line_token q p l ls s1 Hat Hpl) as (q' & p' & m' & E & Hnext).
  rewrite (bind_Done _ _ _ _ _ E). cbv beta iota. destruct ls as [|l2 ls].
  - destruct Hnext as (rest & Hd'). exists m'. destruct fuel as [|fuel]; [simpl in Hf; lia|]. cbn [each_line].
    rewrite (bind_Done _ _ _ _ _ (more_lines_spec q' (Console (co_io s1) m' (co_out s1)) _ _ Hd')).
    cbn [shown]. by rewrite app_nil_r.
  - inversion Hls as [|? ? Hl2 Hls']; subst.
    destruct (IH (i + 1)%Z q' p' l2 ls (Console (co_io s1) m' (co_out s1)) Hnext Hl2 Hls') as (m2 & E2);
      [simpl in *; lia|].
    exists m2. rewrite E2. cbn [co_io co_out s1 shown]. by rewrite <- app_assoc.
Qed.

Lemma all_lines_spec show hdr ls s :
  holds_str (response_buf s) (multiline_text (hdr :: ls)) -> plain_line hdr -> Forall listed ls ->
  length ls + 1 < MAX_RESPONSE_LEN ->
  exists m', all_lines show s = Done (tt, Console (co_io s) m' (co_out s ++ shown show 0 ls)).
Proof.
  intros (junk & Hm & _) Hh Hls Hlen. unfold all_lines.
  destruct (next_token_spec 0 s [] hdr (LF :: multiline_text ls ++ NUL :: junk)) as (m1 & E1 & H1); [|constructor|done|].
  { rewrite drop_0, Hm, multiline_text_cons. by rewrite <- !app_assoc. }
  rewrite (bind_Done _ _ _ _ _ E1). cbv beta iota. cbn [length Nat.add] in H1 |- *.
  assert (Hat : at_line m1 0 (length hdr + 1) hdr ls) by (split; [done|by exists junk]).
  assert (Hpl : Forall plain_line ls) by (eapply Forall_impl; [exact Hls|]; by intros x [? _]).
  destruct (next_line_token 0 (length hdr + 1) hdr ls (Console (co_io s) m1 (co_out s)) Hat Hpl)
    as (q' & p' & m' & E & Hnext).
  rewrite (bind_Done _ _ _ _ _ E). cbv beta iota. destruct ls as [|l2 ls].
  - destruct Hnext as (rest & Hd'). exists m'. change MAX_RESPONSE_LEN with (S 511). cbn [each_line].
    rewrite (bind_Done _ _ _ _ _ (more_lines_spec q' (Console (co_io s) m' (co_out s)) _ _ Hd')).
    cbn [shown]. by rewrite app_nil_r.
  - inversion Hls as [|? ? Hl2 Hls']; subst.
    destruct (each_line_spec MAX_RESPONSE_LEN show 0 q' p' l2 ls (Console (co_io s) m' (co_out s)) Hnext Hl2 Hls')
      as (m2 & E2); [simpl in *; lia|]. by exists m2.
Qed.
End Lines.

(** ** The answers of the server *)

(** The text the server answers with. *)
Definition reply (tokens : list (list byte)) (cmd : MgmtCommand) (arg : list byte) (k : control) : list byte :=
  (perform tokens cmd arg k).1.2.

Lemma not_in_EOL c : c <> CR -> c <> LF -> c ∉ EOL.
Proof. intros H1 H2 Hin. apply elem_of_cons in Hin as [?|Hin]; [done|]. by apply list_elem_of_singleton in Hin. Qed.

Lemma plain_CR l : plain_line l -> CR ∉ l.
Proof.
  intros [_ Hl] Hin. rewrite Forall_forall in Hl. destruct (Hl CR Hin) as [Hn _]. apply Hn, list_elem_of_here.
Qed.

Lemma multiline_no_NUL ls : Forall plain_line ls -> Forall (fun c => c <> NUL) (multiline_text ls).
Proof.
  induction 1 as [|l ls Hl _ IH]; [repeat constructor; discriminate|].
  rewrite multiline_text_cons. apply Forall_app. split; [by apply plain_no_NUL|].
  apply Forall_app. split; [repeat constructor; discriminate|done].
Qed.

(** An answer of several lines is complete at its last byte. *)
Lemma multiline_answer hdr ls :
  plain_line hdr -> dashed hdr = false -> Forall listed ls -> length (multiline_text (hdr :: ls)) < 256 ->
  answer_text true (multiline_text (hdr :: ls)) /\ dashed (multiline_text (hdr :: ls)) = false.
Proof.
  intros Hh Hd Hls Hlen.
  assert (Hd' : dashed (multiline_text (hdr :: ls)) = false)
    by (rewrite multiline_text_cons; rewrite dashed_prefix; [done|apply Hh]).
  split; [|done]. split; [|done|].
  - apply multiline_no_NUL. constructor; [done|]. eapply Forall_impl; [exact Hls|]. by intros x [? _].
  - exists (open_text (hdr :: ls)). split; [apply multiline_snoc|]. split.
    { rewrite open_text_cons. destruct hdr; [by destruct Hh|done]. }
    rewrite Hd'. cbv beta iota. split.
    + apply multiline_ends. constructor; [by apply plain_CR|]. eapply Forall_impl; [exact Hls|].
      intros x [? _]. by apply plain_CR.
    + apply multiline_open; [by apply plain_CR|]. eapply Forall_impl; [exact Hls|].
      intros x [Hx Hx']. split; [by apply plain_CR|]. by intros ->.
Qed.

(** An answer of one line. *)
Lemma single_answer multiline l :
  plain_line l -> dashed l = true \/ multiline = false -> length l < 254 ->
  answer_text multiline (l ++ CRLF) /\ dashed (l ++ CRLF) = dashed l.
Proof.
  intros Hl Hd Hlen. assert (Hd' : dashed (l ++ CRLF) = dashed l) by (apply dashed_prefix, Hl).
  split; [|done]. split.
  - apply Forall_app. split; [by apply plain_no_NUL|repeat constructor; discriminate].
  - rewrite length_app. simpl. lia.
  - exists (l ++ [CR]). split; [by rewrite <- app_assoc|]. split; [by destruct l|].
    rewrite Hd'. replace (if dashed l then false else multiline) with false by (destruct Hd as [->| ->]; [done|by destruct (dashed l)]).
    split; [|by apply strstr_EOL_open, plain_CR].
    pose proof (strstr_EOL_line l [] (plain_CR l Hl)) as E. by rewrite app_nil_r in E.
Qed.

(** *** Statistics *)

Definition stats_header : list byte :=
  success_status ++ lit " Showing stats (B)yte (H)istorical connections (C)urrent connections...".
Definition stats_lines (st : server_state) : list (list byte) :=
  [lit "B" ++ dec (get_transferred_bytes st); lit "H" ++ dec (get_all_connections st);
   lit "C" ++ dec (get_current_clients st)].

(** The counters hold values of their C types. *)
Definition counters_typed (st : server_state) : Prop :=
  (0 <= transferred_bytes st < 2 ^ 64 /\ 0 <= all_connections st < 2 ^ 64)%Z.

Lemma stat_counters st :
  counters_typed st ->
  Forall (fun n => 0 <= n < 2 ^ 64)%Z [get_transferred_bytes st; get_all_connections st; get_current_clients st].
Proof.
  intros [H1 H2]. repeat constructor; try tauto; unfold get_current_clients, wrap;
    pose proof (Z.mod_pos_bound (proxy_client_count st + mgmt_client_count st) (2 ^ 32) ltac:(lia)); lia.
Qed.

Lemma digit_plain c : isdigit c = true -> c ∉ EOL /\ c <> NUL.
Proof.
  intros Hc. unfold isdigit in Hc. tests. split; [apply not_in_EOL|]; intros ->;
    [change (Zb CR) with 13%Z in *|change (Zb LF) with 10%Z in *|change (Zb NUL) with 0%Z in *]; lia.
Qed.

Lemma stat_listed (c : byte) n :
  (0 <= n < 2 ^ 64)%Z -> c ∉ EOL -> c <> NUL -> c <> Byte.x2e ->
  listed (c :: dec n) /\ length (c :: dec n) <= 21.
Proof.
  intros Hn H1 H2 H3. destruct (dec_spec n ltac:(lia)) as (_ & Hds & _). split.
  - split; [|simpl; congruence]. split; [done|]. constructor; [done|].
    eapply Forall_impl; [exact Hds|apply digit_plain].
  - cbn [length]. pose proof (digits_aux_length 20 19 n [] ltac:(simpl; lia)) as Hl. fold (dec n) in Hl.
    simpl in Hl. lia.
Qed.

Lemma stats_reply tokens arg k :
  counters_typed (ct_state k) ->
  reply tokens MGMT_STATS arg k = multiline_text (stats_header :: stats_lines (ct_state k)) /\
  length (multiline_text (stats_header :: stats_lines (ct_state k))) < 256 /\
  Forall listed (stats_lines (ct_state k)).
Proof.
  intros Ht. pose proof (stat_counters _ Ht) as Hc. destruct k as [cond q us st]. cbn [ct_state] in *.
  inversion Hc as [|? ? HB Hc1]; subst. inversion Hc1 as [|? ? HH Hc2]; subst. inversion Hc2 as [|? ? HC _]; subst.
  destruct (stat_listed Byte.x42 _ HB) as [L1 N1]; [vm_compute; set_solver|done|done|].
  destruct (stat_listed Byte.x48 _ HH) as [L2 N2]; [vm_compute; set_solver|done|done|].
  destruct (stat_listed Byte.x43 _ HC) as [L3 N3]; [vm_compute; set_solver|done|done|].
  assert (Hlen : length (multiline_text (stats_header :: stats_lines st)) < 256).
  { unfold stats_lines. rewrite !multiline_text_cons, !length_app. change (length stats_header) with 74.
    change (length (multiline_text [])) with 3. change (length CRLF) with 2.
    cbn [length] in N1, N2, N3. change (length (lit "B")) with 1. change (length (lit "H")) with 1.
    change (length (lit "C")) with 1. lia. }
  split; [|split; [done|constructor; [exact L1|constructor; [exact L2|constructor; [exact L3|constructor]]]]].
  unfold reply, perform, answer, respond. cbn [fst snd].
  assert (E : multiline_text (stats_header :: stats_lines st) = success_status ++
        lit " Showing stats (B)yte (H)istorical connections (C)urrent connections..." ++
        line_delimiter ++ lit "B" ++ dec (get_transferred_bytes st) ++ line_delimiter ++
        lit "H" ++ dec (get_all_connections st) ++ line_delimiter ++
        lit "C" ++ dec (get_current_clients st) ++ line_delimiter ++ multiline_delimiter ++ line_delimiter).
  { unfold stats_lines, stats_header. rewrite !multiline_text_cons. by rewrite <- !app_assoc. }
  rewrite <- E. apply take_ge. change (MGMT_BUFFSIZE - 1) with 2047. lia.
Qed.

Lemma stat_line_shows c label i n :
  (0 <= n < 2 ^ 64)%Z -> (forall t, stat_line i (c :: t) = label ++ dec (strtoull t) ++ NL) ->
  stat_line i (c :: dec n) = label ++ dec n ++ NL.
Proof.
  intros Hn Hc. rewrite Hc. pose proof (strtoull_dec n [] Hn I) as E. rewrite app_nil_r in E. by rewrite E.
Qed.

(** What is printed between the two rules. *)
Definition framed (title body : list byte) : list byte :=
  rule_line ++ title ++ NL ++ body ++ rule_line ++ NL.

(** The events of an exchange. *)
Definition requested (sock : Z) (rq : list byte) (s s' : console script) : Prop :=
  exists evs, io_trace (co_io s') = evs ++ EvSend sock rq :: io_trace (co_io s) /\
    Forall (fun ev => exists l, ev = EvRecv sock l) evs.

Lemma list_command sock rq title show cs more n hdr ls (s : console script) (cmd : M (console script) bool) :
  cmd = (ok ← transact sock rq true;
         if negb ok then mret false
         else say (rule_line ++ title ++ NL);; all_lines show;; say (rule_line ++ NL);; mret true) ->
  plain_line hdr -> dashed hdr = false -> Forall listed ls -> length (multiline_text (hdr :: ls)) < 256 ->
  delivering cs more n s (multiline_text (hdr :: ls)) -> rq <> [] -> length rq <= n ->
  exists s', cmd s = Done (true, s') /\ requested sock rq s s' /\
    co_out s' = co_out s ++ framed title (shown show 0 ls).
Proof.
  intros -> Hh Hd Hls Hlen Hdel Hrq Hn.
  destruct (multiline_answer hdr ls Hh Hd Hls Hlen) as [Ha Hdash].
  destruct (transact_pieces sock rq true _ cs more n s Ha Hdel Hrq Hn) as (s1 & E1 & _ & _ & Hreq & Hstr & _ & Hout).
  rewrite Hdash in E1. rewrite (bind_Done _ _ _ _ _ E1). cbn [negb].
  set (s2 := Console (co_io s1) (response_buf s1) (co_out s1 ++ rule_line ++ title ++ NL)).
  rewrite (bind_Done _ _ s1 tt s2) by done.
  destruct (all_lines_spec show hdr ls s2 Hstr Hh Hls) as (m' & E3).
  { assert (Hll : length ls <= length (lines_text ls)).
    { clear. induction ls as [|l ls IH]; [done|]. rewrite lines_text_cons, !length_app. simpl. lia. }
    rewrite multiline_text_cons in Hlen. unfold multiline_text in Hlen. rewrite !length_app in Hlen.
    unfold MAX_RESPONSE_LEN. lia. }
  rewrite (bind_Done _ _ _ _ _ E3). eexists. split; [reflexivity|]. split; [done|].
  cbn [co_out s2]. rewrite Hout. unfold framed. by rewrite <- !app_assoc.
Qed.

(** The answer to STATS makes the command print exactly the three numbers. *)
Lemma stats_shown (tokens : list (list byte)) (arg : list byte) (k : control)
    (sock : Z) (cs more : list (list byte)) (n : nat) (s : console script) :
  counters_typed (ct_state k) -> delivering cs more n s (reply tokens MGMT_STATS arg k) -> 7 <= n ->
  exists s', stats sock s = Done (true, s') /\ requested sock (commands_format CMD_STATS []) s s' /\
    co_out s' = co_out s ++ framed (lit "List of statistics:")
      (lit "Bytes transferred: " ++ dec (get_transferred_bytes (ct_state k)) ++ NL ++
       lit "Historical connections: " ++ dec (get_all_connections (ct_state k)) ++ NL ++
       lit "Concurrent connections: " ++ dec (get_current_clients (ct_state k)) ++ NL).
Proof.
  intros Ht Hdel Hn. destruct (stats_reply tokens arg k Ht) as (Er & Hlen & Hls). rewrite Er in Hdel.
  destruct (list_command sock (commands_format CMD_STATS []) (lit "List of statistics:") stat_line
    cs more n stats_header (stats_lines (ct_state k)) s (stats sock)) as (s' & E & Hreq & Hout);
    [done| |done|done|done|done|done|done|].
  { split; [done|]. repeat (constructor; [split; [vm_compute; set_solver|done]|]). constructor. }
  exists s'. split; [exact E|]. split; [exact Hreq|]. rewrite Hout. do 2 f_equal. clear -Ht.
  pose proof (stat_counters _ Ht) as Hc. inversion Hc as [|? ? HB Hc1]; subst.
  inversion Hc1 as [|? ? HH Hc2]; subst. inversion Hc2 as [|? ? HC _]; subst.
  unfold stats_lines. cbn [shown]. rewrite app_nil_r.
  change (lit "B" ++ dec (get_transferred_bytes (ct_state k))) with (Byte.x42 :: dec (get_transferred_bytes (ct_state k))).
  change (lit "H" ++ dec (get_all_connections (ct_state k))) with (Byte.x48 :: dec (get_all_connections (ct_state k))).
  change (lit "C" ++ dec (get_current_clients (ct_state k))) with (Byte.x43 :: dec (get_current_clients (ct_state k))).
  rewrite (stat_line_shows Byte.x42 (lit "Bytes transferred: ")) by done.
  rewrite (stat_line_shows Byte.x48 (lit "Historical connections: ")) by done.
  rewrite (stat_line_shows Byte.x43 (lit "Concurrent connections: ")) by done.
  by rewrite <- !app_assoc.
Qed.

(** *** Users *)

Definition users_header : list byte := success_status ++ lit " Listing users... ".

(** A name that the listing shows: not empty, and not taken for the end. *)
Definition showable (u : user) : Prop := username u <> [] /\ head (username u) <> Some Byte.x2e.

Lemma printable_plain c : isprint c = true -> c ∉ EOL /\ c <> NUL.
Proof.
  intros Hc. unfold isprint in Hc. tests. split; [apply not_in_EOL|]; intros ->;
    [change (Zb CR) with 13%Z in *|change (Zb LF) with 10%Z in *|change (Zb NUL) with 0%Z in *]; lia.
Qed.

Lemma username_listed u :
  field_ok (username u) MAX_USER_LEN = true -> showable u ->
  listed (username u) /\ length (username u) <= 9.
Proof.
  unfold field_ok, MAX_USER_LEN. intros Hf [Hne Hh]. apply andb_true_iff in Hf as [Hl Hall]. tests.
  split; [|lia]. split; [|done]. split; [done|]. rewrite forallb_forall in Hall. apply Forall_forall.
  intros c Hc%list_elem_of_In. apply Hall in Hc. apply andb_true_iff in Hc as [Hc _]. by apply printable_plain.
Qed.

Lemma users_reply tokens arg k :
  users_wf (ct_users k) -> Forall showable (ct_users k) ->
  let ls := username <$> ct_users k in
  reply tokens MGMT_USERS arg k = multiline_text (users_header :: ls) /\
  length (multiline_text (users_header :: ls)) < 256 /\ Forall listed ls.
Proof.
  intros (Hlen & _ & Hall) Hshow ls. destruct k as [cond q us st]. cbn [ct_users] in *.
  assert (Hls : Forall (fun l => listed l /\ length l <= 9) ls).
  { unfold ls. apply Forall_fmap. clear -Hall Hshow. induction us as [|u us IH]; [constructor|].
    inversion Hall as [|? ? [Hu _] Hall']; subst. inversion Hshow as [|? ? Hs Hshow']; subst.
    constructor; [by apply username_listed|]. by apply IH. }
  assert (Htext : length (lines_text ls) <= 11 * length ls).
  { clear -Hls. induction Hls as [|l ls [_ Hl] _ IH]; [done|]. rewrite lines_text_cons, !length_app.
    change (length CRLF) with 2. cbn [length]. lia. }
  assert (Hn : length ls <= 20) by (unfold ls; rewrite length_fmap; unfold MAX_USERS in Hlen; lia).
  split; [|split].
  - unfold reply, perform. cbn [fst snd]. rewrite multiline_text_cons. unfold multiline_text, users_header, ls.
    rewrite <- !app_assoc. do 4 f_equal. unfold lines_text. by rewrite <- list_fmap_compose.
  - rewrite multiline_text_cons. unfold multiline_text. rewrite !length_app. change (length users_header) with 21.
    change (length CRLF) with 2. change (length (lit ".")) with 1. lia.
  - eapply Forall_impl; [exact Hls|]. by intros l [? _].
Qed.

(** The answer to USERS fits in the client's arrays and counters, and makes the
    command print each name once, in order. *)
Lemma users_shown (tokens : list (list byte)) (arg : list byte) (k : control)
    (sock : Z) (cs more : list (list byte)) (n : nat) (s : console script) :
  users_wf (ct_users k) -> Forall showable (ct_users k) ->
  delivering cs more n s (reply tokens MGMT_USERS arg k) -> 7 <= n ->
  exists s', Admin.users sock s = Done (true, s') /\ requested sock (commands_format CMD_USERS []) s s' /\
    co_out s' = co_out s ++ framed (lit "List of users:")
      (shown (simple_line (lit "USER")) 0 (username <$> ct_users k)).
Proof.
  intros Hwf Hshow Hdel Hn. destruct (users_reply tokens arg k Hwf Hshow) as (Er & Hlen & Hls). rewrite Er in Hdel.
  apply (list_command sock (commands_format CMD_USERS []) (lit "List of users:") (simple_line (lit "USER"))
    cs more n users_header _ s (Admin.users sock)); [done| |done|done|done|done|done|done].
  split; [done|]. repeat (constructor; [split; [vm_compute; set_solver|done]|]). constructor.
Qed.

(** *** One-line answers *)

(** A command with a one-line answer: it succeeds exactly on a positive one. *)
Lemma line_command sock rq text cs more n multiline l (s : console script) (cmd : M (console script) bool) :
  (cmd = ok ← transact sock rq multiline; if negb ok then mret false else say text;; mret true) ->
  plain_line l -> dashed l = true \/ multiline = false -> length l < 254 ->
  delivering cs more n s (l ++ CRLF) -> rq <> [] -> length rq <= n ->
  exists s', cmd s = Done (negb (dashed l), s') /\ requested sock rq s s' /\
    co_out s' = co_out s ++ (if dashed l then [] else text).
Proof.
  intros -> Hl Hd Hlen Hdel Hrq Hn. destruct (single_answer multiline l Hl Hd Hlen) as [Ha Hdash].
  destruct (transact_pieces sock rq multiline _ cs more n s Ha Hdel Hrq Hn) as (s1 & E1 & _ & _ & Hreq & _ & _ & Hout).
  rewrite Hdash in E1. rewrite (bind_Done _ _ _ _ _ E1). destruct (dashed l); cbn [negb].
  - exists s1. split; [done|]. split; [done|]. by rewrite app_nil_r.
  - eexists. split; [reflexivity|]. split; [done|]. cbn [co_out]. by rewrite Hout.
Qed.

Ltac plain_literal := split; [done|]; repeat (constructor; [split; [vm_compute; set_solver|done]|]); constructor.

(** For a token the client can send, the server's answer to it, delivered in any
    pieces, makes [authenticate] return true exactly when the token is one of
    the server's. *)
Lemma authenticate_iff_token (tokens : list (list byte)) (token : list byte) (k : control)
    (sock : Z) (cs more : list (list byte)) (n : nat) (s : console script) :
  carries CMD_TOKEN token -> fits CMD_TOKEN token ->
  delivering cs more n s (reply tokens MGMT_TOKEN token k) -> MAX_RESPONSE_LEN <= n ->
  exists s', authenticate sock token s = Done (bool_decide (token ∈ tokens), s') /\
    requested sock (commands_format CMD_TOKEN token) s s'.
Proof.
  intros Hc Hf Hdel Hn.
  assert (Hr : exists l, reply tokens MGMT_TOKEN token k = l ++ CRLF /\ plain_line l /\ length l < 254 /\
                         dashed l = negb (bool_decide (token ∈ tokens))).
  { destruct k as [cond q us st]. unfold reply, perform. case_decide as Ht; cbn [answer fst snd].
    - exists (success_status ++ lit " Welcome!"). rewrite bool_decide_eq_true_2 by done.
      split; [vm_compute; reflexivity|]. split; [plain_literal|]. split; [vm_compute; lia|done].
    - exists (error_status ++ lit " Incorrect password - try again"). rewrite bool_decide_eq_false_2 by done.
      split; [vm_compute; reflexivity|]. split; [plain_literal|]. split; [vm_compute; lia|done]. }
  destruct Hr as (l & El & Hl & Hlen & Hd). rewrite El in Hdel.
  destruct (line_command sock (request_text CMD_TOKEN token)
    (lit "Authentication with token: " ++ [Byte.x22] ++ token ++ [Byte.x22] ++ lit " successful!" ++ NL)
    cs more n false l s (authenticate sock token)) as (s' & E & Hreq & _);
    [done|done|by right|done|done|rewrite request_whole by done; done| |].
  { rewrite request_whole by done. unfold fits in Hf. lia. }
  exists s'. rewrite Hd, negb_involutive in E. split; [exact E|]. by rewrite request_whole in Hreq.
Qed.

(** The answer to an invalid command. *)
Definition invalid_line : list byte := error_status ++ lit " Invalid command for this stage ".

Lemma invalid_reply tokens k : reply tokens MGMT_INVALID_CMD [] k = invalid_line ++ CRLF.
Proof. destruct k. vm_compute. reflexivity. Qed.

Lemma invalid_plain : plain_line invalid_line.
Proof. unfold invalid_line. plain_literal. Qed.

(** It makes [authenticate] return false. *)
Lemma authenticate_fails (tokens : list (list byte)) (k : control) (token : list byte)
    (sock : Z) (cs more : list (list byte)) (n : nat) (s : console script) :
  fits CMD_TOKEN token -> delivering cs more n s (reply tokens MGMT_INVALID_CMD [] k) -> MAX_RESPONSE_LEN <= n ->
  exists s', authenticate sock token s = Done (false, s') /\ requested sock (commands_format CMD_TOKEN token) s s'.
Proof.
  intros Hf Hdel Hn. rewrite invalid_reply in Hdel.
  destruct (line_command sock (request_text CMD_TOKEN token)
    (lit "Authentication with token: " ++ [Byte.x22] ++ token ++ [Byte.x22] ++ lit " successful!" ++ NL)
    cs more n false invalid_line s (authenticate sock token)) as (s' & E & Hreq & _);
    [done|apply invalid_plain|by right|vm_compute; lia|done|rewrite request_whole by done; done| |].
  { rewrite request_whole by done. unfold fits in Hf. lia. }
  exists s'. split; [exact E|]. by rewrite request_whole in Hreq.
Qed.

(** The answer to an invalid command makes [dissector_status] fail and print
    nothing. *)
Lemma dissector_status_fails (tokens : list (list byte)) (k : control)
    (sock : Z) (cs more : list (list byte)) (m : nat) (s : console script) :
  delivering cs more m s (reply tokens MGMT_INVALID_CMD [] k) -> 18 <= m ->
  exists s', dissector_status sock s = Done (false, s') /\
    requested sock (commands_format CMD_DISSECTOR_STATUS []) s s' /\ co_out s' = co_out s.
Proof.
  intros Hdel Hm. rewrite invalid_reply in Hdel.
  destruct (single_answer true invalid_line invalid_plain (or_introl eq_refl)) as [Ha Hdash]; [vm_compute; lia|].
  destruct (transact_pieces sock (commands_format CMD_DISSECTOR_STATUS []) true _ cs more m s Ha Hdel)
    as (s1 & E1 & _ & _ & Hreq & _ & _ & Hout); [done|done|].
  exists s1. split; [|done]. unfold dissector_status. rewrite Hdash in E1. by rewrite (bind_Done _ _ _ _ _ E1).
Qed.

(** ** Examples *)

(** A client whose network delivers the pieces [cs]. *)
Definition sample_console (cs : list (list byte)) : console script :=
  Console (Io (Script cs MAX_RESPONSE_LEN 3) 0 []) (repeat NUL MAX_RESPONSE_LEN) [].

Lemma sample_delivering cs text :
  mjoin cs = text -> Forall (fun c => c <> []) cs ->
  delivering cs [] MAX_RESPONSE_LEN (sample_console cs) text.
Proof.
  intros Ht Hne. split; [symmetry; apply app_nil_r|]. split; [done|]. split; [done|].
  split; [done|]. apply repeat_length.
Qed.

(** A user whose name starts with a dot ends the listing: the users after it
    are not shown, although the command succeeds. *)
Example dot_user_hides_others :
  let k := Control yyctrns false [User (lit ".x") (lit "1"); User (lit "bob") (lit "2")] state_init in
  exists s', Admin.users 3 (sample_console [reply [] MGMT_USERS [] k]) = Done (true, s') /\
    co_out s' = framed (lit "List of users:") [].
Proof. eexists. split; vm_compute; reflexivity. Qed.

(** The count of [read] is kept in eight bits: an answer of 256 bytes in one
    piece counts as none, and the client gives up. *)
Example answer_of_256_bytes_lost :
  exists s', get_response 3 false (sample_console [lit "-" ++ repeat Byte.x41 253 ++ CRLF]) = Done (false, s').
Proof. eexists. vm_compute. reflexivity. Qed.

(** A failed [read] counts as 255 bytes, and the third one writes outside the
    array. *)
Example failed_reads_overrun :
  get_response 3 false (sample_console []) = Fault Undefined.
Proof. vm_compute. reflexivity. Qed.
