(* ===== verification/EndToEnd.v ===== *)
(** * EndToEnd: the client and the server together

    A request of the client in the input of a management connection: the
    server's loop performs it, and it alone, and leaves exactly its answer in
    the output; read back by the client, in any pieces, the answer has the
    meaning the server gave it. *)

From S2P Require Import Prelude Buffer Os State Users Tokens MgmtProtocol LexerCode Lexer LexerRules LexerSpec.
From S2P Require Import SelectorSpec World Mgmt MgmtInput MgmtSpec Admin AdminSpec AdminReplies.

Lemma no_request_in_nothing cond n cmd arg : ~ next_request cond [] n cmd arg.
Proof.
  intros H. inversion H as [n' cmd' arg' off Hn Hm _|]; subst; [|done].
  rewrite take_nil in Hm. apply first_match_matched, matched_nonempty in Hm. done.
Qed.

(** A text that is one request is served by performing it. *)
Lemma serves_one tokens room k t cmd arg out pend k' t' :
  next_request (ct_cond k) t (length t) cmd arg ->
  (forall n cmd' arg', next_request (ct_cond k) t n cmd' arg' -> n = length t /\ cmd' = cmd /\ arg' = arg) ->
  ~ open_prefix (ct_cond k) t ->
  length (perform tokens cmd arg k).1.2 <= room -> (perform tokens cmd arg k).2 <= room ->
  serves tokens room k t out pend k' t' ->
  out = (perform tokens cmd arg k).1.2 /\ pend = [] /\ k' = (perform tokens cmd arg k).1.1 /\ t' = [].
Proof.
  intros _ Huniq Hopen Htext Hlen Hs. inversion Hs as [| |? ? ? n cmd' arg' k1 text len out1 ? ? ? Hn Hp Hl Hrest]; subst.
  - done.
  - destruct (Huniq _ _ _ ltac:(eassumption)) as (-> & -> & ->).
    match goal with H : perform _ _ _ _ = _ |- _ => rewrite H in * end. simpl in *. lia.
  - destruct (Huniq _ _ _ Hn) as (-> & -> & ->). rewrite Hp in *. cbn [fst snd] in *.
    assert (Ew : written room text = text) by (unfold written; by rewrite (proj2 (Nat.ltb_ge _ _))).
    rewrite drop_all in Hrest. rewrite Ew in *.
    inversion Hrest as [|? ? ? ? ? ? ? ? ? Hn'|? ? ? ? ? ? ? ? ? ? ? ? ? Hn']; subst;
      [|by apply no_request_in_nothing in Hn'..].
    by rewrite app_nil_r.
Qed.

(** An answer that was not cut is not longer than its text. *)
Lemma answer_len k text :
  length (answer k text).1.2 < MGMT_BUFFSIZE - 1 -> (answer k text).2 <= length (answer k text).1.2.
Proof. unfold answer, respond. cbn [fst snd]. rewrite length_take. lia. Qed.

Lemma perform_len tokens cmd arg k :
  length (perform tokens cmd arg k).1.2 < MGMT_BUFFSIZE - 1 ->
  (perform tokens cmd arg k).2 <= length (perform tokens cmd arg k).1.2.
Proof.
  destruct k as [cond q us st]. unfold perform. destruct cmd; try apply answer_len.
  - done.
  - destruct (decide (arg ∈ tokens)); apply answer_len.
  - intros _. cbn [fst snd]. rewrite (length_app (_ ++ _ ++ CRLF)). lia.
  - destruct (new_buffsize arg); apply answer_len.
  - destruct (switch_value arg); apply answer_len.
  - destruct (add_credentials arg us) as [[ok us'] name]. apply answer_len.
Qed.

Section Server.
Context {E : Type} `{OS E}.
Implicit Types (w : world E).

(** The connection at [a] is in the stage [cond], has received exactly the text
    [t] and has nothing to send. *)
Record has_received w (a : Z) (m : mgmt_client) (cond : Z) (t : list byte) : Prop := {
  hr_ok : mgmt_ok w a m [] t;
  hr_stage : in_cond (m_input m) = cond;
  hr_fresh : fallback (in_state (m_input m)) = None;
  hr_empty : contents (write_buf m) = []
}.

(** It has received the client's request [c arg], in the stage in which the
    client sends it. *)
Definition received_request w a m c arg : Prop :=
  has_received w a m (stage c) (request_text c arg) /\ carries c arg /\ fits c arg.

(** The server is left with [k], the answer [text] waiting to be sent. *)
Definition answered w (a : Z) w' (m' : mgmt_client) (k : control) (text : list byte) : Prop :=
  processMgmtClient a w = Done (true, w') /\ w_mgmt w' !! a = Some m' /\
  contents (write_buf m') = text /\ contents (pending_buf m') = [] /\
  control_of w' m' = k /\ w_tokens w' = w_tokens w.

(** A text that the grammar reads as one command is answered as the
    specification of the command says. *)
Lemma server_answers_text w a m cond t cmd arg :
  has_received w a m cond t ->
  next_request cond t (length t) cmd arg -> matched (rules cond) t ->
  let r := perform (w_tokens w) cmd arg (control_of w m) in
  length r.1.2 <= room (write_buf m) -> length r.1.2 < MGMT_BUFFSIZE - 1 ->
  exists w' m', answered w a w' m' r.1.1 r.1.2.
Proof.
  intros [Hok <- Hfr Hemp] Hn Hm0 r Hl1 Hl2. pose proof (perform_len _ _ _ _ Hl2) as Hlen.
  destruct (wp_inv _ _ _ (wp_processMgmtClient a m [] t w Hok (or_introl Hfr)))
    as (b & w' & Er & -> & m' & k & out & pend & t' & Hs & Hm & _ & Hcw & _ & Hcp & _).
  rewrite app_nil_l in Hs.
  destruct (serves_one (w_tokens w) (room (write_buf m)) (control_of w m) t cmd arg out pend k t')
    as (-> & -> & -> & ->); try done.
  - intros n cmd' arg' Hn'. by eapply next_request_fun.
  - by intros [_ Hno].
  - unfold r in *. lia.
  - exists w', m'. split; [exact Er|].
    split; [rewrite (ms_mgmt _ _ _ _ _ Hm); apply lookup_insert_eq|].
    rewrite Hcw, Hemp. split_and!; [done|done|by eapply mstep_control|apply Hm].
Qed.

Lemma server_answers w a m c arg :
  received_request w a m c arg ->
  let r := perform (w_tokens w) (server_command c) arg (control_of w m) in
  length r.1.2 <= room (write_buf m) -> length r.1.2 < MGMT_BUFFSIZE - 1 ->
  exists w' m', answered w a w' m' r.1.1 r.1.2.
Proof.
  intros (Hr & Hc & Hf). pose proof (request_understood c arg [] Hc) as Hn.
  rewrite <- (request_whole c arg Hf), app_nil_r in Hn.
  apply (server_answers_text w a m (stage c) (request_text c arg)); [done|done|].
  inversion Hn as [? ? ? ? Hle Hfm _|? ? Hno]; subst; [|by destruct c].
  apply first_match_matched in Hfm. by rewrite take_ge in Hfm by lia.
Qed.

(** What the answer does not change. *)
Lemma answered_control w a w' m' k text :
  answered w a w' m' k text ->
  w_users w' = ct_users k /\ w_state w' = ct_state k /\ in_cond (m_input m') = ct_cond k.
Proof. by intros (_ & _ & _ & _ & <- & _). Qed.

(** C5. Authentication end to end, through the code of both programs, for a token
    that is not empty, has no blank or control character and fits in the client's
    array: when a connection of the server has received the request the client
    sends for it, the loop of the server returns with the users and settings as
    they were, and the connection is authenticated exactly when the token is one
    of the server's; and the bytes it leaves to be sent, delivered to the client
    in any pieces, make the client's [authenticate] return true in exactly that
    case, after sending exactly that request. *)
Theorem authentication_end_to_end w (a : Z) (m : mgmt_client) (token : list byte) :
  has_received w a m yycpass (request_text CMD_TOKEN token) ->
  token <> [] -> Forall visible token -> fits CMD_TOKEN token -> 64 <= room (write_buf m) ->
  exists w' m', processMgmtClient a w = Done (true, w') /\ w_mgmt w' !! a = Some m' /\
    w_users w' = w_users w /\ w_state w' = w_state w /\
    in_cond (m_input m') = (if decide (token ∈ w_tokens w) then yyctrns else yycpass) /\
    forall sock cs more n (s : console script),
      delivering cs more n s (contents (write_buf m')) -> MAX_RESPONSE_LEN <= n ->
      exists s', authenticate sock token s = Done (bool_decide (token ∈ w_tokens w), s') /\
        requested sock (commands_format CMD_TOKEN token) s s'.
Proof.
  intros Hrec Hne Hvis Hf Hroom. assert (Hc : carries CMD_TOKEN token) by done.
  assert (Hr : received_request w a m CMD_TOKEN token) by done. pose proof (hr_stage _ _ _ _ _ Hrec) as Hst.
  assert (Hp : exists k text len, perform (w_tokens w) MGMT_TOKEN token (control_of w m) = (k, text, len) /\
    length text <= 64 /\ ct_users k = w_users w /\ ct_state k = w_state w /\
    ct_cond k = if decide (token ∈ w_tokens w) then yyctrns else yycpass).
  { unfold perform, control_of, answer. rewrite Hst. case_decide; eexists _, _, _;
      (split; [reflexivity|]); (split; [vm_compute; lia|done]). }
  destruct Hp as (k & text & len & Ep & Hlen & Hu & Hs & Hk).
  pose proof (server_answers w a m CMD_TOKEN token Hr) as Hans. cbn [server_command] in Hans.
  rewrite Ep in Hans. cbn [fst snd] in Hans.
  destruct Hans as (w' & m' & Ha); [lia|unfold MGMT_BUFFSIZE; lia|].
  destruct (answered_control _ _ _ _ _ _ Ha) as (Eu & Est & Eco). destruct Ha as (Er & Hm & Hcw & _).
  exists w', m'. rewrite ?Eu, ?Est, ?Eco. split_and!; [done|done|done|done|done|]. intros sock cs more n s Hdel Hn.
  apply (authenticate_iff_token (w_tokens w) token (control_of w m) sock cs more n s); [done|done| |done].
  unfold reply. by rewrite Ep, <- Hcw.
Qed.


(** C14. The statistics end to end: when an authenticated connection has
    received the client's STATS, the loop of the server returns with everything
    as it was, and the bytes it leaves to be sent, delivered to the client in
    any pieces, make [stats] succeed and print exactly the three counters of
    the server, whatever their values. *)
Theorem stats_displayed w (a : Z) (m : mgmt_client) :
  received_request w a m CMD_STATS [] -> counters_typed (w_state w) -> 256 <= room (write_buf m) ->
  exists w' m', processMgmtClient a w = Done (true, w') /\ w_mgmt w' !! a = Some m' /\
    w_users w' = w_users w /\ w_state w' = w_state w /\
    forall sock cs more n (s : console script),
      delivering cs more n s (contents (write_buf m')) -> MAX_RESPONSE_LEN <= n ->
      exists s', stats sock s = Done (true, s') /\ requested sock (commands_format CMD_STATS []) s s' /\
        co_out s' = co_out s ++ framed (lit "List of statistics:")
          (lit "Bytes transferred: " ++ dec (get_transferred_bytes (w_state w)) ++ NL ++
           lit "Historical connections: " ++ dec (get_all_connections (w_state w)) ++ NL ++
           lit "Concurrent connections: " ++ dec (get_current_clients (w_state w)) ++ NL).
Proof.
  intros Hr Ht Hroom. destruct (stats_reply (w_tokens w) [] (control_of w m) Ht) as (Etext & Hlen & _).
  rewrite <- Etext in Hlen. unfold reply in Hlen. pose proof (server_answers w a m CMD_STATS [] Hr) as Hans.
  cbn [server_command] in Hans. destruct Hans as (w' & m' & Ha); [lia|unfold MGMT_BUFFSIZE; lia|].
  destruct (answered_control _ _ _ _ _ _ Ha) as (Eu & Est & _). destruct Ha as (Er & Hm & Hcw & _).
  exists w', m'. rewrite ?Eu, ?Est, ?Eco. split_and!; [done|done|done|done|]. intros sock cs more n s Hdel Hn. rewrite Hcw in Hdel.
  unfold MAX_RESPONSE_LEN in Hn.
  apply (stats_shown (w_tokens w) [] (control_of w m) sock cs more n s); [done|exact Hdel|lia].
Qed.

(** C15. The users end to end: when an authenticated connection has received the
    client's USERS, the loop of the server returns with everything as it was,
    and the bytes it leaves to be sent, delivered to the client in any pieces,
    make [users] succeed and print each name of the server's table once,
    numbered in its order, provided no name is empty or starts with a dot. *)
Theorem users_displayed w (a : Z) (m : mgmt_client) :
  received_request w a m CMD_USERS [] -> Forall showable (w_users w) -> 256 <= room (write_buf m) ->
  exists w' m', processMgmtClient a w = Done (true, w') /\ w_mgmt w' !! a = Some m' /\
    w_users w' = w_users w /\ w_state w' = w_state w /\
    forall sock cs more n (s : console script),
      delivering cs more n s (contents (write_buf m')) -> MAX_RESPONSE_LEN <= n ->
      exists s', Admin.users sock s = Done (true, s') /\ requested sock (commands_format CMD_USERS []) s s' /\
        co_out s' = co_out s ++ framed (lit "List of users:")
          (shown (simple_line (lit "USER")) 0 (username <$> w_users w)).
Proof.
  intros Hr Hshow Hroom. pose proof (mo_users _ _ _ _ _ (hr_ok _ _ _ _ _ (proj1 Hr))) as Hu.
  destruct (users_reply (w_tokens w) [] (control_of w m) Hu Hshow) as (Etext & Hlen & _).
  rewrite <- Etext in Hlen. unfold reply in Hlen. pose proof (server_answers w a m CMD_USERS [] Hr) as Hans.
  cbn [server_command] in Hans. destruct Hans as (w' & m' & Ha); [lia|unfold MGMT_BUFFSIZE; lia|].
  destruct (answered_control _ _ _ _ _ _ Ha) as (Eu & Est & _). destruct Ha as (Er & Hm & Hcw & _).
  exists w', m'. rewrite ?Eu, ?Est, ?Eco. split_and!; [done|done|done|done|]. intros sock cs more n s Hdel Hn. rewrite Hcw in Hdel.
  unfold MAX_RESPONSE_LEN in Hn.
  apply (users_shown (w_tokens w) [] (control_of w m) sock cs more n s); [done|done|exact Hdel|lia].
Qed.

(** C37. The client can never read the dissector's state: when an authenticated
    connection has received the request the client sends, a keyword without the
    blank the rule of the grammar asks for, the loop of the server returns with
    everything as it was, and the bytes it leaves to be sent, delivered to the
    client in any pieces, make [dissector_status] fail and print nothing. *)
Theorem dissector_status_rejected w (a : Z) (m : mgmt_client) :
  has_received w a m yyctrns (commands_format CMD_DISSECTOR_STATUS []) -> 64 <= room (write_buf m) ->
  exists w' m', processMgmtClient a w = Done (true, w') /\ w_mgmt w' !! a = Some m' /\
    w_users w' = w_users w /\ w_state w' = w_state w /\
    forall sock cs more n (s : console script),
      delivering cs more n s (contents (write_buf m')) -> MAX_RESPONSE_LEN <= n ->
      exists s', dissector_status sock s = Done (false, s') /\
        requested sock (commands_format CMD_DISSECTOR_STATUS []) s s' /\ co_out s' = co_out s.
Proof.
  intros Hr Hroom.
  destruct (server_answers_text w a m _ _ MGMT_INVALID_CMD [] Hr) as (w' & m' & Ha).
  - rewrite <- (app_nil_r (commands_format CMD_DISSECTOR_STATUS [])) at 1.
    apply next_request_plain; vm_compute; reflexivity.
  - apply (first_match_matched _ _ MGMT_INVALID_CMD), accepted_run. vm_compute. reflexivity.
  - etransitivity; [|exact Hroom]. vm_compute. lia.
  - vm_compute. lia.
  - destruct (answered_control _ _ _ _ _ _ Ha) as (Eu & Est & _). destruct Ha as (Er & Hm & Hcw & _).
    exists w', m'. rewrite ?Eu, ?Est, ?Eco. split_and!; [done|done|done|done|]. intros sock cs more n s Hdel Hn. rewrite Hcw in Hdel.
    unfold MAX_RESPONSE_LEN in Hn.
    apply (dissector_status_fails (w_tokens w) (control_of w m) sock cs more n s); [exact Hdel|lia].
Qed.
End Server.

(** ** Examples *)

(** A server with traffic and two users, and an authenticated connection that
    has received [t]. *)
Definition busy_state : server_state := ServerState 12 3456 2048 true 2 1.
Definition busy_users : list user := [User (lit "ana") (lit "1"); User (lit "bob") (lit "2")].

Definition busy_server (cond : Z) (t : list byte) : world script :=
  World (Io (Script [] 64 9) 0%Z []) selector0 busy_state busy_users [lit "abc"] ∅
    {[1%Z := sample_mgmt cond t]} 2 [].

Lemma busy_users_wf : users_wf busy_users.
Proof.
  split_and!; [unfold MAX_USERS; simpl; lia| |].
  - constructor; [|apply NoDup_singleton]. apply (bool_decide_unpack (~ lit "ana" ∈ [lit "bob"])). vm_compute. exact I.
  - constructor; [split; reflexivity|constructor; [split; reflexivity|constructor]].
Qed.

Lemma busy_received cond t : has_received (busy_server cond t) 1 (sample_mgmt cond t) cond t.
Proof.
  split; [|reflexivity|reflexivity|reflexivity].
  destruct (sample_mgmt_ok _ cond t one_token) as [H1 H2 H3 H4 H5 H6 _ H8].
  split; [exact H1|exact H2|exact H3|exact H4|exact H5|exact H6|exact busy_users_wf|exact H8].
Qed.

Lemma sample_room cond t : 256 <= room (write_buf (sample_mgmt cond t)).
Proof. apply Nat.leb_le. reflexivity. Qed.

Lemma authentication_end_to_end_witness :
  let c := sample_mgmt yycpass (request_text CMD_TOKEN (lit "abc")) in
  let w := busy_server yycpass (request_text CMD_TOKEN (lit "abc")) in
  has_received w 1 c yycpass (request_text CMD_TOKEN (lit "abc")) /\
  exists w' m', processMgmtClient 1 w = Done (true, w') /\ w_mgmt w' !! 1%Z = Some m' /\
    in_cond (m_input m') = yyctrns.
Proof.
  intros c w. pose proof (busy_received yycpass (request_text CMD_TOKEN (lit "abc"))) as H1. split; [exact H1|].
  destruct (authentication_end_to_end w 1 c (lit "abc") H1) as (w' & m' & Er & Hm & _ & _ & Hc & _);
    [discriminate|repeat constructor; discriminate|apply Nat.ltb_lt; reflexivity|apply Nat.leb_le; reflexivity|].
  exists w', m'. split; [exact Er|]. split; [exact Hm|]. rewrite Hc.
  rewrite decide_True; [reflexivity|]. apply list_elem_of_here.
Defined.


Lemma stats_displayed_witness :
  let c := sample_mgmt yyctrns (request_text CMD_STATS []) in
  let w := busy_server yyctrns (request_text CMD_STATS []) in
  received_request w 1 c CMD_STATS [] /\ counters_typed busy_state /\
  exists w' m', processMgmtClient 1 w = Done (true, w') /\ w_mgmt w' !! 1%Z = Some m' /\
    forall cs, mjoin cs = contents (write_buf m') -> Forall (fun c => c <> []) cs ->
      exists s', stats 3 (sample_console cs) = Done (true, s') /\ co_out s' = framed (lit "List of statistics:")
        (lit "Bytes transferred: 3456" ++ NL ++ lit "Historical connections: 12" ++ NL ++
         lit "Concurrent connections: 3" ++ NL).
Proof.
  intros c w.
  assert (H1 : received_request w 1 c CMD_STATS []).
  { split; [apply busy_received|]. split; [reflexivity|]. apply Nat.ltb_lt. reflexivity. }
  assert (H2 : counters_typed busy_state) by (split; simpl; lia).
  split; [exact H1|]. split; [exact H2|].
  destruct (stats_displayed w 1 c H1 H2 (sample_room _ _)) as (w' & m' & Er & Hm & _ & _ & Hd).
  exists w', m'. split; [exact Er|]. split; [exact Hm|]. intros cs Hj Hne.
  destruct (Hd 3%Z cs [] MAX_RESPONSE_LEN (sample_console cs) (sample_delivering cs _ Hj Hne) (le_n _))
    as (s' & E & _ & Ho).
  exists s'. split; [exact E|]. rewrite Ho. vm_compute. reflexivity.
Defined.

Lemma users_displayed_witness :
  let c := sample_mgmt yyctrns (request_text CMD_USERS []) in
  let w := busy_server yyctrns (request_text CMD_USERS []) in
  received_request w 1 c CMD_USERS [] /\ Forall showable busy_users /\
  exists w' m', processMgmtClient 1 w = Done (true, w') /\ w_mgmt w' !! 1%Z = Some m' /\
    forall cs, mjoin cs = contents (write_buf m') -> Forall (fun c => c <> []) cs ->
      exists s', Admin.users 3 (sample_console cs) = Done (true, s') /\ co_out s' = framed (lit "List of users:")
        (lit "USER #0: ana" ++ NL ++ lit "USER #1: bob" ++ NL).
Proof.
  intros c w.
  assert (H1 : received_request w 1 c CMD_USERS []).
  { split; [apply busy_received|]. split; [reflexivity|]. apply Nat.ltb_lt. reflexivity. }
  assert (H2 : Forall showable busy_users) by (repeat constructor; discriminate).
  split; [exact H1|]. split; [exact H2|].
  destruct (users_displayed w 1 c H1 H2 (sample_room _ _)) as (w' & m' & Er & Hm & _ & _ & Hd).
  exists w', m'. split; [exact Er|]. split; [exact Hm|]. intros cs Hj Hne.
  destruct (Hd 3%Z cs [] MAX_RESPONSE_LEN (sample_console cs) (sample_delivering cs _ Hj Hne) (le_n _))
    as (s' & E & _ & Ho).
  exists s'. split; [exact E|]. rewrite Ho. vm_compute. reflexivity.
Defined.

Lemma dissector_status_rejected_witness :
  let t := commands_format CMD_DISSECTOR_STATUS [] in
  has_received (busy_server yyctrns t) 1 (sample_mgmt yyctrns t) yyctrns t /\
  exists w' m', processMgmtClient 1 (busy_server yyctrns t) = Done (true, w') /\ w_mgmt w' !! 1%Z = Some m' /\
    forall cs, mjoin cs = contents (write_buf m') -> Forall (fun c => c <> []) cs ->
      exists s', dissector_status 3 (sample_console cs) = Done (false, s').
Proof.
  intros t. pose proof (busy_received yyctrns t) as H1. split; [exact H1|].
  destruct (dissector_status_rejected (busy_server yyctrns t) 1 (sample_mgmt yyctrns t) H1)
    as (w' & m' & Er & Hm & _ & _ & Hd); [apply Nat.leb_le; reflexivity|].
  exists w', m'. split; [exact Er|]. split; [exact Hm|]. intros cs Hj Hne.
  destruct (Hd 3%Z cs [] MAX_RESPONSE_LEN (sample_console cs) (sample_delivering cs _ Hj Hne) (le_n _))
    as (s' & E & _). exists s'. exact E.
Defined.
